(** * The libmpdec test harness: allocation-failure testing and result checking

  A shallow embedding of the two test runners of the decimal library,
  [tests/runtest.c] with [tests/test.c] (the C runner) and
  [tests++/runtest.cc] with [tests++/test.cc] (the C++ runner), and the
  properties of the runner that its description states.

  Build configuration embedded here: [MPD_CONFIG_64], not [_MSC_VER]
  (so [ASSERT(p)] is [if (!(p)) abort()]), [RT_VERBOSITY] not defined
  (so the tables of known differences are consulted).

  Layout: the definitions come first, one module per source file; the
  lemmas and theorems follow. *)

From Stdlib Require Import ZArith List String Ascii Bool Lia.
From Stdlib Require Permutation.
Import ListNotations.

Local Open Scope string_scope.
Local Open Scope list_scope.
Local Open Scope Z_scope.

(** ** C strings and <ctype.h> in the "C" locale *)

Module Cstr.

(** Character codes are compared as numbers, as the C code does. *)
Definition code (c : ascii) : Z := Z.of_nat (nat_of_ascii c).

Definition ascii_eqb (a b : ascii) : bool := Ascii.eqb a b.

(** [isspace]: space, and the controls [\t \n \v \f \r]. *)
Definition isspace (c : ascii) : bool :=
  (code c =? 32) || ((9 <=? code c) && (code c <=? 13)).

Definition isdigit (c : ascii) : bool :=
  (48 <=? code c) && (code c <=? 57).

Definition isupper (c : ascii) : bool :=
  (65 <=? code c) && (code c <=? 90).

Definition islower (c : ascii) : bool :=
  (97 <=? code c) && (code c <=? 122).

Definition isalnum (c : ascii) : bool :=
  isdigit c || isupper c || islower c.

(** [ispunct]: printable, neither space nor alphanumeric. *)
Definition ispunct (c : ascii) : bool :=
  (33 <=? code c) && (code c <=? 126) && negb (isalnum c).

Definition tolower (c : ascii) : ascii :=
  if isupper c then ascii_of_nat (nat_of_ascii c + 32) else c.

(** [strcmp(a, b) == 0]. *)
Definition streq (a b : string) : bool := String.eqb a b.

(** [strcasecmp(a, b) == 0]: equal after folding each byte with
    [tolower]. *)
Fixpoint strcaseeq (a b : string) : bool :=
  match a, b with
  | EmptyString, EmptyString => true
  | String x a', String y b' =>
      ascii_eqb (tolower x) (tolower y) && strcaseeq a' b'
  | _, _ => false
  end.

(** [strncasecmp(t, s, strlen(s)) == 0]: the first [strlen(s)] bytes of
    [t] fold to those of [s]; a [t] that ends early differs at its
    terminator. *)
Fixpoint prefixcaseeq (t s : string) : bool :=
  match s with
  | EmptyString => true
  | String y s' =>
      match t with
      | EmptyString => false
      | String x t' => ascii_eqb (tolower x) (tolower y) && prefixcaseeq t' s'
      end
  end.

(** [strpbrk(s, "0123456789")]: the suffix of [s] that starts at its
    first decimal digit, [None] for the null pointer. *)
Fixpoint strpbrk_digits (s : string) : option string :=
  match s with
  | EmptyString => None
  | String c s' => if isdigit c then Some s else strpbrk_digits s'
  end.

Definition dquote : ascii := ascii_of_nat 34.
Definition squote : ascii := ascii_of_nat 39.
Definition newline : string := String (ascii_of_nat 10) EmptyString.

End Cstr.

(** ** The engine as the runners see it ([mpdecimal.h])

    The decimal engine is outside the runners' sources.  This module holds
    what the runners use of its header: the names of the status conditions
    and of the flag bits, the value and context records, and the shape of
    an engine call. *)

Module Mpd.

(** Modelled from the spec: the status conditions of the engine's header,
    which is not among the sources.  Each condition name maps to one status
    bit; the bits are taken in the order in which the conditions are
    listed (Clamped first), which is the order of the header. *)
Definition MPD_Clamped : Z := 0x1.
Definition MPD_Conversion_syntax : Z := 0x2.
Definition MPD_Division_by_zero : Z := 0x4.
Definition MPD_Division_impossible : Z := 0x8.
Definition MPD_Division_undefined : Z := 0x10.
Definition MPD_Fpu_error : Z := 0x20.
Definition MPD_Inexact : Z := 0x40.
Definition MPD_Invalid_context : Z := 0x80.
Definition MPD_Invalid_operation : Z := 0x100.
Definition MPD_Malloc_error : Z := 0x200.
Definition MPD_Not_implemented : Z := 0x400.
Definition MPD_Overflow : Z := 0x800.
Definition MPD_Rounded : Z := 0x1000.
Definition MPD_Subnormal : Z := 0x2000.
Definition MPD_Underflow : Z := 0x4000.
Definition MPD_Max_status : Z := 0x8000 - 1.

(** Modelled from the spec: the flag byte of a decimal, from the header
    that is not among the sources.  A decimal carries a sign and the
    special-value flags infinity, not-a-number and signaling-not-a-number;
    the remaining bits describe how the value and its coefficient are
    allocated ([MPD_DATAFLAGS] are the bits about the coefficient array). *)
Definition MPD_POS : Z := 0.
Definition MPD_NEG : Z := 1.
Definition MPD_INF : Z := 2.
Definition MPD_NAN : Z := 4.
Definition MPD_SNAN : Z := 8.
Definition MPD_STATIC : Z := 16.
Definition MPD_STATIC_DATA : Z := 32.
Definition MPD_SHARED_DATA : Z := 64.
Definition MPD_CONST_DATA : Z := 128.
Definition MPD_DATAFLAGS : Z :=
  Z.lor MPD_STATIC_DATA (Z.lor MPD_SHARED_DATA MPD_CONST_DATA).

(** [mpd_t]: flags, exponent, number of decimal digits, number of words in
    use, number of words allocated, and the coefficient words. *)
Record mpd_t : Type := mk_mpd {
  flags : Z;
  exp : Z;
  digits : Z;
  len : Z;
  alloc : Z;
  data : list Z
}.

(** [a->data[i]]; the runners only read below [len], and a read outside
    the array is given the value 0 here. *)
Definition data_at (a : mpd_t) (i : nat) : Z := nth i (data a) 0.

(** Modelled from the spec: the header's tests on the special-value flags.
    [mpd_isnan] holds of both kinds of not-a-number, [mpd_isqnan] of the
    quiet kind and [mpd_issnan] of the signaling kind. *)
Definition mpd_isnan (a : mpd_t) : bool :=
  negb (Z.land (flags a) (Z.lor MPD_NAN MPD_SNAN) =? 0).
Definition mpd_isqnan (a : mpd_t) : bool :=
  negb (Z.land (flags a) MPD_NAN =? 0).
Definition mpd_issnan (a : mpd_t) : bool :=
  negb (Z.land (flags a) MPD_SNAN =? 0).

(** [mpd_context_t]. *)
Record mpd_context_t : Type := mk_ctx {
  prec : Z;
  emax : Z;
  emin : Z;
  traps : Z;
  status : Z;
  newtrap : Z;
  round : Z;
  clamp : Z;
  allcr : Z
}.

Definition set_status (c : mpd_context_t) (s : Z) : mpd_context_t :=
  mk_ctx (prec c) (emax c) (emin c) (traps c) s (newtrap c)
         (round c) (clamp c) (allcr c).
Definition set_traps (c : mpd_context_t) (t : Z) : mpd_context_t :=
  mk_ctx (prec c) (emax c) (emin c) t (status c) (newtrap c)
         (round c) (clamp c) (allcr c).
Definition set_newtrap (c : mpd_context_t) (t : Z) : mpd_context_t :=
  mk_ctx (prec c) (emax c) (emin c) (traps c) (status c) t
         (round c) (clamp c) (allcr c).
Definition set_allcr (c : mpd_context_t) (a : Z) : mpd_context_t :=
  mk_ctx (prec c) (emax c) (emin c) (traps c) (status c) (newtrap c)
         (round c) (clamp c) a.

(** [enum mpd_triple_class] and [mpd_uint128_triple_t].  An object of
    the enumeration type can hold a value that is none of the five
    enumerators, as [(enum mpd_triple_class)10] in [triple_cov]; such a
    value is [Tag_value n]. *)
Inductive mpd_triple_class : Type :=
| MPD_TRIPLE_NORMAL
| MPD_TRIPLE_INF
| MPD_TRIPLE_QNAN
| MPD_TRIPLE_SNAN
| MPD_TRIPLE_ERROR
| Tag_value (n : Z).

Record mpd_uint128_triple_t : Type := mk_triple {
  tag : mpd_triple_class;
  sign : Z;
  hi : Z;
  lo : Z;
  texp : Z
}.

Definition is_error_tag (t : mpd_triple_class) : bool :=
  match t with MPD_TRIPLE_ERROR => true | _ => false end.

(** *** Engine calls

    The runners exchange the engine's allocation functions
    ([mpd_mallocfunc], [mpd_callocfunc], [mpd_reallocfunc]) and watch how
    an operation reacts.  An engine call is therefore a tree: it either
    returns, or asks the installed allocation function for memory and goes
    on according to whether it was given a pointer ([true]) or [NULL]
    ([false]). *)
Inductive request : Type :=
| Rmalloc (size : Z)
| Rcalloc (nmemb size : Z)
| Rrealloc (size : Z).

Inductive engine (A : Type) : Type :=
| Ret (a : A)
| Call (r : request) (k : bool -> engine A).
Arguments Ret {A} a.
Arguments Call {A} r k.

(** How a step of a runner ends: it goes on with a value, it stops the
    process in [abort()] (a failed [ASSERT], [mpd_err_fatal]), or it
    leaves through [exit(code)].  [Unfinished] is not a behaviour of the
    program: it is what a loop of this embedding returns when it was
    given too few iterations to reach the end of the C loop. *)
Inductive run (A : Type) : Type :=
| Normal (a : A)
| Abort (diagnostic : string)
| Exit (code : Z)
| Unfinished.
Arguments Normal {A} a.
Arguments Abort {A} diagnostic.
Arguments Exit {A} code.
Arguments Unfinished {A}.

(** Modelled from the spec: [mpd_err_fatal] of the engine's header, which
    is not among the sources.  A fatal error aborts the entire run
    immediately with a diagnostic. *)
Definition mpd_err_fatal {A : Type} (diagnostic : string) : run A :=
  Abort diagnostic.

End Mpd.

(** ** [tests/test.c]: the allocation functions of the C runner *)

Module Test_c.
Import Mpd.

Definition OFFSET : Z := 16.
Definition SIZE_MAX : Z := 2 ^ 64 - 1.
Definition alloc_limit : Z := 0x4000000000000.

(** The two sets of primary allocation functions, and the three sets the
    engine's function pointers can be pointed at. *)
Inductive primary_funcs : Type := ceil_funcs | offset_funcs.
Inductive installed_funcs : Type := primary_set | count_set | fail_set.

(** The file's static and global variables.  [alloc_count], [alloc_fail]
    and [alloc_idx] are C [int]s; they are counted in [Z], the runner
    keeping [alloc_fail] below [INT_MAX]. *)
Record alloc_state : Type := mk_alloc {
  test_funcs : primary_funcs;
  mpd_funcs : installed_funcs;
  enable_check_alloc : bool;
  initialized : bool;
  alloc_count : Z;
  alloc_fail : Z;
  alloc_idx : Z
}.

Definition with_mpd_funcs (st : alloc_state) (f : installed_funcs) :=
  mk_alloc (test_funcs st) f (enable_check_alloc st) (initialized st)
           (alloc_count st) (alloc_fail st) (alloc_idx st).
Definition with_alloc_count (st : alloc_state) (n : Z) :=
  mk_alloc (test_funcs st) (mpd_funcs st) (enable_check_alloc st)
           (initialized st) n (alloc_fail st) (alloc_idx st).
Definition with_alloc_fail (st : alloc_state) (n : Z) :=
  mk_alloc (test_funcs st) (mpd_funcs st) (enable_check_alloc st)
           (initialized st) (alloc_count st) n (alloc_idx st).
Definition with_alloc_idx (st : alloc_state) (n : Z) :=
  mk_alloc (test_funcs st) (mpd_funcs st) (enable_check_alloc st)
           (initialized st) (alloc_count st) (alloc_fail st) n.

Section Primary.

(** Whether the C library hands out a pointer for a request. *)
Variable libc : request -> bool.

Definition malloc_ceil (size : Z) : bool :=
  if size >? alloc_limit then false else libc (Rmalloc size).

(** [alloc_limit / size] with [size = 0] is undefined in C; [Z.div]
    gives 0 there. *)
Definition calloc_ceil (nmemb size : Z) : bool :=
  if nmemb >? alloc_limit / size then false else libc (Rcalloc nmemb size).

Definition realloc_ceil (size : Z) : bool :=
  if size >? alloc_limit then false else libc (Rrealloc size).

Definition malloc_offset (size : Z) : bool :=
  if (size =? 0) || (size >? SIZE_MAX - OFFSET) then false
  else malloc_ceil (OFFSET + size).

Definition calloc_offset (nmemb size : Z) : bool :=
  if (nmemb =? 0) || (size =? 0) || (size >? SIZE_MAX - OFFSET) then false
  else calloc_ceil nmemb (OFFSET + size).

Definition realloc_offset (size : Z) : bool :=
  if (size =? 0) || (size >? SIZE_MAX - OFFSET) then false
  else realloc_ceil (OFFSET + size).

(** The active set of primary functions. *)
Definition test_mallocfunc (st : alloc_state) (size : Z) : bool :=
  match test_funcs st with
  | ceil_funcs => malloc_ceil size
  | offset_funcs => malloc_offset size
  end.
Definition test_callocfunc (st : alloc_state) (nmemb size : Z) : bool :=
  match test_funcs st with
  | ceil_funcs => calloc_ceil nmemb size
  | offset_funcs => calloc_offset nmemb size
  end.
Definition test_reallocfunc (st : alloc_state) (size : Z) : bool :=
  match test_funcs st with
  | ceil_funcs => realloc_ceil size
  | offset_funcs => realloc_offset size
  end.

(** The active primary function for a request. *)
Definition test_func (st : alloc_state) (r : request) : bool :=
  match r with
  | Rmalloc s => test_mallocfunc st s
  | Rcalloc n s => test_callocfunc st n s
  | Rrealloc s => test_reallocfunc st s
  end.

(** Secondary functions, count mode: [++alloc_count], then the primary
    function. *)
Definition malloc_count (st : alloc_state) (size : Z) : bool * alloc_state :=
  let st := with_alloc_count st (alloc_count st + 1) in
  (test_mallocfunc st size, st).
Definition calloc_count (st : alloc_state) (nmemb size : Z) :=
  let st := with_alloc_count st (alloc_count st + 1) in
  (test_callocfunc st nmemb size, st).
Definition realloc_count (st : alloc_state) (size : Z) :=
  let st := with_alloc_count st (alloc_count st + 1) in
  (test_reallocfunc st size, st).

(** Secondary functions, failure mode:
    [if (++alloc_idx >= alloc_fail) return NULL;]. *)
Definition malloc_fail (st : alloc_state) (size : Z) : bool * alloc_state :=
  let st := with_alloc_idx st (alloc_idx st + 1) in
  if alloc_idx st >=? alloc_fail st then (false, st)
  else (test_mallocfunc st size, st).
Definition calloc_fail (st : alloc_state) (nmemb size : Z) :=
  let st := with_alloc_idx st (alloc_idx st + 1) in
  if alloc_idx st >=? alloc_fail st then (false, st)
  else (test_callocfunc st nmemb size, st).
Definition realloc_fail (st : alloc_state) (size : Z) :=
  let st := with_alloc_idx st (alloc_idx st + 1) in
  if alloc_idx st >=? alloc_fail st then (false, st)
  else (test_reallocfunc st size, st).

(** A call through [mpd_mallocfunc], [mpd_callocfunc] or
    [mpd_reallocfunc], whichever set they point at. *)
Definition serve (st : alloc_state) (r : request) : bool * alloc_state :=
  match mpd_funcs st, r with
  | primary_set, Rmalloc s => (test_mallocfunc st s, st)
  | primary_set, Rcalloc n s => (test_callocfunc st n s, st)
  | primary_set, Rrealloc s => (test_reallocfunc st s, st)
  | count_set, Rmalloc s => malloc_count st s
  | count_set, Rcalloc n s => calloc_count st n s
  | count_set, Rrealloc s => realloc_count st s
  | fail_set, Rmalloc s => malloc_fail st s
  | fail_set, Rcalloc n s => calloc_fail st n s
  | fail_set, Rrealloc s => realloc_fail st s
  end.

(** An engine call run against the installed functions. *)
Fixpoint run_engine {A : Type} (e : engine A) (st : alloc_state)
  : A * alloc_state :=
  match e with
  | Ret a => (a, st)
  | Call r k => let (p, st') := serve st r in run_engine (k p) st'
  end.

End Primary.

(** The state before [main] runs: the [ceil] functions, nothing enabled. *)
Definition initial_state : alloc_state :=
  mk_alloc ceil_funcs primary_set false false 0 0 0.

(** [mpd_init_alloc]: choose the primary functions at program start. *)
Definition mpd_init_alloc (custom_alloc check_alloc : bool)
  (st : alloc_state) : run alloc_state :=
  if initialized st then Exit 1
  else
    Normal (mk_alloc (if custom_alloc then offset_funcs else test_funcs st)
                     primary_set check_alloc true
                     (alloc_count st) (alloc_fail st) (alloc_idx st)).

Definition mpd_set_alloc (ctx : mpd_context_t) (st : alloc_state)
  : mpd_context_t * alloc_state :=
  (set_traps ctx MPD_Malloc_error, with_mpd_funcs st primary_set).

Definition mpd_set_alloc_count (ctx : mpd_context_t) (st : alloc_state)
  : mpd_context_t * alloc_state :=
  (set_traps ctx MPD_Malloc_error,
   with_alloc_count (with_mpd_funcs st count_set) 0).

Definition mpd_set_alloc_fail (ctx : mpd_context_t) (st : alloc_state)
  : mpd_context_t * alloc_state :=
  if enable_check_alloc st then
    (set_traps ctx 0, with_alloc_idx (with_mpd_funcs st fail_set) 0)
  else (ctx, st).

End Test_c.

(** ** [tests/runtest.c]: the C runner *)

Module Runtest_c.
Import Mpd Cstr Test_c.

Definition MAXTOKEN : nat := 32.
Definition INT_MAX : Z := 2147483647.
Definition ULONG_MAX : Z := 2 ^ 64 - 1.
Definition INT64_MAX : Z := 2 ^ 63 - 1.
Definition INT64_MIN : Z := - 2 ^ 63.
(** [mpd_ssize_t] is [int64_t] in the 64-bit configuration. *)
Definition MPD_SSIZE_MAX : Z := INT64_MAX.
Definition MPD_SSIZE_MIN : Z := INT64_MIN.
Definition MPD_READ_MAX_PREC : Z := 1070000000000000000.

(** What the runner has told the world: the lines written to [stderr]
    (one element per [fputs] or [fprintf]) and the two failure flags. *)
Record report : Type := mk_report {
  stderr : list string;
  global_failure : Z;
  file_failure : Z
}.

Definition fputs_stderr (s : string) (r : report) : report :=
  mk_report (stderr r ++ [s]) (global_failure r) (file_failure r).

(** [global_failure = file_failure = 1]. *)
Definition set_failure (r : report) : report :=
  mk_report (stderr r) 1 1.

(** *** Known differences that are within the spec *)

Record result_diff : Type := mk_result_diff {
  rd_id : string;
  rd_calc : string;
  rd_expected : string
}.

Record status_diff : Type := mk_status_diff {
  sd_id : string;
  sd_calc : Z;
  sd_expected : Z
}.

Definition ulp_cases : list result_diff :=
  [ mk_result_diff "expx013" "1.001000" "1.001001";
    mk_result_diff "expx020" "1.000000" "1.000001";
    mk_result_diff "expx109" "0.999999910000004049999878"
                             "0.999999910000004049999879";
    mk_result_diff "expx1036" "1.005088" "1.005087";
    mk_result_diff "expx350" "1.0000000" "1.0000001";
    mk_result_diff "expx351" "1.0000000" "1.0000001";
    mk_result_diff "expx352" "1.0000000" "1.0000001" ].

Definition status_cases : list status_diff :=
  [ mk_status_diff "pwsx803"
      (Z.lor MPD_Inexact
         (Z.lor MPD_Rounded (Z.lor MPD_Subnormal MPD_Underflow)))
      (Z.lor MPD_Inexact MPD_Rounded) ].

Definition skipit : list string :=
  ["absx900"; "addx9990"; "addx9991"; "clam090"; "clam091"; "clam092";
   "clam093"; "clam094"; "clam095"; "clam096"; "clam097"; "clam098";
   "clam099"; "clam189"; "clam190"; "clam191"; "clam192"; "clam193";
   "clam194"; "clam195"; "clam196"; "clam197"; "clam198"; "clam199";
   "comx990"; "comx991"; "cotx9990"; "cotx9991"; "ctmx9990"; "ctmx9991";
   "ddabs900"; "ddadd9990"; "ddadd9991"; "ddcom9990"; "ddcom9991";
   "ddcot9990"; "ddcot9991"; "ddctm9990"; "ddctm9991"; "dddiv9998";
   "dddiv9999"; "dddvi900"; "dddvi901"; "ddfma2990"; "ddfma2991";
   "ddfma39990"; "ddfma39991"; "ddlogb900"; "ddmax900"; "ddmax901";
   "ddmxg900"; "ddmxg901"; "ddmin900"; "ddmin901"; "ddmng900"; "ddmng901";
   "ddmul9990"; "ddmul9991"; "ddnextm900"; "ddnextm900"; "ddnextp900";
   "ddnextp900"; "ddnextt900"; "ddnextt901"; "ddqua998"; "ddqua999";
   "ddred900"; "ddrem1000"; "ddrem1001"; "ddrmn1000"; "ddrmn1001";
   "ddsub9990"; "ddsub9991"; "ddintx074"; "ddintx094"; "divx9998";
   "divx9999"; "dvix900"; "dvix901"; "dqabs900"; "dqadd9990"; "dqadd9991";
   "dqcom990"; "dqcom991"; "dqcot9990"; "dqcot9991"; "dqctm9990";
   "dqctm9991"; "dqdiv9998"; "dqdiv9999"; "dqdvi900"; "dqdvi901";
   "dqfma2990"; "dqfma2991"; "dqadd39990"; "dqadd39991"; "dqlogb900";
   "dqmax900"; "dqmax901"; "dqmxg900"; "dqmxg901"; "dqmin900"; "dqmin901";
   "dqmng900"; "dqmng901"; "dqmul9990"; "dqmul9991"; "dqnextm900";
   "dqnextp900"; "dqnextt900"; "dqnextt901"; "dqqua998"; "dqqua999";
   "dqred900"; "dqrem1000"; "dqrem1001"; "dqrmn1000"; "dqrmn1001";
   "dqsub9990"; "dqsub9991"; "dqintx074"; "dqintx094"; "expx900"; "fmax2990";
   "fmax2991"; "fmax39990"; "fmax39991"; "lnx900"; "logx900"; "logbx900";
   "maxx900"; "maxx901"; "mxgx900"; "mxgx901"; "mnm900"; "mnm901"; "mng900";
   "mng901"; "minx900"; "mulx990"; "mulx991"; "nextm900"; "nextp900";
   "nextt900"; "nextt901"; "plu900"; "powx900"; "powx901"; "pwsx900";
   "quax1022"; "quax1023"; "quax1024"; "quax1025"; "quax1026"; "quax1027";
   "quax1028"; "quax1029"; "quax0a2"; "quax0a3"; "quax998"; "quax999";
   "redx900"; "remx1000"; "remx1001"; "rmnx900"; "rmnx901"; "sqtx9900";
   "subx9990"; "subx9991"; "expx901"; "expx902"; "expx903"; "expx905";
   "lnx901"; "lnx902"; "lnx903"; "lnx905"; "logx901"; "logx902"; "logx903";
   "logx905"; "powx1183"; "powx1184"; "powx4001"; "powx4002"; "powx4003";
   "powx4005"; "powx4008"; "powx4010"; "powx4012"; "powx4014"; "scbx164";
   "scbx165"; "scbx166"; "powx4302"; "powx4303"; "powx4303";
   "powx4342"; "powx4343"; "pwsx805"; "pwmx325"; "pwmx326"].

(** A [char *] that may be [NULL] is an [option string]. *)
Definition startswith (token : option string) (s : string) : bool :=
  match token with
  | None => false
  | Some t => prefixcaseeq t s
  end.

Definition eqtoken (token : option string) (s : string) : bool :=
  match token with
  | None => false
  | Some t => strcaseeq t s
  end.

Fixpoint check_skip_from (l : list string) (id : option string) : Z :=
  match l with
  | [] => 0
  | s :: rest => if eqtoken id s then 1 else check_skip_from rest id
  end.

Definition check_skip (id : option string) : Z := check_skip_from skipit id.

(** *** The tokenizer

    [nexttoken] writes a terminator into the line and remembers in the
    static [end] where to go on.  Here it takes the text from [cp] to the
    terminator and returns the token together with the text that [end]
    points at afterwards; [None] is the [NULL] result. *)

(** The inner loop of a quoted token, [q] being the quote character:
    the scan goes on while the byte at [end] is not the terminator; two
    quote characters in a row are stepped over together ([end += 1] and
    the loop's [end++]), a single one ends the scan; reaching the
    terminator returns [NULL]; otherwise the closing quote is overwritten
    with a terminator and [end] is moved behind it. *)
Fixpoint quoted_run (q : ascii) (s : string) : option (string * string) :=
  match s with
  | EmptyString => None
  | String c s1 =>
      if ascii_eqb c q then
        match s1 with
        | String c1 s2 =>
            if ascii_eqb c1 q then
              match quoted_run q s2 with
              | Some (t, rest) => Some (String c (String c1 t), rest)
              | None => None
              end
            else Some (EmptyString, s1)
        | EmptyString => Some (EmptyString, s1)
        end
      else
        match quoted_run q s1 with
        | Some (t, rest) => Some (String c t, rest)
        | None => None
        end
  end.

(** The inner loop of an unquoted token:
    the scan stops at the first white-space byte, which is overwritten
    with a terminator, [end] moving behind it; reaching the terminator of
    the line returns [NULL]. *)
Fixpoint unquoted_run (s : string) : option (string * string) :=
  match s with
  | EmptyString => None
  | String c s1 =>
      if isspace c then Some (EmptyString, s1)
      else
        match unquoted_run s1 with
        | Some (t, rest) => Some (String c t, rest)
        | None => None
        end
  end.

Fixpoint nexttoken (cp : string) : option (string * string) :=
  match cp with
  | EmptyString => None
  | String c s1 =>
      if isspace c then nexttoken s1
      else if ascii_eqb c dquote then quoted_run dquote s1
      else if ascii_eqb c squote then quoted_run squote s1
      else unquoted_run cp
  end.

(** [split]: the loop [while (n < MAXTOKEN && cp != NULL)]. *)
Fixpoint split_loop (room : nat) (cp : option (string * string))
  : list string :=
  match room, cp with
  | S room', Some (tok, rest) => tok :: split_loop room' (nexttoken rest)
  | _, _ => []
  end.

Definition split (line : string) : list string :=
  split_loop MAXTOKEN (nexttoken line).

(** [token[i]] of the array that [split] fills and ends with [NULL]. *)
Definition token_at (token : list string) (i : nat) : option string :=
  nth_error token i.

(** *** Comparing with the expected result *)

Fixpoint known_ulp_diff (cases : list result_diff)
  (id : option string) (calc expected : string) : bool :=
  match cases with
  | [] => false
  | c :: rest =>
      if eqtoken id (rd_id c) && streq expected (rd_expected c)
         && streq calc (rd_calc c)
      then true
      else known_ulp_diff rest id calc expected
  end.

Fixpoint known_status_diff (cases : list status_diff)
  (id : option string) (expected_status ctx_status : Z) : bool :=
  match cases with
  | [] => false
  | c :: rest =>
      if eqtoken id (sd_id c) && (expected_status =? sd_expected c)
         && (ctx_status =? sd_calc c)
      then true
      else known_status_diff rest id expected_status ctx_status
  end.

Section Compare.

(** The engine's [mpd_snprint_flags], which renders a status word. *)
Variable mpd_snprint_flags : Z -> string.

Definition fail_result (id calc expected : string) : string :=
  ("FAIL: " ++ id ++ "  calc: " ++ calc ++ "  expected: " ++ expected
   ++ newline)%string.

Definition fail_status (id : string) (calc expected : Z) : string :=
  ("FAIL: " ++ id ++ ": status:  calc: " ++ mpd_snprint_flags calc
   ++ "  expected: " ++ mpd_snprint_flags expected ++ newline)%string.

Definition blank_lines (r : report) : report :=
  if file_failure r =? 0 then fputs_stderr (newline ++ newline)%string r
  else r.

Definition compare_expected (calc expected : string) (expected_status : Z)
  (id : string) (ctx : mpd_context_t) (r : report) : report :=
  if (allcr ctx =? 0) && known_ulp_diff ulp_cases (Some id) calc expected
  then r
  else if known_status_diff status_cases (Some id) expected_status
            (status ctx)
  then r
  else
    let r1 :=
      if negb (streq calc expected) then
        set_failure (fputs_stderr (fail_result id calc expected)
                                  (blank_lines r))
      else r in
    if negb (status ctx =? expected_status) then
      set_failure (fputs_stderr (fail_status id (status ctx) expected_status)
                                (blank_lines r1))
    else r1.

End Compare.

(** *** Byte-wise equality of decimals *)

(** the loop over [i < a->len] that returns 0 at the first [i] with
    [a->data[i] != b->data[i]],
    [count] being the number of words left to look at. *)
Fixpoint data_equal (a b : mpd_t) (from count : nat) : bool :=
  match count with
  | O => true
  | S count' =>
      if data_at a from =? data_at b from
      then data_equal a b (S from) count'
      else false
  end.

Definition equalmem (a b : mpd_t) : bool :=
  if negb (flags a =? flags b) then false
  else if negb (exp a =? exp b) then false
  else if negb (len a =? len b) then false
  else if negb (digits a =? digits b) then false
  else data_equal a b 0 (Z.to_nat (len a)).

Definition const_arg_changed (id : string) : string :=
  ("FAIL: const arg changed: " ++ id ++ newline)%string.

Definition check_equalmem (a b : mpd_t) (id : string) (r : report)
  : report :=
  if negb (equalmem a b) then fputs_stderr (const_arg_changed id) r else r.

(** [strtoul(number, NULL, 10)] on text that starts with a digit. *)
Fixpoint strtoul_digits (s : string) (acc : Z) : Z :=
  match s with
  | EmptyString => acc
  | String c s' =>
      if isdigit c
      then strtoul_digits s' (Z.min ULONG_MAX (acc * 10 + (code c - 48)))
      else acc
  end.

Definition get_testno (token : string) : run Z :=
  match strpbrk_digits token with
  | None => Abort EmptyString
  | Some number => Normal (strtoul_digits number 0)
  end.

(** *** The two status hacks of the paired division *)

Definition resolve_status_hack (expstatus status : Z) : Z :=
  let expstatus :=
    if negb (Z.land expstatus MPD_Invalid_operation =? 0)
       && negb (Z.land status MPD_Division_impossible =? 0)
    then MPD_Division_impossible else expstatus in
  if negb (Z.land expstatus MPD_Invalid_operation =? 0)
     && negb (Z.land status MPD_Division_undefined =? 0)
  then MPD_Division_undefined else expstatus.

End Runtest_c.

(** ** [tests/runtest.c]: the drivers *)

Module Drivers_c.
Import Mpd Cstr Test_c Runtest_c.

(** *** The decimals of the runner

    The runner works on eleven global decimals ([op], ..., [result2]) and
    hands pointers to them to the engine.  A pointer is the name of the
    global it points to, so that two arguments that are the same pointer
    are the same name. *)

Inductive reg : Type :=
| R_op
| R_op1
| R_op2
| R_op3
| R_tmp
| R_tmp1
| R_tmp2
| R_tmp3
| R_result
| R_result1
| R_result2.

Record store : Type := mk_store {
  s_op : mpd_t;
  s_op1 : mpd_t;
  s_op2 : mpd_t;
  s_op3 : mpd_t;
  s_tmp : mpd_t;
  s_tmp1 : mpd_t;
  s_tmp2 : mpd_t;
  s_tmp3 : mpd_t;
  s_result : mpd_t;
  s_result1 : mpd_t;
  s_result2 : mpd_t
}.

Definition load (s : store) (r : reg) : mpd_t :=
  match r with
  | R_op => s_op s
  | R_op1 => s_op1 s
  | R_op2 => s_op2 s
  | R_op3 => s_op3 s
  | R_tmp => s_tmp s
  | R_tmp1 => s_tmp1 s
  | R_tmp2 => s_tmp2 s
  | R_tmp3 => s_tmp3 s
  | R_result => s_result s
  | R_result1 => s_result1 s
  | R_result2 => s_result2 s
  end.

Definition store_at (s : store) (r : reg) (v : mpd_t) : store :=
  match r with
  | R_op =>
      mk_store v (s_op1 s) (s_op2 s) (s_op3 s) (s_tmp s) (s_tmp1 s) (s_tmp2 s) (s_tmp3 s) (s_result s) (s_result1 s) (s_result2 s)
  | R_op1 =>
      mk_store (s_op s) v (s_op2 s) (s_op3 s) (s_tmp s) (s_tmp1 s) (s_tmp2 s) (s_tmp3 s) (s_result s) (s_result1 s) (s_result2 s)
  | R_op2 =>
      mk_store (s_op s) (s_op1 s) v (s_op3 s) (s_tmp s) (s_tmp1 s) (s_tmp2 s) (s_tmp3 s) (s_result s) (s_result1 s) (s_result2 s)
  | R_op3 =>
      mk_store (s_op s) (s_op1 s) (s_op2 s) v (s_tmp s) (s_tmp1 s) (s_tmp2 s) (s_tmp3 s) (s_result s) (s_result1 s) (s_result2 s)
  | R_tmp =>
      mk_store (s_op s) (s_op1 s) (s_op2 s) (s_op3 s) v (s_tmp1 s) (s_tmp2 s) (s_tmp3 s) (s_result s) (s_result1 s) (s_result2 s)
  | R_tmp1 =>
      mk_store (s_op s) (s_op1 s) (s_op2 s) (s_op3 s) (s_tmp s) v (s_tmp2 s) (s_tmp3 s) (s_result s) (s_result1 s) (s_result2 s)
  | R_tmp2 =>
      mk_store (s_op s) (s_op1 s) (s_op2 s) (s_op3 s) (s_tmp s) (s_tmp1 s) v (s_tmp3 s) (s_result s) (s_result1 s) (s_result2 s)
  | R_tmp3 =>
      mk_store (s_op s) (s_op1 s) (s_op2 s) (s_op3 s) (s_tmp s) (s_tmp1 s) (s_tmp2 s) v (s_result s) (s_result1 s) (s_result2 s)
  | R_result =>
      mk_store (s_op s) (s_op1 s) (s_op2 s) (s_op3 s) (s_tmp s) (s_tmp1 s) (s_tmp2 s) (s_tmp3 s) v (s_result1 s) (s_result2 s)
  | R_result1 =>
      mk_store (s_op s) (s_op1 s) (s_op2 s) (s_op3 s) (s_tmp s) (s_tmp1 s) (s_tmp2 s) (s_tmp3 s) (s_result s) v (s_result2 s)
  | R_result2 =>
      mk_store (s_op s) (s_op1 s) (s_op2 s) (s_op3 s) (s_tmp s) (s_tmp1 s) (s_tmp2 s) (s_tmp3 s) (s_result s) (s_result1 s) v
  end.

Definition reg_eqb (a b : reg) : bool :=
  match a, b with
  | R_op, R_op => true
  | R_op1, R_op1 => true
  | R_op2, R_op2 => true
  | R_op3, R_op3 => true
  | R_tmp, R_tmp => true
  | R_tmp1, R_tmp1 => true
  | R_tmp2, R_tmp2 => true
  | R_tmp3, R_tmp3 => true
  | R_result, R_result => true
  | R_result1, R_result1 => true
  | R_result2, R_result2 => true
  | _, _ => false
  end.


(** What the drivers need from outside [runtest.c] and [test.c]: the C
    library ([libc] for the allocation functions of [test.c], [random]
    giving the value of the n-th call of [random()]), and the engine
    functions that the drivers call around the operation under test.
    These helpers run under the primary allocation functions; they are
    functions of their arguments here, and a helper that runs out of real
    memory is outside this embedding. *)
Record Env : Type := mk_env {
  libc : request -> bool;
  random : nat -> Z;
  MPD_MAX_PREC : Z;
  MPD_MAX_EMAX : Z;
  MPD_MIN_EMIN : Z;
  MPD_ROUND_HALF_UP : Z;
  MPD_Traps : Z;
  mpd_snprint_flags : Z -> string;
  mpd_minalloc : mpd_t -> mpd_t;
  mpd_set_flags : mpd_t -> Z -> mpd_t;
  mpd_setspecial : mpd_t -> Z -> Z -> mpd_t;
  mpd_copy : mpd_t -> mpd_t -> mpd_context_t -> mpd_t;
  mpd_set_string : mpd_t -> string -> mpd_context_t -> mpd_t;
  mpd_to_sci : mpd_t -> Z -> string;
  mpd_to_sci_size : mpd_t -> Z -> string * Z;
  mpd_as_uint128_triple : mpd_t -> mpd_uint128_triple_t;
  mpd_from_uint128_triple :
    mpd_t -> mpd_uint128_triple_t -> engine (Z * mpd_t * Z)
}.

(** An operation under test, called with pointers into the store: it
    talks to the installed allocation functions and returns the store as
    it leaves it together with the conditions it reports.  Nothing is
    assumed about what it does to the decimals it was given. *)
Definition unary_func : Type :=
  reg -> reg -> store -> mpd_context_t -> engine (store * Z).
Definition binres_func : Type :=
  reg -> reg -> reg -> reg -> store -> mpd_context_t -> engine (store * Z).

(** The state the drivers run in: the decimals, the context of [doit],
    the variables of [test.c], the report, the number of calls of
    [random()] so far, and the static [extended]. *)
Record machine : Type := mk_machine {
  mem : store;
  ctx : mpd_context_t;
  alloc_st : alloc_state;
  rep : report;
  nrand : nat;
  extended : Z
}.

Definition with_mem (m : machine) (s : store) : machine :=
  mk_machine s (ctx m) (alloc_st m) (rep m) (nrand m) (extended m).
Definition with_ctx (m : machine) (c : mpd_context_t) : machine :=
  mk_machine (mem m) c (alloc_st m) (rep m) (nrand m) (extended m).
Definition with_alloc_st (m : machine) (a : alloc_state) : machine :=
  mk_machine (mem m) (ctx m) a (rep m) (nrand m) (extended m).
Definition with_rep (m : machine) (r : report) : machine :=
  mk_machine (mem m) (ctx m) (alloc_st m) r (nrand m) (extended m).
Definition with_nrand (m : machine) (n : nat) : machine :=
  mk_machine (mem m) (ctx m) (alloc_st m) (rep m) n (extended m).

(** One run of the operation inside an allocation-failure loop, kept for
    stating what the loop has seen: the value of [alloc_fail], the set of
    allocation functions installed when the operation was called, the
    store when the operation was called and when it returned, and the
    status of the context after the call. *)
Record trial : Type := mk_trial {
  t_alloc_fail : Z;
  t_funcs : installed_funcs;
  t_before : store;
  t_after : store;
  t_status : Z
}.

(** The state monad of the drivers. *)
Definition M (A : Type) : Type := machine -> run (A * machine).

Definition ret {A : Type} (a : A) : M A := fun m => Normal (a, m).

Definition bindM {A B : Type} (c : M A) (k : A -> M B) : M B :=
  fun m =>
    match c m with
    | Normal (a, m') => k a m'
    | Abort d => Abort d
    | Exit code => Exit code
    | Unfinished => Unfinished
    end.

Declare Scope driver_scope.
Delimit Scope driver_scope with driver.
Notation "x <- c1 ;; c2" := (bindM c1 (fun x => c2))
  (at level 61, c1 at next level, right associativity) : driver_scope.
Notation "c1 ;; c2" := (bindM c1 (fun _ => c2))
  (at level 61, right associativity) : driver_scope.
Local Open Scope driver_scope.

Definition lift {A : Type} (r : run A) : M A :=
  fun m =>
    match r with
    | Normal a => Normal (a, m)
    | Abort d => Abort d
    | Exit code => Exit code
    | Unfinished => Unfinished
    end.

Definition fatal {A : Type} (diagnostic : string) : M A :=
  lift (mpd_err_fatal diagnostic).

Definition unfinished {A : Type} : M A := fun _ => Unfinished.

(** [ASSERT(p)]: [abort()], without a message. *)
Definition ASSERT (p : bool) : M unit :=
  fun m => if p then Normal (tt, m) else Abort EmptyString.

Definition get_mem : M store := fun m => Normal (mem m, m).
Definition get_ctx : M mpd_context_t := fun m => Normal (ctx m, m).
Definition get_alloc : M alloc_state := fun m => Normal (alloc_st m, m).
Definition get_extended : M Z := fun m => Normal (extended m, m).
Definition read (r : reg) : M mpd_t := fun m => Normal (load (mem m) r, m).
Definition write (r : reg) (v : mpd_t) : M unit :=
  fun m => Normal (tt, with_mem m (store_at (mem m) r v)).
Definition put_ctx (c : mpd_context_t) : M unit :=
  fun m => Normal (tt, with_ctx m c).
Definition on_report (f : report -> report) : M unit :=
  fun m => Normal (tt, with_rep m (f (rep m))).

(** [ctx->status = s] and [ctx->allcr = a]. *)
Definition assign_status (s : Z) : M unit :=
  fun m => Normal (tt, with_ctx m (set_status (ctx m) s)).

(** [alloc_fail = n], the loop variable that lives in [test.c]. *)
Definition assign_alloc_fail (n : Z) : M unit :=
  fun m => Normal (tt, with_alloc_st m (with_alloc_fail (alloc_st m) n)).

(** The three switches of [test.c], applied to the context of the
    driver. *)
Definition set_alloc : M unit :=
  fun m =>
    let (c, a) := mpd_set_alloc (ctx m) (alloc_st m) in
    Normal (tt, with_alloc_st (with_ctx m c) a).
Definition set_alloc_count : M unit :=
  fun m =>
    let (c, a) := mpd_set_alloc_count (ctx m) (alloc_st m) in
    Normal (tt, with_alloc_st (with_ctx m c) a).
Definition set_alloc_fail : M unit :=
  fun m =>
    let (c, a) := mpd_set_alloc_fail (ctx m) (alloc_st m) in
    Normal (tt, with_alloc_st (with_ctx m c) a).

(** [traphandler]: a message on [stderr], then [exit(1)]. *)
Definition traphandler {A : Type} : M A := fun _ => Exit 1.

(** Modelled from the spec: how an operation that takes the context hands
    its conditions to it; this step is the engine's and is not among the
    sources.  The context carries the status flags accumulated by the
    operation and a trap mask that says which status conditions raise a
    fatal error if set: the reported conditions are or-ed into the status,
    and if one of them is in the trap mask it is recorded in [newtrap] and
    the installed trap handler is called. *)
Definition mpd_addstatus_raise (reported : Z) : M unit :=
  fun m =>
    let c := set_status (ctx m) (Z.lor (status (ctx m)) reported) in
    if Z.land reported (traps c) =? 0 then Normal (tt, with_ctx m c)
    else traphandler (with_ctx m (set_newtrap c (Z.land reported (traps c)))).

Section WithEnv.

Variable W : Env.

(** A call of an operation under test through the context. *)
Definition call (e : store -> mpd_context_t -> engine (store * Z))
  : M unit :=
  fun m =>
    let '((s, reported), a) :=
      run_engine (libc W) (e (mem m) (ctx m)) (alloc_st m) in
    mpd_addstatus_raise reported (with_alloc_st (with_mem m s) a).

Definition next_random : M Z :=
  fun m => Normal (random W (nrand m), with_nrand m (S (nrand m))).

Definition mpd_init_rand (x : reg) : M unit :=
  r0 <- next_random ;;
  s0 <- next_random ;;
  let r := r0 mod 100 in
  let sign := s0 mod 2 in
  v <- read x ;;
  if r >=? 80 then write x (mpd_minalloc W v)
  else if r >=? 60 then write x (mpd_set_flags W (mpd_minalloc W v) sign)
  else if r >=? 40 then write x (mpd_setspecial W v sign MPD_NAN)
  else if r >=? 20 then write x (mpd_setspecial W v sign MPD_SNAN)
  else write x (mpd_setspecial W v sign MPD_INF).

Definition minalloc (x : reg) : M unit :=
  v <- read x ;; write x (mpd_minalloc W v).

(** [mpd_copy(dst, src, ctx)]. *)
Definition copy (dst src : reg) : M unit :=
  d <- read dst ;; s <- read src ;; c <- get_ctx ;;
  write dst (mpd_copy W d s c).

Definition mpd_readcontext : M mpd_context_t :=
  e <- get_extended ;;
  if negb (e =? 0) then
    ret (mk_ctx MPD_READ_MAX_PREC MPD_READ_MAX_PREC (- MPD_READ_MAX_PREC)
                (MPD_Traps W) 0 0 (MPD_ROUND_HALF_UP W) 0 1)
  else
    ret (mk_ctx (MPD_MAX_PREC W) (MPD_MAX_EMAX W) (MPD_MIN_EMIN W)
                (MPD_Traps W) 0 0 (MPD_ROUND_HALF_UP W) 0 1).

Definition do_compare (calc expected : string) (expstatus : Z)
  (id : string) : M unit :=
  fun m =>
    Normal (tt, with_rep m (compare_expected (mpd_snprint_flags W)
                              calc expected expstatus id (ctx m) (rep m))).

Definition do_check_equalmem (a b : reg) (id : string) : M unit :=
  fun m =>
    Normal (tt, with_rep m (check_equalmem (load (mem m) a)
                              (load (mem m) b) id (rep m))).

(** [_mpd_to_sci]: both versions of [mpd_to_sci] must agree.  The branch
    for a [NULL] result (no memory for the string) is not part of this
    embedding. *)
Definition _mpd_to_sci (dec : reg) (fmt : Z) : M string :=
  d <- read dec ;;
  let r := mpd_to_sci W d fmt in
  let '(s, size) := mpd_to_sci_size W d fmt in
  ASSERT (streq r s) ;;
  ASSERT (size =? Z.of_nat (String.length s)) ;;
  ret r.

(** *** Scanning a test case *)

Definition token_id (token : list string) : string :=
  match token_at token 0 with
  | Some id => id
  | None => EmptyString
  end.

(** [scan_1op_result(op1, &result, token, ctx)] with the context [c];
    returns the expected result and the index of the first condition. *)
Definition scan_1op_result (op1 : reg) (token : list string)
  (c : mpd_context_t) : M (string * nat) :=
  let parse_error : M (string * nat) :=
    fatal ("parse error at id " ++ token_id token)%string in
  match token_at token 2 with
  | None => parse_error
  | Some t2 =>
      v <- read op1 ;;
      write op1 (mpd_set_string W v t2 c) ;;
      match token_at token 3 with
      | None => parse_error
      | Some _ =>
          match token_at token 4 with
          | None => parse_error
          | Some t4 => ret (t4, 5%nat)
          end
      end
  end.

(** [scan_2ops_2results]; its diagnostic is the bare id. *)
Definition scan_2ops_2results (o1 o2 : reg) (token : list string)
  (c : mpd_context_t) : M (string * string * nat) :=
  let parse_error : M (string * string * nat) :=
    fatal (token_id token) in
  match token_at token 2 with
  | None => parse_error
  | Some t2 =>
      v1 <- read o1 ;;
      write o1 (mpd_set_string W v1 t2 c) ;;
      match token_at token 3 with
      | None => parse_error
      | Some t3 =>
          v2 <- read o2 ;;
          write o2 (mpd_set_string W v2 t3 c) ;;
          match token_at token 4 with
          | None => parse_error
          | Some _ =>
              match token_at token 5 with
              | None => parse_error
              | Some t5 =>
                  match token_at token 6 with
                  | None => parse_error
                  | Some t6 => ret (t5, t6, 7%nat)
                  end
              end
          end
      end
  end.

(** [scan_conditions]: all expected conditions in one status word. *)
Fixpoint scan_conditions (token : list string) (status : Z) : run Z :=
  match token with
  | [] => Normal status
  | condition :: rest =>
      let c := Some condition in
      if startswith c "--" then Normal status
      else if eqtoken c "Clamped" then
        scan_conditions rest (Z.lor status MPD_Clamped)
      else if eqtoken c "Conversion_syntax" then
        scan_conditions rest (Z.lor status MPD_Conversion_syntax)
      else if eqtoken c "Division_by_zero" then
        scan_conditions rest (Z.lor status MPD_Division_by_zero)
      else if eqtoken c "Division_impossible" then
        scan_conditions rest (Z.lor status MPD_Division_impossible)
      else if eqtoken c "Division_undefined" then
        scan_conditions rest (Z.lor status MPD_Division_undefined)
      else if eqtoken c "Fpu_error" then
        scan_conditions rest (Z.lor status MPD_Fpu_error)
      else if eqtoken c "Inexact" then
        scan_conditions rest (Z.lor status MPD_Inexact)
      else if eqtoken c "Invalid_context" then
        scan_conditions rest (Z.lor status MPD_Invalid_context)
      else if eqtoken c "Invalid_operation" then
        scan_conditions rest (Z.lor status MPD_Invalid_operation)
      else if eqtoken c "Malloc_error" then
        scan_conditions rest (Z.lor status MPD_Malloc_error)
      else if eqtoken c "Not_implemented" then
        scan_conditions rest (Z.lor status MPD_Not_implemented)
      else if eqtoken c "Overflow" then
        scan_conditions rest (Z.lor status MPD_Overflow)
      else if eqtoken c "Rounded" then
        scan_conditions rest (Z.lor status MPD_Rounded)
      else if eqtoken c "Subnormal" then
        scan_conditions rest (Z.lor status MPD_Subnormal)
      else if eqtoken c "Underflow" then
        scan_conditions rest (Z.lor status MPD_Underflow)
      else mpd_err_fatal ("unknown status: " ++ condition)%string
  end.

(** *** The triple conversion test *)

(** [status = 0; ret = mpd_from_uint128_triple(result, &triple, &status)]:
    the conversion runs against the installed allocation functions and
    reports into the local [status], not into the context. *)
Definition from_triple (triple : mpd_uint128_triple_t) : M (Z * Z) :=
  fun m =>
    let '((ret_, r, status_), a) :=
      run_engine (libc W)
        (mpd_from_uint128_triple W (load (mem m) R_result) triple)
        (alloc_st m) in
    Normal ((ret_, status_),
            with_alloc_st (with_mem m (store_at (mem m) R_result r)) a).

(** The loop "Allocation failures in from_triple()"; [last] holds [ret]
    and [status] as they are when the loop condition is tested. *)
Fixpoint triple_failures (fuel : nat) (triple : mpd_uint128_triple_t)
  (last : Z * Z) : M (Z * Z) :=
  match fuel with
  | O => unfinished
  | S fuel' =>
      a <- get_alloc ;;
      if alloc_fail a <? INT_MAX then
        mpd_init_rand R_result ;;
        set_alloc_fail ;;
        rs <- from_triple triple ;;
        set_alloc ;;
        if Z.land (snd rs) MPD_Malloc_error =? 0 then ret rs
        else
          ASSERT (fst rs =? -1) ;;
          r <- read R_result ;;
          ASSERT (mpd_isnan r) ;;
          assign_alloc_fail (alloc_fail a + 1) ;;
          triple_failures fuel' triple rs
      else ret last
  end.

Definition _TripleTest (fuel : nat) (a : reg) (testno : string) : M unit :=
  av <- read a ;;
  let triple := mpd_as_uint128_triple W av in
  match tag triple with
  | MPD_TRIPLE_QNAN | MPD_TRIPLE_SNAN => ASSERT (texp triple =? 0)
  | MPD_TRIPLE_INF =>
      ASSERT ((hi triple =? 0) && (lo triple =? 0) && (texp triple =? 0))
  | MPD_TRIPLE_NORMAL => ret tt
  | MPD_TRIPLE_ERROR =>
      ASSERT ((sign triple =? 0) && (hi triple =? 0) && (lo triple =? 0)
              && (texp triple =? 0))
  | Tag_value _ => ret tt
  end ;;
  assign_alloc_fail 1 ;;
  rs <- triple_failures fuel triple (0, 0) ;;
  if negb (is_error_tag (tag triple)) then
    ASSERT (fst rs =? 0) ;;
    ASSERT (snd rs =? 0) ;;
    do_check_equalmem R_result a testno
  else
    ASSERT (fst rs =? -1) ;;
    ASSERT (snd rs =? MPD_Conversion_syntax) ;;
    r <- read R_result ;;
    ASSERT (mpd_isnan r).

(** *** Conversions that must fail: [triple_cov]

    [triple_cov] changes the fields of one triple step by step and
    converts it into [op] after each step. *)

Definition set_tag (t : mpd_uint128_triple_t) (c : mpd_triple_class) :=
  mk_triple c (sign t) (hi t) (lo t) (texp t).
Definition set_sign (t : mpd_uint128_triple_t) (s : Z) :=
  mk_triple (tag t) s (hi t) (lo t) (texp t).
Definition set_exp (t : mpd_uint128_triple_t) (e : Z) :=
  mk_triple (tag t) (sign t) (hi t) (lo t) e.

(** [status = 0; mpd_from_uint128_triple(op, &triple, &status);] and the
    two assertions that follow; returns the triple converted, the
    decimal left in [op] and the status. *)
Definition cov_convert (triple : mpd_uint128_triple_t)
  : M (mpd_uint128_triple_t * mpd_t * Z) :=
  status_ <- (fun m =>
    let '((_, r, status_), a) :=
      run_engine (libc W)
        (mpd_from_uint128_triple W (load (mem m) R_op) triple)
        (alloc_st m) in
    Normal (status_,
            with_alloc_st (with_mem m (store_at (mem m) R_op r)) a)) ;;
  ASSERT (status_ =? MPD_Conversion_syntax) ;;
  v <- read R_op ;;
  ASSERT (mpd_isqnan v) ;;
  ret (triple, v, status_).

(** [triple_cov]; returns its nine conversions in order. *)
Definition triple_cov : M (list (mpd_uint128_triple_t * mpd_t * Z)) :=
  let triple := mk_triple MPD_TRIPLE_QNAN 2 0 0 0 in
  c1 <- cov_convert triple ;;
  let triple := set_exp (set_sign triple 0) 1 in
  c2 <- cov_convert triple ;;
  let triple := set_tag triple MPD_TRIPLE_INF in
  c3 <- cov_convert triple ;;
  let triple := set_sign (set_tag triple MPD_TRIPLE_NORMAL) 2 in
  c4 <- cov_convert triple ;;
  let triple :=
    set_exp (set_sign (set_tag triple MPD_TRIPLE_NORMAL) 0) INT64_MAX in
  c5 <- cov_convert triple ;;
  let triple :=
    set_exp (set_sign (set_tag triple MPD_TRIPLE_NORMAL) 0) INT64_MIN in
  c6 <- cov_convert triple ;;
  let triple :=
    set_exp (set_sign (set_tag triple MPD_TRIPLE_NORMAL) 0) MPD_SSIZE_MAX in
  c7 <- cov_convert triple ;;
  let triple :=
    set_exp (set_sign (set_tag triple MPD_TRIPLE_NORMAL) 0) MPD_SSIZE_MIN in
  c8 <- cov_convert triple ;;
  let triple := set_sign (set_tag triple (Tag_value 10)) 0 in
  c9 <- cov_convert triple ;;
  ret [c1; c2; c3; c4; c5; c6; c7; c8; c9].

(** *** Unary functions: [_Res_Op_Ctx] *)

(** [incr = (int)(alloc_count*0.02) + 1].  The product is taken in
    [double] and truncated; for the counts of an [int] that is the
    integer quotient by 50. *)
Definition next_incr (a : alloc_state) : Z := alloc_count a / 50 + 1.

(** The body of the first loop "Allocation failures" of [_Res_Op_Ctx]
    (result and operand are distinct) up to the test of the status. *)
Definition res_op_trial (func : unary_func) : M trial :=
  a <- get_alloc ;;
  mpd_init_rand R_tmp ;;
  copy R_tmp R_op ;;
  minalloc R_result ;;
  assign_status 0 ;;
  set_alloc_fail ;;
  before <- get_mem ;;
  installed <- get_alloc ;;
  call (func R_result R_tmp) ;;
  set_alloc ;;
  after <- get_mem ;;
  c <- get_ctx ;;
  ret (mk_trial (alloc_fail a) (mpd_funcs installed) before after (status c)).

(** That loop from the test of the loop condition on; [alloc_fail = 1]
    and [incr = 1] are set by the caller.  The loop returns the trials it
    has made, in order. *)
Fixpoint res_op_failures (fuel : nat) (func : unary_func) (incr : Z)
  : M (list trial) :=
  match fuel with
  | O => unfinished
  | S fuel' =>
      a <- get_alloc ;;
      if alloc_fail a <? INT_MAX then
        t <- res_op_trial func ;;
        if Z.land (t_status t) MPD_Malloc_error =? 0 then ret [t]
        else
          r <- read R_result ;;
          ASSERT (mpd_isnan r) ;;
          a' <- get_alloc ;;
          let incr := if alloc_fail a' >? 100 then next_incr a' else incr in
          assign_alloc_fail (alloc_fail a' + incr) ;;
          rest <- res_op_failures fuel' func incr ;;
          ret (t :: rest)
      else ret []
  end.

(** The second loop of [_Res_Op_Ctx] (result equals operand). *)
Definition res_op_trial_eq (func : unary_func) : M trial :=
  a <- get_alloc ;;
  mpd_init_rand R_tmp ;;
  copy R_tmp R_op ;;
  assign_status 0 ;;
  set_alloc_fail ;;
  before <- get_mem ;;
  installed <- get_alloc ;;
  call (func R_tmp R_tmp) ;;
  set_alloc ;;
  after <- get_mem ;;
  c <- get_ctx ;;
  ret (mk_trial (alloc_fail a) (mpd_funcs installed) before after (status c)).

Fixpoint res_op_failures_eq (fuel : nat) (func : unary_func) (incr : Z)
  : M (list trial) :=
  match fuel with
  | O => unfinished
  | S fuel' =>
      a <- get_alloc ;;
      if alloc_fail a <? INT_MAX then
        t <- res_op_trial_eq func ;;
        if Z.land (t_status t) MPD_Malloc_error =? 0 then ret [t]
        else
          r <- read R_tmp ;;
          ASSERT (mpd_isnan r) ;;
          a' <- get_alloc ;;
          let incr := if alloc_fail a' >? 100 then next_incr a' else incr in
          assign_alloc_fail (alloc_fail a' + incr) ;;
          rest <- res_op_failures_eq fuel' func incr ;;
          ret (t :: rest)
      else ret []
  end.

(** The part of [_Res_Op_Ctx] headed "result and tmp are distinct
    decimals", with its loop; returns the trials of the loop. *)
Definition res_op_distinct (fuel : nat) (func : unary_func)
  (expected : string) (expstatus : Z) (id : string) : M (list trial) :=
  mpd_init_rand R_tmp ;;
  copy R_tmp R_op ;;
  mpd_init_rand R_result ;;
  assign_status 0 ;;
  set_alloc_count ;;
  call (func R_result R_tmp) ;;
  set_alloc ;;
  calc <- _mpd_to_sci R_result 1 ;;
  do_compare calc expected expstatus id ;;
  do_check_equalmem R_tmp R_op id ;;
  assign_alloc_fail 1 ;;
  trials <- res_op_failures fuel func 1 ;;
  calc <- _mpd_to_sci R_result 1 ;;
  do_compare calc expected expstatus id ;;
  do_check_equalmem R_tmp R_op id ;;
  ret trials.

(** The part headed "result equals operand". *)
Definition res_op_equal (fuel : nat) (func : unary_func)
  (expected : string) (expstatus : Z) (id : string) : M (list trial) :=
  mpd_init_rand R_tmp ;;
  copy R_tmp R_op ;;
  assign_status 0 ;;
  set_alloc_count ;;
  call (func R_tmp R_tmp) ;;
  set_alloc ;;
  calc <- _mpd_to_sci R_tmp 1 ;;
  do_compare calc expected expstatus id ;;
  assign_alloc_fail 1 ;;
  trials <- res_op_failures_eq fuel func 1 ;;
  calc <- _mpd_to_sci R_tmp 1 ;;
  do_compare calc expected expstatus id ;;
  ret trials.

(** [_Res_Op_Ctx]; returns the trials of its two loops. *)
Definition _Res_Op_Ctx (fuel : nat) (token : list string)
  (func : unary_func) : M (list trial * list trial) :=
  maxctx <- mpd_readcontext ;;
  let maxctx := set_traps maxctx MPD_Malloc_error in
  en <- scan_1op_result R_op token maxctx ;;
  _TripleTest fuel R_op (token_id token) ;;
  expstatus <- lift (scan_conditions (skipn (snd en) token) 0) ;;
  t1 <- res_op_distinct fuel func (fst en) expstatus (token_id token) ;;
  t2 <- res_op_equal fuel func (fst en) expstatus (token_id token) ;;
  ret (t1, t2).

(** *** A binary function with a binary result: [_Binres_Binop_Ctx]

    The function consists of seven parts, one for each way in which the
    two results [q] and [r] of [func(q, r, tmp1, tmp2, ctx)] are (or are
    not) the operands themselves.  The parts are the same statements up
    to the decimals named, so they are written once, over [q] and [r]. *)

Definition uses (q r x : reg) : bool := reg_eqb q x || reg_eqb r x.

(** The statements before a call: fresh operands, and [result1] and
    [result2] prepared with [prepare] when they take a result. *)
Definition binres_setup (prepare : reg -> M unit) (q r : reg) : M unit :=
  mpd_init_rand R_tmp1 ;;
  mpd_init_rand R_tmp2 ;;
  copy R_tmp1 R_op1 ;;
  copy R_tmp2 R_op2 ;;
  (if uses q r R_result1 then prepare R_result1 else ret tt) ;;
  (if uses q r R_result2 then prepare R_result2 else ret tt) ;;
  assign_status 0.

Definition binres_compare (q r : reg) (expected1 expected2 : string)
  (expstatus : Z) (id : string) : M unit :=
  calc <- _mpd_to_sci q 1 ;;
  do_compare calc expected1 expstatus id ;;
  calc <- _mpd_to_sci r 1 ;;
  do_compare calc expected2 expstatus id.

(** The operands that did not take a result are compared with the
    originals. *)
Definition binres_checks (q r : reg) (id : string) : M unit :=
  (if uses q r R_tmp1 then ret tt else do_check_equalmem R_tmp1 R_op1 id) ;;
  (if uses q r R_tmp2 then ret tt else do_check_equalmem R_tmp2 R_op2 id).

(** The body of a loop "Allocation failures" of [_Binres_Binop_Ctx] up
    to the test of the status. *)
Definition binres_trial (func : binres_func) (q r : reg) : M trial :=
  a <- get_alloc ;;
  binres_setup minalloc q r ;;
  set_alloc_fail ;;
  before <- get_mem ;;
  installed <- get_alloc ;;
  call (func q r R_tmp1 R_tmp2) ;;
  set_alloc ;;
  after <- get_mem ;;
  c <- get_ctx ;;
  ret (mk_trial (alloc_fail a) (mpd_funcs installed) before after (status c)).

(** The loop.  Its condition is [alloc_fail < INT_MAX], except in the
    part "result1 == tmp1" where it is [alloc_fail <= INT_MAX]
    ([inclusive]). *)
Fixpoint binres_failures (fuel : nat) (func : binres_func) (q r : reg)
  (inclusive : bool) (incr : Z) : M (list trial) :=
  match fuel with
  | O => unfinished
  | S fuel' =>
      a <- get_alloc ;;
      if (if inclusive then alloc_fail a <=? INT_MAX
          else alloc_fail a <? INT_MAX) then
        t <- binres_trial func q r ;;
        if Z.land (t_status t) MPD_Malloc_error =? 0 then ret [t]
        else
          vq <- read q ;;
          ASSERT (mpd_isnan vq) ;;
          vr <- read r ;;
          ASSERT (mpd_isnan vr) ;;
          a' <- get_alloc ;;
          let incr := if alloc_fail a' >? 50 then next_incr a' else incr in
          assign_alloc_fail (alloc_fail a' + incr) ;;
          rest <- binres_failures fuel' func q r inclusive incr ;;
          ret (t :: rest)
      else ret []
  end.

(** The first call of a part, counted. *)
Definition binres_call (func : binres_func) (q r : reg) : M unit :=
  binres_setup mpd_init_rand q r ;;
  set_alloc_count ;;
  call (func q r R_tmp1 R_tmp2) ;;
  set_alloc.

(** What follows the first call of a part. *)
Definition binres_after_call (fuel : nat) (func : binres_func) (q r : reg)
  (inclusive : bool) (expected1 expected2 : string) (expstatus : Z)
  (id : string) : M (list trial) :=
  binres_compare q r expected1 expected2 expstatus id ;;
  binres_checks q r id ;;
  assign_alloc_fail 1 ;;
  trials <- binres_failures fuel func q r inclusive 1 ;;
  binres_compare q r expected1 expected2 expstatus id ;;
  binres_checks q r id ;;
  ret trials.

Definition binres_part (fuel : nat) (func : binres_func) (q r : reg)
  (inclusive : bool) (expected1 expected2 : string) (expstatus : Z)
  (id : string) : M (list trial) :=
  binres_call func q r ;;
  binres_after_call fuel func q r inclusive expected1 expected2 expstatus id.

(** [_Binres_Binop_Ctx] up to and including its first call of [func]:
    returns the two expected results and the expected status as
    scanned. *)
Definition binres_prologue (fuel : nat) (token : list string)
  (func : binres_func) : M (string * string * Z) :=
  maxctx <- mpd_readcontext ;;
  let maxctx := set_traps maxctx MPD_Malloc_error in
  en <- scan_2ops_2results R_op1 R_op2 token maxctx ;;
  _TripleTest fuel R_op1 (token_id token) ;;
  _TripleTest fuel R_op2 (token_id token) ;;
  expstatus <- lift (scan_conditions (skipn (snd en) token) 0) ;;
  binres_call func R_result1 R_result2 ;;
  ret (fst (fst en), snd (fst en), expstatus).

(** [_Binres_Binop_Ctx] from the statement after
    [resolve_status_hack] to its end: every comparison that the function
    makes, with the expected status [expstatus]. *)
Definition binres_rest (fuel : nat) (func : binres_func)
  (expected1 expected2 : string) (expstatus : Z) (id : string)
  : M (list (list trial)) :=
  let part q r inclusive :=
    binres_part fuel func q r inclusive expected1 expected2 expstatus id in
  t1 <- binres_after_call fuel func R_result1 R_result2 false
          expected1 expected2 expstatus id ;;
  t2 <- part R_tmp1 R_result2 true ;;
  t3 <- part R_result1 R_tmp1 false ;;
  t4 <- part R_tmp2 R_result2 false ;;
  t5 <- part R_result1 R_tmp2 false ;;
  t6 <- part R_tmp1 R_tmp2 false ;;
  t7 <- part R_tmp2 R_tmp1 false ;;
  ret [t1; t2; t3; t4; t5; t6; t7].

Definition _Binres_Binop_Ctx (fuel : nat) (token : list string)
  (func : binres_func) : M (list (list trial)) :=
  scanned <- binres_prologue fuel token func ;;
  c <- get_ctx ;;
  let expstatus := resolve_status_hack (snd scanned) (status c) in
  binres_rest fuel func (fst (fst scanned)) (snd (fst scanned)) expstatus
              (token_id token).

End WithEnv.

End Drivers_c.

(** ** [tests/runtest.c]: [doit], one line of a test file *)

Module Doit_c.
Import Mpd Cstr Runtest_c.

(** What [doit] does with a line, when it does not stop the program:
    it goes to [cleanup] without running a test, it enters the branch
    of a directive, or it runs the drivers of an operation.  The
    directives and the drivers are named, not run.  [Directive name]
    says that the line has reached the branch of that directive and no
    more: the branch itself -- its [ASSERT(token[1] != NULL)], its
    comparisons of the value with [strcmp] or [eqtoken], [scan_ssize],
    the nested [doit] of [Dectest], [setlocale], and the fatal errors
    among them -- is not embedded, so nothing is stated here about how a
    directive line ends. *)
Inductive line_action : Type :=
| Cleanup (why : string)
| Directive (name : string)
| Drivers (calls : string).

(** The chain of [eqtoken(token[1], ...)] tests of [doit], in order,
    each with the driver calls of its branch. *)
Definition dispatch_table : list (list string * string) :=
  [
   (["tosci"; "apply"],
    "_cp_MpdCtx mpd_to_sci ; sci_eng_size mpd_to_sci_size");
   (["toeng"],
    "_cp_MpdCtx mpd_to_eng ; sci_eng_size mpd_to_eng_size");
   (["format"],
    "_cp_MpdFmtCtx mpd_format");
   (["class"],
    "_ccp_MpdCtx mpd_class");
   (["abs"],
    "_Res_Op_Ctx mpd_abs");
   (["copy"],
    "_Res_Op_Ctx mpd_copy");
   (["copyabs"],
    "_Res_Op_Ctx mpd_copy_abs");
   (["copynegate"],
    "_Res_Op_Ctx mpd_copy_negate");
   (["exp"],
    "_Res_Op_Ctx mpd_exp");
   (["invert"],
    "_Res_Op_Ctx mpd_invert");
   (["invroot"],
    "_Res_Op_Ctx mpd_invroot");
   (["ln"],
    "_Res_Op_Ctx mpd_ln");
   (["log10"],
    "_Res_Op_Ctx mpd_log10");
   (["logb"],
    "_Res_Op_Ctx mpd_logb");
   (["minus"],
    "_Res_Op_Ctx mpd_minus");
   (["nextminus"],
    "_Res_Op_Ctx mpd_next_minus");
   (["nextplus"],
    "_Res_Op_Ctx mpd_next_plus");
   (["plus"],
    "_Res_Op_Ctx mpd_plus");
   (["reduce"],
    "_Res_Op_Ctx mpd_reduce");
   (["squareroot"],
    "_Res_Op_Ctx mpd_sqrt");
   (["quantize_squareroot"],
    "_Res_Op_CtxWithQuantize mpd_sqrt");
   (["tointegral"],
    "_Res_Op_Ctx mpd_round_to_int");
   (["tointegralx"],
    "_Res_Op_Ctx mpd_round_to_intx");
   (["floor"],
    "_Res_Op_Ctx mpd_floor");
   (["ceil"],
    "_Res_Op_Ctx mpd_ceil");
   (["trunc"],
    "_Res_Op_Ctx mpd_trunc");
   (["samequantum"],
    "_Int_Binop mpd_same_quantum");
   (["samequantum_eq"],
    "_Int_EqualBinop mpd_same_quantum");
   (["add"],
    "_Res_Binop_Ctx mpd_add");
   (["and"],
    "_Res_Binop_Ctx mpd_and");
   (["copysign"],
    "_Res_Binop_Ctx mpd_copy_sign");
   (["divide"],
    "_Res_Binop_Ctx mpd_div");
   (["divideint"],
    "_Res_Binop_Ctx mpd_divint");
   (["max"],
    "_Res_Binop_Ctx mpd_max");
   (["maxmag"; "max_mag"],
    "_Res_Binop_Ctx mpd_max_mag");
   (["min"],
    "_Res_Binop_Ctx mpd_min");
   (["minmag"; "min_mag"],
    "_Res_Binop_Ctx mpd_min_mag");
   (["multiply"],
    "_Res_Binop_Ctx mpd_mul");
   (["nexttoward"],
    "_Res_Binop_Ctx mpd_next_toward");
   (["or"],
    "_Res_Binop_Ctx mpd_or");
   (["power"],
    "_Res_Binop_Ctx mpd_pow");
   (["quantize"],
    "_Res_Binop_Ctx mpd_quantize");
   (["resc"],
    "_Res_Op_Lsize_Ctx mpd_rescale");
   (["remainder"],
    "_Res_Binop_Ctx mpd_rem");
   (["remaindernear"],
    "_Res_Binop_Ctx mpd_rem_near");
   (["rotate"],
    "_Res_Binop_Ctx mpd_rotate");
   (["scaleb"],
    "_Res_Binop_Ctx mpd_scaleb");
   (["shift"],
    "_Res_Binop_Ctx mpd_shift ; _Res_Op_Lsize_Ctx mpd_shiftn");
   (["subtract"],
    "_Res_Binop_Ctx mpd_sub");
   (["xor"],
    "_Res_Binop_Ctx mpd_xor");
   (["add_eq"],
    "_Res_EqualBinop_Ctx mpd_add");
   (["and_eq"],
    "_Res_EqualBinop_Ctx mpd_and");
   (["copysign_eq"],
    "_Res_EqualBinop_Ctx mpd_copy_sign");
   (["divide_eq"],
    "_Res_EqualBinop_Ctx mpd_div");
   (["divideint_eq"],
    "_Res_EqualBinop_Ctx mpd_divint");
   (["max_eq"],
    "_Res_EqualBinop_Ctx mpd_max");
   (["maxmag_eq"],
    "_Res_EqualBinop_Ctx mpd_max_mag");
   (["min_eq"],
    "_Res_EqualBinop_Ctx mpd_min");
   (["minmag_eq"],
    "_Res_EqualBinop_Ctx mpd_min_mag");
   (["multiply_eq"],
    "_Res_EqualBinop_Ctx mpd_mul");
   (["nexttoward_eq"],
    "_Res_EqualBinop_Ctx mpd_next_toward");
   (["or_eq"],
    "_Res_EqualBinop_Ctx mpd_or");
   (["power_eq"],
    "_Res_EqualBinop_Ctx mpd_pow");
   (["quantize_eq"],
    "_Res_EqualBinop_Ctx mpd_quantize");
   (["remainder_eq"],
    "_Res_EqualBinop_Ctx mpd_rem");
   (["remaindernear_eq"],
    "_Res_EqualBinop_Ctx mpd_rem_near");
   (["rotate_eq"],
    "_Res_EqualBinop_Ctx mpd_rotate");
   (["scaleb_eq"],
    "_Res_EqualBinop_Ctx mpd_scaleb");
   (["shift_eq"],
    "_Res_EqualBinop_Ctx mpd_shift");
   (["subtract_eq"],
    "_Res_EqualBinop_Ctx mpd_sub");
   (["xor_eq"],
    "_Res_EqualBinop_Ctx mpd_xor");
   (["divmod"],
    "_Binres_Binop_Ctx mpd_divmod");
   (["divmod_eq"],
    "_Binres_EqualBinop_Ctx mpd_divmod");
   (["fma"],
    "_Res_Ternop_Ctx mpd_fma");
   (["powmod"],
    "_Res_Ternop_Ctx mpd_powmod");
   (["fma_eq_eq_op"],
    "_Res_EqEqOp_Ctx mpd_fma");
   (["powmod_eq_eq_op"],
    "_Res_EqEqOp_Ctx mpd_powmod");
   (["fma_eq_op_eq"],
    "_Res_EqOpEq_Ctx mpd_fma");
   (["powmod_eq_op_eq"],
    "_Res_EqOpEq_Ctx mpd_powmod");
   (["fma_op_eq_eq"],
    "_Res_OpEqEq_Ctx mpd_fma");
   (["powmod_op_eq_eq"],
    "_Res_OpEqEq_Ctx mpd_powmod");
   (["fma_eq_eq_eq"],
    "_Res_EqEqEq_Ctx mpd_fma");
   (["powmod_eq_eq_eq"],
    "_Res_EqEqEq_Ctx mpd_powmod");
   (["compare"],
    "_Int_Res_Binop_Ctx mpd_compare ; _Int_Binop_Ctx mpd_cmp");
   (["comparesig"],
    "_Int_Res_Binop_Ctx mpd_compare_signal");
   (["comparetotal"],
    "_Int_Res_Binop mpd_compare_total ; _Int_Binop mpd_cmp_total");
   (["comparetotmag"],
    "_Int_Res_Binop mpd_compare_total_mag ; _Int_Binop mpd_cmp_total_mag");
   (["compare_eq"],
    "_Int_Res_EqualBinop_Ctx mpd_compare ; _Int_EqualBinop_Ctx mpd_cmp");
   (["comparesig_eq"],
    "_Int_Res_EqualBinop_Ctx mpd_compare_signal");
   (["comparetotal_eq"],
    "_Int_Res_EqualBinop mpd_compare_total ; _Int_EqualBinop mpd_cmp_total");
   (["comparetotmag_eq"],
    "_Int_Res_EqualBinop mpd_compare_total_mag ; _Int_EqualBinop mpd_cmp_total_mag");
   (["shiftleft"],
    "_Res_Op_Lsize_Ctx _mpd_shiftl");
   (["shiftright"],
    "_Res_Op_Lsize_Ctx _mpd_shiftr");
   (["ln10"],
    "_test_mpd_qln10");
   (["baseconv"],
    "_Baseconv");
   (["get_uint64"],
    "_u64_MpdCtx mpd_get_uint");
   (["get_uint64_abs"],
    "_u64_MpdCtx mpd_abs_uint");
   (["get_ssize64"],
    "_i64_MpdCtx mpd_get_ssize");
   (["get_u64"],
    "_u64_MpdCtx mpd_get_u64");
   (["get_i64"],
    "_i64_MpdCtx mpd_get_i64");
   (["get_u32"],
    "_u32_MpdCtx mpd_get_u32");
   (["get_i32"],
    "_i32_MpdCtx mpd_get_i32")
  ].

Fixpoint lookup_drivers (table : list (list string * string))
  (operation : option string) : option string :=
  match table with
  | [] => None
  | (names, calls) :: rest =>
      if existsb (eqtoken operation) names then Some calls
      else lookup_drivers rest operation
  end.

Definition directives : list string :=
  [ "ExtendedRange"; "Precision"; "Rounding"; "MaxExponent"; "MinExponent";
    "Dectest"; "Version"; "Extended"; "Clamp"; "Locale" ].

Fixpoint find_directive (names : list string) (t0 : option string)
  : option string :=
  match names with
  | [] => None
  | d :: rest => if startswith t0 d then Some d else find_directive rest t0
  end.

Definition run_bind {A B : Type} (r : run A) (k : A -> run B) : run B :=
  match r with
  | Normal a => k a
  | Abort d => Abort d
  | Exit code => Exit code
  | Unfinished => Unfinished
  end.

Definition ASSERT (p : bool) : run unit :=
  if p then Normal tt else Abort EmptyString.

(** [mpd_assert_context_ok]; [round_guard] is the header's
    [MPD_ROUND_GUARD]. *)
Definition mpd_assert_context_ok (round_guard : Z) (ctx : mpd_context_t)
  : run unit :=
  run_bind (ASSERT ((0 <? prec ctx) && (prec ctx <=? MPD_READ_MAX_PREC)))
  (fun _ =>
  run_bind (ASSERT ((0 <=? emax ctx) && (emax ctx <=? MPD_READ_MAX_PREC)))
  (fun _ =>
  run_bind (ASSERT ((- MPD_READ_MAX_PREC <=? emin ctx) && (emin ctx <=? 0)))
  (fun _ =>
  run_bind (ASSERT ((0 <=? round ctx) && (round ctx <? round_guard)))
  (fun _ =>
  run_bind (ASSERT (traps ctx <=? MPD_Max_status))
  (fun _ =>
  run_bind (ASSERT (status ctx <=? MPD_Max_status))
  (fun _ =>
  run_bind (ASSERT ((clamp ctx =? 0) || (clamp ctx =? 1)))
  (fun _ =>
  ASSERT ((allcr ctx =? 0) || (allcr ctx =? 1))))))))).

(** The body of the [while (fgets(...))] loop of [doit] for one [line]. *)
Definition doit_line (round_guard : Z) (filename line : string)
  (ctx : mpd_context_t) : run line_action :=
  let token := split line in
  match token with
  | [] => Normal (Cleanup "no tokens")
  | id :: _ =>
      let t0 := Some id in
      if startswith t0 "--" then Normal (Cleanup "comment")
      else if startswith t0 "bool" then Normal (Cleanup "bool")
      else
        match find_directive directives t0 with
        | Some d => Normal (Directive d)
        | None =>
            run_bind (mpd_assert_context_ok round_guard ctx) (fun _ =>
            run_bind (get_testno id) (fun testno =>
            if negb (check_skip t0 =? 0) then Normal (Cleanup "skip list")
            else if startswith t0 "cov32" then Normal (Cleanup "cov32")
            else
              let t1 :=
                if startswith t0 "pwmx" then Some "powmod"
                else token_at token 1 in
              match lookup_drivers dispatch_table t1 with
              | Some calls => Normal (Drivers calls)
              | None =>
                  if startswith t1 "get_" then Normal (Cleanup "get_")
                  else if eqtoken t1 "rescale" then
                    Normal (Cleanup "rescale")
                  else
                    mpd_err_fatal
                      (filename ++ ": unknown operation: " ++ line)%string
              end))
        end
  end.

End Doit_c.

(** ** [tests++/test.cc]: the allocation functions of the C++ runner *)

Module Test_cxx.
Import Mpd.

Definition UINT64_MAX : Z := 2 ^ 64 - 1.

(** The variables of the file.  [alloc_fail] and [alloc_idx] are
    thread-local [uint64_t]s; the embedding follows one thread. *)
Record alloc_state : Type := mk_alloc {
  custom : bool;
  enable_check_alloc : bool;
  initialized : bool;
  alloc_fail : Z;
  alloc_idx : Z
}.

(** [if (++alloc_idx >= alloc_fail) return nullptr;], the increment
    wrapping at 64 bits; [primary] is the answer of the primary
    function. *)
Definition malloc_fail (primary : bool) (st : alloc_state)
  : bool * alloc_state :=
  let st := mk_alloc (custom st) (enable_check_alloc st) (initialized st)
                     (alloc_fail st) ((alloc_idx st + 1) mod 2 ^ 64) in
  if alloc_idx st >=? alloc_fail st then (false, st) else (primary, st).

(** [init_alloc]: the failing functions are installed once and for all,
    with a limit that is never reached. *)
Definition init_alloc (custom_alloc check_alloc : bool) (st : alloc_state)
  : run alloc_state :=
  if initialized st then Exit 1
  else Normal (mk_alloc (custom_alloc || custom st) check_alloc true
                        UINT64_MAX 0).

Definition set_alloc (ctx : mpd_context_t) (st : alloc_state)
  : mpd_context_t * alloc_state :=
  (set_traps ctx MPD_Malloc_error,
   mk_alloc (custom st) (enable_check_alloc st) (initialized st)
            UINT64_MAX 0).

Definition set_alloc_fail (ctx : mpd_context_t) (n : Z) (st : alloc_state)
  : mpd_context_t * alloc_state :=
  if enable_check_alloc st then
    (set_traps ctx MPD_Malloc_error,
     mk_alloc (custom st) (enable_check_alloc st) (initialized st) n 0)
  else (ctx, st).

End Test_cxx.

(** ** [tests++/runtest.cc]: the C++ runner *)

Module Runtest_cxx.
Import Mpd Cstr.

(** How a step of the C++ runner ends: with a value, with a thrown
    [test::Failure] (carrying [what()]), with another exception that no
    handler of the runner catches, or in [std::exit]. *)
Inductive result (A : Type) : Type :=
| Ok (a : A)
| Failure (what : string)
| Uncaught (exception : string)
| Exited (code : Z).
Arguments Ok {A} a.
Arguments Failure {A} what.
Arguments Uncaught {A} exception.
Arguments Exited {A} code.

Definition and_then {A B : Type} (r : result A) (k : A -> result B)
  : result B :=
  match r with
  | Ok a => k a
  | Failure w => Failure w
  | Uncaught e => Uncaught e
  | Exited c => Exited c
  end.

(** [token.at(i)]: throws [std::out_of_range] beyond the end. *)
Definition at_ (token : list string) (i : nat) : result string :=
  match nth_error token i with
  | Some t => Ok t
  | None => Uncaught "std::out_of_range"
  end.

Definition id_of (token : list string) : string :=
  match token with
  | id :: _ => id
  | [] => EmptyString
  end.

Section Source.

(** The value of [__FILE__] when the runner is compiled. *)
Variable FILE : string.

(** [err_token(token, args...)] at source line [line]: throws
    [test::Failure(token.at(0), ": ", args..., "  [", __FILE__, ":",
    __LINE__, "]")], whose [what()] is the concatenation. *)
Definition err_token {A : Type} (token : list string) (args : string)
  (line : string) : result A :=
  and_then (at_ token 0) (fun id =>
    Failure (id ++ ": " ++ args ++ "  [" ++ FILE ++ ":" ++ line ++ "]")%string).

Definition DECIMAL_ASSERT (p : bool) (token : list string) (line : string)
  : result unit :=
  if p then Ok tt else err_token token "assertion failure" line.

(** *** Known differences and the skip list *)

Definition ulp_cases := Runtest_c.ulp_cases.
Definition status_cases := Runtest_c.status_cases.

Definition skipit : list string :=
  ["absx900"; "addx9990"; "addx9991"; "clam090"; "clam091"; "clam092";
   "clam093"; "clam094"; "clam095"; "clam096"; "clam097"; "clam098";
   "clam099"; "clam189"; "clam190"; "clam191"; "clam192"; "clam193";
   "clam194"; "clam195"; "clam196"; "clam197"; "clam198"; "clam199";
   "comx990"; "comx991"; "cotx9990"; "cotx9991"; "ctmx9990"; "ctmx9991";
   "ddabs900"; "ddadd9990"; "ddadd9991"; "ddcom9990"; "ddcom9991";
   "ddcot9990"; "ddcot9991"; "ddctm9990"; "ddctm9991"; "dddiv9998";
   "dddiv9999"; "dddvi900"; "dddvi901"; "ddfma2990"; "ddfma2991";
   "ddfma39990"; "ddfma39991"; "ddlogb900"; "ddmax900"; "ddmax901";
   "ddmxg900"; "ddmxg901"; "ddmin900"; "ddmin901"; "ddmng900"; "ddmng901";
   "ddmul9990"; "ddmul9991"; "ddnextm900"; "ddnextm900"; "ddnextp900";
   "ddnextp900"; "ddnextt900"; "ddnextt901"; "ddqua998"; "ddqua999";
   "ddred900"; "ddrem1000"; "ddrem1001"; "ddrmn1000"; "ddrmn1001";
   "ddsub9990"; "ddsub9991"; "ddintx074"; "ddintx094"; "divx9998";
   "divx9999"; "dvix900"; "dvix901"; "dqabs900"; "dqadd9990"; "dqadd9991";
   "dqcom990"; "dqcom991"; "dqcot9990"; "dqcot9991"; "dqctm9990";
   "dqctm9991"; "dqdiv9998"; "dqdiv9999"; "dqdvi900"; "dqdvi901";
   "dqfma2990"; "dqfma2991"; "dqadd39990"; "dqadd39991"; "dqlogb900";
   "dqmax900"; "dqmax901"; "dqmxg900"; "dqmxg901"; "dqmin900"; "dqmin901";
   "dqmng900"; "dqmng901"; "dqmul9990"; "dqmul9991"; "dqnextm900";
   "dqnextp900"; "dqnextt900"; "dqnextt901"; "dqqua998"; "dqqua999";
   "dqred900"; "dqrem1000"; "dqrem1001"; "dqrmn1000"; "dqrmn1001";
   "dqsub9990"; "dqsub9991"; "dqintx074"; "dqintx094"; "expx900"; "fmax2990";
   "fmax2991"; "fmax39990"; "fmax39991"; "lnx900"; "logx900"; "logbx900";
   "maxx900"; "maxx901"; "mxgx900"; "mxgx901"; "mnm900"; "mnm901"; "mng900";
   "mng901"; "minx900"; "mulx990"; "mulx991"; "nextm900"; "nextp900";
   "nextt900"; "nextt901"; "plu900"; "powx900"; "powx901"; "pwsx900";
   "quax1022"; "quax1023"; "quax1024"; "quax1025"; "quax1026"; "quax1027";
   "quax1028"; "quax1029"; "quax0a2"; "quax0a3"; "quax998"; "quax999";
   "redx900"; "remx1000"; "remx1001"; "rmnx900"; "rmnx901"; "sqtx9900";
   "subx9990"; "subx9991"; "expx901"; "expx902"; "expx903"; "expx905";
   "lnx901"; "lnx902"; "lnx903"; "lnx905"; "logx901"; "logx902"; "logx903";
   "logx905"; "powx1183"; "powx1184"; "powx4001"; "powx4002"; "powx4003";
   "powx4005"; "powx4008"; "powx4010"; "powx4012"; "powx4014"; "scbx164";
   "scbx165"; "scbx166"; "powx4302"; "powx4303"; "powx4303";
   "powx4342"; "powx4343"; "pwsx805"; "pwmx325"; "pwmx326"].

(** [std::find(std::begin(skipit), std::end(skipit), id)]: exact
    comparison. *)
Definition skip_test (id : string) : bool :=
  existsb (fun s => String.eqb s id) skipit.

Definition startswith (s prefix : string) : bool := prefixcaseeq s prefix.
Definition eqtoken (tok s : string) : bool := strcaseeq tok s.

Definition istokchar (c : ascii) : bool :=
  isalnum c || (ispunct c && negb (ascii_eqb c dquote)
                && negb (ascii_eqb c squote)).

(** *** The tokenizer

    [nexttoken] moves three iterators over the line.  Here it takes the
    text from [next_start] to the end of the line and returns what
    [split] makes of the iterators afterwards. *)
Inductive scanned : Type :=
| Parse_error
| No_more_tokens
| Token (tok rest : string).

(** The loop over a quoted token, [q] being the quote character: a quote
    that is followed by another one is stepped over together with it,
    a single one ends the token and [next_start] is set behind it;
    reaching the end of the line is an error. *)
Fixpoint quoted_run (q : ascii) (s : string) : option (string * string) :=
  match s with
  | EmptyString => None
  | String c s1 =>
      if ascii_eqb c q then
        match s1 with
        | String c1 s2 =>
            if ascii_eqb c1 q then
              match quoted_run q s2 with
              | Some (t, rest) => Some (String c (String c1 t), rest)
              | None => None
              end
            else Some (EmptyString, s1)
        | EmptyString => Some (EmptyString, s1)
        end
      else
        match quoted_run q s1 with
        | Some (t, rest) => Some (String c t, rest)
        | None => None
        end
  end.

(** The loop over an unquoted token: it ends before the first white
    space or at the end of the line; a character that is not a token
    character is an error. *)
Fixpoint unquoted_run (s : string) : option (string * string) :=
  match s with
  | EmptyString => Some (EmptyString, EmptyString)
  | String c s1 =>
      if isspace c then Some (EmptyString, s)
      else if negb (istokchar c) then None
      else
        match unquoted_run s1 with
        | Some (t, rest) => Some (String c t, rest)
        | None => None
        end
  end.

Definition hyphen : ascii := ascii_of_nat 45.

Fixpoint nexttoken (s : string) : scanned :=
  match s with
  | EmptyString => No_more_tokens
  | String c s1 =>
      if isspace c then nexttoken s1
      else if ascii_eqb c hyphen
              && match s1 with
                 | String c1 _ => ascii_eqb c1 hyphen
                 | EmptyString => false
                 end
      then No_more_tokens
      else if ascii_eqb c dquote then
        match quoted_run dquote s1 with
        | Some (t, rest) => Token t rest
        | None => Parse_error
        end
      else if ascii_eqb c squote then
        match quoted_run squote s1 with
        | Some (t, rest) => Token t rest
        | None => Parse_error
        end
      else
        match unquoted_run s with
        | Some (t, rest) => Token t rest
        | None => Parse_error
        end
  end.

(** [split]: the loop [while (true)]; every token takes at least one
    character of the line, so [fuel] is the length of the line and one
    more. *)
Fixpoint split_loop (fuel : nat) (s : string) : result (list string) :=
  match fuel with
  | O => Ok []
  | S fuel' =>
      match nexttoken s with
      | Parse_error => Exited 1
      | No_more_tokens => Ok []
      | Token tok rest =>
          and_then (split_loop fuel' rest) (fun l => Ok (tok :: l))
      end
  end.

Definition split (line : string) : result (list string) :=
  split_loop (S (String.length line)) line.

(** *** Comparing with the expected result *)

(** The engine's [mpd_snprint_flags]. *)
Variable mpd_snprint_flags : Z -> string.

Definition known_ulp_diff (id calc expected : string) : bool :=
  existsb (fun c => String.eqb id (Runtest_c.rd_id c)
                    && String.eqb expected (Runtest_c.rd_expected c)
                    && String.eqb calc (Runtest_c.rd_calc c)) ulp_cases.

Definition known_status_diff (id : string) (expected_status ctx_status : Z)
  : bool :=
  existsb (fun c => String.eqb id (Runtest_c.sd_id c)
                    && (expected_status =? Runtest_c.sd_expected c)
                    && (ctx_status =? Runtest_c.sd_calc c)) status_cases.

Definition compare_expected (token : list string) (calc expected : string)
  (expected_status : Z) (ctx : mpd_context_t) : result unit :=
  and_then (at_ token 0) (fun id =>
  if (allcr ctx =? 0) && known_ulp_diff id calc expected then Ok tt
  else if known_status_diff id expected_status (status ctx) then Ok tt
  else if negb (String.eqb calc expected) then
    err_token token ("calc: " ++ calc ++ " expected: " ++ expected)%string
              "697"
  else if negb (status ctx =? expected_status) then
    err_token token
      ("calc: [" ++ mpd_snprint_flags (status ctx) ++ "] expected: ["
       ++ mpd_snprint_flags expected_status ++ "]")%string "707"
  else Ok tt).

(** *** Byte-wise equality of decimals *)

(** [a->flags & ~MPD_DATAFLAGS]. *)
Definition value_flags (a : mpd_t) : Z :=
  Z.land (flags a) (Z.lnot MPD_DATAFLAGS).

Definition equalmem (a b : mpd_t) : bool :=
  if negb (value_flags a =? value_flags b)
     || negb (exp a =? exp b)
     || negb (len a =? len b)
     || negb (digits a =? digits b)
  then false
  else Runtest_c.data_equal a b 0 (Z.to_nat (len a)).

Definition check_equalmem (token : list string) (a b : mpd_t)
  : result unit :=
  if negb (equalmem a b) then err_token token "const arg changed" "737"
  else Ok tt.

Definition get_testno (token : list string) : result Z :=
  and_then (at_ token 0) (fun id =>
  match strpbrk_digits id with
  | None => err_token token ("invalid test id: " ++ id)%string "746"
  | Some number => Ok (Runtest_c.strtoul_digits number 0)
  end).

Definition resolve_status_hack (expstatus status : Z) : Z :=
  let expstatus :=
    if negb (Z.land expstatus MPD_Invalid_operation =? 0)
       && negb (Z.land status MPD_Division_impossible =? 0)
    then MPD_Division_impossible else expstatus in
  if negb (Z.land expstatus MPD_Invalid_operation =? 0)
     && negb (Z.land status MPD_Division_undefined =? 0)
  then MPD_Division_undefined else expstatus.

(** *** [do_stream], one line; [do_file] *)

Inductive line_action : Type :=
| Continue (why : string)
| Directive (name : string)
| Drivers (calls : string).

(** The chain of [eqtoken(token.at(1), ...)] tests of [do_stream], in
    order, each with the driver calls of its branch. *)
Definition dispatch_table : list (list string * string) :=
  [
   (["tosci"; "apply"],
    "Str_DecCtx to_sci");
   (["toeng"],
    "Str_DecCtx to_eng");
   (["format"],
    "Fmt");
   (["class"],
    "Class");
   (["abs"],
    "Dec_DecCtx abs");
   (["copy"],
    "Dec_Dec copy");
   (["copyabs"],
    "Dec_Dec copy_abs");
   (["copynegate"],
    "Dec_Dec copy_negate");
   (["exp"],
    "Dec_DecCtx exp");
   (["invert"],
    "Dec_DecCtx logical_invert");
   (["invroot"],
    "Dec_DecCtx invroot");
   (["ln"],
    "Dec_DecCtx ln");
   (["log10"],
    "Dec_DecCtx log10");
   (["logb"],
    "Dec_DecCtx logb");
   (["minus"],
    "Dec_DecCtx minus");
   (["nextminus"],
    "Dec_DecCtx next_minus");
   (["nextplus"],
    "Dec_DecCtx next_plus");
   (["plus"],
    "Dec_DecCtx plus");
   (["reduce"],
    "Dec_DecCtx reduce");
   (["squareroot"],
    "Dec_DecCtx sqrt");
   (["quantize_squareroot"],
    "Dec_DecCtxWithQuantize sqrt");
   (["tointegral"],
    "Dec_DecCtx to_integral");
   (["tointegralx"],
    "Dec_DecCtx to_integral_exact");
   (["floor"],
    "Dec_DecCtx floor");
   (["ceil"],
    "Dec_DecCtx ceil");
   (["trunc"],
    "Dec_DecCtx trunc");
   (["samequantum"],
    "Bool_DecDec same_quantum");
   (["samequantum_eq"],
    "Bool_DecDec same_quantum");
   (["add"],
    "Dec_DecDecCtx add");
   (["and"],
    "Dec_DecDecCtx logical_and");
   (["copysign"],
    "Dec_DecDec copy_sign");
   (["divide"],
    "Dec_DecDecCtx div");
   (["divideint"],
    "Dec_DecDecCtx divint");
   (["max"],
    "Dec_DecDecCtx max");
   (["maxmag"; "max_mag"],
    "Dec_DecDecCtx max_mag");
   (["min"],
    "Dec_DecDecCtx min");
   (["minmag"; "min_mag"],
    "Dec_DecDecCtx min_mag");
   (["multiply"],
    "Dec_DecDecCtx mul");
   (["nexttoward"],
    "Dec_DecDecCtx next_toward");
   (["or"],
    "Dec_DecDecCtx logical_or");
   (["power"],
    "Dec_DecDecCtx pow");
   (["quantize"],
    "Dec_DecDecCtx quantize");
   (["resc"],
    "Dec_DecInt64Ctx rescale");
   (["remainder"],
    "Dec_DecDecCtx rem");
   (["remaindernear"],
    "Dec_DecDecCtx rem_near");
   (["rotate"],
    "Dec_DecDecCtx rotate");
   (["scaleb"],
    "Dec_DecDecCtx scaleb");
   (["shift"],
    "Dec_DecDecCtx shift ; Dec_DecInt64Ctx shiftn");
   (["subtract"],
    "Dec_DecDecCtx sub");
   (["xor"],
    "Dec_DecDecCtx logical_xor");
   (["add_eq"],
    "Dec_DecDecCtx add");
   (["and_eq"],
    "Dec_DecDecCtx logical_and");
   (["copysign_eq"],
    "Dec_DecDec copy_sign");
   (["divide_eq"],
    "Dec_DecDecCtx div");
   (["divideint_eq"],
    "Dec_DecDecCtx divint");
   (["max_eq"],
    "Dec_DecDecCtx max");
   (["maxmag_eq"],
    "Dec_DecDecCtx max_mag");
   (["min_eq"],
    "Dec_DecDecCtx min");
   (["minmag_eq"],
    "Dec_DecDecCtx min_mag");
   (["multiply_eq"],
    "Dec_DecDecCtx mul");
   (["nexttoward_eq"],
    "Dec_DecDecCtx next_toward");
   (["or_eq"],
    "Dec_DecDecCtx logical_or");
   (["power_eq"],
    "Dec_DecDecCtx pow");
   (["quantize_eq"],
    "Dec_DecDecCtx quantize");
   (["remainder_eq"],
    "Dec_DecDecCtx rem");
   (["remaindernear_eq"],
    "Dec_DecDecCtx rem_near");
   (["rotate_eq"],
    "Dec_DecDecCtx rotate");
   (["scaleb_eq"],
    "Dec_DecDecCtx scaleb");
   (["shift_eq"],
    "Dec_DecDecCtx shift");
   (["subtract_eq"],
    "Dec_DecDecCtx sub");
   (["xor_eq"],
    "Dec_DecDecCtx logical_xor");
   (["divmod"],
    "DecPair_DecDecCtx divmod");
   (["divmod_eq"],
    "DecPair_DecDecCtx divmod");
   (["fma"],
    "Dec_DecDecDecCtx fma");
   (["powmod"],
    "Dec_DecDecDecCtx powmod");
   (["fma_eq_eq_op"],
    "Dec_DecDecDecCtx fma");
   (["powmod_eq_eq_op"],
    "Dec_DecDecDecCtx powmod");
   (["fma_eq_op_eq"],
    "Dec_DecDecDecCtx fma");
   (["powmod_eq_op_eq"],
    "Dec_DecDecDecCtx powmod");
   (["fma_op_eq_eq"],
    "Dec_DecDecDecCtx fma");
   (["powmod_op_eq_eq"],
    "Dec_DecDecDecCtx powmod");
   (["fma_eq_eq_eq"],
    "Dec_DecDecDecCtx fma");
   (["powmod_eq_eq_eq"],
    "Dec_DecDecDecCtx powmod");
   (["compare"],
    "Dec_DecDecCtx compare ; Int_DecDec cmp");
   (["comparesig"],
    "Dec_DecDecCtx compare_signal");
   (["comparetotal"],
    "Dec_DecDec compare_total ; Int_DecDec cmp_total");
   (["comparetotmag"],
    "Dec_DecDec compare_total_mag ; Int_DecDec cmp_total_mag");
   (["compare_eq"],
    "Dec_DecDecCtx compare ; Int_DecDec cmp");
   (["comparesig_eq"],
    "Dec_DecDecCtx compare_signal");
   (["comparetotal_eq"],
    "Dec_DecDec compare_total ; Int_DecDec cmp_total");
   (["comparetotmag_eq"],
    "Dec_DecDec compare_total_mag ; Int_DecDec cmp_total_mag");
   (["shiftleft"],
    "Dec_DecInt64Ctx shiftl");
   (["shiftright"],
    "Dec_DecInt64Ctx shiftr");
   (["ln10"],
    "ln10");
   (["get_u64"; "get_uint64"],
    "u64_DecCtx");
   (["get_u32"; "get_uint32"],
    "u32_DecCtx");
   (["get_i64"; "get_int64"],
    "i64_DecCtx");
   (["get_i32"; "get_int32"],
    "i32_DecCtx")
  ].

Fixpoint lookup_drivers (table : list (list string * string))
  (operation : string) : option string :=
  match table with
  | [] => None
  | (names, calls) :: rest =>
      if existsb (eqtoken operation) names then Some calls
      else lookup_drivers rest operation
  end.

Definition directives : list string :=
  [ "ExtendedRange"; "Precision"; "MinExponent"; "MaxExponent"; "Rounding";
    "Clamp"; "Locale"; "Version"; "Extended" ].

Fixpoint find_directive (names : list string) (t0 : string)
  : option string :=
  match names with
  | [] => None
  | d :: rest => if startswith t0 d then Some d else find_directive rest t0
  end.

Definition mpd_assert_context_ok (round_guard : Z) (ctx : mpd_context_t)
  (token : list string) : result unit :=
  let max := Runtest_c.MPD_READ_MAX_PREC in
  and_then (DECIMAL_ASSERT ((0 <? prec ctx) && (prec ctx <=? max))
                           token "168") (fun _ =>
  and_then (DECIMAL_ASSERT ((0 <=? emax ctx) && (emax ctx <=? max))
                           token "169") (fun _ =>
  and_then (DECIMAL_ASSERT ((- max <=? emin ctx) && (emin ctx <=? 0))
                           token "170") (fun _ =>
  and_then (DECIMAL_ASSERT ((0 <=? round ctx) && (round ctx <? round_guard))
                           token "171") (fun _ =>
  and_then (DECIMAL_ASSERT (traps ctx <=? MPD_Max_status) token "172")
  (fun _ =>
  and_then (DECIMAL_ASSERT (status ctx <=? MPD_Max_status) token "173")
  (fun _ =>
  and_then (DECIMAL_ASSERT ((clamp ctx =? 0) || (clamp ctx =? 1))
                           token "174") (fun _ =>
  DECIMAL_ASSERT ((allcr ctx =? 0) || (allcr ctx =? 1)) token "175"))))))).

(** The body of the [while (std::getline(in, line))] loop of
    [do_stream] for one line; [skip_bignum] is the static of that
    name. *)
Definition do_stream_line (round_guard : Z) (skip_bignum : bool)
  (line : string) (ctx : mpd_context_t) : result line_action :=
  and_then (split line) (fun token =>
  match token with
  | [] => Ok (Continue "no tokens")
  | id :: _ =>
      if skip_bignum
         && existsb (fun t => 4096 <? Z.of_nat (String.length t)) token
      then Ok (Continue "bignum")
      else
        match find_directive directives id with
        | Some d => Ok (Directive d)
        | None =>
            and_then (mpd_assert_context_ok round_guard ctx token) (fun _ =>
            and_then (get_testno token) (fun testno =>
            if skip_test id then Ok (Continue "skip list")
            else if startswith id "cov32" then Ok (Continue "cov32")
            else
              and_then (if startswith id "pwmx"
                        then and_then (at_ token 1) (fun _ => Ok "powmod")
                        else at_ token 1) (fun t1 =>
              match lookup_drivers dispatch_table t1 with
              | Some calls => Ok (Drivers calls)
              | None =>
                  if startswith id "bool" then Ok (Continue "bool")
                  else if eqtoken t1 "get_uint64_abs"
                          || eqtoken t1 "get_ssize64"
                          || eqtoken t1 "get_uint32_abs"
                          || eqtoken t1 "get_ssize32"
                  then Ok (Continue "not implemented")
                  else if eqtoken t1 "rescale" then Ok (Continue "rescale")
                  else if eqtoken t1 "baseconv" then
                    Ok (Continue "not implemented")
                  else err_token token "unknown operation" "2742"
              end)))
        end
  end).

(** [do_file]: [stream] is how the [try] block ends (the file is opened
    and [do_stream] runs over it); a [test::Failure] is caught and its
    [what()] stored in [status[i]]. *)
Fixpoint store_status (status : list string) (i : nat) (what : string)
  : list string :=
  match status, i with
  | [], _ => []
  | _ :: rest, O => what :: rest
  | s :: rest, S i' => s :: store_status rest i' what
  end.

Definition do_file (stream : result unit) (status : list string) (i : nat)
  : result (list string) :=
  match stream with
  | Ok _ => Ok status
  | Failure what => Ok (store_status status i what)
  | Uncaught e => Uncaught e
  | Exited c => Exited c
  end.

Definition EXIT_SUCCESS : Z := 0.
Definition EXIT_FAILURE : Z := 1.

Definition exit_status (status : list string) : Z :=
  if forallb (fun p => String.eqb p "PASS") status then EXIT_SUCCESS
  else EXIT_FAILURE.

End Source.

End Runtest_cxx.

(** ** Operations that report every refused allocation

    The allocation-failure loops step [alloc_fail] until the operation
    no longer reports [MPD_Malloc_error].  What they find depends on the
    operation; the statements about the thresholds at which a loop stops
    are about operations of the following kind: the operation asks for
    memory a fixed number of times, and as soon as a request is refused it
    gives up, reports [MPD_Malloc_error] and leaves a not-a-number in the
    decimal [res]. *)

Module Strict.
Import Mpd Test_c Drivers_c.

(** Every way in which [e] can end reports [MPD_Malloc_error] and leaves
    a not-a-number in [res]. *)
Fixpoint gives_up (res : reg) (e : engine (store * Z)) : Prop :=
  match e with
  | Ret (s, reported) =>
      Z.land reported MPD_Malloc_error <> 0
      /\ mpd_isnan (load s res) = true
  | Call _ k => gives_up res (k true) /\ gives_up res (k false)
  end.

(** [e] makes exactly [n] requests when all of them are granted and then
    reports no [MPD_Malloc_error]; it gives up at the first refusal. *)
Fixpoint needs (n : nat) (res : reg) (e : engine (store * Z)) : Prop :=
  match e, n with
  | Ret (_, reported), O => Z.land reported MPD_Malloc_error = 0
  | Call _ k, S n' => needs n' res (k true) /\ gives_up res (k false)
  | _, _ => False
  end.

(** The primary functions grant every request that [e] makes as long as
    its requests are granted. *)
Fixpoint granted (libc : request -> bool) (st : alloc_state)
  (e : engine (store * Z)) : Prop :=
  match e with
  | Ret _ => True
  | Call r k => test_func libc st r = true /\ granted libc st (k true)
  end.

End Strict.

(** ** Concrete engines and inputs

    Small stand-ins for the engine, on which the drivers can be run. *)

Module Fixtures.
Import Mpd Cstr Test_c Runtest_c Drivers_c.

Definition zero : mpd_t := mk_mpd 0 0 1 1 2 [0; 0].
Definition one : mpd_t := mk_mpd 0 0 1 1 2 [1; 0].
Definition qnan : mpd_t := mk_mpd MPD_NAN 0 0 0 2 [0; 0].
Definition snan : mpd_t := mk_mpd MPD_SNAN 0 0 0 2 [0; 0].

Definition with_exp (a : mpd_t) (e : Z) : mpd_t :=
  mk_mpd (flags a) e (digits a) (len a) (alloc a) (data a).

Definition render (d : mpd_t) : string :=
  if mpd_isnan d then "NaN"
  else if nth 0 (data d) 0 =? 0 then "0" else "1".

(** An engine in which every helper succeeds: [mpd_copy] yields the
    source, strings are read as 0 or 1, the triple of a decimal holds its
    first word and its exponent, and decoding a triple takes one
    allocation. *)
Definition decode (t : mpd_uint128_triple_t) : engine (Z * mpd_t * Z) :=
  match tag t with
  | MPD_TRIPLE_ERROR => Ret (-1, qnan, MPD_Conversion_syntax)
  | MPD_TRIPLE_QNAN => Ret (0, qnan, 0)
  | MPD_TRIPLE_SNAN => Ret (0, snan, 0)
  | _ =>
      Call (Rmalloc 16) (fun granted =>
        if granted then Ret (0, mk_mpd (sign t) (texp t) 1 1 2 [lo t; 0], 0)
        else Ret (-1, qnan, MPD_Malloc_error))
  end.

Definition encode (a : mpd_t) : mpd_uint128_triple_t :=
  if mpd_isqnan a then mk_triple MPD_TRIPLE_QNAN 0 0 0 0
  else if mpd_issnan a then mk_triple MPD_TRIPLE_SNAN 0 0 0 0
  else mk_triple MPD_TRIPLE_NORMAL (flags a) 0 (nth 0 (data a) 0) (exp a).

Definition env : Env :=
  mk_env (fun _ => true) (fun _ => 85)
         999999999999999999 999999999999999999 (-999999999999999999)
         4 0
         (fun _ => "flags")
         (fun x => x)
         (fun x sign => mk_mpd sign (exp x) (digits x) (len x) (alloc x)
                               (data x))
         (fun x sign type => mk_mpd (Z.lor sign type) 0 0 0 (alloc x)
                                    (data x))
         (fun _ src _ => src)
         (fun _ text _ => if String.eqb text "0" then zero else one)
         (fun d _ => render d)
         (fun d _ => (render d, Z.of_nat (String.length (render d))))
         encode
         (fun _ => decode).

(** An engine that cannot represent any decimal as a triple: encoding
    answers with the error tag, and decoding such a triple leaves a quiet
    not-a-number and reports a conversion syntax error. *)
Definition env_no_triple : Env :=
  mk_env (libc env) (random env) (MPD_MAX_PREC env) (MPD_MAX_EMAX env)
         (MPD_MIN_EMIN env) (MPD_ROUND_HALF_UP env) (MPD_Traps env)
         (mpd_snprint_flags env) (mpd_minalloc env) (mpd_set_flags env)
         (mpd_setspecial env) (mpd_copy env) (mpd_set_string env)
         (mpd_to_sci env) (mpd_to_sci_size env)
         (fun _ => mk_triple MPD_TRIPLE_ERROR 0 0 0 0)
         (fun _ => decode).

(** The engine [env] on a machine whose C library has no memory to
    give. *)
Definition env_no_memory : Env :=
  mk_env (fun _ => false) (random env) (MPD_MAX_PREC env) (MPD_MAX_EMAX env)
         (MPD_MIN_EMIN env) (MPD_ROUND_HALF_UP env) (MPD_Traps env)
         (mpd_snprint_flags env) (mpd_minalloc env) (mpd_set_flags env)
         (mpd_setspecial env) (mpd_copy env) (mpd_set_string env)
         (mpd_to_sci env) (mpd_to_sci_size env)
         (mpd_as_uint128_triple env) (mpd_from_uint128_triple env).

(** A triple that the engine can decode: a sign of 0 or 1, and an
    exponent of 0 for the special values, within eighteen digits for a
    finite number. *)
Definition decodable (t : mpd_uint128_triple_t) : bool :=
  (sign t <? 2)
  && match tag t with
     | MPD_TRIPLE_NORMAL =>
         (- 999999999999999999 <=? texp t) && (texp t <=? 999999999999999999)
     | MPD_TRIPLE_INF | MPD_TRIPLE_QNAN | MPD_TRIPLE_SNAN => texp t =? 0
     | MPD_TRIPLE_ERROR | Tag_value _ => false
     end.

(** The engine [env] with a decoder that looks at its triple first: a
    triple it cannot decode leaves a quiet not-a-number and reports a
    conversion syntax error. *)
Definition env_strict : Env :=
  mk_env (libc env) (random env) (MPD_MAX_PREC env) (MPD_MAX_EMAX env)
         (MPD_MIN_EMIN env) (MPD_ROUND_HALF_UP env) (MPD_Traps env)
         (mpd_snprint_flags env) (mpd_minalloc env) (mpd_set_flags env)
         (mpd_setspecial env) (mpd_copy env) (mpd_set_string env)
         (mpd_to_sci env) (mpd_to_sci_size env)
         (mpd_as_uint128_triple env)
         (fun _ t =>
            if decodable t then decode t
            else Ret (-1, qnan, MPD_Conversion_syntax)).

(** [n] requests in a row; [done] when all were granted, [failed] at the
    first refusal. *)
Fixpoint requests {A : Type} (n : nat) (done failed : A) : engine A :=
  match n with
  | O => Ret done
  | S n' =>
      Call (Rmalloc 8) (fun granted =>
        if granted then requests n' done failed else Ret failed)
  end.

(** A unary operation that copies its operand into the result after five
    allocations, and that leaves a quiet not-a-number and reports
    [MPD_Malloc_error] when one of them is refused. *)
Definition copy5 : unary_func :=
  fun res a s _ =>
    requests 5 (store_at s res (load s a), 0)
               (store_at s res qnan, MPD_Malloc_error).

(** A unary operation that needs one allocation; when it is refused the
    operation leaves a signaling not-a-number in the result, reports
    [MPD_Malloc_error], and has changed the exponent of its operand. *)
Definition careless : unary_func :=
  fun res a s _ =>
    requests 1 (store_at s res (load s a), 0)
               (store_at (store_at s a (with_exp (load s a) 7)) res snan,
                MPD_Malloc_error).

(** A paired division that reports [conditions] and leaves two
    not-a-numbers. *)
Definition divmod_reporting (conditions : Z) : binres_func :=
  fun q r _ _ s _ => Ret (store_at (store_at s q qnan) r qnan, conditions).

Definition all_zero : store :=
  mk_store zero zero zero zero zero zero zero zero zero zero zero.

Definition context : mpd_context_t :=
  mk_ctx 9 384 (-383) MPD_Malloc_error 0 0 4 0 1.

Definition no_report : report := mk_report [] 0 0.

(** The state of [test.c] after [mpd_init_alloc(false, check_alloc)]. *)
Definition allocator (check_alloc : bool) : alloc_state :=
  mk_alloc ceil_funcs primary_set check_alloc true 0 0 0.

Definition start (check_alloc : bool) : machine :=
  mk_machine all_zero context (allocator check_alloc) no_report 0 1.

(** The six bytes: quote, 1, quote, quote, 1, quote. *)
Definition quoted_1_1 : string :=
  String dquote (String "1" (String dquote (String dquote
    (String "1" (String dquote EmptyString))))).

(** The four bytes 1, quote, quote, 1 and the three bytes 1, quote, 1. *)
Definition token_1qq1 : string :=
  String "1" (String dquote (String dquote (String "1" EmptyString))).
Definition token_1q1 : string :=
  String "1" (String dquote (String "1" EmptyString)).

End Fixtures.

(** ** The notions used in the statements *)

Module Stated.
Import Mpd.

(** A decimal whose [len] counts words that are there. *)
Definition well_formed (a : mpd_t) : Prop :=
  0 <= len a <= Z.of_nat (List.length (data a)).

(** The coefficient of a decimal: its words in use. *)
Definition coefficient (a : mpd_t) : list Z :=
  firstn (Z.to_nat (len a)) (data a).

End Stated.

Module Lines.
Import Cstr.

(** Text that consists of white space only. *)
Fixpoint all_space (s : string) : bool :=
  match s with
  | EmptyString => true
  | String c s' => isspace c && all_space s'
  end.

(** Text whose first byte is a double quote. *)
Definition starts_with_dquote (s : string) : bool :=
  match s with
  | EmptyString => false
  | String c _ => ascii_eqb c dquote
  end.

End Lines.

(** The override tables, read as relations.  The C runner compares the
    test id with [strcasecmp], the C++ runner with [==]. *)
Module Overrides.
Import Mpd Cstr Runtest_c.

Definition ulp_entry (same_id : string -> string -> Prop)
  (id calc expected : string) : Prop :=
  exists c, In c ulp_cases /\ same_id id (rd_id c)
            /\ expected = rd_expected c /\ calc = rd_calc c.

Definition status_entry (same_id : string -> string -> Prop)
  (id : string) (calc expected : Z) : Prop :=
  exists c, In c status_cases /\ same_id id (sd_id c)
            /\ expected = sd_expected c /\ calc = sd_calc c.

(** The deviation is covered by a table: by an entry for the results,
    which counts only when [allcr] is 0, or by an entry for the status. *)
Definition covered (same_id : string -> string -> Prop)
  (id calc expected : string) (ctx : mpd_context_t)
  (expected_status : Z) : Prop :=
  (allcr ctx = 0 /\ ulp_entry same_id id calc expected)
  \/ status_entry same_id id (status ctx) expected_status.

Definition same_id_c (id entry : string) : Prop :=
  strcaseeq id entry = true.

Definition same_id_cxx (id entry : string) : Prop := id = entry.

End Overrides.

(** The operations that the dispatch chains know, and the lines that
    come to the chains. *)
Module Registry.
Import Mpd Cstr.

(** The C runner: the names tested by the chain of [doit], the names
    that start with "get_", and "rescale". *)
Definition known_c (operation : string) : Prop :=
  (exists name, In name (flat_map fst Doit_c.dispatch_table)
                /\ strcaseeq operation name = true)
  \/ prefixcaseeq operation "get_" = true
  \/ strcaseeq operation "rescale" = true.

(** A line of the C runner whose first token [id] is neither a comment
    nor a directive nor an id that is skipped, read in a context that
    passes [mpd_assert_context_ok]; the id contains a digit and does not
    start with "pwmx" (which would replace the operation). *)
Definition dispatched_c (round_guard : Z) (ctx : mpd_context_t)
  (id : string) : Prop :=
  Runtest_c.startswith (Some id) "--" = false
  /\ Runtest_c.startswith (Some id) "bool" = false
  /\ Doit_c.find_directive Doit_c.directives (Some id) = None
  /\ Doit_c.mpd_assert_context_ok round_guard ctx = Normal tt
  /\ strpbrk_digits id <> None
  /\ Runtest_c.check_skip (Some id) = 0
  /\ Runtest_c.startswith (Some id) "cov32" = false
  /\ Runtest_c.startswith (Some id) "pwmx" = false.

(** The C++ runner: the names tested by the chain of [do_stream] and
    the names it passes over as not implemented or obsolete. *)
Definition passed_over_cxx : list string :=
  [ "get_uint64_abs"; "get_ssize64"; "get_uint32_abs"; "get_ssize32";
    "rescale"; "baseconv" ].

Definition known_cxx (operation : string) : Prop :=
  exists name,
    In name (flat_map fst Runtest_cxx.dispatch_table ++ passed_over_cxx)
    /\ strcaseeq operation name = true.

Definition dispatched_cxx (FILE : string) (round_guard : Z)
  (ctx : mpd_context_t) (token : list string) (id : string) : Prop :=
  Runtest_cxx.find_directive Runtest_cxx.directives id = None
  /\ Runtest_cxx.mpd_assert_context_ok FILE round_guard ctx token = Runtest_cxx.Ok tt
  /\ strpbrk_digits id <> None
  /\ Runtest_cxx.skip_test id = false
  /\ Runtest_cxx.startswith id "cov32" = false
  /\ Runtest_cxx.startswith id "pwmx" = false
  /\ Runtest_cxx.startswith id "bool" = false.

End Registry.

(** The state in which the drivers enter an allocation-failure loop when
    allocation-failure checking was not enabled at program start: the
    switch of [test.c] is off, and [mpd_set_alloc] has installed the
    primary functions and set the trap for [MPD_Malloc_error]. *)
Module Quiet.
Import Mpd Test_c Drivers_c.

Definition unchecked (m : machine) : Prop :=
  enable_check_alloc (alloc_st m) = false.

Definition settled (m : machine) : Prop :=
  unchecked m
  /\ mpd_funcs (alloc_st m) = primary_set
  /\ traps (ctx m) = MPD_Malloc_error.

(** The run does not stop for want of fuel, and where it returns, [P]
    holds of the value and the state returned.  (It may also end the
    program, in [exit] or in a failed assertion.) *)
Definition ends {A : Type} (P : A -> machine -> Prop)
  (r : run (A * machine)) : Prop :=
  match r with
  | Normal (a, m) => P a m
  | Unfinished => False
  | _ => True
  end.

(** A trial at threshold [n] that ran under the primary functions and
    ended without [MPD_Malloc_error] in the status. *)
Definition normal_trial (n : Z) (t : trial) : Prop :=
  t_alloc_fail t = n
  /\ t_funcs t = primary_set
  /\ Z.land (t_status t) MPD_Malloc_error = 0.

(** The loop called [func] once, at threshold 1. *)
Definition one_trial (trials : list trial) (m : machine) : Prop :=
  exists t, trials = [t] /\ normal_trial 1 t.

(** A loop that makes exactly one invocation, in the words of the
    claim: from the state [m0] in which the operation [e] is called (the
    decimals prepared, the status cleared), the operation runs once,
    against the allocation functions as they are.  If it reports
    [MPD_Malloc_error] the run ends in [exit(1)], the condition being
    trapped; otherwise the loop returns with this one trial, at
    threshold [k] and under the primary functions, and leaves the
    decimals and the status as that one run of the operation left
    them. *)
Definition once (W : Env)
  (e : store -> mpd_context_t -> engine (store * Z)) (k : Z) (m0 : machine)
  : run (list trial * machine) :=
  let '(s, reported) :=
    fst (run_engine (libc W) (e (mem m0) (ctx m0)) (alloc_st m0)) in
  if Z.land reported MPD_Malloc_error =? 0 then
    Normal ([mk_trial k primary_set (mem m0) s reported],
            with_ctx (with_mem m0 s) (set_status (ctx m0) reported))
  else Exit 1.

End Quiet.

(** The parts of the state that the helpers on decimals leave alone. *)
Definition same_but_mem (m m' : Drivers_c.machine) : Prop :=
  Drivers_c.ctx m' = Drivers_c.ctx m
  /\ Drivers_c.alloc_st m' = Drivers_c.alloc_st m
  /\ Drivers_c.rep m' = Drivers_c.rep m
  /\ Drivers_c.extended m' = Drivers_c.extended m.

(** What the trials of a loop "Allocation failures" look like when
    allocation-failure checking is enabled. *)
Module Probes.
Import Mpd Test_c Drivers_c.

(** The run returns, and [P] holds of the value and the state
    returned. *)
Definition returns {A : Type} (P : A -> machine -> Prop)
  (r : run (A * machine)) : Prop :=
  match r with
  | Normal (a, m) => P a m
  | _ => False
  end.

(** A trial at threshold [k], run under the failing functions, that
    ended with [MPD_Malloc_error] in the status and a not-a-number in
    [result]. *)
Definition failing (k : Z) (t : trial) : Prop :=
  t_alloc_fail t = k
  /\ t_funcs t = fail_set
  /\ Z.land (t_status t) MPD_Malloc_error <> 0
  /\ mpd_isnan (load (t_after t) R_result) = true.

(** A trial at threshold [k], run under the failing functions, that
    ended without [MPD_Malloc_error] in the status. *)
Definition passing (k : Z) (t : trial) : Prop :=
  t_alloc_fail t = k
  /\ t_funcs t = fail_set
  /\ Z.land (t_status t) MPD_Malloc_error = 0.

(** [j] failing trials at the thresholds [k], [k + 1], ... and then one
    passing trial, which leaves the memory [final]. *)
Fixpoint probed (j : nat) (k : Z) (trials : list trial) (final : store)
  : Prop :=
  match j, trials with
  | O, [t] => passing k t /\ final = t_after t
  | S j', t :: rest => failing k t /\ probed j' (k + 1) rest final
  | _, _ => False
  end.

End Probes.

(** The state in which the first loop of [_Res_Op_Ctx] is entered when
    the runner was started with [--alloc]: checking enabled, the loop
    variable at 1. *)
Definition Fixtures_entry : Drivers_c.machine :=
  Drivers_c.with_alloc_st (Fixtures.start true)
    (Test_c.with_alloc_fail (Fixtures.allocator true) 1).

(** Decoding a triple, as the runner observes it. *)
Module Triples.
Import Mpd Test_c Drivers_c.

(** Some call of [mpd_from_uint128_triple] on [triple] returned [ret],
    left [r] in its result and reported [status]. *)
Definition decodes (W : Env) (triple : mpd_uint128_triple_t) (ret : Z)
  (r : mpd_t) (status : Z) : Prop :=
  exists x st,
    fst (run_engine (libc W) (mpd_from_uint128_triple W x triple) st)
    = (ret, r, status).

End Triples.

(** ** Engines that only ask for memory

    To observe what the installed functions answer, an engine that makes
    the requests of a list, one after the other whatever the answers
    are, and returns the answers in order. *)
Module Scripts.
Import Mpd Test_c.

Fixpoint asks (rs : list request) (seen : list bool) : engine (list bool) :=
  match rs with
  | [] => Ret seen
  | r :: rs' => Call r (fun b => asks rs' (seen ++ [b]))
  end.

End Scripts.

(** ** Sequences of calls into [tests/test.c]

    What the rest of the program can do with the allocation state after
    [mpd_init_alloc]: call an installed function, or one of the three
    switches with the context it has at hand. *)
Module Api.
Import Mpd Test_c.

Inductive action : Type :=
| Call_alloc (r : request)
| Set_alloc
| Set_alloc_count
| Set_alloc_fail.

Definition act (libc : request -> bool) (s : mpd_context_t * alloc_state)
  (a : action) : mpd_context_t * alloc_state :=
  match a with
  | Call_alloc r => (fst s, snd (serve libc (snd s) r))
  | Set_alloc => mpd_set_alloc (fst s) (snd s)
  | Set_alloc_count => mpd_set_alloc_count (fst s) (snd s)
  | Set_alloc_fail => mpd_set_alloc_fail (fst s) (snd s)
  end.

Definition acts (libc : request -> bool)
  (s : mpd_context_t * alloc_state) (l : list action)
  : mpd_context_t * alloc_state :=
  fold_left (act libc) l s.

End Api.

(** ** Lines made of words

    Text for the statements about the tokenizers: words without white
    space, each followed by a gap of white space, and a tail. *)
Module Words.
Import Cstr.

(** Text without a white-space byte. *)
Fixpoint no_space (s : string) : bool :=
  match s with
  | EmptyString => true
  | String c s' => negb (isspace c) && no_space s'
  end.

(** The first byte, if there is one, is not a quote character. *)
Definition unquoted (s : string) : bool :=
  match s with
  | EmptyString => true
  | String c _ => negb (ascii_eqb c dquote) && negb (ascii_eqb c squote)
  end.

(** A word: not empty, no white space, no quote character in front. *)
Definition word (t : string) : bool :=
  match t with
  | EmptyString => false
  | String _ _ => unquoted t && no_space t
  end.

(** A gap: one white-space byte or more. *)
Definition gap (s : string) : bool :=
  match s with
  | EmptyString => false
  | String c s' => isspace c && Lines.all_space s'
  end.

Definition spaced (p : string * string) : bool := word (fst p) && gap (snd p).

(** The words with their gaps, then [tail]. *)
Fixpoint line_of (words : list (string * string)) (tail : string) : string :=
  match words with
  | [] => tail
  | (t, sep) :: rest => (t ++ sep ++ line_of rest tail)%string
  end.

End Words.

(** Words and tails for the tokenizer of the C++ runner. *)
Module Words_cxx.
Import Cstr.

(** Text of token characters only. *)
Fixpoint all_tokchars (s : string) : bool :=
  match s with
  | EmptyString => true
  | String c s' => Runtest_cxx.istokchar c && all_tokchars s'
  end.

(** Text that starts with two hyphens. *)
Definition comment (s : string) : bool :=
  match s with
  | String c (String c1 _) =>
      ascii_eqb c Runtest_cxx.hyphen && ascii_eqb c1 Runtest_cxx.hyphen
  | _ => false
  end.

(** A word: not empty, token characters only, not the start of a
    comment. *)
Definition word (t : string) : bool :=
  match t with
  | EmptyString => false
  | String _ _ => all_tokchars t && negb (comment t)
  end.

Definition spaced (p : string * string) : bool :=
  word (fst p) && Words.gap (snd p).

(** The end of the line, or a comment. *)
Definition ends_line (s : string) : bool :=
  match s with
  | EmptyString => true
  | String _ _ => comment s
  end.

End Words_cxx.

(** ** [tests++/runtest.cc]: [scan_conditions] *)

Module Scan_cxx.
Import Mpd Cstr Runtest_cxx.

(** The loop [for (size_t i = n; i < token.size(); i++)] over the
    conditions left, [token] being the whole vector (for the id in the
    message of [err_token], thrown at source line 664). *)
Fixpoint scan_loop (FILE : string) (token conditions : list string)
  (status : Z) : result Z :=
  match conditions with
  | [] => Ok status
  | condition :: rest =>
      if eqtoken condition "Clamped" then
        scan_loop FILE token rest (Z.lor status MPD_Clamped)
      else if eqtoken condition "Conversion_syntax" then
        scan_loop FILE token rest (Z.lor status MPD_Conversion_syntax)
      else if eqtoken condition "Division_by_zero" then
        scan_loop FILE token rest (Z.lor status MPD_Division_by_zero)
      else if eqtoken condition "Division_impossible" then
        scan_loop FILE token rest (Z.lor status MPD_Division_impossible)
      else if eqtoken condition "Division_undefined" then
        scan_loop FILE token rest (Z.lor status MPD_Division_undefined)
      else if eqtoken condition "Fpu_error" then
        scan_loop FILE token rest (Z.lor status MPD_Fpu_error)
      else if eqtoken condition "Inexact" then
        scan_loop FILE token rest (Z.lor status MPD_Inexact)
      else if eqtoken condition "Invalid_context" then
        scan_loop FILE token rest (Z.lor status MPD_Invalid_context)
      else if eqtoken condition "Invalid_operation" then
        scan_loop FILE token rest (Z.lor status MPD_Invalid_operation)
      else if eqtoken condition "Malloc_error" then
        scan_loop FILE token rest (Z.lor status MPD_Malloc_error)
      else if eqtoken condition "Not_implemented" then
        scan_loop FILE token rest (Z.lor status MPD_Not_implemented)
      else if eqtoken condition "Overflow" then
        scan_loop FILE token rest (Z.lor status MPD_Overflow)
      else if eqtoken condition "Rounded" then
        scan_loop FILE token rest (Z.lor status MPD_Rounded)
      else if eqtoken condition "Subnormal" then
        scan_loop FILE token rest (Z.lor status MPD_Subnormal)
      else if eqtoken condition "Underflow" then
        scan_loop FILE token rest (Z.lor status MPD_Underflow)
      else err_token FILE token "scan_conditions: unknown status" "664"
  end.

Definition scan_conditions (FILE : string) (token : list string) (n : nat)
  : result Z :=
  scan_loop FILE token (skipn n token) 0.

End Scan_cxx.

(** The chain of [scan_conditions], read as a table: the status bit of a
    condition name, compared as [eqtoken] does. *)
Module Conditions.
Import Mpd Cstr.

Definition table : list (string * Z) :=
  [ ("Clamped", MPD_Clamped); ("Conversion_syntax", MPD_Conversion_syntax);
    ("Division_by_zero", MPD_Division_by_zero);
    ("Division_impossible", MPD_Division_impossible);
    ("Division_undefined", MPD_Division_undefined);
    ("Fpu_error", MPD_Fpu_error); ("Inexact", MPD_Inexact);
    ("Invalid_context", MPD_Invalid_context);
    ("Invalid_operation", MPD_Invalid_operation);
    ("Malloc_error", MPD_Malloc_error);
    ("Not_implemented", MPD_Not_implemented); ("Overflow", MPD_Overflow);
    ("Rounded", MPD_Rounded); ("Subnormal", MPD_Subnormal);
    ("Underflow", MPD_Underflow) ].

Fixpoint lookup (t : list (string * Z)) (condition : string) : option Z :=
  match t with
  | [] => None
  | (name, b) :: rest =>
      if strcaseeq condition name then Some b else lookup rest condition
  end.

Definition bit (condition : string) : option Z := lookup table condition.

(** [status |= bit] for a name of the table; other names add nothing. *)
Definition add (status : Z) (condition : string) : Z :=
  match bit condition with
  | Some b => Z.lor status b
  | None => status
  end.

(** The token starts a comment for the C runner. *)
Definition comment (condition : string) : bool :=
  prefixcaseeq condition "--".

End Conditions.

(** ** [tests/runtest.c]: the command line of [main] *)

Module Main_c.
Import Mpd Cstr Runtest_c.

(** The three locals of [main] that the loop over [argv] sets;
    [filename] starts as [NULL]. *)
Record options : Type := mk_options {
  filename : option string;
  custom_alloc : bool;
  check_alloc : bool
}.

(** [usage]: a line on [stderr], then [exit(EXIT_FAILURE)]. *)
Definition usage {A : Type} : run A := Exit 1.

(** [strcmp(argv[i], "-") == 0 || !startswith(argv[i], "--")]. *)
Definition names_file (arg : string) : bool :=
  String.eqb arg "-" || negb (startswith (Some arg) "--").

(** The loop [for (int i = 1; i < argc; i++)] over [argv[1]], ...,
    [argv[argc-1]]. *)
Fixpoint parse_loop (args : list string) (o : options) : run options :=
  match args with
  | [] => Normal o
  | arg :: rest =>
      if match filename o with None => true | Some _ => false end
         && names_file arg
      then parse_loop rest
             (mk_options (Some arg) (custom_alloc o) (check_alloc o))
      else if negb (custom_alloc o) && String.eqb arg "--custom"
      then parse_loop rest (mk_options (filename o) true (check_alloc o))
      else if negb (check_alloc o) && String.eqb arg "--alloc"
      then parse_loop rest (mk_options (filename o) (custom_alloc o) true)
      else usage
  end.

(** The loop and the test [if (filename == NULL) usage();] after it. *)
Definition parse_args (args : list string) : run (string * bool * bool) :=
  match parse_loop args (mk_options None false false) with
  | Normal o =>
      match filename o with
      | None => usage
      | Some f => Normal (f, custom_alloc o, check_alloc o)
      end
  | Abort d => Abort d
  | Exit c => Exit c
  | Unfinished => Unfinished
  end.

End Main_c.

(** What the loop of [main] accepts, as a relation between the
    arguments, the options before the loop and the options after it:
    no argument twice; every argument is a file name (and none was set
    before), or a switch that was off; at most one file name. *)
Module Accepts.

Definition accepted (args : list string) (o o' : Main_c.options) : Prop :=
  NoDup args
  /\ (forall x, In x args ->
        (Main_c.names_file x = true /\ Main_c.filename o = None)
        \/ (x = "--custom" /\ Main_c.custom_alloc o = false)
        \/ (x = "--alloc" /\ Main_c.check_alloc o = false))
  /\ (forall x y, In x args -> In y args ->
        Main_c.names_file x = true -> Main_c.names_file y = true -> x = y)
  /\ Main_c.filename o'
     = match Main_c.filename o with
       | Some f => Some f
       | None => find Main_c.names_file args
       end
  /\ Main_c.custom_alloc o'
     = Main_c.custom_alloc o || existsb (String.eqb "--custom") args
  /\ Main_c.check_alloc o'
     = Main_c.check_alloc o || existsb (String.eqb "--alloc") args.

End Accepts.

(** ** Sequences of comparisons

    The calls of [compare_expected] that a run makes, one after the
    other, on the report of the runner. *)
Module Checks.
Import Mpd Cstr Runtest_c.

Record comparison : Type := mk_comparison {
  c_calc : string;
  c_expected : string;
  c_expected_status : Z;
  c_id : string;
  c_ctx : mpd_context_t
}.

Definition compare (flags_text : Z -> string) (r : report)
  (c : comparison) : report :=
  compare_expected flags_text (c_calc c) (c_expected c)
    (c_expected_status c) (c_id c) (c_ctx c) r.

Definition compare_all (flags_text : Z -> string) (l : list comparison)
  (r : report) : report :=
  fold_left (compare flags_text) l r.

(** The result or the status differs, and no table of known differences
    covers the test. *)
Definition fails (c : comparison) : bool :=
  (negb (streq (c_calc c) (c_expected c))
   || negb (status (c_ctx c) =? c_expected_status c))
  && negb ((allcr (c_ctx c) =? 0)
           && known_ulp_diff ulp_cases (Some (c_id c)) (c_calc c)
                (c_expected c)
           || known_status_diff status_cases (Some (c_id c))
                (c_expected_status c) (status (c_ctx c))).

End Checks.

(** ** [tests++/runtest.cc]: [do_files] *)

Module Files_cxx.
Import Mpd Cstr Runtest_cxx.

(** The loop [for (size_t i = 0; i < n; i++)] of [do_files] from [i]
    on; [streams] holds, for the files not yet run, how the [try] block
    of [do_file] ends. *)
Fixpoint do_files_from (streams : list (result unit))
  (status : list string) (i : nat) : result (list string) :=
  match streams with
  | [] => Ok status
  | stream :: rest =>
      and_then (do_file stream status i) (fun status' =>
      do_files_from rest status' (S i))
  end.

(** [do_files]: a vector of "PASS", one slot per file, the loop over
    the files, and [exit_status] of the vector at the end. *)
Definition do_files (streams : list (result unit)) : result Z :=
  and_then (do_files_from streams
              (repeat "PASS" (List.length streams)) 0)
    (fun status => Ok (exit_status status)).

(** What [do_files] prints for a file whose [try] block ends in
    [stream]. *)
Definition status_of (stream : result unit) : string :=
  match stream with
  | Failure what => what
  | _ => "PASS"
  end.

(** The [try] block ends in the block or in the handler of [do_file]. *)
Definition caught (stream : result unit) : bool :=
  match stream with
  | Ok _ | Failure _ => true
  | _ => false
  end.

End Files_cxx.

(** ** Test ids and their numbers *)

Module Digits.
Import Cstr.

Fixpoint no_digit (s : string) : bool :=
  match s with
  | EmptyString => true
  | String c s' => negb (isdigit c) && no_digit s'
  end.

Fixpoint all_digits (s : string) : bool :=
  match s with
  | EmptyString => true
  | String c s' => isdigit c && all_digits s'
  end.

(** The text does not go on with a digit. *)
Definition stops (s : string) : bool :=
  match s with
  | EmptyString => true
  | String c _ => negb (isdigit c)
  end.

(** The number that a run of decimal digits denotes, read after [acc]. *)
Fixpoint value (s : string) (acc : Z) : Z :=
  match s with
  | EmptyString => acc
  | String c s' => value s' (acc * 10 + (code c - 48))
  end.

End Digits.

(** ** Calls of the allocation functions of [tests++/test.cc] *)

Module Scripts_cxx.
Import Test_cxx.

(** One call of an installed function after the other, each with the
    answer that the primary function would give. *)
Fixpoint calls (primaries : list bool) (st : alloc_state)
  : list bool * alloc_state :=
  match primaries with
  | [] => ([], st)
  | p :: rest =>
      let (answer, st1) := malloc_fail p st in
      let (answers, st2) := calls rest st1 in
      (answer :: answers, st2)
  end.

End Scripts_cxx.

(** ** [tests++/runtest.cc]: the drivers

    The drivers of the C++ runner work on [Decimal] objects and on the
    thread's [context].  An operation of the engine's C++ interface
    returns a value or throws; [MallocError] is the exception for an
    allocation that was refused. *)

Module Drivers_cxx.
Import Mpd Cstr Test_cxx Runtest_cxx.

(** The [Decimal]s of [Dec_DecDecCtx], which hands references to them to
    [Dec_DecDecCtx_RunSingle].  A reference is the name of the object it
    refers to, so that two references to the same object are the same
    name. *)
Inductive reg : Type :=
| R_result
| R_tmp1
| R_tmp2
| R_op1
| R_op2.

Record store : Type := mk_store {
  s_result : mpd_t;
  s_tmp1 : mpd_t;
  s_tmp2 : mpd_t;
  s_op1 : mpd_t;
  s_op2 : mpd_t
}.

Definition load (s : store) (r : reg) : mpd_t :=
  match r with
  | R_result => s_result s
  | R_tmp1 => s_tmp1 s
  | R_tmp2 => s_tmp2 s
  | R_op1 => s_op1 s
  | R_op2 => s_op2 s
  end.

Definition store_at (s : store) (r : reg) (v : mpd_t) : store :=
  match r with
  | R_result => mk_store v (s_tmp1 s) (s_tmp2 s) (s_op1 s) (s_op2 s)
  | R_tmp1 => mk_store (s_result s) v (s_tmp2 s) (s_op1 s) (s_op2 s)
  | R_tmp2 => mk_store (s_result s) (s_tmp1 s) v (s_op1 s) (s_op2 s)
  | R_op1 => mk_store (s_result s) (s_tmp1 s) (s_tmp2 s) v (s_op2 s)
  | R_op2 => mk_store (s_result s) (s_tmp1 s) (s_tmp2 s) (s_op1 s) v
  end.

(** [&a == &b]. *)
Definition reg_eqb (a b : reg) : bool :=
  match a, b with
  | R_result, R_result => true
  | R_tmp1, R_tmp1 => true
  | R_tmp2, R_tmp2 => true
  | R_op1, R_op1 => true
  | R_op2, R_op2 => true
  | _, _ => false
  end.

(** How an expression of the engine's interface ends. *)
Inductive thrown : Type :=
| MallocError
| Exception (name : string).

Inductive returned (A : Type) : Type :=
| Value (a : A)
| Thrown (e : thrown).
Arguments Value {A} a.
Arguments Thrown {A} e.

(** A member function under test, [(x.*func)(y, context)]: it is given
    the names of [x] and [y], talks to the installed allocation
    functions, and either returns a [Decimal] or throws; it leaves the
    objects and the context as it leaves them.  Nothing is assumed about
    what it does to them. *)
Definition method : Type :=
  reg -> reg -> store -> mpd_context_t ->
  engine (store * mpd_context_t * returned mpd_t).

(** What the drivers need from outside [runtest.cc] and [test.cc]: the
    answer of the primary allocation function of [test.cc] to a request
    that the runner does not refuse, the value of the n-th call of
    [rnd()], constants of the engine's header, and the members of
    [Decimal] that the drivers use around the operation under test.
    These members are functions of their arguments here; a member that
    runs out of real memory, and the calls of the allocation functions
    that these members make themselves, are outside this embedding. *)
Record Env : Type := mk_env {
  primary : request -> bool;
  rnd : nat -> Z;
  MPD_MAX_PREC : Z;
  MPD_MAX_EMAX : Z;
  MPD_MIN_EMIN : Z;
  MPD_ROUND_HALF_UP : Z;
  mpd_snprint_flags : Z -> string;
  (** [Decimal(s, c)], [Decimal(s)] and [Decimal(n)] *)
  Decimal_string_context : string -> mpd_context_t -> mpd_t;
  Decimal_string : string -> mpd_t;
  Decimal_int : Z -> mpd_t;
  (** the copy constructor; [x = y] for an object [y]; [x = e] for a
      temporary [e]: each gives the new value from the old one of [x]
      (where there is one) and the source *)
  Decimal_copy : mpd_t -> mpd_t;
  copy_assign : mpd_t -> mpd_t -> mpd_t;
  move_assign : mpd_t -> mpd_t -> mpd_t;
  to_sci : mpd_t -> string;
  (** [x == y] and [x.cmp_total(y)] *)
  Decimal_eq : mpd_t -> mpd_t -> bool;
  cmp_total : mpd_t -> mpd_t -> Z;
  as_uint128_triple : mpd_t -> mpd_uint128_triple_t;
  (** [Decimal(triple)] *)
  Decimal_triple : mpd_uint128_triple_t -> engine (returned mpd_t)
}.

(** An engine call run against the allocation functions of [test.cc]:
    [malloc_fail], [calloc_fail] and [realloc_fail] are installed for
    good, and differ only in the primary function they pass a request
    on to. *)
Fixpoint run_engine {A : Type} (primary : request -> bool) (e : engine A)
  (st : alloc_state) : A * alloc_state :=
  match e with
  | Ret a => (a, st)
  | Call r k =>
      let (p, st') := malloc_fail (primary r) st in
      run_engine primary (k p) st'
  end.

(** The state the drivers run in: the [Decimal]s, the thread's
    [context], the variables of [test.cc], and the number of calls of
    [rnd()] so far. *)
Record machine : Type := mk_machine {
  mem : store;
  context : mpd_context_t;
  alloc_st : alloc_state;
  nrnd : nat
}.

Definition with_mem (m : machine) (s : store) : machine :=
  mk_machine s (context m) (alloc_st m) (nrnd m).
Definition with_context (m : machine) (c : mpd_context_t) : machine :=
  mk_machine (mem m) c (alloc_st m) (nrnd m).
Definition with_alloc_st (m : machine) (a : alloc_state) : machine :=
  mk_machine (mem m) (context m) a (nrnd m).
Definition with_nrnd (m : machine) (n : nat) : machine :=
  mk_machine (mem m) (context m) (alloc_st m) n.

(** How a step of a driver ends: as a step of the runner does, or,
    for a loop of this embedding that was given too few iterations to
    reach the end of the C++ loop, [Unfinished]. *)
Inductive run (A : Type) : Type :=
| Finished (r : result A)
| Unfinished.
Arguments Finished {A} r.
Arguments Unfinished {A}.

Definition M (A : Type) : Type := machine -> run (A * machine).

Definition ret {A : Type} (a : A) : M A := fun m => Finished (Ok (a, m)).

Definition bindM {A B : Type} (c : M A) (k : A -> M B) : M B :=
  fun m =>
    match c m with
    | Finished (Ok (a, m')) => k a m'
    | Finished (Failure what) => Finished (Failure what)
    | Finished (Uncaught e) => Finished (Uncaught e)
    | Finished (Exited code) => Finished (Exited code)
    | Unfinished => Unfinished
    end.

Declare Scope cxx_scope.
Delimit Scope cxx_scope with cxx.
Notation "x <- c1 ;; c2" := (bindM c1 (fun x => c2))
  (at level 61, c1 at next level, right associativity) : cxx_scope.
Notation "c1 ;; c2" := (bindM c1 (fun _ => c2))
  (at level 61, right associativity) : cxx_scope.
Local Open Scope cxx_scope.

Definition lift {A : Type} (r : result A) : M A :=
  fun m =>
    match r with
    | Ok a => Finished (Ok (a, m))
    | Failure what => Finished (Failure what)
    | Uncaught e => Finished (Uncaught e)
    | Exited code => Finished (Exited code)
    end.

Definition unfinished {A : Type} : M A := fun _ => Unfinished.

Definition get_mem : M store := fun m => Finished (Ok (mem m, m)).
Definition get_context : M mpd_context_t :=
  fun m => Finished (Ok (context m, m)).
Definition read (r : reg) : M mpd_t :=
  fun m => Finished (Ok (load (mem m) r, m)).
Definition write (r : reg) (v : mpd_t) : M unit :=
  fun m => Finished (Ok (tt, with_mem m (store_at (mem m) r v))).

(** [context.status(s)]. *)
Definition assign_status (s : Z) : M unit :=
  fun m => Finished (Ok (tt, with_context m (set_status (context m) s))).

(** [set_alloc(c)] and [set_alloc_fail(c, n)] of [test.cc] for a
    [Context] [c]; they return [c] as they leave it. *)
Definition set_alloc_of (c : mpd_context_t) : M mpd_context_t :=
  fun m =>
    let (c', a) := Test_cxx.set_alloc c (alloc_st m) in
    Finished (Ok (c', with_alloc_st m a)).
Definition set_alloc_fail_of (c : mpd_context_t) (n : Z)
  : M mpd_context_t :=
  fun m =>
    let (c', a) := Test_cxx.set_alloc_fail c n (alloc_st m) in
    Finished (Ok (c', with_alloc_st m a)).

(** The same for the thread's [context]. *)
Definition set_alloc : M unit :=
  fun m =>
    let (c, a) := Test_cxx.set_alloc (context m) (alloc_st m) in
    Finished (Ok (tt, with_alloc_st (with_context m c) a)).
Definition set_alloc_fail (n : Z) : M unit :=
  fun m =>
    let (c, a) := Test_cxx.set_alloc_fail (context m) n (alloc_st m) in
    Finished (Ok (tt, with_alloc_st (with_context m c) a)).

Section WithEnv.

Variable W : Env.

(** The value of [__FILE__] when the runner is compiled. *)
Variable FILE : string.

Definition next_rnd : M Z :=
  fun m => Finished (Ok (rnd W (nrnd m), with_nrnd m (S (nrnd m)))).

Definition readcontext (extended : bool) : mpd_context_t :=
  if extended then
    mk_ctx Runtest_c.MPD_READ_MAX_PREC Runtest_c.MPD_READ_MAX_PREC
           (- Runtest_c.MPD_READ_MAX_PREC)
           MPD_Malloc_error 0 0 (MPD_ROUND_HALF_UP W) 0 1
  else
    mk_ctx (MPD_MAX_PREC W) (MPD_MAX_EMAX W) (MPD_MIN_EMIN W)
           MPD_Malloc_error 0 0 (MPD_ROUND_HALF_UP W) 0 1.

(** [x = e] for a temporary [e]. *)
Definition assign_temporary (x : reg) (e : mpd_t) : M unit :=
  v <- read x ;; write x (move_assign W v e).

(** [x = y] for an object [y]. *)
Definition assign (x y : reg) : M unit :=
  v <- read x ;; w <- read y ;; write x (copy_assign W v w).

Definition mpd_init_rand (x : reg) : M unit :=
  let maxcontext := readcontext false in
  r0 <- next_rnd ;;
  s0 <- next_rnd ;;
  let r := r0 mod 100 in
  let sign := s0 mod 2 in
  if r >=? 80 then
    assign_temporary x
      (Decimal_string_context W "-1111111111e20200" maxcontext)
  else if r >=? 60 then
    assign_temporary x
      (Decimal_string_context W
         ("-1111111111222222222233333333334444444444555555555566666666667777777777"
          ++ "888888888899999999990000000000e-1201") maxcontext)
  else if r >=? 40 then
    assign_temporary x
      (if negb (sign =? 0) then Decimal_string W "-nan"
       else Decimal_string W "nan")
  else if r >=? 20 then
    assign_temporary x
      (if negb (sign =? 0) then Decimal_string W "-snan"
       else Decimal_string W "snan")
  else
    assign_temporary x
      (if negb (sign =? 0) then Decimal_string W "-inf"
       else Decimal_string W "inf").

Definition do_check_equalmem (token : list string) (a b : mpd_t)
  : M unit :=
  lift (check_equalmem FILE token a b).

(** *** A binary function: [Dec_DecDecCtx_RunSingle] *)

(** One run of the operation inside the loop, kept for stating what the
    loop has seen: the value of [n], the copy [save_result], the objects
    when the operation was called and when it returned or threw, and
    whether [MallocError] was caught. *)
Record trial : Type := mk_trial {
  t_n : Z;
  t_save : mpd_t;
  t_before : store;
  t_after : store;
  t_caught : bool
}.

(** [try { result = (tmp1.*func)(tmp2, context); } catch (MallocError&)]:
    answers whether [MallocError] was caught; when the operation returns
    a value, the value is assigned to [result]; another exception leaves
    the driver. *)
Definition try_call (result tmp1 tmp2 : reg) (func : method) : M bool :=
  fun m =>
    let '((s, c, r), a) :=
      run_engine (primary W) (func tmp1 tmp2 (mem m) (context m))
                 (alloc_st m) in
    let m1 := mk_machine s c a (nrnd m) in
    match r with
    | Value v =>
        Finished (Ok (false,
                      with_mem m1
                        (store_at s result
                           (move_assign W (load s result) v))))
    | Thrown MallocError => Finished (Ok (true, m1))
    | Thrown (Exception e) => Finished (Uncaught e)
    end.

(** The body of the loop of [Dec_DecDecCtx_RunSingle] up to the end of
    the [try] block: returns [save_result], the objects when the
    operation was called, and whether [MallocError] was caught. *)
Definition run_single_call (result tmp1 tmp2 : reg) (func : method)
  (op1 op2 : reg) (n : Z) : M (mpd_t * store * bool) :=
  mpd_init_rand tmp1 ;;
  mpd_init_rand tmp2 ;;
  assign tmp1 op1 ;;
  assign tmp2 op2 ;;
  r <- read result ;;
  let save_result := Decimal_copy W r in
  assign_status 0 ;;
  set_alloc_fail n ;;
  before <- get_mem ;;
  caught <- try_call result tmp1 tmp2 func ;;
  ret (save_result, before, caught).

(** The three comparisons of the [catch] block. *)
Definition run_single_checks (result tmp1 tmp2 : reg)
  (token : list string) (op1 op2 : reg) (save_result : mpd_t) : M unit :=
  vr <- read result ;;
  do_check_equalmem token vr save_result ;;
  v1 <- read tmp1 ;;
  o1 <- read op1 ;;
  do_check_equalmem token v1 o1 ;;
  v2 <- read tmp2 ;;
  o2 <- read op2 ;;
  do_check_equalmem token v2 o2.

(** The loop of [Dec_DecDecCtx_RunSingle] from the test of its condition
    on, [n] and [incr] being the variables of these names; the loop
    returns the trials it has made, in order. *)
Fixpoint run_single_loop (fuel : nat) (result tmp1 tmp2 : reg)
  (token : list string) (func : method) (op1 op2 : reg) (n incr : Z)
  : M (list trial) :=
  match fuel with
  | O => unfinished
  | S fuel' =>
      if n <? UINT64_MAX - 100 then
        called <- run_single_call result tmp1 tmp2 func op1 op2 n ;;
        let '(save_result, before, caught) := called in
        after <- get_mem ;;
        let t := mk_trial n save_result before after caught in
        if caught then
          set_alloc ;;
          run_single_checks result tmp1 tmp2 token op1 op2 save_result ;;
          incr <- (if n >? 50 then
                     r <- next_rnd ;; ret (r mod 100 + 1)
                   else ret incr) ;;
          rest <- run_single_loop fuel' result tmp1 tmp2 token func op1 op2
                    ((n + incr) mod 2 ^ 64) incr ;;
          ret (t :: rest)
        else
          set_alloc ;;
          ret [t]
      else ret []
  end.

(** [Dec_DecDecCtx_RunSingle]; returns the trials of its loop. *)
Definition Dec_DecDecCtx_RunSingle (fuel : nat) (result tmp1 tmp2 : reg)
  (token : list string) (func : method) (op1 op2 : reg)
  (expected : string) (expstatus : Z) : M (list trial) :=
  trials <- run_single_loop fuel result tmp1 tmp2 token func op1 op2 1 1 ;;
  r <- read result ;;
  let calc := to_sci W r in
  c <- get_context ;;
  lift (compare_expected FILE (mpd_snprint_flags W) token calc expected
          expstatus c) ;;
  (if negb (reg_eqb tmp1 result) then
     v1 <- read tmp1 ;; o1 <- read op1 ;; do_check_equalmem token v1 o1
   else ret tt) ;;
  (if negb (reg_eqb tmp2 result) then
     v2 <- read tmp2 ;; o2 <- read op2 ;; do_check_equalmem token v2 o2
   else ret tt) ;;
  ret trials.

(** *** The triple conversion test: [Triple] *)

(** [try { d = Decimal(triple); } catch (MallocError&)] for the local
    [d]: the new value of [d] and whether [MallocError] was caught. *)
Definition try_decode (triple : mpd_uint128_triple_t) (d : mpd_t)
  : M (mpd_t * bool) :=
  fun m =>
    let '(r, a) :=
      run_engine (primary W) (Decimal_triple W triple) (alloc_st m) in
    match r with
    | Value v => Finished (Ok ((move_assign W d v, false), with_alloc_st m a))
    | Thrown MallocError => Finished (Ok ((d, true), with_alloc_st m a))
    | Thrown (Exception e) => Finished (Uncaught e)
    end.

(** The loop "Allocation failures in Decimal(triple)" from the test of
    its condition on; it returns the context and [d] as it leaves them,
    and the number of times it has called [Decimal(triple)]. *)
Fixpoint triple_loop (fuel : nat) (token : list string)
  (triple : mpd_uint128_triple_t) (ctx : mpd_context_t) (d : mpd_t) (n : Z)
  : M (mpd_context_t * mpd_t * nat) :=
  match fuel with
  | O => unfinished
  | S fuel' =>
      if n <? UINT64_MAX - 1 then
        ctx <- set_alloc_fail_of ctx n ;;
        dc <- try_decode triple d ;;
        if snd dc then
          ctx <- set_alloc_of ctx ;;
          lift (DECIMAL_ASSERT FILE
                  (Decimal_eq W (fst dc) (Decimal_int W 10)) token "906") ;;
          r <- triple_loop fuel' token triple ctx (fst dc)
                 ((n + 1) mod 2 ^ 64) ;;
          ret (fst (fst r), snd (fst r), S (snd r))
        else
          ctx <- set_alloc_of ctx ;;
          ret (ctx, fst dc, 1%nat)
      else ret (ctx, d, O)
  end.

(** [Triple(token, dec, ctx)] in the 64-bit configuration; returns the
    context as it leaves it and, when it did not return before the loop,
    the [d] of its last two statements and the number of calls of
    [Decimal(triple)].  [line_inf] and [line_error] are the values of
    [__LINE__] in the two assertions whose text spans several lines
    (884 to 885, and 890 to 892). *)
Definition Triple (line_inf line_error : string) (fuel : nat)
  (token : list string) (dec : mpd_t) (ctx : mpd_context_t)
  : M (mpd_context_t * option (mpd_t * nat)) :=
  let triple := as_uint128_triple W dec in
  let decode_and_compare :=
    let d := Decimal_int W 10 in
    r <- triple_loop fuel token triple ctx d 1 ;;
    let d := snd (fst r) in
    do_check_equalmem token d dec ;;
    lift (DECIMAL_ASSERT FILE (cmp_total W d dec =? 0) token "915") ;;
    ret (fst (fst r), Some (d, snd r)) in
  match tag triple with
  | MPD_TRIPLE_QNAN | MPD_TRIPLE_SNAN =>
      lift (DECIMAL_ASSERT FILE (texp triple =? 0) token "881") ;;
      decode_and_compare
  | MPD_TRIPLE_INF =>
      lift (DECIMAL_ASSERT FILE
              ((hi triple =? 0) && (lo triple =? 0) && (texp triple =? 0))
              token line_inf) ;;
      decode_and_compare
  | MPD_TRIPLE_NORMAL => decode_and_compare
  | MPD_TRIPLE_ERROR =>
      lift (DECIMAL_ASSERT FILE
              ((sign triple =? 0) && (hi triple =? 0) && (lo triple =? 0)
               && (texp triple =? 0))
              token line_error) ;;
      ret (ctx, None)
  | Tag_value _ => decode_and_compare
  end.

End WithEnv.

End Drivers_cxx.

(** ** Concrete engines and inputs for the C++ drivers *)

Module Fixtures_cxx.
Import Mpd Test_cxx Runtest_cxx Drivers_cxx.

(** [Decimal(triple)] that takes one allocation for a finite number and
    throws [MallocError] when it is refused. *)
Definition decode (t : mpd_uint128_triple_t) : engine (returned mpd_t) :=
  match tag t with
  | MPD_TRIPLE_QNAN => Ret (Value Fixtures.qnan)
  | MPD_TRIPLE_SNAN => Ret (Value Fixtures.snan)
  | MPD_TRIPLE_NORMAL =>
      Call (Rmalloc 16) (fun granted =>
        if granted
        then Ret (Value (mk_mpd (sign t) (texp t) 1 1 2 [lo t; 0]))
        else Ret (Thrown MallocError))
  | _ => Ret (Thrown (Exception "ValueError"))
  end.

(** An engine in which every member succeeds: strings are read as 1 or
    as a quiet not-a-number, copies and assignments yield the source,
    and two decimals are equal when [equalmem] holds of them. *)
Definition env : Env :=
  mk_env (fun _ => true) (fun _ => 85)
         999999999999999999 999999999999999999 (-999999999999999999) 4
         (fun _ => "flags")
         (fun _ _ => Fixtures.one)
         (fun _ => Fixtures.qnan)
         (fun n => mk_mpd 0 0 2 1 2 [n; 0])
         (fun x => x)
         (fun _ y => y)
         (fun _ e => e)
         Fixtures.render
         (fun a b => equalmem a b)
         (fun a b => if equalmem a b then 0 else 1)
         Fixtures.encode
         decode.

(** A binary operation that returns its first operand after three
    allocations, and that throws [MallocError] at the first refusal
    without touching anything. *)
Definition first3 : method :=
  fun x _ s c =>
    Fixtures.requests 3 (s, c, Value (load s x)) (s, c, Thrown MallocError).

(** A binary operation that needs one allocation; when it is refused
    the operation throws [MallocError], having changed the exponent of
    its first operand. *)
Definition careless : method :=
  fun x _ s c =>
    Fixtures.requests 1
      (s, c, Value (load s x))
      (store_at s x (Fixtures.with_exp (load s x) 7), c, Thrown MallocError).

Definition all_one : store :=
  mk_store Fixtures.one Fixtures.one Fixtures.one Fixtures.one Fixtures.one.

(** The state of [test.cc] after [init_alloc(false, check_alloc)]. *)
Definition allocator (check_alloc : bool) : alloc_state :=
  mk_alloc false check_alloc true UINT64_MAX 0.

Definition start (check_alloc : bool) : machine :=
  mk_machine all_one Fixtures.context (allocator check_alloc) 0.

Definition test_line : list string :=
  ["addx001"; "add"; "1"; "1"; "->"; "1"].

End Fixtures_cxx.

(** ** Steps that report nothing *)

Module Silence.
Import Mpd Runtest_c Drivers_c.

(** A step of a driver of the C runner that, when it returns, has left
    the report (the text on [stderr] and the two failure flags) as it
    was. *)
Definition silent {A : Type} (c : M A) : Prop :=
  forall m a m', c m = Normal (a, m') -> rep m' = rep m.

End Silence.

(** ** The conversions of [triple_cov] *)

Module Malformed.
Import Mpd Test_c Runtest_c Drivers_c.

(** The nine triples that [triple_cov] converts, in order. *)
Definition malformed : list mpd_uint128_triple_t :=
  [ mk_triple MPD_TRIPLE_QNAN 2 0 0 0;
    mk_triple MPD_TRIPLE_QNAN 0 0 0 1;
    mk_triple MPD_TRIPLE_INF 0 0 0 1;
    mk_triple MPD_TRIPLE_NORMAL 2 0 0 1;
    mk_triple MPD_TRIPLE_NORMAL 0 0 0 INT64_MAX;
    mk_triple MPD_TRIPLE_NORMAL 0 0 0 INT64_MIN;
    mk_triple MPD_TRIPLE_NORMAL 0 0 0 MPD_SSIZE_MAX;
    mk_triple MPD_TRIPLE_NORMAL 0 0 0 MPD_SSIZE_MIN;
    mk_triple (Tag_value 10) 0 0 0 MPD_SSIZE_MIN ].

(** A conversion of [triple_cov] that passed its two assertions: the
    status is exactly [MPD_Conversion_syntax] and the decimal left in
    [op] is a quiet not-a-number. *)
Definition failed_conversion (W : Env)
  (c : mpd_uint128_triple_t * mpd_t * Z) : Prop :=
  let '(triple, v, status_) := c in
  status_ = MPD_Conversion_syntax
  /\ mpd_isqnan v = true
  /\ exists ret_, Triples.decodes W triple ret_ v status_.

(** The engine refuses [triple], whatever its result held before and
    whatever the allocation functions are: the status is exactly
    [MPD_Conversion_syntax] and the result a quiet not-a-number. *)
Definition refused (W : Env) (triple : mpd_uint128_triple_t) : Prop :=
  forall x st,
    exists ret_ v,
      fst (run_engine (libc W) (mpd_from_uint128_triple W x triple) st)
      = (ret_, v, MPD_Conversion_syntax)
      /\ mpd_isqnan v = true.

End Malformed.

(** * Properties of the runners *)

Import Mpd Cstr Test_c Runtest_c Drivers_c.

Local Open Scope driver_scope.

(** ** The status hacks of the paired division *)

Lemma resolve_status_hack_impossible (expstatus status : Z) :
  Z.land expstatus MPD_Invalid_operation <> 0 ->
  Z.land status MPD_Division_impossible <> 0 ->
  resolve_status_hack expstatus status = MPD_Division_impossible.
Proof.
  intros He Hs. unfold resolve_status_hack.
  apply Z.eqb_neq in He. apply Z.eqb_neq in Hs.
  rewrite He, Hs. reflexivity.
Qed.

Lemma resolve_status_hack_undefined (expstatus status : Z) :
  Z.land expstatus MPD_Invalid_operation <> 0 ->
  Z.land status MPD_Division_impossible = 0 ->
  Z.land status MPD_Division_undefined <> 0 ->
  resolve_status_hack expstatus status = MPD_Division_undefined.
Proof.
  intros He Hi Hu. unfold resolve_status_hack.
  apply Z.eqb_neq in He. apply Z.eqb_eq in Hi. apply Z.eqb_neq in Hu.
  rewrite Hi, Hu, He. cbn [negb andb]. rewrite He. reflexivity.
Qed.

Lemma resolve_status_hack_keeps (expstatus status : Z) :
  Z.land expstatus MPD_Invalid_operation = 0 ->
  resolve_status_hack expstatus status = expstatus.
Proof.
  intros He. unfold resolve_status_hack.
  apply Z.eqb_eq in He. rewrite He. cbn [negb andb]. rewrite He.
  reflexivity.
Qed.

(** The two runners narrow in the same way. *)
Lemma resolve_status_hack_cxx (expstatus status : Z) :
  Runtest_cxx.resolve_status_hack expstatus status
  = resolve_status_hack expstatus status.
Proof. reflexivity. Qed.

(** C4, as stated, at the expected status [Invalid_operation] and the
    computed status [Division_impossible | Division_undefined]: the
    computed status contains [Division_undefined] and the expected status
    contains [Invalid_operation], yet the narrowed expected status is
    [Division_impossible] and not [Division_undefined].  The first hack
    has replaced the expected status before the second one looks at it. *)
Lemma narrowing_prefers_impossible :
  Z.land MPD_Invalid_operation MPD_Invalid_operation <> 0
  /\ Z.land (Z.lor MPD_Division_impossible MPD_Division_undefined)
            MPD_Division_undefined <> 0
  /\ resolve_status_hack MPD_Invalid_operation
       (Z.lor MPD_Division_impossible MPD_Division_undefined)
     = MPD_Division_impossible
  /\ MPD_Division_impossible <> MPD_Division_undefined.
Proof. repeat split; vm_compute; congruence. Qed.

(** C4 (amended).  In [_Binres_Binop_Ctx], the driver of [divmod]: if the
    expected status scanned from the test case contains
    [Invalid_operation] and the status computed by the first call of the
    operation contains [Division_impossible], then everything the driver
    does after that call, all its comparisons included, is done with the
    expected status [Division_impossible]; if the computed status
    contains [Division_undefined] and not [Division_impossible], it is
    done with the expected status [Division_undefined]. *)
Theorem divmod_expected_status_narrowed
  (W : Env) (fuel : nat) (token : list string) (func : binres_func)
  (m m1 : machine) (expected1 expected2 : string) (expstatus : Z) :
  binres_prologue W fuel token func m
  = Normal ((expected1, expected2, expstatus), m1) ->
  Z.land expstatus MPD_Invalid_operation <> 0 ->
  (Z.land (status (ctx m1)) MPD_Division_impossible <> 0 ->
   _Binres_Binop_Ctx W fuel token func m
   = binres_rest W fuel func expected1 expected2 MPD_Division_impossible
                 (token_id token) m1)
  /\ (Z.land (status (ctx m1)) MPD_Division_impossible = 0 ->
      Z.land (status (ctx m1)) MPD_Division_undefined <> 0 ->
      _Binres_Binop_Ctx W fuel token func m
      = binres_rest W fuel func expected1 expected2 MPD_Division_undefined
                    (token_id token) m1).
Proof.
  intros Hp He.
  assert (Hrun : forall e,
             resolve_status_hack expstatus (status (ctx m1)) = e ->
             _Binres_Binop_Ctx W fuel token func m
             = binres_rest W fuel func expected1 expected2 e
                           (token_id token) m1).
  { intros e <-. unfold _Binres_Binop_Ctx, bindM. rewrite Hp.
    reflexivity. }
  split.
  - intros Hi. apply Hrun. now apply resolve_status_hack_impossible.
  - intros Hi Hu. apply Hrun. now apply resolve_status_hack_undefined.
Qed.

Lemma divmod_expected_status_narrowed_witness :
  let token := ["dvmx1"; "divmod"; "1"; "0"; "->"; "NaN"; "NaN";
                "Invalid_operation"] in
  let func := Fixtures.divmod_reporting MPD_Division_impossible in
  exists m1,
    binres_prologue Fixtures.env 4 token func (Fixtures.start true)
    = Normal (("NaN", "NaN", MPD_Invalid_operation), m1)
    /\ Z.land MPD_Invalid_operation MPD_Invalid_operation <> 0
    /\ Z.land (status (ctx m1)) MPD_Division_impossible <> 0
    /\ _Binres_Binop_Ctx Fixtures.env 4 token func (Fixtures.start true)
       = binres_rest Fixtures.env 4 func "NaN" "NaN"
                     MPD_Division_impossible "dvmx1" m1.
Proof.
  intros token func. eexists.
  split; [vm_compute; reflexivity |].
  split; [vm_compute; discriminate |].
  split; [vm_compute; discriminate |].
  refine (proj1 (divmod_expected_status_narrowed Fixtures.env 4 token func
                   (Fixtures.start true) _ "NaN" "NaN"
                   MPD_Invalid_operation _ _) _).
  - vm_compute; reflexivity.
  - vm_compute; discriminate.
  - vm_compute; discriminate.
Defined.

(** ** Byte-wise equality *)

Lemma data_equal_spec (a b : mpd_t) (count from : nat) :
  data_equal a b from count = true <->
  forall i, (from <= i < from + count)%nat -> data_at a i = data_at b i.
Proof.
  revert from. induction count as [|count IH]; intros from; cbn [data_equal].
  - split; [intros _ i Hi; lia | reflexivity].
  - destruct (data_at a from =? data_at b from) eqn:E.
    + apply Z.eqb_eq in E. rewrite IH. split.
      * intros H i Hi. destruct (Nat.eq_dec i from) as [->|Hne]; [exact E|].
        apply H. lia.
      * intros H i Hi. apply H. lia.
    + apply Z.eqb_neq in E. split; [discriminate|].
      intros H. exfalso. apply E. apply H. lia.
Qed.

Lemma firstn_eq_nth (n : nat) (l1 l2 : list Z) :
  (n <= List.length l1)%nat -> (n <= List.length l2)%nat ->
  (firstn n l1 = firstn n l2 <->
   forall i, (i < n)%nat -> nth i l1 0 = nth i l2 0).
Proof.
  revert l1 l2. induction n as [|n IH]; intros l1 l2 H1 H2.
  - split; [intros _ i Hi; lia | reflexivity].
  - destruct l1 as [|x l1]; [cbn in H1; lia|].
    destruct l2 as [|y l2]; [cbn in H2; lia|].
    cbn in H1, H2. cbn [firstn]. split.
    + intros H. injection H as Hx Hl. intros [|i] Hi; [exact Hx|].
      cbn [nth]. apply (proj1 (IH l1 l2 ltac:(lia) ltac:(lia)) Hl). lia.
    + intros H. f_equal.
      * apply (H 0%nat). lia.
      * apply IH; [lia | lia |]. intros i Hi. apply (H (S i)). lia.
Qed.

Lemma coefficient_eq (a b : mpd_t) :
  Stated.well_formed a -> Stated.well_formed b ->
  (Stated.coefficient a = Stated.coefficient b <->
   len a = len b
   /\ data_equal a b 0 (Z.to_nat (len a)) = true).
Proof.
  intros [Ha0 Ha] [Hb0 Hb]. unfold Stated.coefficient. split.
  - intros H.
    assert (Hlen : len a = len b).
    { apply (f_equal (@List.length Z)) in H.
      rewrite !length_firstn in H. lia. }
    split; [exact Hlen|].
    apply data_equal_spec. intros i Hi. unfold data_at.
    rewrite <- Hlen in H.
    apply (proj1 (firstn_eq_nth (Z.to_nat (len a)) (data a) (data b)
                    ltac:(lia) ltac:(lia)) H). lia.
  - intros [Hlen Hd]. rewrite <- Hlen.
    apply firstn_eq_nth; [lia | lia |].
    intros i Hi. apply (proj1 (data_equal_spec a b _ _) Hd). lia.
Qed.

Lemma equalmem_c_true (a b : mpd_t) :
  equalmem a b = true <->
  flags a = flags b /\ exp a = exp b /\ len a = len b
  /\ digits a = digits b /\ data_equal a b 0 (Z.to_nat (len a)) = true.
Proof.
  unfold equalmem.
  destruct (flags a =? flags b) eqn:Ef; cbn [negb];
    [apply Z.eqb_eq in Ef | apply Z.eqb_neq in Ef;
                            split; [discriminate | tauto]].
  destruct (exp a =? exp b) eqn:Ee; cbn [negb];
    [apply Z.eqb_eq in Ee | apply Z.eqb_neq in Ee;
                            split; [discriminate | tauto]].
  destruct (len a =? len b) eqn:El; cbn [negb];
    [apply Z.eqb_eq in El | apply Z.eqb_neq in El;
                            split; [discriminate | tauto]].
  destruct (digits a =? digits b) eqn:Ed; cbn [negb];
    [apply Z.eqb_eq in Ed | apply Z.eqb_neq in Ed;
                            split; [discriminate | tauto]].
  tauto.
Qed.

Lemma equalmem_cxx_true (a b : mpd_t) :
  Runtest_cxx.equalmem a b = true <->
  Runtest_cxx.value_flags a = Runtest_cxx.value_flags b
  /\ exp a = exp b /\ len a = len b
  /\ digits a = digits b /\ data_equal a b 0 (Z.to_nat (len a)) = true.
Proof.
  unfold Runtest_cxx.equalmem.
  destruct (Runtest_cxx.value_flags a =? Runtest_cxx.value_flags b) eqn:Ef;
    cbn [negb orb];
    [apply Z.eqb_eq in Ef | apply Z.eqb_neq in Ef;
                            split; [discriminate | tauto]].
  destruct (exp a =? exp b) eqn:Ee; cbn [negb orb];
    [apply Z.eqb_eq in Ee | apply Z.eqb_neq in Ee;
                            split; [discriminate | tauto]].
  destruct (len a =? len b) eqn:El; cbn [negb orb];
    [apply Z.eqb_eq in El | apply Z.eqb_neq in El;
                            split; [discriminate | tauto]].
  destruct (digits a =? digits b) eqn:Ed; cbn [negb orb];
    [apply Z.eqb_eq in Ed | apply Z.eqb_neq in Ed;
                            split; [discriminate | tauto]].
  tauto.
Qed.

(** C7, as stated, on the C runner: two decimals with the same exponent,
    digit count and coefficient whose flags differ only in
    [MPD_STATIC_DATA], one of the allocation bits, are not equal for the
    [equalmem] of [runtest.c], which compares the flag bytes whole. *)
Lemma equalmem_c_compares_allocation_bits :
  let a := Fixtures.one in
  let b := mk_mpd MPD_STATIC_DATA 0 1 1 2 [1; 0] in
  exp a = exp b /\ digits a = digits b
  /\ Stated.coefficient a = Stated.coefficient b
  /\ Runtest_cxx.value_flags a = Runtest_cxx.value_flags b
  /\ equalmem a b = false.
Proof. repeat split. Qed.

(** C7 (amended).  For decimals whose [len] counts words that are there:
    the [equalmem] of the C++ runner holds if and only if the exponents,
    the digit counts and the coefficients (the words in use, and so their
    number) are equal and the flags are equal once the bits of
    [MPD_DATAFLAGS] are masked out; the [equalmem] of the C runner holds
    if and only if the exponents, the digit counts and the coefficients
    are equal and the flag bytes are equal in full. *)
Theorem equalmem_characterised (a b : mpd_t) :
  Stated.well_formed a -> Stated.well_formed b ->
  (Runtest_cxx.equalmem a b = true <->
   exp a = exp b /\ digits a = digits b
   /\ Stated.coefficient a = Stated.coefficient b
   /\ Runtest_cxx.value_flags a = Runtest_cxx.value_flags b)
  /\ (equalmem a b = true <->
      exp a = exp b /\ digits a = digits b
      /\ Stated.coefficient a = Stated.coefficient b
      /\ flags a = flags b).
Proof.
  intros Ha Hb. pose proof (coefficient_eq a b Ha Hb) as Hc.
  rewrite equalmem_cxx_true, equalmem_c_true. tauto.
Qed.

Lemma equalmem_characterised_witness :
  Stated.well_formed Fixtures.one /\ Stated.well_formed Fixtures.zero
  /\ (equalmem Fixtures.one Fixtures.zero = true <->
      exp Fixtures.one = exp Fixtures.zero
      /\ digits Fixtures.one = digits Fixtures.zero
      /\ Stated.coefficient Fixtures.one = Stated.coefficient Fixtures.zero
      /\ flags Fixtures.one = flags Fixtures.zero).
Proof.
  assert (H1 : Stated.well_formed Fixtures.one)
    by (unfold Stated.well_formed; cbn; lia).
  assert (H0 : Stated.well_formed Fixtures.zero)
    by (unfold Stated.well_formed; cbn; lia).
  split; [exact H1 |]. split; [exact H0 |].
  exact (proj2 (equalmem_characterised Fixtures.one Fixtures.zero H1 H0)).
Defined.

(** ** A changed operand *)

Lemma length_append (s1 s2 : string) :
  String.length (s1 ++ s2)%string
  = (String.length s1 + String.length s2)%nat.
Proof.
  induction s1 as [|c s1 IH]; cbn; [reflexivity | now rewrite IH].
Qed.

Lemma store_status_in (status : list string) (i : nat) (what : string) :
  (i < List.length status)%nat ->
  In what (Runtest_cxx.store_status status i what).
Proof.
  revert i. induction status as [|s status IH]; intros i Hi;
    [cbn in Hi; lia|].
  destruct i as [|i]; cbn; [now left | right].
  apply IH. cbn in Hi. lia.
Qed.

Lemma exit_status_failure (status : list string) (what : string) :
  In what status -> what <> "PASS" ->
  Runtest_cxx.exit_status status = Runtest_cxx.EXIT_FAILURE.
Proof.
  intros Hin Hne. unfold Runtest_cxx.exit_status.
  destruct (forallb (fun p => String.eqb p "PASS") status) eqn:E;
    [| reflexivity].
  rewrite forallb_forall in E. apply E in Hin.
  apply String.eqb_eq in Hin. contradiction.
Qed.

(** What [what()] of a failure raised by [err_token] looks like: it is
    never the pass marker. *)
Lemma err_token_not_pass (FILE id args line : string) :
  (4 < String.length args)%nat ->
  (id ++ ": " ++ args ++ "  [" ++ FILE ++ ":" ++ line ++ "]")%string
  <> "PASS".
Proof.
  intros Hl H. apply (f_equal String.length) in H.
  rewrite !length_append in H. cbn in H. lia.
Qed.

(** C6, as stated, on decimals that differ: the C runner writes its line
    to [stderr] and leaves both failure flags at 0, so nothing is
    recorded against the file; the C++ runner raises the violation as an
    exception. *)
Lemma changed_operand_in_both_runners :
  let a := Fixtures.one in
  let b := Fixtures.zero in
  let r := check_equalmem a b "addx001" Fixtures.no_report in
  equalmem a b = false
  /\ file_failure r = 0 /\ global_failure r = 0
  /\ Runtest_cxx.equalmem a b = false
  /\ Runtest_cxx.check_equalmem "runtest.cc" ["addx001"] a b
     = Runtest_cxx.Failure "addx001: const arg changed  [runtest.cc:737]".
Proof. repeat split. Qed.

(** C6 (amended).  When an operand fails the equality check against its
    value before the call:
    - the C runner writes the line "FAIL: const arg changed: <id>" to
      [stderr], and the check returns to the driver, which goes on with
      the decimals, the context and the allocation state as they were;
    - the C++ runner raises a [test::Failure] whose text starts with the
      test id and says "const arg changed"; nothing that follows the
      check in the driver is run; [do_file] stores the text in the status
      slot of the file, and the exit status of the run is failure. *)
Theorem changed_operand_reported (a b : mpd_t) (id : string) :
  (equalmem a b = false ->
   (forall r : report,
       stderr (check_equalmem a b id r)
       = stderr r ++ [("FAIL: const arg changed: " ++ id ++ newline)%string])
   /\ (forall (x y : reg) (m : machine),
          load (mem m) x = a -> load (mem m) y = b ->
          exists m',
            do_check_equalmem x y id m = Normal (tt, m')
            /\ mem m' = mem m /\ ctx m' = ctx m
            /\ alloc_st m' = alloc_st m))
  /\ (Runtest_cxx.equalmem a b = false ->
      forall (FILE : string) (rest : list string),
        let what :=
          (id ++ ": " ++ "const arg changed" ++ "  [" ++ FILE ++ ":"
           ++ "737" ++ "]")%string in
        Runtest_cxx.check_equalmem FILE (id :: rest) a b
        = Runtest_cxx.Failure what
        /\ (forall (B : Type) (k : unit -> Runtest_cxx.result B),
               Runtest_cxx.and_then
                 (Runtest_cxx.check_equalmem FILE (id :: rest) a b) k
               = Runtest_cxx.Failure what)
        /\ (forall (status : list string) (i : nat),
               (i < List.length status)%nat ->
               exists status',
                 Runtest_cxx.do_file (Runtest_cxx.Failure what) status i
                 = Runtest_cxx.Ok status'
                 /\ nth_error status' i = Some what
                 /\ Runtest_cxx.exit_status status'
                    = Runtest_cxx.EXIT_FAILURE)).
Proof.
  split.
  - intros He. split.
    + intros r. unfold check_equalmem. rewrite He. reflexivity.
    + intros x y m Hx Hy. unfold do_check_equalmem, check_equalmem.
      rewrite Hx, Hy, He. cbn [negb].
      eexists. split; [reflexivity|]. repeat split.
  - intros He FILE rest what.
    assert (Hc : Runtest_cxx.check_equalmem FILE (id :: rest) a b
                 = Runtest_cxx.Failure what).
    { unfold Runtest_cxx.check_equalmem. rewrite He. reflexivity. }
    split; [exact Hc|]. split.
    + intros B k. rewrite Hc. reflexivity.
    + intros status i Hi. eexists. split; [reflexivity|]. split.
      * clear - Hi. revert i Hi.
        induction status as [|s status IH]; intros i Hi;
          [cbn in Hi; lia|].
        destruct i as [|i]; cbn; [reflexivity|]. apply IH. cbn in Hi. lia.
      * apply exit_status_failure with (what := what).
        -- now apply store_status_in.
        -- apply err_token_not_pass. cbn. lia.
Qed.

Lemma changed_operand_reported_witness :
  equalmem Fixtures.one Fixtures.zero = false
  /\ stderr (check_equalmem Fixtures.one Fixtures.zero "addx001"
                            Fixtures.no_report)
     = [("FAIL: const arg changed: " ++ "addx001" ++ newline)%string].
Proof.
  split; [reflexivity|].
  exact (proj1 (proj1 (changed_operand_reported
                         Fixtures.one Fixtures.zero "addx001")
                      eq_refl) Fixtures.no_report).
Defined.

(** ** The tokenizer and doubled quotes *)

(** C8, as stated, on the line that consists of the quoted run alone:
    both tokenizers return one token, and it is the four bytes 1, quote,
    quote, 1 that stand between the outer quotes, not the three bytes 1,
    quote, 1. *)
Lemma doubled_quote_not_collapsed :
  nexttoken Fixtures.quoted_1_1 = Some (Fixtures.token_1qq1, EmptyString)
  /\ split (Fixtures.quoted_1_1 ++ newline)%string = [Fixtures.token_1qq1]
  /\ Runtest_cxx.split Fixtures.quoted_1_1
     = Runtest_cxx.Ok [Fixtures.token_1qq1]
  /\ Fixtures.token_1qq1 <> Fixtures.token_1q1.
Proof. repeat split. discriminate. Qed.

(** C8 (amended).  When a tokenizer comes to the quoted run (only white
    space before it in the text that is left) and the run is not directly
    followed by a further double quote, it returns a single token: the
    doubled quote does not end the token, and both of its quote characters
    are kept, so that the token is the four bytes 1, quote, quote, 1.  The
    text after the closing quote is what the tokenizer goes on with.  This
    holds for the tokenizer of the C runner and for that of the C++
    runner. *)
Theorem doubled_quote_kept (pre rest : string) :
  Lines.all_space pre = true ->
  Lines.starts_with_dquote rest = false ->
  nexttoken (pre ++ Fixtures.quoted_1_1 ++ rest)%string
  = Some (Fixtures.token_1qq1, rest)
  /\ Runtest_cxx.nexttoken (pre ++ Fixtures.quoted_1_1 ++ rest)%string
     = Runtest_cxx.Token Fixtures.token_1qq1 rest.
Proof.
  intros Hpre Hrest.
  induction pre as [|c pre IH].
  - destruct rest as [|c r].
    + split; reflexivity.
    + cbn in Hrest. split.
      * cbn. rewrite Hrest. reflexivity.
      * cbn. rewrite Hrest. reflexivity.
  - cbn in Hpre. apply andb_true_iff in Hpre. destruct Hpre as [Hc Hpre].
    specialize (IH Hpre). destruct IH as [IH1 IH2].
    split.
    + cbn [append nexttoken]. rewrite Hc. exact IH1.
    + cbn [append Runtest_cxx.nexttoken]. rewrite Hc. exact IH2.
Qed.

Lemma doubled_quote_kept_witness :
  Lines.all_space " " = true
  /\ Lines.starts_with_dquote " -> NaN" = false
  /\ nexttoken (" " ++ Fixtures.quoted_1_1 ++ " -> NaN")%string
     = Some (Fixtures.token_1qq1, " -> NaN").
Proof.
  split; [reflexivity|]. split; [reflexivity|].
  exact (proj1 (doubled_quote_kept " " " -> NaN" eq_refl eq_refl)).
Defined.

(** ** Comparing with the expected result *)

Lemma known_ulp_diff_spec (cases : list result_diff)
  (id calc expected : string) :
  known_ulp_diff cases (Some id) calc expected = true <->
  exists c, In c cases /\ strcaseeq id (rd_id c) = true
            /\ expected = rd_expected c /\ calc = rd_calc c.
Proof.
  induction cases as [|c cases IH]; cbn [known_ulp_diff].
  - split; [discriminate | intros (c & [] & _)].
  - destruct (eqtoken (Some id) (rd_id c) && streq expected (rd_expected c)
              && streq calc (rd_calc c)) eqn:E.
    + split; [intros _ | reflexivity].
      apply andb_true_iff in E. destruct E as [E E3].
      apply andb_true_iff in E. destruct E as [E1 E2].
      apply String.eqb_eq in E2. apply String.eqb_eq in E3.
      exists c. cbn. auto.
    + rewrite IH. split.
      * intros (c' & Hin & H). exists c'. cbn. tauto.
      * intros (c' & [<- | Hin] & H1 & H2 & H3).
        -- exfalso. cbn [eqtoken] in E. rewrite H1 in E.
           unfold streq in E. subst expected calc.
           rewrite !String.eqb_refl in E. discriminate.
        -- exists c'. tauto.
Qed.

Lemma known_status_diff_spec (cases : list status_diff) (id : string)
  (expected_status ctx_status : Z) :
  known_status_diff cases (Some id) expected_status ctx_status = true <->
  exists c, In c cases /\ strcaseeq id (sd_id c) = true
            /\ expected_status = sd_expected c /\ ctx_status = sd_calc c.
Proof.
  induction cases as [|c cases IH]; cbn [known_status_diff].
  - split; [discriminate | intros (c & [] & _)].
  - destruct (eqtoken (Some id) (sd_id c)
              && (expected_status =? sd_expected c)
              && (ctx_status =? sd_calc c)) eqn:E.
    + split; [intros _ | reflexivity].
      apply andb_true_iff in E. destruct E as [E E3].
      apply andb_true_iff in E. destruct E as [E1 E2].
      apply Z.eqb_eq in E2. apply Z.eqb_eq in E3.
      exists c. cbn. auto.
    + rewrite IH. split.
      * intros (c' & Hin & H). exists c'. cbn. tauto.
      * intros (c' & [<- | Hin] & H1 & H2 & H3).
        -- exfalso. cbn [eqtoken] in E. rewrite H1 in E.
           subst expected_status ctx_status.
           rewrite !Z.eqb_refl in E. discriminate.
        -- exists c'. tauto.
Qed.

Lemma covered_c_decided (id calc expected : string) (ctx : mpd_context_t)
  (expected_status : Z) :
  ((allcr ctx =? 0) && known_ulp_diff ulp_cases (Some id) calc expected
   || known_status_diff status_cases (Some id) expected_status (status ctx))
  = true
  <-> Overrides.covered Overrides.same_id_c id calc expected ctx
                        expected_status.
Proof.
  unfold Overrides.covered, Overrides.ulp_entry, Overrides.status_entry,
    Overrides.same_id_c.
  rewrite orb_true_iff, andb_true_iff, Z.eqb_eq,
    known_ulp_diff_spec, known_status_diff_spec.
  reflexivity.
Qed.

Lemma covered_cxx_decided (id calc expected : string)
  (ctx : mpd_context_t) (expected_status : Z) :
  ((allcr ctx =? 0) && Runtest_cxx.known_ulp_diff id calc expected
   || Runtest_cxx.known_status_diff id expected_status (status ctx))
  = true
  <-> Overrides.covered Overrides.same_id_cxx id calc expected ctx
                        expected_status.
Proof.
  unfold Overrides.covered, Overrides.ulp_entry, Overrides.status_entry,
    Overrides.same_id_cxx, Runtest_cxx.known_ulp_diff,
    Runtest_cxx.known_status_diff.
  rewrite orb_true_iff, andb_true_iff, Z.eqb_eq, !existsb_exists.
  split.
  - intros [[Ha (c & Hin & H)] | (c & Hin & H)].
    + left. split; [exact Ha|]. exists c.
      apply andb_true_iff in H. destruct H as [H H3].
      apply andb_true_iff in H. destruct H as [H1 H2].
      apply String.eqb_eq in H1, H2, H3. auto.
    + right. exists c.
      apply andb_true_iff in H. destruct H as [H H3].
      apply andb_true_iff in H. destruct H as [H1 H2].
      apply String.eqb_eq in H1. apply Z.eqb_eq in H2, H3. auto.
  - intros [[Ha (c & Hin & H1 & H2 & H3)] | (c & Hin & H1 & H2 & H3)].
    + left. split; [exact Ha|]. exists c. split; [exact Hin|].
      subst. rewrite !String.eqb_refl. reflexivity.
    + right. exists c. split; [exact Hin|].
      rewrite H1, H2, H3, String.eqb_refl, !Z.eqb_refl. reflexivity.
Qed.

Lemma app_grows {A : Type} (l extra : list A) :
  l ++ extra <> l <-> extra <> [].
Proof.
  split.
  - intros H ->. apply H. apply app_nil_r.
  - intros H E. apply H. apply (app_inv_head l). now rewrite app_nil_r.
Qed.

(** What [compare_expected] of the C runner adds to [stderr]. *)
Lemma compare_expected_adds (flags_text : Z -> string)
  (calc expected : string) (expected_status : Z) (id : string)
  (ctx : mpd_context_t) (r : report) :
  let r' := compare_expected flags_text calc expected expected_status
                             id ctx r in
  let covered :=
    (allcr ctx =? 0) && known_ulp_diff ulp_cases (Some id) calc expected
    || known_status_diff status_cases (Some id) expected_status
         (status ctx) in
  let differs :=
    negb (streq calc expected) || negb (status ctx =? expected_status) in
  exists extra,
    stderr r' = stderr r ++ extra
    /\ (extra <> [] <-> differs && negb covered = true)
    /\ (extra <> [] -> file_failure r' = 1 /\ global_failure r' = 1)
    /\ (extra = [] -> r' = r).
Proof.
  cbv zeta. unfold compare_expected.
  destruct ((allcr ctx =? 0)
            && known_ulp_diff ulp_cases (Some id) calc expected) eqn:Eu.
  { exists []. rewrite app_nil_r, andb_false_r. cbn. intuition congruence. }
  destruct (known_status_diff status_cases (Some id) expected_status
              (status ctx)) eqn:Es.
  { exists []. rewrite app_nil_r, andb_false_r. cbn. intuition congruence. }
  cbn [orb negb]. rewrite andb_true_r.
  unfold blank_lines, set_failure, fputs_stderr.
  destruct (streq calc expected) eqn:Ec;
    destruct (status ctx =? expected_status) eqn:Et;
    destruct (file_failure r =? 0) eqn:Ef;
    cbn [negb orb]; rewrite ?Ef;
    cbn [stderr file_failure global_failure];
    change (1 =? 0) with false; cbv iota;
    cbn [stderr file_failure global_failure];
    try (exists []; rewrite app_nil_r; intuition congruence);
    eexists; (split; [rewrite <- ?app_assoc; reflexivity|]);
    cbn; intuition congruence.
Qed.

Lemma differs_decided (calc expected : string) (computed expected_status : Z) :
  negb (streq calc expected) || negb (computed =? expected_status) = true
  <-> calc <> expected \/ computed <> expected_status.
Proof.
  unfold streq.
  rewrite orb_true_iff, !negb_true_iff, String.eqb_neq, Z.eqb_neq.
  reflexivity.
Qed.

(** C3.  [compare_expected] reports a failure (the C runner: it writes to
    [stderr], and then both failure flags are 1; the C++ runner: it
    throws a [test::Failure]) if and only if the computed string differs
    from the expected string or the status of the context differs from
    the expected status, and the deviation is not covered by a table of
    known differences: by an entry of the table of results for this test
    id, computed and expected string, which counts only when [allcr] is 0,
    or by an entry of the table of status differences for this test id,
    computed and expected status.  When no failure is reported nothing
    changes. *)
Theorem failure_reported_iff (flags_text : Z -> string)
  (calc expected : string) (expected_status : Z) (id : string)
  (ctx : mpd_context_t) :
  (forall r : report,
      let r' := compare_expected flags_text calc expected expected_status
                                 id ctx r in
      (stderr r' <> stderr r <->
       (calc <> expected \/ status ctx <> expected_status)
       /\ ~ Overrides.covered Overrides.same_id_c id calc expected ctx
                              expected_status)
      /\ (stderr r' <> stderr r ->
          file_failure r' = 1 /\ global_failure r' = 1)
      /\ (stderr r' = stderr r -> r' = r))
  /\ (forall (FILE : string) (rest : list string),
         let outcome :=
           Runtest_cxx.compare_expected FILE flags_text (id :: rest)
             calc expected expected_status ctx in
         ((exists what, outcome = Runtest_cxx.Failure what) <->
          (calc <> expected \/ status ctx <> expected_status)
          /\ ~ Overrides.covered Overrides.same_id_cxx id calc expected ctx
                                 expected_status)
         /\ ((forall what, outcome <> Runtest_cxx.Failure what) ->
             outcome = Runtest_cxx.Ok tt)).
Proof.
  split.
  - intros r r'.
    destruct (compare_expected_adds flags_text calc expected
                expected_status id ctx r)
      as (extra & Hs & Hiff & Hflags & Hsame).
    fold r' in Hs, Hflags, Hsame.
    assert (Hgrow : stderr r' <> stderr r <-> extra <> []).
    { rewrite Hs. apply app_grows. }
    split; [| split].
    + rewrite Hgrow, Hiff, andb_true_iff, negb_true_iff, differs_decided.
      rewrite <- covered_c_decided.
      destruct ((allcr ctx =? 0)
                && known_ulp_diff ulp_cases (Some id) calc expected
                || known_status_diff status_cases (Some id) expected_status
                     (status ctx)); intuition congruence.
    + intros H. apply Hflags. now apply Hgrow.
    + intros H. apply Hsame.
      destruct extra as [|x extra]; [reflexivity|].
      exfalso. apply (proj2 Hgrow); [discriminate | exact H].
  - intros FILE rest outcome. subst outcome.
    unfold Runtest_cxx.compare_expected, Runtest_cxx.err_token.
    cbn [Runtest_cxx.at_ nth_error Runtest_cxx.and_then].
    pose proof (covered_cxx_decided id calc expected ctx expected_status)
      as Hcov.
    rewrite orb_true_iff in Hcov.
    pose proof (differs_decided calc expected (status ctx) expected_status)
      as Hdiff.
    unfold streq in Hdiff. rewrite orb_true_iff, !negb_true_iff in Hdiff.
    destruct ((allcr ctx =? 0)
              && Runtest_cxx.known_ulp_diff id calc expected) eqn:Eu.
    { split; [| reflexivity]. split.
      - intros (what & H). discriminate.
      - intros [_ Hn]. exfalso. apply Hn. apply Hcov. now left. }
    destruct (Runtest_cxx.known_status_diff id expected_status (status ctx))
      eqn:Es.
    { split; [| reflexivity]. split.
      - intros (what & H). discriminate.
      - intros [_ Hn]. exfalso. apply Hn. apply Hcov. now right. }
    assert (Hnc : ~ Overrides.covered Overrides.same_id_cxx id calc expected
                    ctx expected_status).
    { intros H. apply Hcov in H. destruct H; discriminate. }
    destruct (String.eqb calc expected) eqn:Ec; cbn [negb].
    + destruct (status ctx =? expected_status) eqn:Et; cbn [negb].
      * split; [| reflexivity]. split.
        -- intros (what & H). discriminate.
        -- intros [Hd _]. apply Hdiff in Hd. destruct Hd; discriminate.
      * split.
        -- split; [intros _ | intros _; eexists; reflexivity].
           split; [apply Hdiff; now right | exact Hnc].
        -- intros H. exfalso. eapply H. reflexivity.
    + split.
      * split; [intros _ | intros _; eexists; reflexivity].
        split; [apply Hdiff; now left | exact Hnc].
      * intros H. exfalso. eapply H. reflexivity.
Qed.

(** ** Unknown operations *)

Lemma lookup_drivers_c_none (table : list (list string * string))
  (operation : option string) :
  (forall name, In name (flat_map fst table) ->
                eqtoken operation name = false) ->
  Doit_c.lookup_drivers table operation = None.
Proof.
  induction table as [|[names calls] table IH]; intros H; [reflexivity|].
  cbn [Doit_c.lookup_drivers].
  destruct (existsb (eqtoken operation) names) eqn:E.
  - apply existsb_exists in E. destruct E as (name & Hin & Heq).
    rewrite (H name) in Heq; [discriminate|].
    cbn [flat_map fst]. apply in_or_app. now left.
  - apply IH. intros name Hin. apply H.
    cbn [flat_map fst]. apply in_or_app. now right.
Qed.

Lemma lookup_drivers_cxx_none (table : list (list string * string))
  (operation : string) :
  (forall name, In name (flat_map fst table) ->
                Runtest_cxx.eqtoken operation name = false) ->
  Runtest_cxx.lookup_drivers table operation = None.
Proof.
  induction table as [|[names calls] table IH]; intros H; [reflexivity|].
  cbn [Runtest_cxx.lookup_drivers].
  destruct (existsb (Runtest_cxx.eqtoken operation) names) eqn:E.
  - apply existsb_exists in E. destruct E as (name & Hin & Heq).
    rewrite (H name) in Heq; [discriminate|].
    cbn [flat_map fst]. apply in_or_app. now left.
  - apply IH. intros name Hin. apply H.
    cbn [flat_map fst]. apply in_or_app. now right.
Qed.

(** C9, as stated, on a line whose id is in the skip list
    ("absx900 frobnicate 1 -> 1"): the operation is not one the chain
    knows, as the same line with the id absx901 shows, which is fatal;
    yet the line is passed over and the run goes on.  The skip list is
    looked at before the operation.  The C++ runner does the same. *)
Lemma skipped_id_hides_unknown_operation :
  let skipped := ("absx900 frobnicate 1 -> 1" ++ newline)%string in
  let tested := ("absx901 frobnicate 1 -> 1" ++ newline)%string in
  Doit_c.doit_line 9 "f.decTest" skipped Fixtures.context
  = Normal (Doit_c.Cleanup "skip list")
  /\ Doit_c.doit_line 9 "f.decTest" tested Fixtures.context
     = Abort ("f.decTest: unknown operation: " ++ tested)%string
  /\ Runtest_cxx.do_stream_line "runtest.cc" 9 false skipped
       Fixtures.context
     = Runtest_cxx.Ok (Runtest_cxx.Continue "skip list")
  /\ Runtest_cxx.do_stream_line "runtest.cc" 9 false tested
       Fixtures.context
     = Runtest_cxx.Failure
         "absx901: unknown operation  [runtest.cc:2742]".
Proof. repeat split; vm_compute; reflexivity. Qed.

(** C9 (amended).  For every line that comes to the dispatch chain (its
    first token is neither a comment nor a directive, the id is not
    skipped and does not rename the operation, the context is in order)
    and whose operation is none of those the chain knows:
    - in the C runner, where the chain also knows every name that starts
      with "get_" and the name "rescale", the line ends the program in
      [mpd_err_fatal] with the diagnostic "<file>: unknown operation:
      <line>"; this also holds when the line has no second token;
    - in the C++ runner the line raises a [test::Failure] with the text
      "<id>: unknown operation"; [do_file] stores it as the status of the
      file, no further line of the file is read, and the exit status of
      the run is failure. *)
Theorem unknown_operation_is_fatal (round_guard : Z) (line : string)
  (ctx : mpd_context_t) (id : string) (rest : list string) :
  (forall filename : string,
      split line = id :: rest ->
      Registry.dispatched_c round_guard ctx id ->
      (forall operation, token_at (id :: rest) 1 = Some operation ->
                         ~ Registry.known_c operation) ->
      Doit_c.doit_line round_guard filename line ctx
      = Abort (filename ++ ": unknown operation: " ++ line)%string)
  /\ (forall (FILE operation : string) (rest' : list string)
             (skip_bignum : bool),
         Runtest_cxx.split line = Runtest_cxx.Ok (id :: rest) ->
         rest = operation :: rest' ->
         skip_bignum = false ->
         Registry.dispatched_cxx FILE round_guard ctx (id :: rest) id ->
         ~ Registry.known_cxx operation ->
         let what :=
           (id ++ ": " ++ "unknown operation" ++ "  [" ++ FILE ++ ":"
            ++ "2742" ++ "]")%string in
         Runtest_cxx.do_stream_line FILE round_guard skip_bignum line ctx
         = Runtest_cxx.Failure what
         /\ (forall (status : list string) (i : nat),
                (i < List.length status)%nat ->
                exists status',
                  Runtest_cxx.do_file (Runtest_cxx.Failure what) status i
                  = Runtest_cxx.Ok status'
                  /\ Runtest_cxx.exit_status status'
                     = Runtest_cxx.EXIT_FAILURE)).
Proof.
  split.
  - intros filename Hsplit (Hc & Hb & Hd & Hctx & Hdig & Hskip & Hcov & Hpw)
      Hunknown.
    unfold Doit_c.doit_line. rewrite Hsplit, Hc, Hb, Hd, Hctx.
    cbn [Doit_c.run_bind]. unfold get_testno.
    destruct (strpbrk_digits id) as [number|] eqn:En; [| contradiction].
    cbn [Doit_c.run_bind]. rewrite Hskip, Hcov, Hpw. cbn [Z.eqb negb].
    destruct (token_at (id :: rest) 1) as [operation|] eqn:Et.
    + specialize (Hunknown operation eq_refl).
      rewrite lookup_drivers_c_none.
      * cbn [startswith eqtoken].
        destruct (prefixcaseeq operation "get_") eqn:Eg.
        { exfalso. apply Hunknown. right. now left. }
        destruct (strcaseeq operation "rescale") eqn:Er.
        { exfalso. apply Hunknown. right. now right. }
        reflexivity.
      * intros name Hin. cbn [eqtoken].
        destruct (strcaseeq operation name) eqn:E; [| reflexivity].
        exfalso. apply Hunknown. left. exists name. auto.
    + rewrite lookup_drivers_c_none; [reflexivity|].
      intros name _. reflexivity.
  - intros FILE operation rest' skip_bignum Hsplit -> ->
      (Hd & Hctx & Hdig & Hskip & Hcov & Hpw & Hb) Hunknown what.
    assert (Hno : forall name,
               In name (flat_map fst Runtest_cxx.dispatch_table
                        ++ Registry.passed_over_cxx) ->
               Runtest_cxx.eqtoken operation name = false).
    { intros name Hin. unfold Runtest_cxx.eqtoken.
      destruct (strcaseeq operation name) eqn:E; [| reflexivity].
      exfalso. apply Hunknown. exists name. auto. }
    split.
    + unfold Runtest_cxx.do_stream_line. rewrite Hsplit.
      cbn [Runtest_cxx.and_then andb]. rewrite Hd, Hctx.
      cbn [Runtest_cxx.and_then]. unfold Runtest_cxx.get_testno.
      cbn [Runtest_cxx.at_ nth_error Runtest_cxx.and_then].
      destruct (strpbrk_digits id) as [number|] eqn:En; [| contradiction].
      rewrite Hskip, Hcov, Hpw.
      cbn [Runtest_cxx.at_ nth_error Runtest_cxx.and_then].
      rewrite lookup_drivers_cxx_none.
      * rewrite Hb.
        rewrite !Hno; [reflexivity | | | | | |];
          apply in_or_app; right; cbn; tauto.
      * intros name Hin. apply Hno. apply in_or_app. now left.
    + intros status i Hi. eexists. split; [reflexivity|].
      apply exit_status_failure with (what := what).
      * now apply store_status_in.
      * apply err_token_not_pass. cbn. lia.
Qed.

Lemma unknown_operation_is_fatal_witness :
  let line := ("absx901 frobnicate 1 -> 1" ++ newline)%string in
  split line = ["absx901"; "frobnicate"; "1"; "->"; "1"]
  /\ Registry.dispatched_c 9 Fixtures.context "absx901"
  /\ ~ Registry.known_c "frobnicate"
  /\ Doit_c.doit_line 9 "f.decTest" line Fixtures.context
     = Abort ("f.decTest: unknown operation: " ++ line)%string.
Proof.
  intros line.
  assert (Hs : split line = ["absx901"; "frobnicate"; "1"; "->"; "1"])
    by reflexivity.
  assert (Hd : Registry.dispatched_c 9 Fixtures.context "absx901")
    by (repeat split; discriminate).
  assert (Hk : ~ Registry.known_c "frobnicate").
  { intros [(name & Hin & He) | [He | He]]; try discriminate.
    assert (Hall : forallb (fun n => negb (strcaseeq "frobnicate" n))
                           (flat_map fst Doit_c.dispatch_table) = true)
      by (vm_compute; reflexivity).
    rewrite forallb_forall in Hall. specialize (Hall name Hin).
    rewrite He in Hall. discriminate. }
  split; [exact Hs|]. split; [exact Hd|]. split; [exact Hk|].
  refine (proj1 (unknown_operation_is_fatal 9 line Fixtures.context
                   "absx901" ["frobnicate"; "1"; "->"; "1"])
                "f.decTest" Hs Hd _).
  intros operation Ho. injection Ho as <-. exact Hk.
Defined.

(** ** Reasoning about the drivers *)

Lemma bind_inv {A B : Type} (c : M A) (k : A -> M B) (m : machine)
  (r : B * machine) :
  bindM c k m = Normal r ->
  exists a m1, c m = Normal (a, m1) /\ k a m1 = Normal r.
Proof.
  unfold bindM. destruct (c m) as [[a m1]| | |]; try discriminate.
  intros H. exists a, m1. auto.
Qed.

Lemma bind_normal {A B : Type} (c : M A) (k : A -> M B) (m m1 : machine)
  (a : A) :
  c m = Normal (a, m1) -> bindM c k m = k a m1.
Proof. unfold bindM. now intros ->. Qed.

(** Two continuations that agree on every normal result of [c] give the
    same run. *)
Lemma bind_agree {A B : Type} (c : M A) (k1 k2 : A -> M B) (m : machine) :
  (forall a m1, c m = Normal (a, m1) -> k1 a m1 = k2 a m1) ->
  bindM c k1 m = bindM c k2 m.
Proof.
  intros H. unfold bindM. destruct (c m) as [[a m1]| | |]; auto.
Qed.

Lemma same_but_mem_refl (m : machine) : same_but_mem m m.
Proof. repeat split. Qed.

Lemma same_but_mem_trans (m1 m2 m3 : machine) :
  same_but_mem m1 m2 -> same_but_mem m2 m3 -> same_but_mem m1 m3.
Proof.
  intros (H1 & H2 & H3 & H4) (K1 & K2 & K3 & K4).
  repeat split; congruence.
Qed.

Lemma mpd_init_rand_runs (W : Env) (x : reg) (m : machine) :
  exists m', mpd_init_rand W x m = Normal (tt, m') /\ same_but_mem m m'.
Proof.
  unfold mpd_init_rand, bindM, next_random, read, write. cbn.
  repeat match goal with
         | |- context [if ?b then _ else _] => destruct b
         end;
    eexists; (split; [reflexivity | repeat split]).
Qed.

Lemma copy_runs (W : Env) (dst src : reg) (m : machine) :
  exists m', copy W dst src m = Normal (tt, m') /\ same_but_mem m m'.
Proof.
  unfold copy, bindM, read, write, get_ctx. cbn.
  eexists; (split; [reflexivity | repeat split]).
Qed.

Lemma minalloc_runs (W : Env) (x : reg) (m : machine) :
  exists m', minalloc W x m = Normal (tt, m') /\ same_but_mem m m'.
Proof.
  unfold minalloc, bindM, read, write. cbn.
  eexists; (split; [reflexivity | repeat split]).
Qed.

(** The statements of the first loop of [_Res_Op_Ctx] before the
    operation is called. *)
Lemma res_op_prepared (W : Env) (m : machine) :
  exists m',
    (mpd_init_rand W R_tmp ;; copy W R_tmp R_op ;; minalloc W R_result ;;
     assign_status 0) m = Normal (tt, m')
    /\ ctx m' = set_status (ctx m) 0
    /\ alloc_st m' = alloc_st m /\ rep m' = rep m.
Proof.
  destruct (mpd_init_rand_runs W R_tmp m) as (m1 & E1 & F1).
  destruct (copy_runs W R_tmp R_op m1) as (m2 & E2 & F2).
  destruct (minalloc_runs W R_result m2) as (m3 & E3 & F3).
  pose proof (same_but_mem_trans _ _ _ (same_but_mem_trans _ _ _ F1 F2) F3)
    as (Hc & Ha & Hr & _).
  eexists. split.
  - rewrite (bind_normal _ _ _ _ _ E1), (bind_normal _ _ _ _ _ E2),
      (bind_normal _ _ _ _ _ E3). reflexivity.
  - cbn. rewrite Hc, Ha, Hr. auto.
Qed.

(** A call through the context: what it does when it returns. *)
Lemma call_returns (W : Env)
  (e : store -> mpd_context_t -> engine (store * Z)) (m m' : machine) :
  call W e m = Normal (tt, m') ->
  exists reported,
    fst (run_engine (libc W) (e (mem m) (ctx m)) (alloc_st m))
    = (mem m', reported)
    /\ alloc_st m'
       = snd (run_engine (libc W) (e (mem m) (ctx m)) (alloc_st m))
    /\ Z.land reported (traps (ctx m)) = 0
    /\ ctx m' = set_status (ctx m) (Z.lor (status (ctx m)) reported)
    /\ rep m' = rep m.
Proof.
  unfold call, mpd_addstatus_raise, traphandler.
  destruct (run_engine (libc W) (e (mem m) (ctx m)) (alloc_st m))
    as [[s reported] a].
  cbn.
  destruct (Z.land reported (traps (ctx m)) =? 0) eqn:E; [| discriminate].
  intros H. injection H as <-. apply Z.eqb_eq in E.
  exists reported. cbn. auto.
Qed.

(** A call through the context either returns or leaves through the
    trap handler. *)
Lemma call_returns_or_traps (W : Env)
  (e : store -> mpd_context_t -> engine (store * Z)) (m : machine) :
  (exists m', call W e m = Normal (tt, m')) \/ call W e m = Exit 1.
Proof.
  unfold call, mpd_addstatus_raise, traphandler.
  destruct (run_engine (libc W) (e (mem m) (ctx m)) (alloc_st m))
    as [[s reported] a].
  cbn. destruct (Z.land reported (traps (ctx m)) =? 0);
    [left; eexists; reflexivity | now right].
Qed.

(** The trial of the first loop of [_Res_Op_Ctx], step by step. *)
Lemma res_op_trial_inv (W : Env) (func : unary_func) (m m' : machine)
  (t : trial) :
  res_op_trial W func m = Normal (t, m') ->
  exists m1 m2 m3,
    (mpd_init_rand W R_tmp ;; copy W R_tmp R_op ;; minalloc W R_result ;;
     assign_status 0) m = Normal (tt, m1)
    /\ set_alloc_fail m1 = Normal (tt, m2)
    /\ call W (func R_result R_tmp) m2 = Normal (tt, m3)
    /\ set_alloc m3 = Normal (tt, m')
    /\ t = mk_trial (alloc_fail (alloc_st m)) (mpd_funcs (alloc_st m2))
                    (mem m2) (mem m') (status (ctx m')).
Proof.
  unfold res_op_trial. intros H.
  apply bind_inv in H. destruct H as (a0 & n0 & E0 & H).
  cbn in E0. injection E0 as <- <-.
  apply bind_inv in H. destruct H as ([] & n1 & E1 & H).
  apply bind_inv in H. destruct H as ([] & n2 & E2 & H).
  apply bind_inv in H. destruct H as ([] & n3 & E3 & H).
  apply bind_inv in H. destruct H as ([] & n4 & E4 & H).
  apply bind_inv in H. destruct H as ([] & m2 & Hf & H).
  apply bind_inv in H. destruct H as (before & n5 & E5 & H).
  cbn in E5. injection E5 as <- <-.
  apply bind_inv in H. destruct H as (installed & n6 & E6 & H).
  cbn in E6. injection E6 as <- <-.
  apply bind_inv in H. destruct H as ([] & m3 & Hc & H).
  apply bind_inv in H. destruct H as ([] & m4 & Hs & H).
  apply bind_inv in H. destruct H as (after & n7 & E7 & H).
  cbn in E7. injection E7 as <- <-.
  apply bind_inv in H. destruct H as (c & n8 & E8 & H).
  cbn in E8. injection E8 as <- <-.
  cbn in H. injection H as <- <-.
  exists n4, m2, m3. split; [| auto].
  rewrite (bind_normal _ _ _ _ _ E1), (bind_normal _ _ _ _ _ E2),
    (bind_normal _ _ _ _ _ E3). exact E4.
Qed.

Lemma ASSERT_inv (p : bool) (m m' : machine) (u : unit) :
  ASSERT p m = Normal (u, m') -> p = true /\ m' = m.
Proof.
  unfold ASSERT. destruct p; [| discriminate].
  intros H. injection H as _ <-. auto.
Qed.

Lemma res_op_trial_after (W : Env) (func : unary_func) (m m' : machine)
  (t : trial) :
  res_op_trial W func m = Normal (t, m') ->
  t_after t = mem m' /\ t_status t = status (ctx m').
Proof.
  intros H. apply res_op_trial_inv in H.
  destruct H as (m1 & m2 & m3 & _ & _ & _ & _ & ->). auto.
Qed.

Lemma binres_trial_after (W : Env) (func : binres_func) (q r : reg)
  (m m' : machine) (t : trial) :
  binres_trial W func q r m = Normal (t, m') ->
  t_after t = mem m' /\ t_status t = status (ctx m').
Proof.
  unfold binres_trial. intros H.
  apply bind_inv in H. destruct H as (a0 & n0 & E0 & H).
  apply bind_inv in H. destruct H as ([] & n1 & E1 & H).
  apply bind_inv in H. destruct H as ([] & n2 & E2 & H).
  apply bind_inv in H. destruct H as (before & n3 & E3 & H).
  apply bind_inv in H. destruct H as (installed & n4 & E4 & H).
  apply bind_inv in H. destruct H as ([] & n5 & E5 & H).
  apply bind_inv in H. destruct H as ([] & n6 & E6 & H).
  apply bind_inv in H. destruct H as (after & n7 & E7 & H).
  cbn in E7. injection E7 as <- <-.
  apply bind_inv in H. destruct H as (c & n8 & E8 & H).
  cbn in E8. injection E8 as <- <-.
  cbn in H. injection H as <- <-. auto.
Qed.

(** ** Failing trials *)

(** C1, as stated, on the unary driver run with the operation
    [Fixtures.careless], which on a refused allocation leaves a signaling
    not-a-number in the result and changes its operand: the part of
    [_Res_Op_Ctx] with distinct result and operand runs to its end and
    reports nothing, although at the failing trial (threshold 1) the
    result is not a quiet not-a-number and the operand is not equal to
    its value before the call. *)
Lemma careless_operation_passes :
  exists trials m' t,
    res_op_distinct Fixtures.env 4 Fixtures.careless "0" 0 "x1"
                    (Fixtures.start true)
    = Normal (trials, m')
    /\ rep m' = Fixtures.no_report
    /\ nth_error trials 0 = Some t
    /\ Z.land (t_status t) MPD_Malloc_error <> 0
    /\ mpd_isqnan (load (t_after t) R_result) = false
    /\ equalmem (load (t_after t) R_tmp) (load (t_before t) R_tmp) = false.
Proof.
  do 3 eexists. split; [vm_compute; reflexivity|].
  split; [reflexivity|]. split; [reflexivity|].
  split; [vm_compute; discriminate|]. split; reflexivity.
Qed.

(** The first loop of the unary driver ([_Res_Op_Ctx], result and
    operand distinct) and the loop of every part of the paired driver
    ([_Binres_Binop_Ctx]): when the loop comes to its end, at every
    failing trial (one after which the status contains
    [MPD_Malloc_error]) the decimal that takes the result is a
    not-a-number, quiet or signaling; for the paired driver both decimals
    that take a result are. *)
Lemma failing_trials_leave_nan (W : Env) (fuel : nat) :
  (forall (func : unary_func) (incr : Z) (m m' : machine)
          (trials : list trial),
      res_op_failures W fuel func incr m = Normal (trials, m') ->
      forall t, In t trials ->
                Z.land (t_status t) MPD_Malloc_error <> 0 ->
                mpd_isnan (load (t_after t) R_result) = true)
  /\ (forall (func : binres_func) (q r : reg) (inclusive : bool)
             (incr : Z) (m m' : machine) (trials : list trial),
         binres_failures W fuel func q r inclusive incr m
         = Normal (trials, m') ->
         forall t, In t trials ->
                   Z.land (t_status t) MPD_Malloc_error <> 0 ->
                   mpd_isnan (load (t_after t) q) = true
                   /\ mpd_isnan (load (t_after t) r) = true).
Proof.
  induction fuel as [|fuel [IH1 IH2]].
  - split; intros; discriminate.
  - split.
    + intros func incr m m' trials H t Hin Hfail.
      cbn [res_op_failures] in H.
      apply bind_inv in H. destruct H as (a & n0 & E0 & H).
      cbn in E0. injection E0 as <- <-.
      destruct (alloc_fail (alloc_st m) <? INT_MAX);
        [| cbn in H; injection H as <- <-; destruct Hin].
      apply bind_inv in H. destruct H as (t0 & m1 & Ht & H).
      destruct (res_op_trial_after _ _ _ _ _ Ht) as [Hafter Hstatus].
      destruct (Z.land (t_status t0) MPD_Malloc_error =? 0) eqn:Eok.
      * cbn in H. injection H as <- <-. destruct Hin as [<- | []].
        apply Z.eqb_eq in Eok. contradiction.
      * apply bind_inv in H. destruct H as (v & n1 & E1 & H).
        cbn in E1. injection E1 as <- <-.
        apply bind_inv in H. destruct H as ([] & n2 & E2 & H).
        apply ASSERT_inv in E2. destruct E2 as [Hnan ->].
        apply bind_inv in H. destruct H as (a' & n3 & E3 & H).
        apply bind_inv in H. destruct H as ([] & n4 & E4 & H).
        apply bind_inv in H. destruct H as (rest & n5 & E5 & H).
        cbn in H. injection H as <- <-.
        destruct Hin as [<- | Hin].
        -- rewrite Hafter. exact Hnan.
        -- exact (IH1 _ _ _ _ _ E5 t Hin Hfail).
    + intros func q r inclusive incr m m' trials H t Hin Hfail.
      cbn [binres_failures] in H.
      apply bind_inv in H. destruct H as (a & n0 & E0 & H).
      cbn in E0. injection E0 as <- <-.
      destruct (if inclusive then alloc_fail (alloc_st m) <=? INT_MAX
                else alloc_fail (alloc_st m) <? INT_MAX);
        [| cbn in H; injection H as <- <-; destruct Hin].
      apply bind_inv in H. destruct H as (t0 & m1 & Ht & H).
      destruct (binres_trial_after _ _ _ _ _ _ _ Ht) as [Hafter Hstatus].
      destruct (Z.land (t_status t0) MPD_Malloc_error =? 0) eqn:Eok.
      * cbn in H. injection H as <- <-. destruct Hin as [<- | []].
        apply Z.eqb_eq in Eok. contradiction.
      * apply bind_inv in H. destruct H as (vq & n1 & E1 & H).
        cbn in E1. injection E1 as <- <-.
        apply bind_inv in H. destruct H as ([] & n2 & E2 & H).
        apply ASSERT_inv in E2. destruct E2 as [Hq ->].
        apply bind_inv in H. destruct H as (vr & n3 & E3 & H).
        cbn in E3. injection E3 as <- <-.
        apply bind_inv in H. destruct H as ([] & n4 & E4 & H).
        apply ASSERT_inv in E4. destruct E4 as [Hr ->].
        apply bind_inv in H. destruct H as (a' & n5 & E5 & H).
        apply bind_inv in H. destruct H as ([] & n6 & E6 & H).
        apply bind_inv in H. destruct H as (rest & n7 & E7 & H).
        cbn in H. injection H as <- <-.
        destruct Hin as [<- | Hin].
        -- rewrite Hafter. auto.
        -- exact (IH2 _ _ _ _ _ _ _ _ E7 t Hin Hfail).
Qed.

(** ** Without allocation-failure checking *)

Lemma serve_static (libc : request -> bool) (st : alloc_state)
  (r : request) :
  let st' := snd (serve libc st r) in
  enable_check_alloc st' = enable_check_alloc st
  /\ mpd_funcs st' = mpd_funcs st
  /\ alloc_fail st' = alloc_fail st
  /\ test_funcs st' = test_funcs st.
Proof.
  unfold serve, malloc_count, calloc_count, realloc_count,
    malloc_fail, calloc_fail, realloc_fail.
  destruct (mpd_funcs st) eqn:Ef, r; cbn;
    repeat match goal with
           | |- context [if ?b then _ else _] => destruct b
           end; cbn; auto.
Qed.

Lemma run_engine_static {A : Type} (libc : request -> bool)
  (e : engine A) (st : alloc_state) :
  let st' := snd (run_engine libc e st) in
  enable_check_alloc st' = enable_check_alloc st
  /\ mpd_funcs st' = mpd_funcs st
  /\ alloc_fail st' = alloc_fail st
  /\ test_funcs st' = test_funcs st.
Proof.
  revert st. induction e as [a | r k IH]; intros st; cbn.
  - auto.
  - pose proof (serve_static libc st r) as Hs.
    destruct (serve libc st r) as [p st1]. cbn in Hs.
    specialize (IH p st1). cbn in IH. intuition congruence.
Qed.

Lemma set_alloc_fail_off (m m' : machine) :
  Quiet.unchecked m ->
  set_alloc_fail m = Normal (tt, m') ->
  mem m' = mem m /\ ctx m' = ctx m /\ alloc_st m' = alloc_st m
  /\ rep m' = rep m.
Proof.
  unfold Quiet.unchecked, set_alloc_fail, mpd_set_alloc_fail.
  intros ->. intros H. injection H as <-. auto.
Qed.

Lemma set_alloc_inv (m m' : machine) :
  set_alloc m = Normal (tt, m') ->
  mem m' = mem m /\ ctx m' = set_traps (ctx m) MPD_Malloc_error
  /\ alloc_st m' = with_mpd_funcs (alloc_st m) primary_set
  /\ rep m' = rep m.
Proof.
  unfold set_alloc, mpd_set_alloc. intros H. injection H as <-. auto.
Qed.

(** *** Runs that end *)

Lemma ends_bind {A B : Type} (P : A -> machine -> Prop)
  (Q : B -> machine -> Prop) (c : M A) (k : A -> M B) (m : machine) :
  Quiet.ends P (c m) ->
  (forall a m1, P a m1 -> Quiet.ends Q (k a m1)) ->
  Quiet.ends Q (bindM c k m).
Proof.
  unfold Quiet.ends, bindM.
  destruct (c m) as [[a m1]| | |]; intros H1 H2;
    [exact (H2 a m1 H1) | exact I | exact I | exact H1].
Qed.

Lemma ends_self {A : Type} (c : M A) (m : machine) :
  c m <> Unfinished ->
  Quiet.ends (fun a m1 => c m = Normal (a, m1)) (c m).
Proof.
  unfold Quiet.ends. destruct (c m) as [[a m1]| | |]; auto.
Qed.

Lemma ends_weaken {A : Type} (P Q : A -> machine -> Prop)
  (r : run (A * machine)) :
  Quiet.ends P r -> (forall a m, P a m -> Q a m) -> Quiet.ends Q r.
Proof.
  unfold Quiet.ends. destruct r as [[a m1]| | |]; auto.
Qed.

(** A step that is a plain function of the state. *)
Ltac prim :=
  let E := fresh "E" in
  eapply ends_bind;
  [ apply ends_self; cbn; discriminate
  | cbn beta; intros ? ? E; cbn in E; injection E as <- <- ].

Lemma mpd_init_rand_ends (W : Env) (x : reg) (m : machine) :
  Quiet.ends (fun _ m' => same_but_mem m m') (mpd_init_rand W x m).
Proof. destruct (mpd_init_rand_runs W x m) as (m' & -> & F). exact F. Qed.

Lemma copy_ends (W : Env) (dst src : reg) (m : machine) :
  Quiet.ends (fun _ m' => same_but_mem m m') (copy W dst src m).
Proof. destruct (copy_runs W dst src m) as (m' & -> & F). exact F. Qed.

Lemma minalloc_ends (W : Env) (x : reg) (m : machine) :
  Quiet.ends (fun _ m' => same_but_mem m m') (minalloc W x m).
Proof. destruct (minalloc_runs W x m) as (m' & -> & F). exact F. Qed.

Lemma _mpd_to_sci_ends (W : Env) (dec : reg) (fmt : Z) (m : machine) :
  Quiet.ends (fun _ m' => m' = m) (_mpd_to_sci W dec fmt m).
Proof.
  unfold _mpd_to_sci, bindM, read, ASSERT, ret.
  destruct (mpd_to_sci_size W (load (mem m) dec) fmt) as [s size].
  destruct (streq _ s); cbn; [| exact I].
  destruct (size =? _); cbn; auto.
Qed.

Lemma call_ends (W : Env)
  (e : store -> mpd_context_t -> engine (store * Z)) (m : machine) :
  Quiet.ends (fun _ m' => call W e m = Normal (tt, m')) (call W e m).
Proof.
  eapply ends_weaken.
  - apply ends_self.
    destruct (call_returns_or_traps W e m) as [(m' & E) | E];
      rewrite E; discriminate.
  - intros [] m' E. exact E.
Qed.

(** What the three loop bodies share: from [mpd_set_alloc_fail] to the
    status after the call. *)
Lemma trial_tail_ends (W : Env)
  (e : store -> mpd_context_t -> engine (store * Z)) (n : Z)
  (m : machine) :
  Quiet.settled m ->
  status (ctx m) = 0 ->
  Quiet.ends
    (fun t m' =>
       Quiet.normal_trial n t /\ Quiet.settled m'
       /\ alloc_fail (alloc_st m') = alloc_fail (alloc_st m))
    ((set_alloc_fail ;;
      before <- get_mem ;;
      installed <- get_alloc ;;
      call W e ;;
      set_alloc ;;
      after <- get_mem ;;
      c <- get_ctx ;;
      ret (mk_trial n (mpd_funcs installed) before after (status c))) m).
Proof.
  intros (Hu & Hp & Ht) Hs.
  eapply ends_bind.
  { apply ends_self. unfold set_alloc_fail.
    destruct (mpd_set_alloc_fail (ctx m) (alloc_st m)). discriminate. }
  cbn beta. intros [] m1 E1.
  destruct (set_alloc_fail_off _ _ Hu E1) as (_ & Hc1 & Ha1 & _).
  prim. prim.
  eapply ends_bind; [apply call_ends |].
  cbn beta. intros [] m2 E2.
  apply call_returns in E2.
  destruct E2 as (reported & _ & Ha2 & Hland & Hc2 & _).
  prim. prim. prim.
  pose proof (run_engine_static (libc W) (e (mem m1) (ctx m1))
                (alloc_st m1)) as (Se & Sf & Sa & _).
  cbn in Se, Sf, Sa. rewrite <- Ha2 in Se, Sf, Sa.
  unfold ret, Quiet.ends, Quiet.normal_trial, Quiet.settled,
    Quiet.unchecked in *.
  cbn. rewrite Hc2, Hc1 in *. cbn in *. rewrite Hs, Ht in *.
  rewrite Z.lor_0_l.
  repeat split; congruence.
Qed.

Lemma res_op_trial_ends (W : Env) (func : unary_func) (m : machine) :
  Quiet.settled m ->
  Quiet.ends
    (fun t m' =>
       Quiet.normal_trial (alloc_fail (alloc_st m)) t /\ Quiet.settled m'
       /\ alloc_fail (alloc_st m') = alloc_fail (alloc_st m))
    (res_op_trial W func m).
Proof.
  intros (Hu & Hp & Ht). unfold res_op_trial.
  prim.
  eapply ends_bind; [apply mpd_init_rand_ends |].
  cbn beta. intros [] m1 (C1 & A1 & _).
  eapply ends_bind; [apply copy_ends |].
  cbn beta. intros [] m2 (C2 & A2 & _).
  eapply ends_bind; [apply minalloc_ends |].
  cbn beta. intros [] m3 (C3 & A3 & _).
  prim.
  eapply ends_weaken.
  { apply trial_tail_ends.
    - unfold Quiet.settled, Quiet.unchecked in *. cbn.
      rewrite A3, A2, A1, C3, C2, C1. auto.
    - reflexivity. }
  cbn. intros t m' (Hn & Hs' & Hf). rewrite A3, A2, A1 in Hf. auto.
Qed.

Lemma res_op_trial_eq_ends (W : Env) (func : unary_func) (m : machine) :
  Quiet.settled m ->
  Quiet.ends
    (fun t m' =>
       Quiet.normal_trial (alloc_fail (alloc_st m)) t /\ Quiet.settled m'
       /\ alloc_fail (alloc_st m') = alloc_fail (alloc_st m))
    (res_op_trial_eq W func m).
Proof.
  intros (Hu & Hp & Ht). unfold res_op_trial_eq.
  prim.
  eapply ends_bind; [apply mpd_init_rand_ends |].
  cbn beta. intros [] m1 (C1 & A1 & _).
  eapply ends_bind; [apply copy_ends |].
  cbn beta. intros [] m2 (C2 & A2 & _).
  prim.
  eapply ends_weaken.
  { apply trial_tail_ends.
    - unfold Quiet.settled, Quiet.unchecked in *. cbn.
      rewrite A2, A1, C2, C1. auto.
    - reflexivity. }
  cbn. intros t m' (Hn & Hs' & Hf). rewrite A2, A1 in Hf. auto.
Qed.

Lemma prepare_ends (W : Env) (prepare : reg -> M unit) (b : bool)
  (x : reg) (m : machine) :
  (forall y n, Quiet.ends (fun _ n' => same_but_mem n n') (prepare y n)) ->
  Quiet.ends (fun _ m' => same_but_mem m m')
    ((if b then prepare x else ret tt) m).
Proof.
  intros Hp. destruct b; [apply Hp | apply same_but_mem_refl].
Qed.

Lemma binres_setup_ends (W : Env) (prepare : reg -> M unit) (q r : reg)
  (m : machine) :
  (forall y n, Quiet.ends (fun _ n' => same_but_mem n n') (prepare y n)) ->
  Quiet.ends
    (fun _ m' => ctx m' = set_status (ctx m) 0 /\ alloc_st m' = alloc_st m)
    (binres_setup W prepare q r m).
Proof.
  intros Hp. unfold binres_setup.
  eapply ends_bind; [apply mpd_init_rand_ends |].
  cbn beta. intros [] m1 (C1 & A1 & _).
  eapply ends_bind; [apply mpd_init_rand_ends |].
  cbn beta. intros [] m2 (C2 & A2 & _).
  eapply ends_bind; [apply copy_ends |].
  cbn beta. intros [] m3 (C3 & A3 & _).
  eapply ends_bind; [apply copy_ends |].
  cbn beta. intros [] m4 (C4 & A4 & _).
  eapply ends_bind; [apply (prepare_ends W); exact Hp |].
  cbn beta. intros [] m5 (C5 & A5 & _).
  eapply ends_bind; [apply (prepare_ends W); exact Hp |].
  cbn beta. intros [] m6 (C6 & A6 & _).
  cbn. split; congruence.
Qed.

Lemma binres_trial_ends (W : Env) (func : binres_func) (q r : reg)
  (m : machine) :
  Quiet.settled m ->
  Quiet.ends
    (fun t m' =>
       Quiet.normal_trial (alloc_fail (alloc_st m)) t /\ Quiet.settled m'
       /\ alloc_fail (alloc_st m') = alloc_fail (alloc_st m))
    (binres_trial W func q r m).
Proof.
  intros (Hu & Hp & Ht). unfold binres_trial.
  prim.
  eapply ends_bind;
    [apply binres_setup_ends; intros; apply minalloc_ends |].
  cbn beta. intros [] m1 (C1 & A1).
  eapply ends_weaken.
  { apply trial_tail_ends.
    - unfold Quiet.settled, Quiet.unchecked in *.
      rewrite A1, C1. auto.
    - rewrite C1. reflexivity. }
  cbn. intros t m' (Hn & Hs' & Hf). rewrite A1 in Hf. auto.
Qed.

(** In a settled state each loop is left after the first call. *)
Lemma res_op_failures_ends (W : Env) (func : unary_func) (fuel : nat)
  (incr : Z) (m : machine) :
  Quiet.settled m ->
  alloc_fail (alloc_st m) = 1 ->
  Quiet.ends (fun trials m' => Quiet.one_trial trials m' /\ Quiet.settled m')
    (res_op_failures W (S fuel) func incr m).
Proof.
  intros Hs H1. cbn [res_op_failures]. prim. rewrite H1.
  change (1 <? INT_MAX) with true. cbv iota.
  eapply ends_bind; [apply res_op_trial_ends; exact Hs |].
  cbn beta. intros t m1 (Hn & Hs1 & _).
  rewrite H1 in Hn. pose proof Hn as (_ & _ & H0).
  apply Z.eqb_eq in H0. rewrite H0. cbn.
  split; [exists t; auto | exact Hs1].
Qed.

Lemma res_op_failures_eq_ends (W : Env) (func : unary_func) (fuel : nat)
  (incr : Z) (m : machine) :
  Quiet.settled m ->
  alloc_fail (alloc_st m) = 1 ->
  Quiet.ends (fun trials m' => Quiet.one_trial trials m' /\ Quiet.settled m')
    (res_op_failures_eq W (S fuel) func incr m).
Proof.
  intros Hs H1. cbn [res_op_failures_eq]. prim. rewrite H1.
  change (1 <? INT_MAX) with true. cbv iota.
  eapply ends_bind; [apply res_op_trial_eq_ends; exact Hs |].
  cbn beta. intros t m1 (Hn & Hs1 & _).
  rewrite H1 in Hn. pose proof Hn as (_ & _ & H0).
  apply Z.eqb_eq in H0. rewrite H0. cbn.
  split; [exists t; auto | exact Hs1].
Qed.

Lemma binres_failures_ends (W : Env) (func : binres_func) (q r : reg)
  (inclusive : bool) (fuel : nat) (incr : Z) (m : machine) :
  Quiet.settled m ->
  alloc_fail (alloc_st m) = 1 ->
  Quiet.ends (fun trials m' => Quiet.one_trial trials m' /\ Quiet.settled m')
    (binres_failures W (S fuel) func q r inclusive incr m).
Proof.
  intros Hs H1. cbn [binres_failures]. prim. rewrite H1.
  replace (if inclusive then 1 <=? INT_MAX else 1 <? INT_MAX) with true
    by (now destruct inclusive).
  cbv iota.
  eapply ends_bind; [apply binres_trial_ends; exact Hs |].
  cbn beta. intros t m1 (Hn & Hs1 & _).
  rewrite H1 in Hn. pose proof Hn as (_ & _ & H0).
  apply Z.eqb_eq in H0. rewrite H0. cbn.
  split; [exists t; auto | exact Hs1].
Qed.

Lemma call_unchecked (W : Env)
  (e : store -> mpd_context_t -> engine (store * Z)) (m m' : machine) :
  call W e m = Normal (tt, m') -> Quiet.unchecked m -> Quiet.unchecked m'.
Proof.
  intros E Hu. apply call_returns in E.
  destruct E as (reported & _ & Ha & _).
  pose proof (run_engine_static (libc W) (e (mem m) (ctx m)) (alloc_st m))
    as (Se & _).
  cbn in Se. unfold Quiet.unchecked in *. rewrite Ha, Se. exact Hu.
Qed.

Lemma binres_compare_ends (W : Env) (q r : reg)
  (expected1 expected2 : string) (expstatus : Z) (id : string)
  (m : machine) :
  Quiet.ends (fun _ m' => ctx m' = ctx m /\ alloc_st m' = alloc_st m)
    (binres_compare W q r expected1 expected2 expstatus id m).
Proof.
  unfold binres_compare.
  eapply ends_bind; [apply _mpd_to_sci_ends |].
  cbn beta. intros calc1 ? ->. prim.
  eapply ends_bind; [apply _mpd_to_sci_ends |].
  cbn beta. intros calc2 ? ->.
  cbn. auto.
Qed.

Lemma binres_checks_ends (q r : reg) (id : string) (m : machine) :
  Quiet.ends (fun _ m' => ctx m' = ctx m /\ alloc_st m' = alloc_st m)
    (binres_checks q r id m).
Proof.
  unfold binres_checks, bindM.
  destruct (uses q r R_tmp1), (uses q r R_tmp2); cbn; auto.
Qed.

Lemma res_op_distinct_ends (W : Env) (fuel : nat) (func : unary_func)
  (expected : string) (expstatus : Z) (id : string) (m : machine) :
  Quiet.unchecked m ->
  Quiet.ends Quiet.one_trial
    (res_op_distinct W (S fuel) func expected expstatus id m).
Proof.
  intros Hu. unfold res_op_distinct.
  eapply ends_bind; [apply mpd_init_rand_ends |].
  cbn beta. intros [] m1 (C1 & A1 & _).
  eapply ends_bind; [apply copy_ends |].
  cbn beta. intros [] m2 (C2 & A2 & _).
  eapply ends_bind; [apply mpd_init_rand_ends |].
  cbn beta. intros [] m3 (C3 & A3 & _).
  prim. prim.
  eapply ends_bind; [apply call_ends |].
  cbn beta. intros [] m4 E4.
  apply call_unchecked in E4;
    [| unfold Quiet.unchecked in *; cbn; rewrite A3, A2, A1; exact Hu].
  prim.
  eapply ends_bind; [apply _mpd_to_sci_ends |].
  cbn beta. intros calc ? ->.
  prim. prim. prim.
  eapply ends_bind.
  { apply res_op_failures_ends; [| reflexivity].
    unfold Quiet.settled, Quiet.unchecked in *. cbn. auto. }
  cbn beta. intros trials m5 (H1 & _).
  eapply ends_bind; [apply _mpd_to_sci_ends |].
  cbn beta. intros calc' ? ->.
  prim. prim. exact H1.
Qed.

Lemma res_op_equal_ends (W : Env) (fuel : nat) (func : unary_func)
  (expected : string) (expstatus : Z) (id : string) (m : machine) :
  Quiet.unchecked m ->
  Quiet.ends Quiet.one_trial
    (res_op_equal W (S fuel) func expected expstatus id m).
Proof.
  intros Hu. unfold res_op_equal.
  eapply ends_bind; [apply mpd_init_rand_ends |].
  cbn beta. intros [] m1 (C1 & A1 & _).
  eapply ends_bind; [apply copy_ends |].
  cbn beta. intros [] m2 (C2 & A2 & _).
  prim. prim.
  eapply ends_bind; [apply call_ends |].
  cbn beta. intros [] m4 E4.
  apply call_unchecked in E4;
    [| unfold Quiet.unchecked in *; cbn; rewrite A2, A1; exact Hu].
  prim.
  eapply ends_bind; [apply _mpd_to_sci_ends |].
  cbn beta. intros calc ? ->.
  prim. prim.
  eapply ends_bind.
  { apply res_op_failures_eq_ends; [| reflexivity].
    unfold Quiet.settled, Quiet.unchecked in *. cbn. auto. }
  cbn beta. intros trials m5 (H1 & _).
  eapply ends_bind; [apply _mpd_to_sci_ends |].
  cbn beta. intros calc' ? ->.
  prim. exact H1.
Qed.

Lemma binres_part_ends (W : Env) (fuel : nat) (func : binres_func)
  (q r : reg) (inclusive : bool) (expected1 expected2 : string)
  (expstatus : Z) (id : string) (m : machine) :
  Quiet.unchecked m ->
  Quiet.ends Quiet.one_trial
    (binres_part W (S fuel) func q r inclusive expected1 expected2
       expstatus id m).
Proof.
  intros Hu. unfold binres_part, binres_call, binres_after_call.
  eapply ends_bind with (P := fun _ m' => Quiet.settled m').
  { eapply ends_bind;
      [apply binres_setup_ends; intros; apply mpd_init_rand_ends |].
    cbn beta. intros [] m1 (C1 & A1).
    prim.
    eapply ends_bind; [apply call_ends |].
    cbn beta. intros [] m2 E2.
    apply call_unchecked in E2;
      [| unfold Quiet.unchecked in *; cbn; rewrite A1; exact Hu].
    unfold Quiet.settled, Quiet.unchecked in *. cbn. auto. }
  cbn beta. intros [] m3 (Hu3 & Hp3 & Ht3).
  eapply ends_bind; [apply binres_compare_ends |].
  cbn beta. intros [] m4 (C4 & A4).
  eapply ends_bind; [apply binres_checks_ends |].
  cbn beta. intros [] m5 (C5 & A5).
  prim.
  eapply ends_bind.
  { apply binres_failures_ends; [| reflexivity].
    unfold Quiet.settled, Quiet.unchecked in *. cbn.
    rewrite A5, A4, C5, C4. auto. }
  cbn beta. intros trials m6 (H1 & _).
  eapply ends_bind; [apply binres_compare_ends |].
  cbn beta. intros [] m7 _.
  eapply ends_bind; [apply binres_checks_ends |].
  cbn beta. intros [] m8 _.
  exact H1.
Qed.

(** ** With allocation-failure checking *)

Lemma returns_bind {A B : Type} (P : A -> machine -> Prop)
  (Q : B -> machine -> Prop) (c : M A) (k : A -> M B) (m : machine) :
  Probes.returns P (c m) ->
  (forall a m1, P a m1 -> Probes.returns Q (k a m1)) ->
  Probes.returns Q (bindM c k m).
Proof.
  unfold Probes.returns, bindM.
  destruct (c m) as [[a m1]| | |]; intros H1 H2;
    [exact (H2 a m1 H1) | exact H1 | exact H1 | exact H1].
Qed.

Lemma returns_self {A : Type} (c : M A) (m m1 : machine) (a : A) :
  c m = Normal (a, m1) ->
  Probes.returns (fun a' m1' => a' = a /\ m1' = m1) (c m).
Proof. intros ->. cbn. auto. Qed.

Lemma returns_normal {A : Type} (P : A -> machine -> Prop)
  (r : run (A * machine)) :
  Probes.returns P r -> exists a m, r = Normal (a, m) /\ P a m.
Proof.
  destruct r as [[a m]| | |]; cbn; intros H; try contradiction.
  exists a, m. auto.
Qed.

Ltac prim' :=
  eapply returns_bind;
  [ eapply returns_self; cbn; reflexivity
  | cbn beta; intros ? ? [-> ->] ].

Lemma mpd_init_rand_returns (W : Env) (x : reg) (m : machine) :
  Probes.returns (fun _ m' => same_but_mem m m') (mpd_init_rand W x m).
Proof. destruct (mpd_init_rand_runs W x m) as (m' & -> & F). exact F. Qed.

Lemma copy_returns (W : Env) (dst src : reg) (m : machine) :
  Probes.returns (fun _ m' => same_but_mem m m') (copy W dst src m).
Proof. destruct (copy_runs W dst src m) as (m' & -> & F). exact F. Qed.

Lemma minalloc_returns (W : Env) (x : reg) (m : machine) :
  Probes.returns (fun _ m' => same_but_mem m m') (minalloc W x m).
Proof. destruct (minalloc_runs W x m) as (m' & -> & F). exact F. Qed.

(** With nothing trapped, a call returns. *)
Lemma call_untrapped (W : Env)
  (e : store -> mpd_context_t -> engine (store * Z)) (m : machine) :
  traps (ctx m) = 0 ->
  Probes.returns
    (fun _ m' =>
       let r := run_engine (libc W) (e (mem m) (ctx m)) (alloc_st m) in
       mem m' = fst (fst r) /\ alloc_st m' = snd r
       /\ ctx m' = set_status (ctx m) (Z.lor (status (ctx m)) (snd (fst r))))
    (call W e m).
Proof.
  intros Ht. unfold call, mpd_addstatus_raise.
  destruct (run_engine (libc W) (e (mem m) (ctx m)) (alloc_st m))
    as [[s reported] a].
  cbn. rewrite Ht, Z.land_0_r. cbn. auto.
Qed.

(** *** The engine under the failing functions *)

Lemma gives_up_run (libc : request -> bool) (res : reg)
  (e : engine (store * Z)) (st : alloc_state) :
  Strict.gives_up res e ->
  Z.land (snd (fst (run_engine libc e st))) MPD_Malloc_error <> 0
  /\ mpd_isnan (load (fst (fst (run_engine libc e st))) res) = true.
Proof.
  revert st. induction e as [[s reported] | r k IH]; intros st H.
  - exact H.
  - cbn [run_engine]. destruct (serve libc st r) as [p st'].
    destruct H as (Ht & Hf). destruct p; apply IH; assumption.
Qed.

Lemma test_func_static (libc : request -> bool) (st st' : alloc_state)
  (r : request) :
  test_funcs st' = test_funcs st ->
  test_func libc st' r = test_func libc st r.
Proof.
  intros H. unfold test_func, test_mallocfunc, test_callocfunc,
    test_reallocfunc. now rewrite H.
Qed.

Lemma granted_static (libc : request -> bool) (st st' : alloc_state)
  (e : engine (store * Z)) :
  test_funcs st' = test_funcs st ->
  Strict.granted libc st e -> Strict.granted libc st' e.
Proof.
  intros Hs. induction e as [a | r k IH]; cbn; [auto |].
  intros (H1 & H2). split; [| apply IH; exact H2].
  now rewrite (test_func_static libc st st' r Hs).
Qed.

Lemma serve_fail (libc : request -> bool) (st : alloc_state)
  (r : request) :
  mpd_funcs st = fail_set ->
  serve libc st r
  = let st1 := with_alloc_idx st (alloc_idx st + 1) in
    if alloc_idx st + 1 >=? alloc_fail st then (false, st1)
    else (test_func libc st r, st1).
Proof.
  intros H. unfold serve. rewrite H.
  destruct r; reflexivity.
Qed.

Lemma serve_count (libc : request -> bool) (st : alloc_state)
  (r : request) :
  mpd_funcs st = count_set ->
  serve libc st r
  = (test_func libc st r, with_alloc_count st (alloc_count st + 1)).
Proof.
  intros H. unfold serve. rewrite H.
  destruct r; reflexivity.
Qed.

(** An operation that needs [n] allocations, run with threshold
    [alloc_fail] and [alloc_idx] calls made: it gives up when the
    threshold is among the next [n] calls, and reports no
    [MPD_Malloc_error] when the threshold lies behind them. *)
Lemma run_fail_mode (libc : request -> bool) (res : reg)
  (e : engine (store * Z)) :
  forall (n : nat) (st : alloc_state),
    Strict.needs n res e ->
    Strict.granted libc st e ->
    mpd_funcs st = fail_set ->
    (1 <= alloc_fail st - alloc_idx st <= Z.of_nat n ->
     Z.land (snd (fst (run_engine libc e st))) MPD_Malloc_error <> 0
     /\ mpd_isnan (load (fst (fst (run_engine libc e st))) res) = true)
    /\ (Z.of_nat n < alloc_fail st - alloc_idx st ->
        Z.land (snd (fst (run_engine libc e st))) MPD_Malloc_error = 0).
Proof.
  induction e as [[s reported] | r k IH]; intros n st Hn Hg Hf.
  - destruct n; [| contradiction]. cbn in *. split; [lia | auto].
  - destruct n as [| n']; [contradiction |].
    destruct Hn as (Hn & Hup). destruct Hg as (Hg1 & Hg).
    cbn [run_engine]. rewrite (serve_fail libc st r Hf). cbv zeta.
    destruct (alloc_idx st + 1 >=? alloc_fail st) eqn:E.
    + apply Z.geb_le in E. split; [| lia].
      intros _. apply gives_up_run. exact Hup.
    + rewrite Hg1.
      assert (E' : alloc_idx st + 1 < alloc_fail st).
      { destruct (Z.geb_spec (alloc_idx st + 1) (alloc_fail st));
          [discriminate | lia]. }
      set (st1 := with_alloc_idx st (alloc_idx st + 1)).
      destruct (IH true n' st1 Hn) as (I1 & I2).
      * apply (granted_static libc st); [reflexivity | exact Hg].
      * exact Hf.
      * cbn [st1 with_alloc_idx alloc_fail alloc_idx] in I1, I2.
        split; intros H; [apply I1 | apply I2]; lia.
Qed.

(** Counted, such an operation makes [n] calls. *)
Lemma run_count_mode (libc : request -> bool) (res : reg)
  (e : engine (store * Z)) :
  forall (n : nat) (st : alloc_state),
    Strict.needs n res e ->
    Strict.granted libc st e ->
    mpd_funcs st = count_set ->
    Z.land (snd (fst (run_engine libc e st))) MPD_Malloc_error = 0
    /\ alloc_count (snd (run_engine libc e st))
       = alloc_count st + Z.of_nat n.
Proof.
  induction e as [[s reported] | r k IH]; intros n st Hn Hg Hf.
  - destruct n; [| contradiction]. cbn in *. split; [auto | lia].
  - destruct n as [| n']; [contradiction |].
    destruct Hn as (Hn & Hup). destruct Hg as (Hg1 & Hg).
    cbn [run_engine]. rewrite (serve_count libc st r Hf), Hg1.
    set (st1 := with_alloc_count st (alloc_count st + 1)).
    destruct (IH true n' st1 Hn) as (I1 & I2).
    + apply (granted_static libc st); [reflexivity | exact Hg].
    + exact Hf.
    + cbn [st1 with_alloc_count alloc_count] in I2.
      split; [exact I1 | rewrite I2; lia].
Qed.

(** A trial of the first loop of [_Res_Op_Ctx] with checking enabled,
    for an operation that needs [n] allocations. *)
Lemma res_op_trial_checked (W : Env) (func : unary_func) (n : nat)
  (m : machine) :
  enable_check_alloc (alloc_st m) = true ->
  (forall s c, Strict.needs n R_result (func R_result R_tmp s c)) ->
  (forall s c,
     Strict.granted (libc W) (alloc_st m) (func R_result R_tmp s c)) ->
  Probes.returns
    (fun t m' =>
       (t_alloc_fail t = alloc_fail (alloc_st m)
        /\ t_funcs t = fail_set
        /\ t_after t = mem m'
        /\ t_status t = status (ctx m'))
       /\ (enable_check_alloc (alloc_st m') = true
           /\ test_funcs (alloc_st m') = test_funcs (alloc_st m)
           /\ alloc_fail (alloc_st m') = alloc_fail (alloc_st m))
       /\ (1 <= alloc_fail (alloc_st m) <= Z.of_nat n ->
           Z.land (status (ctx m')) MPD_Malloc_error <> 0
           /\ mpd_isnan (load (mem m') R_result) = true)
       /\ (Z.of_nat n < alloc_fail (alloc_st m) ->
           Z.land (status (ctx m')) MPD_Malloc_error = 0))
    (res_op_trial W func m).
Proof.
  intros He Hn Hg. unfold res_op_trial.
  prim'.
  eapply returns_bind; [apply mpd_init_rand_returns |].
  cbn beta. intros [] m1 (C1 & A1 & _).
  eapply returns_bind; [apply copy_returns |].
  cbn beta. intros [] m2 (C2 & A2 & _).
  eapply returns_bind; [apply minalloc_returns |].
  cbn beta. intros [] m3 (C3 & A3 & _).
  prim'.
  assert (A : alloc_st m3 = alloc_st m) by congruence.
  eapply returns_bind.
  { eapply returns_self. unfold set_alloc_fail, mpd_set_alloc_fail.
    cbn. rewrite A, He. reflexivity. }
  cbn beta. intros ? ? [-> ->].
  prim'. prim'.
  eapply returns_bind; [apply call_untrapped; reflexivity |].
  cbn beta. cbv zeta. intros [] m4 (M4 & A4 & C4).
  prim'. prim'. prim'.
  cbn in M4, A4, C4.
  set (st := with_alloc_idx (with_mpd_funcs (alloc_st m) fail_set) 0)
    in *.
  match type of M4 with
  | _ = fst (fst (run_engine _ ?e _)) => set (e0 := e) in *
  end.
  pose proof (run_engine_static (libc W) e0 st) as (Se & Sf & Sa & St).
  cbn in Se, Sf, Sa, St. rewrite <- A4 in Se, Sf, Sa, St.
  destruct (run_fail_mode (libc W) R_result e0 n st) as (F1 & F2).
  { apply Hn. }
  { apply (granted_static (libc W) (alloc_st m)); [reflexivity |].
    apply Hg. }
  { reflexivity. }
  cbn [st with_alloc_idx alloc_fail alloc_idx with_mpd_funcs] in F1, F2.
  rewrite Z.sub_0_r in F1, F2.
  rewrite <- M4 in F1.
  unfold ret, Probes.returns. cbn. rewrite C4. cbn.
  repeat split; first [congruence | now apply F1 | now apply F2].
Qed.

(** The first loop of [_Res_Op_Ctx] for an operation that needs [n]
    allocations, entered at a threshold [k] with [k + j = n + 1]: [j]
    failing trials at [k], ..., [n], then a passing trial at [n + 1]. *)
Lemma res_op_failures_probes (W : Env) (func : unary_func) (n : nat) :
  Z.of_nat n < 100 ->
  (forall s c, Strict.needs n R_result (func R_result R_tmp s c)) ->
  forall (j fuel : nat) (m : machine),
    enable_check_alloc (alloc_st m) = true ->
    (forall s c,
       Strict.granted (libc W) (alloc_st m) (func R_result R_tmp s c)) ->
    1 <= alloc_fail (alloc_st m) ->
    alloc_fail (alloc_st m) + Z.of_nat j = Z.of_nat n + 1 ->
    (j < fuel)%nat ->
    Probes.returns
      (fun trials m' =>
         Probes.probed j (alloc_fail (alloc_st m)) trials (mem m'))
      (res_op_failures W fuel func 1 m).
Proof.
  intros Hsmall Hn.
  induction j as [| j IH]; intros fuel m He Hg H1 Hk Hfuel;
    (destruct fuel as [| fuel]; [lia |]); cbn [res_op_failures];
    prim';
    (assert (Hlt : (alloc_fail (alloc_st m) <? INT_MAX) = true)
       by (apply Z.ltb_lt; unfold INT_MAX; lia));
    rewrite Hlt;
    (eapply returns_bind; [apply (res_op_trial_checked W func n m He Hn Hg) |]);
    cbn beta;
    intros t m1 ((T1 & T2 & T3 & T4) & (He1 & Hs1 & Hf1) & F1 & F2).
  - assert (H0 : Z.land (t_status t) MPD_Malloc_error = 0)
      by (rewrite T4; apply F2; lia).
    pose proof H0 as H0'. apply Z.eqb_eq in H0'. rewrite H0'.
    cbn. unfold Probes.passing. auto.
  - destruct F1 as (Hbad & Hnan); [lia |].
    assert (H0 : (Z.land (t_status t) MPD_Malloc_error =? 0) = false)
      by (apply Z.eqb_neq; rewrite T4; exact Hbad).
    rewrite H0.
    prim'. rewrite Hnan. prim'. prim'.
    assert (Hle : (alloc_fail (alloc_st m1) >? 100) = false).
    { rewrite Hf1. destruct (Z.gtb_spec (alloc_fail (alloc_st m)) 100);
        [lia | reflexivity]. }
    rewrite Hle. prim'.
    eapply returns_bind.
    { apply (IH fuel); cbn.
      - exact He1.
      - intros s c. apply (granted_static (libc W) (alloc_st m));
          [exact Hs1 | apply Hg].
      - lia.
      - lia.
      - lia. }
    cbn beta. intros rest m2 Hrest. cbn in Hrest. cbn.
    rewrite Hf1 in Hrest. split; [| exact Hrest].
    unfold Probes.failing. rewrite T3, T4. auto.
Qed.

(** C2, as stated, on the operation [Fixtures.copy5], which makes five
    allocation calls: run by the part of [_Res_Op_Ctx] with distinct
    result and operand, with checking enabled, the counted call leaves
    [alloc_count] at 5, and the loop makes six trials, at the thresholds
    1 to 6.  The trial at threshold 5 still ends with
    [MPD_Malloc_error]; the first trial without it is the one at
    threshold 6. *)
Lemma five_allocations_fail_at_threshold_five :
  exists trials m',
    res_op_distinct Fixtures.env 8 Fixtures.copy5 "0" 0 "x1"
      (Fixtures.start true) = Normal (trials, m')
    /\ alloc_count (alloc_st m') = 5
    /\ map t_alloc_fail trials = [1; 2; 3; 4; 5; 6]
    /\ map (fun t => Z.land (t_status t) MPD_Malloc_error) trials
       = [MPD_Malloc_error; MPD_Malloc_error; MPD_Malloc_error;
          MPD_Malloc_error; MPD_Malloc_error; 0].
Proof.
  vm_compute. do 2 eexists. split; [reflexivity |].
  vm_compute. repeat split.
Qed.

(** C2, amended.  With checking enabled, let [func] be an operation that,
    called with result [result] and operand [tmp], makes exactly five
    allocation calls when all are granted, reports no
    [MPD_Malloc_error] then, and at the first refusal reports
    [MPD_Malloc_error] and leaves a not-a-number in the result; let the
    primary functions grant its requests.  Then the counted call adds 5
    to [alloc_count], and the first loop of [_Res_Op_Ctx], entered with
    [alloc_fail = 1], returns after exactly six trials: the trials at
    the thresholds 1, 2, 3, 4 and 5 run under the failing functions and
    end with [MPD_Malloc_error] and a not-a-number result, the trial at
    threshold 6 runs under the failing functions and ends without
    [MPD_Malloc_error], and the memory that the loop leaves is the one
    after that sixth trial. *)
Theorem five_allocations_six_trials (W : Env) (func : unary_func)
  (fuel : nat) (m : machine) :
  enable_check_alloc (alloc_st m) = true ->
  alloc_fail (alloc_st m) = 1 ->
  (forall s c, Strict.needs 5 R_result (func R_result R_tmp s c)) ->
  (forall s c,
     Strict.granted (libc W) (alloc_st m) (func R_result R_tmp s c)) ->
  (6 <= fuel)%nat ->
  (forall s c st,
     mpd_funcs st = count_set ->
     test_funcs st = test_funcs (alloc_st m) ->
     alloc_count (snd (run_engine (libc W) (func R_result R_tmp s c) st))
     = alloc_count st + 5)
  /\ exists t1 t2 t3 t4 t5 t6 m',
       res_op_failures W fuel func 1 m
       = Normal ([t1; t2; t3; t4; t5; t6], m')
       /\ Probes.failing 1 t1 /\ Probes.failing 2 t2
       /\ Probes.failing 3 t3 /\ Probes.failing 4 t4
       /\ Probes.failing 5 t5 /\ Probes.passing 6 t6
       /\ mem m' = t_after t6.
Proof.
  intros He H1 Hn Hg Hfuel. split.
  - intros s c st Hc Hs.
    apply (run_count_mode (libc W) R_result _ 5 st (Hn s c)); [| exact Hc].
    apply (granted_static (libc W) (alloc_st m)); [exact Hs | apply Hg].
  - pose proof (res_op_failures_probes W func 5 ltac:(cbn; lia) Hn 5 fuel m
                  He Hg ltac:(lia) ltac:(rewrite H1; reflexivity)
                  ltac:(lia)) as H.
    apply returns_normal in H. destruct H as (trials & m' & E & H).
    rewrite H1 in H.
    destruct trials as [| t1 [| t2 [| t3 [| t4 [| t5 [| t6 [| t7 rest]]]]]]];
      cbn in H; try tauto.
    exists t1, t2, t3, t4, t5, t6, m'. split; [exact E |]. tauto.
Qed.

Lemma five_allocations_six_trials_witness :
  exists t1 t2 t3 t4 t5 t6 m',
    res_op_failures Fixtures.env 6 Fixtures.copy5 1 Fixtures_entry
    = Normal ([t1; t2; t3; t4; t5; t6], m')
    /\ Probes.failing 1 t1 /\ Probes.failing 2 t2
    /\ Probes.failing 3 t3 /\ Probes.failing 4 t4
    /\ Probes.failing 5 t5 /\ Probes.passing 6 t6
    /\ mem m' = t_after t6.
Proof.
  refine (proj2 (five_allocations_six_trials Fixtures.env Fixtures.copy5 6
                   Fixtures_entry eq_refl eq_refl _ _ (le_n 6))).
  - intros s c. cbn. repeat split; discriminate.
  - intros s c. cbn. repeat split.
Defined.

(** ** The triple conversion test *)

Lemma load_store_other (s : store) (x b : reg) (v : mpd_t) :
  reg_eqb b x = false -> load (store_at s x v) b = load s b.
Proof. destruct b, x; intros H; try discriminate H; reflexivity. Qed.

Lemma load_store_same (s : store) (x : reg) (v : mpd_t) :
  load (store_at s x v) x = v.
Proof. destruct x; reflexivity. Qed.

Lemma mpd_init_rand_frame (W : Env) (x : reg) (m m' : machine) :
  mpd_init_rand W x m = Normal (tt, m') ->
  forall b, reg_eqb b x = false -> load (mem m') b = load (mem m) b.
Proof.
  unfold mpd_init_rand, bindM, next_random, read, write. cbn.
  repeat match goal with
         | |- context [if ?c then _ else _] => destruct c
         end;
    intros H; injection H as <-; intros b Hb; cbn;
    now apply load_store_other.
Qed.

Lemma from_triple_inv (W : Env) (triple : mpd_uint128_triple_t)
  (m m' : machine) (rs : Z * Z) :
  from_triple W triple m = Normal (rs, m') ->
  Triples.decodes W triple (fst rs) (load (mem m') R_result) (snd rs)
  /\ rep m' = rep m
  /\ (forall b, reg_eqb b R_result = false ->
                load (mem m') b = load (mem m) b).
Proof.
  unfold from_triple.
  destruct (run_engine (libc W)
              (mpd_from_uint128_triple W (load (mem m) R_result) triple)
              (alloc_st m)) as [[[ret_ r] status_] a] eqn:E.
  intros H. injection H as <- <-. cbn [fst snd mem rep with_alloc_st with_mem].
  repeat split.
  - exists (load (mem m) R_result), (alloc_st m).
    rewrite E. reflexivity.
  - intros b Hb. exact (load_store_other (mem m) R_result b r Hb).
Qed.

(** The loop "Allocation failures in from_triple()": if its body ran,
    what it returns and leaves in [result] come from one call of
    [mpd_from_uint128_triple]; the loop writes to [result] only and
    prints nothing. *)
Lemma triple_failures_inv (W : Env) (triple : mpd_uint128_triple_t) :
  forall (fuel : nat) (last : Z * Z) (m m' : machine) (rs : Z * Z),
    triple_failures W fuel triple last m = Normal (rs, m') ->
    ((alloc_fail (alloc_st m) <? INT_MAX) = true ->
     Triples.decodes W triple (fst rs) (load (mem m') R_result) (snd rs))
    /\ ((alloc_fail (alloc_st m) <? INT_MAX) = false ->
        rs = last /\ mem m' = mem m)
    /\ rep m' = rep m
    /\ (forall b, reg_eqb b R_result = false ->
                  load (mem m') b = load (mem m) b).
Proof.
  induction fuel as [| fuel IH]; intros last m m' rs H;
    [discriminate H |].
  cbn [triple_failures] in H.
  apply bind_inv in H. destruct H as (a0 & n0 & E0 & H).
  cbn in E0. injection E0 as <- <-.
  destruct (alloc_fail (alloc_st m) <? INT_MAX) eqn:Hlt.
  2:{ cbn in H. injection H as <- <-.
      repeat split; auto; discriminate. }
  apply bind_inv in H. destruct H as ([] & m1 & E1 & H).
  apply bind_inv in H. destruct H as ([] & m2 & E2 & H).
  apply bind_inv in H. destruct H as (rs1 & m3 & E3 & H).
  apply bind_inv in H. destruct H as ([] & m4 & E4 & H).
  destruct (mpd_init_rand_runs W R_result m) as (m1' & E1' & F1).
  rewrite E1 in E1'. injection E1' as <-.
  destruct F1 as (_ & _ & R1 & _).
  pose proof (mpd_init_rand_frame W R_result m m1 E1) as M1.
  assert (M2 : mem m2 = mem m1 /\ rep m2 = rep m1).
  { unfold set_alloc_fail in E2.
    destruct (mpd_set_alloc_fail (ctx m1) (alloc_st m1)).
    injection E2 as <-. auto. }
  destruct M2 as (M2 & R2).
  apply from_triple_inv in E3. destruct E3 as (D3 & R3 & M3).
  apply set_alloc_inv in E4. destruct E4 as (M4 & _ & _ & R4).
  assert (Hrep : rep m4 = rep m) by congruence.
  assert (Hmem : forall b, reg_eqb b R_result = false ->
                           load (mem m4) b = load (mem m) b).
  { intros b Hb. rewrite M4, (M3 b Hb), M2. now apply M1. }
  rewrite <- M4 in D3.
  destruct (Z.land (snd rs1) MPD_Malloc_error =? 0).
  - cbn in H. injection H as <- <-.
    repeat split; auto; discriminate.
  - apply bind_inv in H. destruct H as ([] & m5 & E5 & H).
    apply ASSERT_inv in E5. destruct E5 as (_ & ->).
    apply bind_inv in H. destruct H as (r & m6 & E6 & H).
    cbn in E6. injection E6 as <- <-.
    apply bind_inv in H. destruct H as ([] & m7 & E7 & H).
    apply ASSERT_inv in E7. destruct E7 as (_ & ->).
    apply bind_inv in H. destruct H as ([] & m8 & E8 & H).
    cbn in E8. injection E8 as <-.
    apply IH in H. cbn in H. destruct H as (I1 & I2 & I3 & I4).
    split; [| split; [| split]].
    + intros _.
      destruct (alloc_fail (alloc_st m) + 1 <? INT_MAX) eqn:Hn.
      * exact (I1 eq_refl).
      * destruct (I2 eq_refl) as (-> & E'). rewrite E'. exact D3.
    + discriminate.
    + congruence.
    + intros b Hb. rewrite (I4 b Hb). now apply Hmem.
Qed.

(** C5, as stated, on the engine [Fixtures.env_no_triple], whose encoder
    answers with the error tag and whose decoder leaves a quiet
    not-a-number for such a triple: [_TripleTest] returns and reports
    nothing, although the decimal decoded from the error-tagged triple
    is not a signaling not-a-number. *)
Lemma error_tag_passes_with_quiet_nan :
  exists m',
    _TripleTest Fixtures.env_no_triple 4 R_op "x1" (Fixtures.start true)
    = Normal (tt, m')
    /\ tag (mpd_as_uint128_triple Fixtures.env_no_triple
              (load (mem (Fixtures.start true)) R_op)) = MPD_TRIPLE_ERROR
    /\ mpd_isqnan (load (mem m') R_result) = true
    /\ mpd_issnan (load (mem m') R_result) = false
    /\ rep m' = rep (Fixtures.start true).
Proof.
  vm_compute. eexists. split; [reflexivity |].
  vm_compute. repeat split.
Qed.

(** What [_TripleTest] of the C runner has checked when it returns.  Let [a] be an operand other than [result], [triple] the
    triple that [mpd_as_uint128_triple] makes of it, and [decoded] the
    decimal that the last call of [mpd_from_uint128_triple] in the loop
    left in [result].  The operand is unchanged.  If the tag of
    [triple] is not the error tag, that call returned 0 with status 0,
    and the runner printed "const arg changed" unless [decoded] and the
    operand are equal in the sense of [equalmem]; so if nothing was
    printed they are equal.  If the tag is the error tag, that call
    returned -1 with status [MPD_Conversion_syntax], and [decoded] is a
    not-a-number, quiet or signaling. *)
Lemma triple_test_checks (W : Env) (fuel : nat) (a : reg)
  (testno : string) (m m' : machine) :
  reg_eqb a R_result = false ->
  _TripleTest W fuel a testno m = Normal (tt, m') ->
  let original := load (mem m) a in
  let triple := mpd_as_uint128_triple W original in
  let decoded := load (mem m') R_result in
  load (mem m') a = original
  /\ (tag triple <> MPD_TRIPLE_ERROR ->
      Triples.decodes W triple 0 decoded 0
      /\ rep m' = check_equalmem decoded original testno (rep m)
      /\ (stderr (rep m') = stderr (rep m) ->
          equalmem decoded original = true))
  /\ (tag triple = MPD_TRIPLE_ERROR ->
      Triples.decodes W triple (-1) decoded MPD_Conversion_syntax
      /\ mpd_isnan decoded = true
      /\ rep m' = rep m).
Proof.
  intros Ha H. cbv zeta. unfold _TripleTest in H.
  apply bind_inv in H. destruct H as (av & m0 & E0 & H).
  cbn in E0. injection E0 as <- <-.
  set (triple := mpd_as_uint128_triple W (load (mem m) a)) in *.
  apply bind_inv in H. destruct H as ([] & m1 & E1 & H).
  assert (Hm1 : m1 = m).
  { destruct (tag triple); try (apply ASSERT_inv in E1; tauto);
      cbn in E1; now injection E1 as <-. }
  subst m1. clear E1.
  apply bind_inv in H. destruct H as ([] & m2 & E2 & H).
  cbn in E2. injection E2 as <-.
  apply bind_inv in H. destruct H as ([ret_ status_] & m3 & E3 & H).
  apply triple_failures_inv in E3.
  destruct E3 as (D & _ & R3 & M3). specialize (D eq_refl).
  cbn in D, R3, M3.
  destruct (is_error_tag (tag triple)) eqn:Htag; cbn [negb] in H.
  - apply bind_inv in H. destruct H as ([] & m4 & E4 & H).
    apply ASSERT_inv in E4. destruct E4 as (Hret & ->).
    apply bind_inv in H. destruct H as ([] & m5 & E5 & H).
    apply ASSERT_inv in E5. destruct E5 as (Hst & ->).
    apply bind_inv in H. destruct H as (r & m6 & E6 & H).
    cbn in E6. injection E6 as <- <-.
    apply ASSERT_inv in H. destruct H as (Hnan & <-).
    cbn in Hret, Hst. apply Z.eqb_eq in Hret, Hst. subst ret_ status_.
    split; [now apply M3 |]. split.
    + intros Hne. destruct (tag triple); try discriminate Htag.
      now contradiction Hne.
    + intros _. auto.
  - apply bind_inv in H. destruct H as ([] & m4 & E4 & H).
    apply ASSERT_inv in E4. destruct E4 as (Hret & ->).
    apply bind_inv in H. destruct H as ([] & m5 & E5 & H).
    apply ASSERT_inv in E5. destruct E5 as (Hst & ->).
    cbn in H. injection H as <-.
    cbn in Hret, Hst. apply Z.eqb_eq in Hret, Hst. subst ret_ status_.
    cbn [mem rep with_rep].
    split; [now apply M3 |]. split.
    + intros _. rewrite (M3 a Ha), R3.
      split; [exact D |]. split; [reflexivity |].
      unfold check_equalmem.
      match goal with
      | |- context [negb (equalmem ?x ?y)] =>
          destruct (equalmem x y) eqn:Eq
      end; cbn.
      * intros _. exact Eq.
      * intros E. exfalso. revert E. apply app_grows. discriminate.
    + intros He. rewrite He in Htag. discriminate Htag.
Qed.

(** * Further properties of the runners *)

(** ** The allocation functions of [tests/test.c] *)

Lemma serve_primary (libc : request -> bool) (st : alloc_state)
  (r : request) :
  mpd_funcs st = primary_set ->
  serve libc st r = (test_func libc st r, st).
Proof.
  intros H. unfold serve. rewrite H. destruct r; reflexivity.
Qed.

Lemma asks_fail_from (libc : request -> bool) :
  forall (rs : list request) (seen : list bool) (st : alloc_state),
    mpd_funcs st = fail_set ->
    exists ans,
      fst (run_engine libc (Scripts.asks rs seen) st) = seen ++ ans
      /\ List.length ans = List.length rs
      /\ alloc_idx (snd (run_engine libc (Scripts.asks rs seen) st))
         = alloc_idx st + Z.of_nat (List.length rs)
      /\ alloc_count (snd (run_engine libc (Scripts.asks rs seen) st))
         = alloc_count st
      /\ forall (i : nat) (r : request),
           nth_error rs i = Some r ->
           nth_error ans i
           = Some (if alloc_idx st + Z.of_nat i + 1 >=? alloc_fail st
                   then false else test_func libc st r).
Proof.
  induction rs as [| r rs IH]; intros seen st Hf.
  - exists []. cbn. rewrite app_nil_r, Z.add_0_r.
    repeat split. intros [| i] r H; discriminate H.
  - cbn [Scripts.asks run_engine]. rewrite (serve_fail libc st r Hf).
    cbv zeta.
    set (st1 := with_alloc_idx st (alloc_idx st + 1)).
    set (b := if alloc_idx st + 1 >=? alloc_fail st then false
              else test_func libc st r).
    assert (E : (if alloc_idx st + 1 >=? alloc_fail st
                 then (false, st1) else (test_func libc st r, st1))
                = (b, st1))
      by (unfold b; destruct (alloc_idx st + 1 >=? alloc_fail st);
          reflexivity).
    rewrite E.
    destruct (IH (seen ++ [b]) st1 Hf) as (ans & E1 & E2 & E3 & E4 & E5).
    exists (b :: ans). rewrite E1, E3, E4, <- app_assoc.
    cbn [List.length app st1 with_alloc_idx alloc_idx alloc_count].
    repeat split; try lia.
    intros [| i] r' H; cbn in H |- *.
    + injection H as <-. unfold b. now rewrite Z.add_0_r.
    + rewrite (E5 i r' H).
      cbn [st1 with_alloc_idx alloc_idx alloc_fail].
      rewrite (test_func_static libc st st1 r' eq_refl).
      replace (alloc_idx st + 1 + Z.of_nat i + 1)
        with (alloc_idx st + Z.pos (Pos.of_succ_nat i) + 1) by lia.
      reflexivity.
Qed.

(** In failure mode the calls are numbered from [alloc_idx + 1]: a call
    whose number has reached [alloc_fail] is refused without asking the
    primary function, every earlier call gets the answer of the primary
    function.  So once a call is refused all later ones are.  Each call
    adds one to [alloc_idx], refused or not, and [alloc_count] is left
    alone. *)
Theorem fail_mode_refuses_from_threshold (libc : request -> bool)
  (rs : list request) (st : alloc_state) :
  mpd_funcs st = fail_set ->
  let answers := fst (run_engine libc (Scripts.asks rs []) st) in
  let st' := snd (run_engine libc (Scripts.asks rs []) st) in
  List.length answers = List.length rs
  /\ alloc_idx st' = alloc_idx st + Z.of_nat (List.length rs)
  /\ alloc_count st' = alloc_count st
  /\ (forall (i : nat) (r : request),
        nth_error rs i = Some r ->
        nth_error answers i
        = Some (if alloc_idx st + Z.of_nat i + 1 >=? alloc_fail st
                then false else test_func libc st r))
  /\ (forall i j : nat,
        (i <= j < List.length rs)%nat ->
        alloc_fail st <= alloc_idx st + Z.of_nat i + 1 ->
        nth_error answers j = Some false).
Proof.
  intros Hf. cbv zeta.
  destruct (asks_fail_from libc rs [] st Hf) as (ans & E1 & E2 & E3 & E4 & E5).
  cbn [app] in E1. rewrite E1.
  repeat split; try assumption.
  intros i j Hij Hi.
  destruct (nth_error rs j) as [r |] eqn:Er.
  - rewrite (E5 j r Er).
    destruct (Z.geb_spec (alloc_idx st + Z.of_nat j + 1) (alloc_fail st));
      [reflexivity | lia].
  - apply nth_error_None in Er. lia.
Qed.

Lemma fail_mode_refuses_from_threshold_witness :
  nth_error
    (fst (run_engine (fun _ => true)
            (Scripts.asks [Rmalloc 8; Rcalloc 2 8; Rrealloc 32; Rmalloc 8]
               [])
            (with_alloc_fail
               (with_mpd_funcs (Fixtures.allocator true) fail_set) 3)))
    3
  = Some false.
Proof.
  exact (proj2 (proj2 (proj2 (proj2
           (fail_mode_refuses_from_threshold (fun _ => true)
              [Rmalloc 8; Rcalloc 2 8; Rrealloc 32; Rmalloc 8]
              (with_alloc_fail
                 (with_mpd_funcs (Fixtures.allocator true) fail_set) 3)
              eq_refl))))
           2%nat 3%nat ltac:(cbn; lia) ltac:(cbn; lia)).
Defined.

Lemma asks_count_from (libc : request -> bool) :
  forall (rs : list request) (seen : list bool) (st : alloc_state),
    mpd_funcs st = count_set ->
    fst (run_engine libc (Scripts.asks rs seen) st)
    = seen ++ map (test_func libc st) rs
    /\ snd (run_engine libc (Scripts.asks rs seen) st)
       = with_alloc_count st (alloc_count st + Z.of_nat (List.length rs)).
Proof.
  induction rs as [| r rs IH]; intros seen st Hf.
  - cbn. rewrite app_nil_r, Z.add_0_r. split; [reflexivity |].
    destruct st; reflexivity.
  - cbn [Scripts.asks run_engine]. rewrite (serve_count libc st r Hf).
    set (st1 := with_alloc_count st (alloc_count st + 1)).
    destruct (IH (seen ++ [test_func libc st r]) st1 Hf) as (E1 & E2).
    rewrite E1, E2, <- app_assoc. cbn [map app List.length].
    split.
    + reflexivity.
    + unfold st1, with_alloc_count. cbn. f_equal. lia.
Qed.

(** In count mode every call is passed on to the primary function and
    counted, whether the primary function grants it or not: after the
    calls [alloc_count] has grown by their number and nothing else has
    changed. *)
Theorem count_mode_counts_every_call (libc : request -> bool)
  (rs : list request) (st : alloc_state) :
  mpd_funcs st = count_set ->
  fst (run_engine libc (Scripts.asks rs []) st)
  = map (test_func libc st) rs
  /\ snd (run_engine libc (Scripts.asks rs []) st)
     = with_alloc_count st (alloc_count st + Z.of_nat (List.length rs)).
Proof.
  intros Hf. exact (asks_count_from libc rs [] st Hf).
Qed.

Lemma count_mode_counts_every_call_witness :
  alloc_count
    (snd (run_engine (fun _ => false)
            (Scripts.asks [Rmalloc 8; Rcalloc 2 8; Rrealloc 32] [])
            (with_mpd_funcs (Fixtures.allocator true) count_set)))
  = 3.
Proof.
  rewrite (proj2 (count_mode_counts_every_call (fun _ => false)
                    [Rmalloc 8; Rcalloc 2 8; Rrealloc 32]
                    (with_mpd_funcs (Fixtures.allocator true) count_set)
                    eq_refl)).
  reflexivity.
Defined.

Lemma gtb_false (a b : Z) : (a >? b) = false -> a <= b.
Proof. rewrite Z.gtb_ltb. apply Z.ltb_ge. Qed.

Lemma malloc_ceil_true (libc : request -> bool) (size : Z) :
  malloc_ceil libc size = true ->
  libc (Rmalloc size) = true /\ size <= alloc_limit.
Proof.
  unfold malloc_ceil. destruct (size >? alloc_limit) eqn:E;
    [discriminate |]. apply gtb_false in E. auto.
Qed.

Lemma realloc_ceil_true (libc : request -> bool) (size : Z) :
  realloc_ceil libc size = true ->
  libc (Rrealloc size) = true /\ size <= alloc_limit.
Proof.
  unfold realloc_ceil. destruct (size >? alloc_limit) eqn:E;
    [discriminate |]. apply gtb_false in E. auto.
Qed.

Lemma calloc_ceil_true (libc : request -> bool) (nmemb size : Z) :
  calloc_ceil libc nmemb size = true ->
  libc (Rcalloc nmemb size) = true /\ nmemb <= alloc_limit / size.
Proof.
  unfold calloc_ceil. destruct (nmemb >? alloc_limit / size) eqn:E;
    [discriminate |]. apply gtb_false in E. auto.
Qed.

Lemma served_by_primary (libc : request -> bool) (st : alloc_state)
  (r : request) :
  fst (serve libc st r) = true -> test_func libc st r = true.
Proof.
  unfold serve, malloc_count, calloc_count, realloc_count, malloc_fail,
    calloc_fail, realloc_fail.
  destruct (mpd_funcs st), r; cbv zeta;
    repeat match goal with
           | |- context [if ?b then _ else _] => destruct b
           end; cbn [fst]; intros H; try discriminate H; exact H.
Qed.

(** No installed function hands out memory that the C library refuses,
    and none hands out more than [alloc_limit] bytes (for [calloc]:
    more than [alloc_limit / size] members); the functions with the
    offset also refuse a request of size 0. *)
Theorem no_memory_beyond_libc_and_limit (libc : request -> bool)
  (st : alloc_state) (r : request) :
  fst (serve libc st r) = true ->
  (exists r', libc r' = true)
  /\ match r with
     | Rmalloc size | Rrealloc size =>
         size <= alloc_limit
         /\ (test_funcs st = offset_funcs ->
             size <> 0 /\ OFFSET + size <= alloc_limit)
     | Rcalloc nmemb size =>
         (test_funcs st = ceil_funcs -> nmemb <= alloc_limit / size)
         /\ (test_funcs st = offset_funcs ->
             nmemb <> 0 /\ size <> 0
             /\ nmemb <= alloc_limit / (OFFSET + size))
     end.
Proof.
  intros H. apply served_by_primary in H.
  unfold test_func, test_mallocfunc, test_callocfunc, test_reallocfunc,
    malloc_offset, calloc_offset, realloc_offset in H.
  assert (Hpos : 0 < OFFSET) by reflexivity.
  destruct r as [size | nmemb size | size], (test_funcs st);
    repeat match type of H with
           | (if ?b then _ else _) = true =>
               destruct b eqn:?; [discriminate H |]
           end;
    repeat match goal with
           | E : (_ || _) = false |- _ =>
               apply Bool.orb_false_iff in E; destruct E
           | E : (_ =? _) = false |- _ => apply Z.eqb_neq in E
           end;
    first [ apply malloc_ceil_true in H
          | apply calloc_ceil_true in H
          | apply realloc_ceil_true in H ];
    destruct H as (Hl & Hb);
    (split; [eexists; exact Hl |]);
    repeat split; intros; try discriminate; try assumption; try lia.
Qed.

Lemma no_memory_beyond_libc_and_limit_witness :
  (exists r', (fun _ : request => true) r' = true)
  /\ 8 <= alloc_limit
  /\ (test_funcs (Fixtures.allocator false) = offset_funcs ->
      8 <> 0 /\ OFFSET + 8 <= alloc_limit).
Proof.
  exact (no_memory_beyond_libc_and_limit (fun _ => true)
           (Fixtures.allocator false) (Rmalloc 8) eq_refl).
Defined.

Lemma serve_keeps (libc : request -> bool) (st : alloc_state)
  (r : request) :
  test_funcs (snd (serve libc st r)) = test_funcs st
  /\ mpd_funcs (snd (serve libc st r)) = mpd_funcs st
  /\ enable_check_alloc (snd (serve libc st r)) = enable_check_alloc st
  /\ initialized (snd (serve libc st r)) = initialized st.
Proof.
  unfold serve, malloc_count, calloc_count, realloc_count,
    malloc_fail, calloc_fail, realloc_fail.
  destruct (mpd_funcs st) eqn:Ef, r; cbv zeta;
    repeat match goal with
           | |- context [if ?b then _ else _] => destruct b
           end; cbn [snd]; unfold with_alloc_count, with_alloc_idx;
    cbn [test_funcs mpd_funcs enable_check_alloc initialized]; auto.
Qed.

Lemma acts_keep (libc : request -> bool) (l : list Api.action) :
  forall (s : mpd_context_t * alloc_state),
    (mpd_funcs (snd s) = fail_set ->
     enable_check_alloc (snd s) = true /\ traps (fst s) = 0) ->
    (mpd_funcs (snd s) = count_set -> traps (fst s) = MPD_Malloc_error) ->
    let s' := Api.acts libc s l in
    test_funcs (snd s') = test_funcs (snd s)
    /\ enable_check_alloc (snd s') = enable_check_alloc (snd s)
    /\ initialized (snd s') = initialized (snd s)
    /\ (mpd_funcs (snd s') = fail_set ->
        enable_check_alloc (snd s') = true /\ traps (fst s') = 0)
    /\ (mpd_funcs (snd s') = count_set ->
        traps (fst s') = MPD_Malloc_error).
Proof.
  induction l as [| a l IH]; intros [c st] Hf Hc; cbn [fst snd] in *.
  - cbn. auto.
  - cbn [Api.acts fold_left].
    change (fold_left (Api.act libc) l (Api.act libc (c, st) a))
      with (Api.acts libc (Api.act libc (c, st) a) l).
    assert (K : test_funcs (snd (Api.act libc (c, st) a)) = test_funcs st
                /\ enable_check_alloc (snd (Api.act libc (c, st) a))
                   = enable_check_alloc st
                /\ initialized (snd (Api.act libc (c, st) a))
                   = initialized st
                /\ (mpd_funcs (snd (Api.act libc (c, st) a)) = fail_set ->
                    enable_check_alloc (snd (Api.act libc (c, st) a)) = true
                    /\ traps (fst (Api.act libc (c, st) a)) = 0)
                /\ (mpd_funcs (snd (Api.act libc (c, st) a)) = count_set ->
                    traps (fst (Api.act libc (c, st) a))
                    = MPD_Malloc_error)).
    { destruct a as [r | | |]; cbn [Api.act fst snd].
      - destruct (serve_keeps libc st r) as (K1 & K2 & K3 & K4).
        rewrite K1, K2, K3, K4. auto.
      - unfold mpd_set_alloc. cbn.
        repeat split; intros; discriminate.
      - unfold mpd_set_alloc_count. cbn.
        repeat split; intros; try discriminate.
      - unfold mpd_set_alloc_fail.
        destruct (enable_check_alloc st) eqn:E; cbn; rewrite ?E; auto.
        repeat split; intros; try discriminate. }
    destruct K as (K1 & K2 & K3 & K4 & K5).
    destruct (IH (Api.act libc (c, st) a) K4 K5) as (I1 & I2 & I3 & I4 & I5).
    cbv zeta. repeat split; try congruence; try apply I4; try apply I5;
      assumption.
Qed.

(** [mpd_init_alloc] works once.  After it has run, whatever the program
    then does with the installed functions and the three switches, a
    second call ends the program with [exit(EXIT_FAILURE)], and the
    choices made by the first call (the primary functions, and whether
    allocation failures are checked) are still in force. *)
Theorem init_alloc_only_once (libc : request -> bool)
  (custom_alloc check_alloc : bool) (st0 st1 : alloc_state)
  (ctx : mpd_context_t) (l : list Api.action) :
  mpd_init_alloc custom_alloc check_alloc st0 = Normal st1 ->
  let st2 := snd (Api.acts libc (ctx, st1) l) in
  (forall c k, mpd_init_alloc c k st2 = Exit 1)
  /\ enable_check_alloc st2 = check_alloc
  /\ test_funcs st2 = test_funcs st1
  /\ (custom_alloc = true -> test_funcs st2 = offset_funcs).
Proof.
  unfold mpd_init_alloc at 1.
  destruct (initialized st0); [discriminate |].
  intros H. injection H as <-. cbv zeta.
  match goal with
  | |- context [Api.acts libc (ctx, ?s) l] => set (st1 := s)
  end.
  destruct (acts_keep libc l (ctx, st1)) as (I1 & I2 & I3 & _).
  { cbn. discriminate. }
  { cbn. discriminate. }
  cbn [fst snd] in I1, I2, I3.
  repeat split.
  - intros c k. unfold mpd_init_alloc. rewrite I3. reflexivity.
  - rewrite I2. reflexivity.
  - exact I1.
  - intros ->. rewrite I1. reflexivity.
Qed.

Lemma init_alloc_only_once_witness :
  mpd_init_alloc true false
    (snd (Api.acts (fun _ => true)
            (Fixtures.context, Fixtures.allocator true)
            [Api.Set_alloc_fail; Api.Call_alloc (Rmalloc 8);
             Api.Set_alloc]))
  = Exit 1.
Proof.
  exact (proj1 (init_alloc_only_once (fun _ => true) false true
                  initial_state (Fixtures.allocator true) Fixtures.context
                  [Api.Set_alloc_fail; Api.Call_alloc (Rmalloc 8);
                   Api.Set_alloc] eq_refl) true false).
Defined.

(** The failing functions are installed only in a program started with
    allocation-failure checking, and while they are installed
    [MPD_Malloc_error] is not trapped (no condition is); while the
    counting functions are installed [MPD_Malloc_error] is trapped. *)
Theorem failing_functions_only_when_checked (libc : request -> bool)
  (custom_alloc check_alloc : bool) (st0 st1 : alloc_state)
  (ctx : mpd_context_t) (l : list Api.action) :
  mpd_init_alloc custom_alloc check_alloc st0 = Normal st1 ->
  let s2 := Api.acts libc (ctx, st1) l in
  (mpd_funcs (snd s2) = fail_set ->
   check_alloc = true /\ traps (fst s2) = 0)
  /\ (mpd_funcs (snd s2) = count_set -> traps (fst s2) = MPD_Malloc_error)
  /\ (check_alloc = false -> mpd_funcs (snd s2) <> fail_set).
Proof.
  unfold mpd_init_alloc at 1.
  destruct (initialized st0); [discriminate |].
  intros H. injection H as <-. cbv zeta.
  match goal with
  | |- context [Api.acts libc (ctx, ?s) l] => set (st1 := s)
  end.
  destruct (acts_keep libc l (ctx, st1)) as (_ & I2 & _ & I4 & I5).
  { cbn. discriminate. }
  { cbn. discriminate. }
  cbn [fst snd] in I2. cbn [st1 enable_check_alloc] in I2.
  repeat split.
  - destruct (I4 H) as (E & _). congruence.
  - now apply I4.
  - exact I5.
  - intros -> Hf. destruct (I4 Hf) as (E & _). congruence.
Qed.

Lemma failing_functions_only_when_checked_witness :
  mpd_funcs
    (snd (Api.acts (fun _ => true)
            (Fixtures.context, Fixtures.allocator false)
            [Api.Set_alloc_count; Api.Set_alloc_fail]))
  <> fail_set.
Proof.
  exact (proj2 (proj2 (failing_functions_only_when_checked (fun _ => true)
                         false false initial_state
                         (Fixtures.allocator false) Fixtures.context
                         [Api.Set_alloc_count; Api.Set_alloc_fail] eq_refl))
           eq_refl).
Defined.

(** ** The tokenizer of the C runner *)

Lemma firstn_split_loop (n : nat) :
  forall (room : nat) (cp : option (string * string)),
    (n <= room)%nat ->
    firstn n (split_loop room cp) = split_loop n cp.
Proof.
  induction n as [| n IH]; intros room cp Hle; [reflexivity |].
  destruct room as [| room]; [lia |].
  destruct cp as [[tok rest] |]; [| reflexivity].
  cbn [split_loop firstn]. f_equal. apply IH. lia.
Qed.

Lemma split_loop_length (room : nat) (cp : option (string * string)) :
  (List.length (split_loop room cp) <= room)%nat.
Proof.
  revert cp. induction room as [| room IH]; intros cp.
  - destruct cp as [[? ?] |]; cbn; lia.
  - destruct cp as [[tok rest] |]; cbn [split_loop List.length]; [| lia].
    specialize (IH (nexttoken rest)). lia.
Qed.

(** [split] fills at most [MAXTOKEN] = 32 slots of the token array: a
    line with more tokens is cut after the first 32, the others are not
    looked at. *)
Theorem split_stops_at_maxtoken (line : string) (room : nat) :
  (List.length (split line) <= 32)%nat
  /\ ((32 <= room)%nat ->
      split line = firstn 32 (split_loop room (nexttoken line))).
Proof.
  split.
  - apply (split_loop_length MAXTOKEN).
  - intros H. symmetry. now apply firstn_split_loop.
Qed.

Lemma unquoted_run_word (t rest : string) (c : ascii) :
  Words.no_space t = true -> isspace c = true ->
  unquoted_run (t ++ String c rest) = Some (t, rest).
Proof.
  intros Ht Hc. induction t as [| x t IH]; cbn [append unquoted_run].
  - now rewrite Hc.
  - cbn [Words.no_space] in Ht. apply andb_prop in Ht.
    destruct Ht as (Hx & Ht). apply negb_true_iff in Hx.
    rewrite Hx, (IH Ht). reflexivity.
Qed.

Lemma unquoted_run_unfinished (t : string) :
  Words.no_space t = true -> unquoted_run t = None.
Proof.
  induction t as [| x t IH]; cbn [unquoted_run Words.no_space];
    [reflexivity |].
  intros Ht. apply andb_prop in Ht. destruct Ht as (Hx & Ht).
  apply negb_true_iff in Hx. now rewrite Hx, (IH Ht).
Qed.

Lemma nexttoken_skips (pre s : string) :
  Lines.all_space pre = true -> nexttoken (pre ++ s) = nexttoken s.
Proof.
  induction pre as [| c pre IH]; cbn [append Lines.all_space nexttoken];
    [reflexivity |].
  intros H. apply andb_prop in H. destruct H as (Hc & Hp).
  now rewrite Hc, (IH Hp).
Qed.

Lemma nexttoken_word (t rest : string) (c : ascii) :
  Words.word t = true -> isspace c = true ->
  nexttoken (t ++ String c rest) = Some (t, rest).
Proof.
  intros Hw Hc. destruct t as [| x t]; [discriminate Hw |].
  cbn [Words.word Words.unquoted] in Hw.
  apply andb_prop in Hw. destruct Hw as (Hq & Hs).
  apply andb_prop in Hq. destruct Hq as (Hd & Hq).
  apply negb_true_iff in Hd, Hq.
  pose proof Hs as Hs'. cbn [Words.no_space] in Hs'.
  apply andb_prop in Hs'. destruct Hs' as (Hx & _).
  apply negb_true_iff in Hx.
  change ((String x t ++ String c rest)%string)
    with (String x (t ++ String c rest)).
  cbn [nexttoken]. rewrite Hx, Hd, Hq.
  change (String x (t ++ String c rest))
    with ((String x t ++ String c rest)%string).
  now apply unquoted_run_word.
Qed.

Lemma nexttoken_unfinished (t : string) :
  Words.unquoted t = true -> Words.no_space t = true ->
  nexttoken t = None.
Proof.
  intros Hq Hs. destruct t as [| x t]; [reflexivity |].
  cbn [Words.unquoted] in Hq.
  apply andb_prop in Hq. destruct Hq as (Hd & Hq).
  apply negb_true_iff in Hd, Hq.
  pose proof Hs as Hs'. cbn [Words.no_space] in Hs'.
  apply andb_prop in Hs'. destruct Hs' as (Hx & _).
  apply negb_true_iff in Hx.
  cbn [nexttoken]. rewrite Hx, Hd, Hq.
  now apply unquoted_run_unfinished.
Qed.

Lemma split_loop_words (words : list (string * string)) (tail : string) :
  forallb Words.spaced words = true ->
  Words.unquoted tail = true -> Words.no_space tail = true ->
  forall (room : nat) (pre : string),
    (List.length words <= room)%nat ->
    Lines.all_space pre = true ->
    split_loop room (nexttoken (pre ++ Words.line_of words tail))
    = map fst words.
Proof.
  intros Hw Hq Hs.
  induction words as [| [t sep] words IH]; intros room pre Hroom Hpre;
    rewrite (nexttoken_skips _ _ Hpre); cbn [Words.line_of map].
  - rewrite (nexttoken_unfinished tail Hq Hs).
    destruct room; reflexivity.
  - cbn [forallb] in Hw. apply andb_prop in Hw. destruct Hw as (Hp & Hw).
    unfold Words.spaced in Hp. cbn [fst snd] in Hp.
    apply andb_prop in Hp. destruct Hp as (Ht & Hg).
    destruct sep as [| c sep]; [discriminate Hg |].
    cbn [Words.gap] in Hg. apply andb_prop in Hg. destruct Hg as (Hc & Hg).
    change ((String c sep ++ Words.line_of words tail)%string)
      with (String c (sep ++ Words.line_of words tail)).
    rewrite (nexttoken_word t _ c Ht Hc).
    destruct room as [| room]; [cbn in Hroom; lia |].
    cbn [split_loop fst]. f_equal.
    apply (IH Hw). cbn in Hroom; lia. exact Hg.
Qed.

(** A line of up to 32 words (text without white space that does not
    start with a quote character), each followed by white space, is
    split into exactly these words.  What follows the last gap is
    dropped when it is not itself followed by white space: [nexttoken]
    returns [NULL] for an unquoted token that runs into the end of the
    line. *)
Theorem split_returns_the_words (words : list (string * string))
  (tail : string) :
  forallb Words.spaced words = true ->
  (List.length words <= 32)%nat ->
  Words.unquoted tail = true -> Words.no_space tail = true ->
  split (Words.line_of words tail) = map fst words.
Proof.
  intros Hw Hlen Hq Hs.
  exact (split_loop_words words tail Hw Hq Hs MAXTOKEN EmptyString Hlen
           eq_refl).
Qed.

Lemma split_returns_the_words_witness :
  split (Words.line_of [("addx001", " "); ("add", "  "); ("1", " ");
                        ("2", " "); ("->", " ")] "3")
  = ["addx001"; "add"; "1"; "2"; "->"].
Proof.
  exact (split_returns_the_words
           [("addx001", " "); ("add", "  "); ("1", " "); ("2", " ");
            ("->", " ")] "3" eq_refl ltac:(cbn; lia) eq_refl eq_refl).
Defined.

(** ** The tokenizer of the C++ runner *)

Lemma istokchar_plain (c : ascii) :
  Runtest_cxx.istokchar c = true ->
  isspace c = false /\ ascii_eqb c dquote = false
  /\ ascii_eqb c squote = false.
Proof.
  destruct c as [[] [] [] [] [] [] [] []]; vm_compute; intros H;
    try discriminate H; auto.
Qed.

Lemma cxx_unquoted_run_word (t rest : string) :
  Words_cxx.all_tokchars t = true ->
  match rest with
  | EmptyString => True
  | String c _ => isspace c = true
  end ->
  Runtest_cxx.unquoted_run (t ++ rest) = Some (t, rest).
Proof.
  intros Ht Hr. induction t as [| x t IH]; cbn [append].
  - destruct rest as [| c rest]; cbn [Runtest_cxx.unquoted_run];
      [reflexivity | now rewrite Hr].
  - cbn [Words_cxx.all_tokchars] in Ht. apply andb_prop in Ht.
    destruct Ht as (Hx & Ht).
    destruct (istokchar_plain x Hx) as (Hs & _).
    cbn [Runtest_cxx.unquoted_run]. rewrite Hs, Hx, (IH Ht). reflexivity.
Qed.

Lemma cxx_nexttoken_skips (pre s : string) :
  Lines.all_space pre = true ->
  Runtest_cxx.nexttoken (pre ++ s) = Runtest_cxx.nexttoken s.
Proof.
  induction pre as [| c pre IH];
    cbn [append Lines.all_space Runtest_cxx.nexttoken]; [reflexivity |].
  intros H. apply andb_prop in H. destruct H as (Hc & Hp).
  now rewrite Hc, (IH Hp).
Qed.

Lemma cxx_nexttoken_word (t rest : string) :
  Words_cxx.word t = true ->
  match rest with
  | EmptyString => True
  | String c _ => isspace c = true
  end ->
  Runtest_cxx.nexttoken (t ++ rest) = Runtest_cxx.Token t rest.
Proof.
  intros Hw Hr. destruct t as [| x t]; [discriminate Hw |].
  cbn [Words_cxx.word] in Hw. apply andb_prop in Hw.
  destruct Hw as (Ht & Hc). apply negb_true_iff in Hc.
  pose proof Ht as Ht'. cbn [Words_cxx.all_tokchars] in Ht'.
  apply andb_prop in Ht'. destruct Ht' as (Hx & Ht').
  destruct (istokchar_plain x Hx) as (Hs & Hd & Hq).
  assert (Hh : (ascii_eqb x Runtest_cxx.hyphen
                && match (t ++ rest)%string with
                   | String c1 _ => ascii_eqb c1 Runtest_cxx.hyphen
                   | EmptyString => false
                   end) = false).
  { destruct (ascii_eqb x Runtest_cxx.hyphen) eqn:Ex; [| reflexivity].
    cbn [andb]. destruct t as [| y t]; cbn [append].
    - destruct rest as [| c rest]; [reflexivity |].
      destruct (ascii_eqb c Runtest_cxx.hyphen) eqn:Ec; [| reflexivity].
      unfold ascii_eqb in Ec. apply Ascii.eqb_eq in Ec. subst c.
      discriminate Hr.
    - cbn [Words_cxx.comment] in Hc. rewrite Ex in Hc. exact Hc. }
  change ((String x t ++ rest)%string) with (String x (t ++ rest)).
  cbn [Runtest_cxx.nexttoken]. rewrite Hs, Hh, Hd, Hq.
  change (String x (t ++ rest)) with ((String x t ++ rest)%string).
  now rewrite (cxx_unquoted_run_word (String x t) rest Ht Hr).
Qed.

Lemma cxx_nexttoken_ends (s : string) :
  Words_cxx.ends_line s = true ->
  Runtest_cxx.nexttoken s = Runtest_cxx.No_more_tokens.
Proof.
  destruct s as [| c [| c1 s]]; cbn; try discriminate; [reflexivity |].
  intros H. apply andb_prop in H. destruct H as (Hc & Hc1).
  assert (Hs : isspace c = false).
  { unfold ascii_eqb in Hc. apply Ascii.eqb_eq in Hc. now subst c. }
  now rewrite Hs, Hc, Hc1.
Qed.

Lemma cxx_split_loop_words (words : list (string * string))
  (tail : string) (last : list string) :
  forallb Words_cxx.spaced words = true ->
  (forall fuel pre,
      (List.length last < fuel)%nat -> Lines.all_space pre = true ->
      Runtest_cxx.split_loop fuel (pre ++ tail) = Runtest_cxx.Ok last) ->
  forall (fuel : nat) (pre : string),
    (List.length words + List.length last < fuel)%nat ->
    Lines.all_space pre = true ->
    Runtest_cxx.split_loop fuel (pre ++ Words.line_of words tail)
    = Runtest_cxx.Ok (map fst words ++ last).
Proof.
  intros Hw Htail.
  induction words as [| [t sep] words IH]; intros fuel pre Hfuel Hpre.
  - cbn [Words.line_of map app]. apply Htail; [cbn in Hfuel; lia | exact Hpre].
  - cbn [forallb] in Hw. apply andb_prop in Hw. destruct Hw as (Hp & Hw).
    unfold Words_cxx.spaced in Hp. cbn [fst snd] in Hp.
    apply andb_prop in Hp. destruct Hp as (Ht & Hg).
    destruct fuel as [| fuel]; [lia |].
    cbn [Runtest_cxx.split_loop Words.line_of].
    rewrite (cxx_nexttoken_skips _ _ Hpre).
    destruct sep as [| c sep]; [discriminate Hg |].
    pose proof Hg as Hg'. cbn [Words.gap] in Hg'.
    apply andb_prop in Hg'. destruct Hg' as (Hc & Hsep).
    rewrite (cxx_nexttoken_word t (String c sep ++ Words.line_of words tail)
               Ht Hc).
    rewrite (IH Hw fuel (String c sep)).
    + reflexivity.
    + cbn [List.length] in Hfuel. lia.
    + cbn [Lines.all_space]. now rewrite Hc, Hsep.
Qed.

Lemma line_of_length (words : list (string * string)) (tail : string) :
  forallb (fun p => Words.gap (snd p)) words = true ->
  (List.length words + String.length tail
   <= String.length (Words.line_of words tail))%nat.
Proof.
  induction words as [| [t sep] words IH]; cbn [forallb Words.line_of snd];
    [cbn; lia |].
  intros H. apply andb_prop in H. destruct H as (Hg & Hw).
  rewrite !length_append. specialize (IH Hw).
  destruct sep; [discriminate Hg |]. cbn [String.length List.length]. lia.
Qed.

Lemma cxx_spaced_gap (words : list (string * string)) :
  forallb Words_cxx.spaced words = true ->
  forallb (fun p => Words.gap (snd p)) words = true.
Proof.
  induction words as [| p words IH]; cbn [forallb]; [reflexivity |].
  intros H. apply andb_prop in H. destruct H as (Hp & Hw).
  unfold Words_cxx.spaced in Hp. apply andb_prop in Hp.
  destruct Hp as (_ & Hg). now rewrite Hg, (IH Hw).
Qed.

(** The C++ tokenizer on a line of words (token characters only, not
    starting with two hyphens), each followed by white space: [split]
    returns exactly these words when the line ends there or goes on
    with a comment (two hyphens), and these words and the last one when
    the line ends with a word that has no white space after it. *)
Theorem cxx_split_returns_the_words (words : list (string * string))
  (tail : string) :
  forallb Words_cxx.spaced words = true ->
  (Words_cxx.ends_line tail = true ->
   Runtest_cxx.split (Words.line_of words tail)
   = Runtest_cxx.Ok (map fst words))
  /\ (Words_cxx.word tail = true ->
      Runtest_cxx.split (Words.line_of words tail)
      = Runtest_cxx.Ok (map fst words ++ [tail])).
Proof.
  intros Hw.
  pose proof (line_of_length words tail (cxx_spaced_gap words Hw)) as Hlen.
  unfold Runtest_cxx.split. split; intros Ht.
  - rewrite <- (app_nil_r (map fst words)).
    apply (cxx_split_loop_words words tail [] Hw) with (pre := EmptyString);
      [| cbn; lia | reflexivity].
    intros fuel pre Hf Hp. destruct fuel as [| fuel]; [cbn in Hf; lia |].
    cbn [Runtest_cxx.split_loop].
    now rewrite (cxx_nexttoken_skips _ _ Hp), (cxx_nexttoken_ends tail Ht).
  - apply (cxx_split_loop_words words tail [tail] Hw) with (pre := EmptyString);
      [| | reflexivity].
    + intros fuel pre Hf Hp.
      destruct fuel as [| [| fuel]]; [cbn in Hf; lia | cbn in Hf; lia |].
      cbn [Runtest_cxx.split_loop].
      rewrite (cxx_nexttoken_skips _ _ Hp).
      pose proof (cxx_nexttoken_word tail EmptyString Ht I) as E.
      assert (Ea : (tail ++ EmptyString)%string = tail).
      { clear. induction tail as [| c t IH]; cbn; [reflexivity | now rewrite IH]. }
      rewrite Ea in E. rewrite E. reflexivity.
    + destruct tail; [discriminate Ht |].
      cbn [List.length String.length] in *. lia.
Qed.

Lemma cxx_split_returns_the_words_witness :
  Runtest_cxx.split
    (Words.line_of [("addx001", " "); ("add", "  "); ("1", " ");
                    ("2", " "); ("->", " ")] "3")
  = Runtest_cxx.Ok ["addx001"; "add"; "1"; "2"; "->"; "3"].
Proof.
  exact (proj2 (cxx_split_returns_the_words
                  [("addx001", " "); ("add", "  "); ("1", " "); ("2", " ");
                   ("->", " ")] "3" eq_refl) eq_refl).
Defined.

(** ** The expected conditions *)

Lemma scan_conditions_step (condition : string) (rest : list string)
  (status : Z) :
  scan_conditions (condition :: rest) status
  = if Conditions.comment condition then Normal status
    else match Conditions.bit condition with
         | Some b => scan_conditions rest (Z.lor status b)
         | None => Abort ("unknown status: " ++ condition)%string
         end.
Proof.
  cbn [scan_conditions]. unfold Conditions.comment, Conditions.bit,
    Conditions.table, startswith, eqtoken, mpd_err_fatal.
  cbn [Conditions.lookup].
  repeat match goal with
         | |- context [if ?b then _ else _] => destruct b
         end; reflexivity.
Qed.

Lemma cxx_scan_loop_step (FILE : string) (token : list string)
  (condition : string) (rest : list string) (status : Z) :
  Scan_cxx.scan_loop FILE token (condition :: rest) status
  = match Conditions.bit condition with
    | Some b => Scan_cxx.scan_loop FILE token rest (Z.lor status b)
    | None =>
        Runtest_cxx.err_token FILE token "scan_conditions: unknown status"
          "664"
    end.
Proof.
  cbn [Scan_cxx.scan_loop]. unfold Conditions.bit, Conditions.table,
    Runtest_cxx.eqtoken.
  cbn [Conditions.lookup].
  repeat match goal with
         | |- context [if ?b then _ else _] => destruct b
         end; reflexivity.
Qed.

(** Everything from the first token that starts with two hyphens on is
    a comment for [scan_conditions] of the C runner: it is not looked
    at, whatever it is. *)
Theorem scan_conditions_stops_at_comment (before after : list string)
  (marker : string) (status : Z) :
  Conditions.comment marker = true ->
  scan_conditions (before ++ marker :: after) status
  = scan_conditions before status.
Proof.
  intros Hm. revert status.
  induction before as [| c before IH]; intros status.
  - cbn [app]. rewrite scan_conditions_step, Hm. reflexivity.
  - cbn [app]. rewrite !scan_conditions_step.
    destruct (Conditions.comment c); [reflexivity |].
    destruct (Conditions.bit c); [apply IH | reflexivity].
Qed.

Lemma scan_conditions_stops_at_comment_witness :
  scan_conditions ["Inexact"; "Rounded"; "-- Frobnicated"; "nonsense"] 0
  = scan_conditions ["Inexact"; "Rounded"] 0.
Proof.
  exact (scan_conditions_stops_at_comment ["Inexact"; "Rounded"]
           ["nonsense"] "-- Frobnicated" 0 eq_refl).
Defined.

Lemma scan_conditions_known (tokens : list string) :
  forall (status r : Z),
    forallb (fun c => negb (Conditions.comment c)) tokens = true ->
    scan_conditions tokens status = Normal r ->
    Forall (fun c => Conditions.bit c <> None) tokens
    /\ r = fold_left Conditions.add tokens status.
Proof.
  induction tokens as [| c tokens IH]; intros status r Hc H.
  - cbn in H. injection H as <-. split; [constructor | reflexivity].
  - cbn [forallb] in Hc. apply andb_prop in Hc. destruct Hc as (Hc1 & Hc).
    apply negb_true_iff in Hc1.
    rewrite scan_conditions_step, Hc1 in H.
    destruct (Conditions.bit c) as [b |] eqn:Eb; [| discriminate H].
    destruct (IH _ _ Hc H) as (I1 & I2).
    split; [constructor; [congruence | exact I1] |].
    cbn [fold_left]. unfold Conditions.add at 2. now rewrite Eb.
Qed.

Lemma scan_conditions_of_known (tokens : list string) :
  forall (status : Z),
    forallb (fun c => negb (Conditions.comment c)) tokens = true ->
    Forall (fun c => Conditions.bit c <> None) tokens ->
    scan_conditions tokens status
    = Normal (fold_left Conditions.add tokens status).
Proof.
  induction tokens as [| c tokens IH]; intros status Hc Hk;
    [reflexivity |].
  cbn [forallb] in Hc. apply andb_prop in Hc. destruct Hc as (Hc1 & Hc).
  apply negb_true_iff in Hc1. inversion Hk as [| ? ? Hk1 Hk2]; subst.
  rewrite scan_conditions_step, Hc1.
  destruct (Conditions.bit c) as [b |] eqn:Eb; [| contradiction].
  cbn [fold_left]. unfold Conditions.add at 2. rewrite Eb. now apply IH.
Qed.

Lemma fold_add_permutation (tokens tokens' : list string) :
  Permutation.Permutation tokens tokens' ->
  forall status,
    fold_left Conditions.add tokens status
    = fold_left Conditions.add tokens' status.
Proof.
  induction 1 as [| x l l' _ IH | x y l | l l' l'' _ IH1 _ IH2];
    intros status; cbn [fold_left].
  - reflexivity.
  - apply IH.
  - f_equal. unfold Conditions.add.
    destruct (Conditions.bit x), (Conditions.bit y); try reflexivity.
    rewrite <- !Z.lor_assoc. f_equal. apply Z.lor_comm.
  - now rewrite IH1.
Qed.

Lemma fold_add_absorbs (l : list string) (b : Z) :
  forall acc, Z.lor acc b = acc ->
              Z.lor (fold_left Conditions.add l acc) b
              = fold_left Conditions.add l acc.
Proof.
  induction l as [| y l IH]; intros acc Ha; [exact Ha |].
  cbn [fold_left]. apply IH. unfold Conditions.add.
  destruct (Conditions.bit y) as [b' |]; [| exact Ha].
  rewrite <- Z.lor_assoc, (Z.lor_comm b' b), Z.lor_assoc, Ha.
  reflexivity.
Qed.

Lemma fold_add_has (l : list string) (c : string) (b : Z) :
  In c l -> Conditions.bit c = Some b ->
  forall acc, Z.lor (fold_left Conditions.add l acc) b
              = fold_left Conditions.add l acc.
Proof.
  intros Hin Eb. induction l as [| x l IH]; intros acc; [destruct Hin |].
  cbn [fold_left]. destruct Hin as [-> | Hin]; [| now apply IH].
  apply fold_add_absorbs. unfold Conditions.add. rewrite Eb.
  now rewrite <- Z.lor_assoc, Z.lor_diag.
Qed.

Lemma fold_add_nothing (l : list string) (acc : Z) :
  (forall c b, In c l -> Conditions.bit c = Some b -> Z.lor acc b = acc) ->
  fold_left Conditions.add l acc = acc.
Proof.
  induction l as [| c l IH]; intros Hl; [reflexivity |].
  cbn [fold_left].
  assert (E : Conditions.add acc c = acc).
  { unfold Conditions.add.
    destruct (Conditions.bit c) as [b |] eqn:Eb; [| reflexivity].
    apply (Hl c b); [now left | exact Eb]. }
  rewrite E. apply IH. intros c' b' Hin. apply Hl. now right.
Qed.

(** The order of the expected conditions does not matter, and neither
    does naming them twice: when a list of conditions without a comment
    is accepted, every rearrangement of it, and the list written twice
    in a row, give the same status word. *)
Theorem scan_conditions_order_free (tokens tokens' : list string)
  (status r : Z) :
  Permutation.Permutation tokens tokens' ->
  forallb (fun c => negb (Conditions.comment c)) tokens = true ->
  scan_conditions tokens status = Normal r ->
  scan_conditions tokens' status = Normal r
  /\ scan_conditions (tokens ++ tokens) status = Normal r.
Proof.
  intros Hp Hc H.
  destruct (scan_conditions_known tokens status r Hc H) as (Hk & ->).
  split.
  - rewrite scan_conditions_of_known.
    + f_equal. symmetry. now apply fold_add_permutation.
    + apply forallb_forall. intros c Hin.
      apply (proj1 (forallb_forall _ _) Hc).
      apply Permutation.Permutation_sym in Hp.
      now apply (Permutation.Permutation_in _ Hp).
    + apply Forall_forall. intros c Hin.
      apply (proj1 (Forall_forall _ _) Hk).
      apply Permutation.Permutation_sym in Hp.
      now apply (Permutation.Permutation_in _ Hp).
  - rewrite scan_conditions_of_known.
    + f_equal. rewrite fold_left_app. apply fold_add_nothing.
      intros c b Hin Eb. now apply (fold_add_has tokens c b).
    + rewrite forallb_app. now rewrite Hc.
    + apply Forall_app. split; exact Hk.
Qed.

Lemma scan_conditions_order_free_witness :
  scan_conditions ["Rounded"; "Inexact"] 0 = Normal (Z.lor MPD_Inexact MPD_Rounded)
  /\ scan_conditions ["Inexact"; "Rounded"; "Inexact"; "Rounded"] 0
     = Normal (Z.lor MPD_Inexact MPD_Rounded).
Proof.
  exact (scan_conditions_order_free ["Inexact"; "Rounded"]
           ["Rounded"; "Inexact"] 0 (Z.lor MPD_Inexact MPD_Rounded)
           (Permutation.perm_swap "Rounded" "Inexact" [])
           eq_refl eq_refl).
Defined.

Lemma err_token_not_ok (FILE : string) (token : list string)
  (args line : string) (r : Z) :
  Runtest_cxx.err_token FILE token args line <> Runtest_cxx.Ok r.
Proof.
  unfold Runtest_cxx.err_token.
  destruct (Runtest_cxx.at_ token 0); discriminate.
Qed.

(** The two runners read the expected conditions alike: on conditions
    without a comment (the C++ tokenizer has removed it), the C++
    [scan_conditions] returns a status word exactly when the C one does,
    and then the same one; a name that is not a condition is fatal in
    the C runner and raises the [test::Failure] "scan_conditions:
    unknown status" in the C++ runner. *)
Theorem scan_conditions_agree (FILE : string) (token : list string)
  (n : nat) :
  forallb (fun c => negb (Conditions.comment c)) (skipn n token) = true ->
  (forall r,
      Scan_cxx.scan_conditions FILE token n = Runtest_cxx.Ok r <->
      scan_conditions (skipn n token) 0 = Normal r)
  /\ ((exists d, scan_conditions (skipn n token) 0 = Abort d) <->
      Scan_cxx.scan_conditions FILE token n
      = Runtest_cxx.err_token FILE token "scan_conditions: unknown status"
          "664").
Proof.
  unfold Scan_cxx.scan_conditions.
  generalize 0 as status. generalize (skipn n token) as conds.
  induction conds as [| c conds IH]; intros status Hc.
  - split.
    + intros r. cbn. split; intros H; injection H as <-; reflexivity.
    + split; [intros (d & H); discriminate H |].
      cbn. intros H. symmetry in H. now apply err_token_not_ok in H.
  - cbn [forallb] in Hc. apply andb_prop in Hc. destruct Hc as (Hc1 & Hc).
    apply negb_true_iff in Hc1.
    rewrite scan_conditions_step, cxx_scan_loop_step, Hc1.
    destruct (Conditions.bit c) as [b |].
    + exact (IH (Z.lor status b) Hc).
    + split.
      * intros r. split; [| discriminate].
        intros H. now apply err_token_not_ok in H.
      * split; [reflexivity |]. intros _. eexists. reflexivity.
Qed.

Lemma scan_conditions_agree_witness :
  Scan_cxx.scan_conditions "runtest.cc"
    ["addx001"; "add"; "1"; "2"; "->"; "3"; "Inexact"; "Rounded"] 6
  = Runtest_cxx.Ok (Z.lor MPD_Inexact MPD_Rounded).
Proof.
  apply (proj1 (scan_conditions_agree "runtest.cc"
                  ["addx001"; "add"; "1"; "2"; "->"; "3"; "Inexact";
                   "Rounded"] 6 eq_refl)).
  reflexivity.
Defined.

(** ** The command line of the C runner *)

Lemma names_file_not_switch (a : string) :
  Main_c.names_file a = true ->
  String.eqb "--custom" a = false /\ String.eqb "--alloc" a = false.
Proof.
  intros H. split.
  - destruct (String.eqb_spec "--custom" a) as [<- |]; [discriminate H |].
    reflexivity.
  - destruct (String.eqb_spec "--alloc" a) as [<- |]; [discriminate H |].
    reflexivity.
Qed.

Lemma parse_loop_sound (args : list string) :
  forall o o',
    Main_c.parse_loop args o = Normal o' -> Accepts.accepted args o o'.
Proof.
  induction args as [| a args IH]; intros o o' H.
  - cbn in H. injection H as <-. unfold Accepts.accepted. cbn.
    rewrite !orb_false_r.
    refine (conj _ (conj _ (conj _ (conj _ (conj _ _))))).
    + constructor.
    + intros x [].
    + intros x y [].
    + destruct (Main_c.filename o); reflexivity.
    + reflexivity.
    + reflexivity.
  - cbn [Main_c.parse_loop] in H.
    destruct (match Main_c.filename o with None => true | Some _ => false end
              && Main_c.names_file a) eqn:B1.
    + apply andb_prop in B1. destruct B1 as (Bf & Bn).
      assert (Ef : Main_c.filename o = None)
        by (destruct (Main_c.filename o); [discriminate Bf | reflexivity]).
      destruct (names_file_not_switch a Bn) as (Nc & Na).
      apply IH in H. destruct H as (N & K & U & F & C & A).
      cbn [Main_c.filename Main_c.custom_alloc Main_c.check_alloc] in *.
      assert (Kr : forall x, In x args -> x = "--custom" \/ x = "--alloc").
      { intros x Hin. destruct (K x Hin) as [(_ & X) | [(X & _) | (X & _)]];
          [discriminate X | now left | now right]. }
      assert (Kn : forall x, In x args -> Main_c.names_file x = false).
      { intros x Hin. destruct (Kr x Hin) as [-> | ->]; reflexivity. }
      unfold Accepts.accepted. rewrite Ef. cbn [find existsb].
      rewrite Bn, Nc, Na. cbn [orb].
      refine (conj _ (conj _ (conj _ (conj F (conj C A))))).
      * constructor; [| exact N]. intros Hin.
        rewrite (Kn a Hin) in Bn. discriminate Bn.
      * intros x [<- | Hin]; [now left |].
        destruct (K x Hin) as [(_ & X) | [X | X]];
          [discriminate X | right; now left | right; now right].
      * intros x y [<- | Hx] [<- | Hy] Px Py; try reflexivity.
        -- rewrite (Kn y Hy) in Py. discriminate Py.
        -- rewrite (Kn x Hx) in Px. discriminate Px.
        -- rewrite (Kn x Hx) in Px. discriminate Px.
    + destruct (negb (Main_c.custom_alloc o) && String.eqb a "--custom")
        eqn:B2.
      * apply andb_prop in B2. destruct B2 as (Bc & Be).
        apply negb_true_iff in Bc. apply String.eqb_eq in Be. subst a.
        apply IH in H. destruct H as (N & K & U & F & C & A).
        cbn [Main_c.filename Main_c.custom_alloc Main_c.check_alloc] in *.
        unfold Accepts.accepted. cbn [find existsb].
        change (Main_c.names_file "--custom") with false. cbv iota.
        change (String.eqb "--custom" "--custom") with true.
        change (String.eqb "--alloc" "--custom") with false.
        rewrite Bc. cbn [orb] in *.
        refine (conj _ (conj _ (conj _ (conj F (conj C A))))).
        -- constructor; [| exact N]. intros Hin.
           destruct (K _ Hin) as [(X & _) | [(_ & X) | (X & _)]];
             discriminate X.
        -- intros x [<- | Hin]; [right; now left |].
           destruct (K x Hin) as [X | [(_ & X) | X]];
             [now left | discriminate X | right; now right].
        -- intros x y [<- | Hx] [<- | Hy] Px Py; try discriminate;
             now apply U.
      * destruct (negb (Main_c.check_alloc o) && String.eqb a "--alloc")
          eqn:B3; [| discriminate H].
        apply andb_prop in B3. destruct B3 as (Bc & Be).
        apply negb_true_iff in Bc. apply String.eqb_eq in Be. subst a.
        apply IH in H. destruct H as (N & K & U & F & C & A).
        cbn [Main_c.filename Main_c.custom_alloc Main_c.check_alloc] in *.
        unfold Accepts.accepted. cbn [find existsb].
        change (Main_c.names_file "--alloc") with false. cbv iota.
        change (String.eqb "--alloc" "--alloc") with true.
        change (String.eqb "--custom" "--alloc") with false.
        rewrite Bc. cbn [orb] in *.
        refine (conj _ (conj _ (conj _ (conj F (conj C A))))).
        -- constructor; [| exact N]. intros Hin.
           destruct (K _ Hin) as [(X & _) | [(X & _) | (_ & X)]];
             discriminate X.
        -- intros x [<- | Hin]; [right; now right |].
           destruct (K x Hin) as [X | [X | (_ & X)]];
             [now left | right; now left | discriminate X].
        -- intros x y [<- | Hx] [<- | Hy] Px Py; try discriminate;
             now apply U.
Qed.

Lemma parse_loop_complete (args : list string) :
  forall o o',
    Accepts.accepted args o o' -> Main_c.parse_loop args o = Normal o'.
Proof.
  induction args as [| a args IH]; intros o o' (N & K & U & F & C & A).
  - cbn in *. rewrite orb_false_r in C, A. f_equal.
    destruct o as [f c k], o' as [f' c' k']. cbn in *.
    subst c' k'. f_equal. rewrite F. destruct f; reflexivity.
  - inversion N as [| ? ? Hnotin N']; subst.
    cbn [find existsb] in F, C, A.
    assert (U' : forall x y, In x args -> In y args ->
                   Main_c.names_file x = true ->
                   Main_c.names_file y = true -> x = y).
    { intros x y Hx Hy. apply U; now right. }
    destruct (K a (or_introl eq_refl)) as [(Pn & Ef) | [(-> & Ec) | (-> & Ea)]].
    + destruct (names_file_not_switch a Pn) as (Nc & Na).
      cbn [Main_c.parse_loop]. rewrite Ef, Pn. cbn [andb].
      apply IH. rewrite Ef, Pn in F. rewrite Nc in C. rewrite Na in A.
      cbn [orb] in C, A.
      refine (conj N' (conj _ (conj U' (conj F (conj C A))))).
      intros x Hin. cbn [Main_c.filename Main_c.custom_alloc
                           Main_c.check_alloc].
      destruct (K x (or_intror Hin)) as [(Px & _) | [X | X]];
        [| right; now left | right; now right].
      exfalso. apply Hnotin.
      rewrite <- (U x a (or_intror Hin) (or_introl eq_refl) Px Pn).
      exact Hin.
    + cbn [Main_c.parse_loop].
      change (Main_c.names_file "--custom") with false in *.
      rewrite andb_false_r, Ec.
      change (negb false && String.eqb "--custom" "--custom") with true.
      cbv iota. apply IH.
      change (String.eqb "--custom" "--custom") with true in C.
      change (String.eqb "--alloc" "--custom") with false in A.
      rewrite Ec in C. cbn [orb] in C, A.
      refine (conj N' (conj _ (conj U' (conj F (conj C A))))).
      intros x Hin. cbn [Main_c.filename Main_c.custom_alloc
                           Main_c.check_alloc].
      destruct (K x (or_intror Hin)) as [X | [(-> & _) | X]];
        [now left | now elim Hnotin | right; now right].
    + cbn [Main_c.parse_loop].
      change (Main_c.names_file "--alloc") with false in *.
      rewrite andb_false_r, Ea.
      change (String.eqb "--alloc" "--custom") with false.
      rewrite andb_false_r.
      change (negb false && String.eqb "--alloc" "--alloc") with true.
      cbv iota. apply IH.
      change (String.eqb "--alloc" "--alloc") with true in A.
      change (String.eqb "--custom" "--alloc") with false in C.
      rewrite Ea in A. cbn [orb] in C, A.
      refine (conj N' (conj _ (conj U' (conj F (conj C A))))).
      intros x Hin. cbn [Main_c.filename Main_c.custom_alloc
                           Main_c.check_alloc].
      destruct (K x (or_intror Hin)) as [X | [X | (-> & _)]];
        [now left | right; now left | now elim Hnotin].
Qed.

Lemma parse_loop_ends (args : list string) :
  forall o, (exists o', Main_c.parse_loop args o = Normal o')
            \/ Main_c.parse_loop args o = Exit 1.
Proof.
  induction args as [| a args IH]; intros o; cbn [Main_c.parse_loop].
  - left. eexists. reflexivity.
  - repeat match goal with
           | |- context [if ?b then _ else _] => destruct b
           end; try apply IH. now right.
Qed.

Lemma existsb_eqb_in (s : string) (l : list string) :
  existsb (String.eqb s) l = true <-> In s l.
Proof.
  rewrite existsb_exists. split.
  - intros (x & Hin & E). apply String.eqb_eq in E. now subst.
  - intros H. exists s. split; [exact H | apply String.eqb_refl].
Qed.

Lemma bool_of_iff (c b : bool) : (c = true <-> b = true) -> c = b.
Proof. destruct c, b; intros [H1 H2]; auto; symmetry; auto. Qed.

Lemma parse_args_spec (args : list string) (f : string) (c a : bool) :
  Main_c.parse_args args = Normal (f, c, a) <->
  NoDup args
  /\ In f args /\ Main_c.names_file f = true
  /\ (forall x, In x args -> x = f \/ x = "--custom" \/ x = "--alloc")
  /\ (c = true <-> In "--custom" args)
  /\ (a = true <-> In "--alloc" args).
Proof.
  unfold Main_c.parse_args. split.
  - destruct (Main_c.parse_loop args (Main_c.mk_options None false false))
      as [o' | | |] eqn:E; try discriminate.
    apply parse_loop_sound in E. destruct E as (N & K & U & F & C & A).
    cbn [Main_c.filename Main_c.custom_alloc Main_c.check_alloc orb]
      in K, F, C, A.
    destruct (Main_c.filename o') as [f' |]; [| discriminate].
    intros H. injection H as -> <- <-.
    symmetry in F. apply find_some in F. destruct F as (Hin & Pf).
    refine (conj N (conj Hin (conj Pf (conj _ (conj _ _))))).
    + intros x Hx. destruct (K x Hx) as [(Px & _) | [(X & _) | (X & _)]];
        [left; now apply U | right; now left | right; now right].
    + rewrite C. apply existsb_eqb_in.
    + rewrite A. apply existsb_eqb_in.
  - intros (N & Hin & Pf & K & C & A).
    assert (U : forall x y, In x args -> In y args ->
                  Main_c.names_file x = true ->
                  Main_c.names_file y = true -> x = y).
    { assert (V : forall x, In x args -> Main_c.names_file x = true ->
                            x = f).
      { intros x Hx Px. destruct (K x Hx) as [X | [-> | ->]];
          [exact X | discriminate Px | discriminate Px]. }
      intros x y Hx Hy Px Py. rewrite (V x Hx Px), (V y Hy Py).
      reflexivity. }
    assert (F : find Main_c.names_file args = Some f).
    { destruct (find Main_c.names_file args) as [y |] eqn:Ey.
      - apply find_some in Ey. destruct Ey as (Hy & Py).
        f_equal. now apply U.
      - rewrite (find_none _ _ Ey f Hin) in Pf. discriminate Pf. }
    rewrite (parse_loop_complete args (Main_c.mk_options None false false)
               (Main_c.mk_options (Some f) c a)).
    + reflexivity.
    + unfold Accepts.accepted.
      cbn [Main_c.filename Main_c.custom_alloc Main_c.check_alloc orb].
      refine (conj N (conj _ (conj U (conj (eq_sym F) (conj _ _))))).
      * intros x Hx. destruct (K x Hx) as [-> | [X | X]];
          [left; now split | right; left; now split
          | right; right; now split].
      * apply bool_of_iff. rewrite C. symmetry. apply existsb_eqb_in.
      * apply bool_of_iff. rewrite A. symmetry. apply existsb_eqb_in.
Qed.

(** The command line of the C runner is accepted exactly when it names
    one file (the argument "-" or an argument that does not start with
    two hyphens) and beside it holds at most the switches "--custom"
    and "--alloc", each at most once; the switches found are the ones
    set.  A second file name, a repeated switch and any other argument
    that starts with two hyphens end in [usage]. *)
Theorem command_line_accepted (args : list string) (f : string)
  (c a : bool) :
  Main_c.parse_args args = Normal (f, c, a) <->
  NoDup args
  /\ In f args /\ Main_c.names_file f = true
  /\ (forall x, In x args -> x = f \/ x = "--custom" \/ x = "--alloc")
  /\ (c = true <-> In "--custom" args)
  /\ (a = true <-> In "--alloc" args).
Proof. exact (parse_args_spec args f c a). Qed.

Lemma parse_args_ends (args : list string) :
  (exists r, Main_c.parse_args args = Normal r)
  \/ Main_c.parse_args args = Exit 1.
Proof.
  unfold Main_c.parse_args.
  destruct (parse_loop_ends args (Main_c.mk_options None false false))
    as [(o' & E) | E]; rewrite E; [| now right].
  destruct (Main_c.filename o'); [left; eexists; reflexivity | now right].
Qed.

(** The order of the arguments on the command line of the C runner does
    not matter: rearranged, they are accepted with the same file name
    and switches, or they end in [usage] as before. *)
Theorem command_line_order_free (args args' : list string) :
  Permutation.Permutation args args' ->
  Main_c.parse_args args' = Main_c.parse_args args.
Proof.
  assert (G : forall l l' r,
             Permutation.Permutation l l' ->
             Main_c.parse_args l = Normal r ->
             Main_c.parse_args l' = Normal r).
  { intros l l' [[f c] a] Hp H. apply parse_args_spec in H.
    destruct H as (N & Hin & Pf & K & C & A).
    apply parse_args_spec.
    refine (conj _ (conj _ (conj Pf (conj _ (conj _ _))))).
    - now apply (Permutation.Permutation_NoDup Hp).
    - now apply (Permutation.Permutation_in _ Hp).
    - intros x Hx. apply K.
      now apply (Permutation.Permutation_in _ (Permutation.Permutation_sym Hp)).
    - rewrite C. split; apply Permutation.Permutation_in;
        [exact Hp | now apply Permutation.Permutation_sym].
    - rewrite A. split; apply Permutation.Permutation_in;
        [exact Hp | now apply Permutation.Permutation_sym]. }
  intros Hp.
  destruct (parse_args_ends args) as [(r & E) | E].
  - rewrite E. now apply (G args args').
  - destruct (parse_args_ends args') as [(r' & E') | E'].
    + apply (G args' args r' (Permutation.Permutation_sym Hp)) in E'.
      rewrite E in E'. discriminate E'.
    + now rewrite E, E'.
Qed.

Lemma command_line_order_free_witness :
  Main_c.parse_args ["--alloc"; "official.decTest"; "--custom"]
  = Main_c.parse_args ["official.decTest"; "--custom"; "--alloc"].
Proof.
  apply command_line_order_free.
  apply Permutation.Permutation_sym.
  apply (Permutation.Permutation_cons_append
           ["official.decTest"; "--custom"] "--alloc").
Defined.

(** ** The status hacks, once more *)

Lemma resolve_status_hack_cases (expstatus status : Z) :
  resolve_status_hack expstatus status
  = if negb (Z.land expstatus MPD_Invalid_operation =? 0)
    then if negb (Z.land status MPD_Division_impossible =? 0)
         then MPD_Division_impossible
         else if negb (Z.land status MPD_Division_undefined =? 0)
              then MPD_Division_undefined
              else expstatus
    else expstatus.
Proof.
  unfold resolve_status_hack. cbv zeta.
  destruct (negb (Z.land expstatus MPD_Invalid_operation =? 0)) eqn:A;
    destruct (negb (Z.land status MPD_Division_impossible =? 0));
    cbv beta iota delta [andb]; rewrite ?A;
    cbv beta iota delta [andb]; reflexivity.
Qed.

(** Narrowing the expected status of [divmod] settles: the narrowed
    status is the expected one, [MPD_Division_impossible] or
    [MPD_Division_undefined]; narrowing it again with the same computed
    status changes nothing; an expected status without
    [MPD_Invalid_operation] is never narrowed; and the C++ runner
    narrows as the C runner does. *)
Theorem resolve_status_hack_settles (expstatus status : Z) :
  let e := resolve_status_hack expstatus status in
  resolve_status_hack e status = e
  /\ (e = expstatus \/ e = MPD_Division_impossible
      \/ e = MPD_Division_undefined)
  /\ (Z.land expstatus MPD_Invalid_operation = 0 -> e = expstatus)
  /\ Runtest_cxx.resolve_status_hack expstatus status = e.
Proof.
  cbv zeta.
  change (Runtest_cxx.resolve_status_hack expstatus status)
    with (resolve_status_hack expstatus status).
  rewrite (resolve_status_hack_cases
             (resolve_status_hack expstatus status) status).
  rewrite !(resolve_status_hack_cases expstatus status).
  destruct (negb (Z.land expstatus MPD_Invalid_operation =? 0)) eqn:A.
  - destruct (negb (Z.land status MPD_Division_impossible =? 0));
      [| destruct (negb (Z.land status MPD_Division_undefined =? 0))];
      rewrite ?A;
      (split; [reflexivity |]); (split; [auto |]);
      (split; [| reflexivity]); intros H;
      apply Z.eqb_eq in H; rewrite H in A; discriminate A.
  - rewrite A. auto.
Qed.

(** ** Equality of decimals, once more *)

Lemma data_equal_words (a b : mpd_t) (n : nat) :
  firstn n (data a) = firstn n (data b) ->
  (n <= List.length (data a))%nat ->
  (n <= List.length (data b))%nat ->
  data_equal a b 0 n = true.
Proof.
  intros H Ha Hb. apply data_equal_spec. intros i Hi. unfold data_at.
  apply (proj1 (firstn_eq_nth n (data a) (data b) Ha Hb) H). lia.
Qed.

(** Both [equalmem] are equivalence relations, and neither looks at
    the capacity [alloc] of a decimal or at the words beyond [len]: two
    decimals whose flags, exponent, digits and length agree and whose
    first [len] words agree are equal whatever else they hold. *)
Theorem equalmem_is_an_equivalence :
  (forall a, equalmem a a = true /\ Runtest_cxx.equalmem a a = true)
  /\ (forall a b,
         (equalmem a b = true -> equalmem b a = true)
         /\ (Runtest_cxx.equalmem a b = true ->
             Runtest_cxx.equalmem b a = true))
  /\ (forall a b c,
         (equalmem a b = true -> equalmem b c = true ->
          equalmem a c = true)
         /\ (Runtest_cxx.equalmem a b = true ->
             Runtest_cxx.equalmem b c = true ->
             Runtest_cxx.equalmem a c = true))
  /\ (forall a alloc' spare,
         Stated.well_formed a ->
         let b := mk_mpd (flags a) (exp a) (digits a) (len a) alloc'
                    (Stated.coefficient a ++ spare) in
         equalmem a b = true /\ Runtest_cxx.equalmem a b = true).
Proof.
  refine (conj _ (conj _ (conj _ _))).
  - intros a. rewrite equalmem_c_true, equalmem_cxx_true.
    assert (D : data_equal a a 0 (Z.to_nat (len a)) = true)
      by (apply data_equal_spec; reflexivity).
    auto 10.
  - intros a b. rewrite !equalmem_c_true, !equalmem_cxx_true.
    split; intros (Hf & He & Hl & Hd & Hw);
      (repeat split; try congruence);
      rewrite <- Hl; apply data_equal_spec; intros i Hi; symmetry;
      apply (proj1 (data_equal_spec a b _ 0) Hw i Hi).
  - intros a b c. rewrite !equalmem_c_true, !equalmem_cxx_true.
    split; intros (Hf & He & Hl & Hd & Hw) (Hf' & He' & Hl' & Hd' & Hw');
      (repeat split; try congruence);
      apply data_equal_spec; intros i Hi;
      rewrite (proj1 (data_equal_spec a b _ 0) Hw i Hi);
      apply (proj1 (data_equal_spec b c _ 0) Hw' i); rewrite <- Hl;
      exact Hi.
  - intros a alloc' spare [H0 Hlen]. cbv zeta.
    rewrite equalmem_c_true, equalmem_cxx_true.
    unfold Runtest_cxx.value_flags. cbn [flags exp len digits data].
    assert (D : data_equal a
                  (mk_mpd (flags a) (exp a) (digits a) (len a) alloc'
                     (Stated.coefficient a ++ spare)) 0
                  (Z.to_nat (len a)) = true).
    { apply data_equal_words; cbn [data].
      - unfold Stated.coefficient.
        rewrite firstn_app, firstn_firstn, Nat.min_id.
        rewrite length_firstn.
        replace (Z.to_nat (len a)
                 - Nat.min (Z.to_nat (len a)) (List.length (data a)))%nat
          with 0%nat by lia.
        cbn [firstn]. now rewrite app_nil_r.
      - lia.
      - rewrite length_app. unfold Stated.coefficient.
        rewrite length_firstn. lia. }
    auto 10.
Qed.

(** ** Failures and the exit status of the C runner *)

Lemma compare_flags (flags_text : Z -> string) (r : report)
  (c : Checks.comparison) :
  let r' := Checks.compare flags_text r c in
  (exists extra, stderr r' = stderr r ++ extra)
  /\ (Checks.fails c = true ->
      global_failure r' = 1 /\ file_failure r' = 1)
  /\ (Checks.fails c = false -> r' = r).
Proof.
  cbv zeta. unfold Checks.compare.
  destruct (compare_expected_adds flags_text (Checks.c_calc c)
              (Checks.c_expected c) (Checks.c_expected_status c)
              (Checks.c_id c) (Checks.c_ctx c) r)
    as (extra & E1 & E2 & E3 & E4).
  split; [exists extra; exact E1 |].
  unfold Checks.fails. split; intros H.
  - apply E2 in H. destruct (E3 H). auto.
  - apply E4. destruct extra as [| x extra]; [reflexivity |].
    assert (X : x :: extra <> []) by discriminate.
    apply E2 in X. rewrite X in H. discriminate H.
Qed.

(** [main] returns [global_failure].  Over any sequence of comparisons
    it is 1 at the end exactly when it was 1 before or one of the
    comparisons failed (result or status differ and no table of known
    differences covers the test); the same holds of [file_failure]; and
    what was written to [stderr] before is still there, at the front. *)
Theorem failures_reach_the_exit_status (flags_text : Z -> string)
  (l : list Checks.comparison) (r : report) :
  let r' := Checks.compare_all flags_text l r in
  (global_failure r' = 1 <->
   global_failure r = 1 \/ existsb Checks.fails l = true)
  /\ (file_failure r' = 1 <->
      file_failure r = 1 \/ existsb Checks.fails l = true)
  /\ (exists extra, stderr r' = stderr r ++ extra).
Proof.
  cbv zeta. revert r. unfold Checks.compare_all.
  induction l as [| c l IH]; intros r; cbn [fold_left existsb].
  - repeat split; try tauto.
    + intros [H | H]; [exact H | discriminate H].
    + intros [H | H]; [exact H | discriminate H].
    + exists []. now rewrite app_nil_r.
  - destruct (IH (Checks.compare flags_text r c)) as (G & F & (ex & S)).
    destruct (compare_flags flags_text r c) as ((ex0 & S0) & Y & N).
    rewrite G, F, S, S0.
    destruct (Checks.fails c) eqn:Ef; cbn [orb].
    + destruct (Y eq_refl) as (Yg & Yf). rewrite Yg, Yf.
      repeat split; try tauto.
      exists (ex0 ++ ex). now rewrite app_assoc.
    + rewrite (N eq_refl). repeat split; try tauto.
      rewrite (N eq_refl) in S0.
      exists (ex0 ++ ex). now rewrite app_assoc.
Qed.

(** ** Letter case *)

Lemma strcaseeq_left (a : string) :
  forall b n, strcaseeq a b = true -> strcaseeq a n = strcaseeq b n.
Proof.
  induction a as [| x a IH]; intros [| y b] [| z n] H; cbn in *;
    try discriminate H; try reflexivity.
  apply andb_prop in H. destruct H as (Hx & Ha).
  unfold ascii_eqb in Hx. apply Ascii.eqb_eq in Hx.
  rewrite Hx. f_equal. now apply IH.
Qed.

Lemma prefixcaseeq_left (a : string) :
  forall b n, strcaseeq a b = true -> prefixcaseeq a n = prefixcaseeq b n.
Proof.
  induction a as [| x a IH]; intros [| y b] [| z n] H; cbn in *;
    try discriminate H; try reflexivity.
  apply andb_prop in H. destruct H as (Hx & Ha).
  unfold ascii_eqb in Hx. apply Ascii.eqb_eq in Hx.
  rewrite Hx. f_equal. now apply IH.
Qed.

Lemma lookup_drivers_case (table : list (list string * string))
  (op op' : string) :
  strcaseeq op op' = true ->
  Doit_c.lookup_drivers table (Some op)
  = Doit_c.lookup_drivers table (Some op').
Proof.
  intros H. induction table as [| [names calls] table IH];
    cbn [Doit_c.lookup_drivers]; [reflexivity |].
  assert (E : existsb (eqtoken (Some op)) names
              = existsb (eqtoken (Some op')) names).
  { clear IH. induction names as [| n names IHn]; cbn [existsb eqtoken];
      [reflexivity |].
    cbn [eqtoken] in IHn. now rewrite (strcaseeq_left op op' n H), IHn. }
  now rewrite E, IH.
Qed.

Lemma same_but_diagnostic {A : Type} (x y : run A) :
  x = y \/ (exists d d', x = Abort d /\ y = Abort d') ->
  (forall a, x = Normal a <-> y = Normal a)
  /\ ((exists d, x = Abort d) <-> (exists d, y = Abort d)).
Proof.
  intros [-> | (d & d' & -> & ->)].
  - split; [intros a |]; reflexivity.
  - split; [intros a; split; discriminate |]. split; eauto.
Qed.

(** The C runner takes the name of the operation of a test without
    regard to letter case: two lines whose first token is not the name
    of a directive and that differ only in the case of the letters of
    their second token are treated alike, whether they are passed over,
    handed to the same drivers, or fatal.  (On the line of a directive
    the second token is the directive's value, and [doit] compares some
    of these values with [strcmp]; such lines are not meant here.) *)
Theorem operation_case_does_not_matter (round_guard : Z)
  (filename id g0 op op' g1 tail : string)
  (rest : list (string * string)) (ctx : mpd_context_t) :
  Doit_c.find_directive Doit_c.directives (Some id) = None ->
  forallb Words.spaced ((id, g0) :: (op, g1) :: rest) = true ->
  Words.word op' = true ->
  (List.length rest <= 30)%nat ->
  Words.unquoted tail = true -> Words.no_space tail = true ->
  strcaseeq op op' = true ->
  let line := Words.line_of ((id, g0) :: (op, g1) :: rest) tail in
  let line' := Words.line_of ((id, g0) :: (op', g1) :: rest) tail in
  (forall action,
      Doit_c.doit_line round_guard filename line ctx = Normal action <->
      Doit_c.doit_line round_guard filename line' ctx = Normal action)
  /\ ((exists d,
          Doit_c.doit_line round_guard filename line ctx = Abort d) <->
      (exists d,
          Doit_c.doit_line round_guard filename line' ctx = Abort d)).
Proof.
  intros _ Hw Hop' Hlen Hq Hs Hcase. cbv zeta.
  assert (Hw' : forallb Words.spaced ((id, g0) :: (op', g1) :: rest) = true).
  { cbn [forallb] in Hw |- *. apply andb_prop in Hw.
    destruct Hw as (H0 & Hw). apply andb_prop in Hw.
    destruct Hw as (H1 & Hw). rewrite H0, Hw.
    unfold Words.spaced in H1 |- *. cbn [fst snd] in H1 |- *.
    apply andb_prop in H1. destruct H1 as (_ & H1).
    now rewrite Hop', H1. }
  apply same_but_diagnostic. unfold Doit_c.doit_line.
  rewrite (split_loop_words _ tail Hw Hq Hs MAXTOKEN EmptyString
             ltac:(cbn [List.length]; unfold MAXTOKEN; lia) eq_refl
           : split (Words.line_of ((id, g0) :: (op, g1) :: rest) tail) = _).
  rewrite (split_loop_words _ tail Hw' Hq Hs MAXTOKEN EmptyString
             ltac:(cbn [List.length]; unfold MAXTOKEN; lia) eq_refl
           : split (Words.line_of ((id, g0) :: (op', g1) :: rest) tail) = _).
  cbv zeta. cbn [map fst token_at nth_error].
  destruct (startswith (Some id) "pwmx").
  - unfold Doit_c.run_bind, mpd_err_fatal.
    repeat match goal with
           | |- context [if ?b then _ else _] => destruct b
           | |- context [match ?x with _ => _ end] => destruct x
           end; auto; right; eauto.
  - rewrite <- (lookup_drivers_case Doit_c.dispatch_table op op' Hcase).
    change (startswith (Some op') "get_") with (prefixcaseeq op' "get_").
    change (eqtoken (Some op') "rescale") with (strcaseeq op' "rescale").
    rewrite <- (prefixcaseeq_left op op' "get_" Hcase).
    rewrite <- (strcaseeq_left op op' "rescale" Hcase).
    change (prefixcaseeq op "get_") with (startswith (Some op) "get_").
    change (strcaseeq op "rescale") with (eqtoken (Some op) "rescale").
    unfold Doit_c.run_bind, mpd_err_fatal.
    repeat match goal with
           | |- context [if ?b then _ else _] => destruct b
           | |- context [match ?x with _ => _ end] => destruct x
           end; auto; right; eauto.
Qed.

Lemma operation_case_does_not_matter_witness :
  Doit_c.doit_line 9 "f.decTest"
    (Words.line_of [("addx001", " "); ("ADD", " "); ("1", " ");
                    ("2", " "); ("->", " "); ("3", newline)] EmptyString)
    Fixtures.context
  = Doit_c.doit_line 9 "f.decTest"
      (Words.line_of [("addx001", " "); ("add", " "); ("1", " ");
                      ("2", " "); ("->", " "); ("3", newline)] EmptyString)
      Fixtures.context.
Proof.
  destruct (Doit_c.doit_line 9 "f.decTest"
              (Words.line_of [("addx001", " "); ("add", " "); ("1", " ");
                              ("2", " "); ("->", " "); ("3", newline)]
                 EmptyString)
              Fixtures.context) as [action | d | code |] eqn:E;
    try (vm_compute in E; discriminate).
  exact (proj1 (proj1 (operation_case_does_not_matter 9 "f.decTest"
                         "addx001" " " "add" "ADD" " " EmptyString
                         [("1", " "); ("2", " "); ("->", " ");
                          ("3", newline)]
                         Fixtures.context eq_refl eq_refl eq_refl
                         ltac:(cbn; lia) eq_refl eq_refl eq_refl) action)
           E).
Defined.

(** ** The skip lists *)

(** The two runners hold the same list of test ids to skip, but look
    an id up differently: the C runner skips an id that equals an entry
    up to letter case, the C++ runner only an id that is an entry. *)
Theorem skip_lists_match_differently (id : string) :
  Runtest_cxx.skipit = skipit
  /\ (check_skip (Some id) = 1 <->
      exists s, In s skipit /\ strcaseeq id s = true)
  /\ (check_skip (Some id) = 0 <->
      forall s, In s skipit -> strcaseeq id s = false)
  /\ (Runtest_cxx.skip_test id = true <-> In id skipit)
  /\ check_skip None = 0.
Proof.
  split; [reflexivity |].
  assert (G : forall l,
             (check_skip_from l (Some id) = 1 <->
              exists s, In s l /\ strcaseeq id s = true)
             /\ (check_skip_from l (Some id) = 0 <->
                 forall s, In s l -> strcaseeq id s = false)).
  { induction l as [| x l (IH1 & IH2)]; cbn [check_skip_from eqtoken].
    - split; split; try discriminate; try (intros (s & [] & _));
        try reflexivity. intros _ s [].
    - destruct (strcaseeq id x) eqn:E.
      + split; split; try discriminate; try reflexivity.
        * intros _. exists x. split; [now left | exact E].
        * intros H. rewrite (H x (or_introl eq_refl)) in E. discriminate E.
      + rewrite IH1, IH2. split; split.
        * intros (s & Hin & Hs). exists s. split; [now right | exact Hs].
        * intros (s & [<- | Hin] & Hs); [congruence |].
          exists s. auto.
        * intros H s [<- | Hin]; [exact E | now apply H].
        * intros H s Hin. apply H. now right. }
  destruct (G skipit) as (G1 & G2).
  split; [exact G1 |]. split; [exact G2 |]. split.
  - unfold Runtest_cxx.skip_test. rewrite existsb_exists. split.
    + intros (s & Hin & E). apply String.eqb_eq in E. now subst.
    + intros H. exists id. split; [exact H | apply String.eqb_refl].
  - unfold check_skip. generalize skipit.
    induction l; cbn; [reflexivity | exact IHl].
Qed.

(** ** The files of the C++ runner *)

Lemma store_status_length (status : list string) (i : nat) (what : string) :
  List.length (Runtest_cxx.store_status status i what) = List.length status.
Proof.
  revert i. induction status as [| s status IH]; intros [| i]; cbn;
    try reflexivity. now rewrite IH.
Qed.

Lemma do_files_from_caught (streams : list (Runtest_cxx.result unit)) :
  forall (done : list string) (i : nat),
    forallb Files_cxx.caught streams = true ->
    List.length done = i ->
    Files_cxx.do_files_from streams
      (done ++ repeat "PASS" (List.length streams)) i
    = Runtest_cxx.Ok (done ++ map Files_cxx.status_of streams).
Proof.
  induction streams as [| stream streams IH]; intros done i Hc Hi.
  - reflexivity.
  - cbn [forallb] in Hc. apply andb_prop in Hc. destruct Hc as (Hs & Hc).
    cbn [Files_cxx.do_files_from List.length repeat map].
    assert (E : Runtest_cxx.do_file stream
                  (done ++ "PASS" :: repeat "PASS" (List.length streams)) i
                = Runtest_cxx.Ok
                    ((done ++ [Files_cxx.status_of stream])
                     ++ repeat "PASS" (List.length streams))).
    { rewrite <- app_assoc. cbn [app].
      destruct stream as [[] | what | e | c]; try discriminate Hs;
        cbn [Runtest_cxx.do_file Files_cxx.status_of]; [reflexivity |].
      f_equal. subst i. clear. induction done as [| d done IHd]; cbn;
        [reflexivity | now rewrite IHd]. }
    rewrite E. cbn [Runtest_cxx.and_then].
    rewrite (IH (done ++ [Files_cxx.status_of stream]) (S i) Hc).
    + now rewrite <- app_assoc.
    + rewrite length_app. cbn. lia.
Qed.

(** The C++ runner runs every file of its list, also after a file has
    failed: when each file ends normally or in a [test::Failure], the
    status recorded for a file is "PASS" or the text of its failure, in
    the order of the files, and the exit status is [EXIT_SUCCESS]
    exactly when every recorded status reads "PASS". *)
Theorem do_files_runs_every_file
  (streams : list (Runtest_cxx.result unit)) :
  forallb Files_cxx.caught streams = true ->
  Files_cxx.do_files_from streams
    (repeat "PASS" (List.length streams)) 0
  = Runtest_cxx.Ok (map Files_cxx.status_of streams)
  /\ (exists code, Files_cxx.do_files streams = Runtest_cxx.Ok code
        /\ (code = Runtest_cxx.EXIT_SUCCESS \/ code = Runtest_cxx.EXIT_FAILURE)
        /\ (code = Runtest_cxx.EXIT_SUCCESS <->
            forall stream, In stream streams ->
                           Files_cxx.status_of stream = "PASS")).
Proof.
  intros Hc.
  pose proof (do_files_from_caught streams [] 0 Hc eq_refl) as E.
  cbn [app] in E. split; [exact E |].
  unfold Files_cxx.do_files. rewrite E. cbn [Runtest_cxx.and_then].
  eexists. split; [reflexivity |].
  unfold Runtest_cxx.exit_status.
  destruct (forallb (fun p => String.eqb p "PASS")
              (map Files_cxx.status_of streams)) eqn:F.
  - split; [now left |]. split; [| reflexivity].
    intros _ stream Hin.
    apply String.eqb_eq.
    apply (proj1 (forallb_forall _ _) F). now apply in_map.
  - split; [now right |]. split; [discriminate |].
    intros H. exfalso.
    assert (F' : forallb (fun p => String.eqb p "PASS")
                   (map Files_cxx.status_of streams) = true).
    { apply forallb_forall. intros p Hp. apply in_map_iff in Hp.
      destruct Hp as (stream & <- & Hin). rewrite (H stream Hin).
      reflexivity. }
    rewrite F' in F. discriminate F.
Qed.

Lemma do_files_runs_every_file_witness :
  Files_cxx.do_files_from
    [Runtest_cxx.Ok tt; Runtest_cxx.Failure "addx001: result mismatch";
     Runtest_cxx.Ok tt]
    (repeat "PASS" 3) 0
  = Runtest_cxx.Ok ["PASS"; "addx001: result mismatch"; "PASS"].
Proof.
  exact (proj1 (do_files_runs_every_file
                  [Runtest_cxx.Ok tt;
                   Runtest_cxx.Failure "addx001: result mismatch";
                   Runtest_cxx.Ok tt] eq_refl)).
Defined.

(** ** The number of a test *)

Lemma strpbrk_skips (letters s : string) :
  Digits.no_digit letters = true ->
  strpbrk_digits (letters ++ s) = strpbrk_digits s.
Proof.
  induction letters as [| c letters IH]; cbn [append Digits.no_digit
                                               strpbrk_digits];
    [reflexivity |].
  intros H. apply andb_prop in H. destruct H as (Hc & Hl).
  apply negb_true_iff in Hc. now rewrite Hc, (IH Hl).
Qed.

Lemma isdigit_code (c : ascii) : isdigit c = true -> 0 <= code c - 48 <= 9.
Proof.
  unfold isdigit. intros H. apply andb_prop in H. destruct H as (H1 & H2).
  apply Z.leb_le in H1, H2. lia.
Qed.

Lemma strtoul_digits_value (digits rest : string) :
  Digits.all_digits digits = true -> Digits.stops rest = true ->
  forall acc,
    0 <= acc ->
    strtoul_digits (digits ++ rest) (Z.min ULONG_MAX acc)
    = Z.min ULONG_MAX (Digits.value digits acc)
    /\ 0 <= Digits.value digits acc.
Proof.
  intros Hd Hr. induction digits as [| c digits IH]; intros acc Hacc.
  - cbn [append Digits.value]. split; [| exact Hacc].
    destruct rest as [| x rest]; [reflexivity |].
    cbn [Digits.stops] in Hr. apply negb_true_iff in Hr.
    cbn [strtoul_digits]. now rewrite Hr.
  - cbn [Digits.all_digits] in Hd. apply andb_prop in Hd.
    destruct Hd as (Hc & Hd). pose proof (isdigit_code c Hc) as Hv.
    cbn [append strtoul_digits Digits.value]. rewrite Hc.
    assert (E : Z.min ULONG_MAX (Z.min ULONG_MAX acc * 10 + (code c - 48))
                = Z.min ULONG_MAX (acc * 10 + (code c - 48))).
    { assert (0 < ULONG_MAX) by reflexivity. lia. }
    rewrite E. apply (IH Hd). lia.
Qed.

Lemma strpbrk_no_digit (id : string) :
  Digits.no_digit id = true -> strpbrk_digits id = None.
Proof.
  induction id as [| c id IH]; cbn [Digits.no_digit strpbrk_digits];
    [reflexivity |].
  intros H. apply andb_prop in H. destruct H as (Hc & Hl).
  apply negb_true_iff in Hc. now rewrite Hc, (IH Hl).
Qed.

(** The number of a test is read from its id: the first run of decimal
    digits in the id, as a number, or [ULONG_MAX] when that number is
    larger; what follows the run is not looked at.  An id without a
    digit stops the C runner in a failed assertion and raises "invalid
    test id" in the C++ runner. *)
Theorem get_testno_reads_the_first_number (FILE : string)
  (others : list string) :
  (forall letters digits rest,
      Digits.no_digit letters = true ->
      Digits.all_digits digits = true ->
      digits <> EmptyString ->
      Digits.stops rest = true ->
      let id := (letters ++ digits ++ rest)%string in
      get_testno id = Normal (Z.min ULONG_MAX (Digits.value digits 0))
      /\ Runtest_cxx.get_testno FILE (id :: others)
         = Runtest_cxx.Ok (Z.min ULONG_MAX (Digits.value digits 0)))
  /\ (forall id,
         Digits.no_digit id = true ->
         get_testno id = Abort EmptyString
         /\ Runtest_cxx.get_testno FILE (id :: others)
            = Runtest_cxx.err_token FILE (id :: others)
                ("invalid test id: " ++ id)%string "746").
Proof.
  split.
  - intros letters digits rest Hl Hd Hne Hr. cbv zeta.
    unfold get_testno, Runtest_cxx.get_testno.
    cbn [Runtest_cxx.at_ nth_error Runtest_cxx.and_then].
    rewrite (strpbrk_skips letters _ Hl).
    destruct digits as [| c digits]; [contradiction |].
    pose proof Hd as Hd'. cbn [Digits.all_digits] in Hd'.
    apply andb_prop in Hd'. destruct Hd' as (Hc & _).
    change ((String c digits ++ rest)%string)
      with (String c (digits ++ rest)).
    cbn [strpbrk_digits]. rewrite Hc.
    change (String c (digits ++ rest))
      with ((String c digits ++ rest)%string).
    destruct (strtoul_digits_value (String c digits) rest Hd Hr 0
                ltac:(lia)) as (E & _).
    change (Z.min ULONG_MAX 0) with 0 in E. rewrite E. auto.
  - intros id Hid.
    unfold get_testno, Runtest_cxx.get_testno.
    cbn [Runtest_cxx.at_ nth_error Runtest_cxx.and_then].
    rewrite (strpbrk_no_digit id Hid). auto.
Qed.

Lemma get_testno_reads_the_first_number_witness :
  get_testno "addx0123b7" = Normal 123.
Proof.
  exact (proj1 (proj1 (get_testno_reads_the_first_number "runtest.cc" [])
                  "addx" "0123" "b7" eq_refl eq_refl
                  ltac:(discriminate) eq_refl)).
Defined.

(** ** The allocation functions of [tests++/test.cc] *)

Lemma cxx_calls_from (ps : list bool) :
  forall st : Test_cxx.alloc_state,
    0 <= Test_cxx.alloc_idx st ->
    Test_cxx.alloc_idx st + Z.of_nat (List.length ps) < 2 ^ 64 ->
    List.length (fst (Scripts_cxx.calls ps st)) = List.length ps
    /\ Test_cxx.alloc_idx (snd (Scripts_cxx.calls ps st))
       = Test_cxx.alloc_idx st + Z.of_nat (List.length ps)
    /\ Test_cxx.alloc_fail (snd (Scripts_cxx.calls ps st))
       = Test_cxx.alloc_fail st
    /\ forall (i : nat) (p : bool),
         nth_error ps i = Some p ->
         nth_error (fst (Scripts_cxx.calls ps st)) i
         = Some (if Test_cxx.alloc_idx st + Z.of_nat i + 1
                    >=? Test_cxx.alloc_fail st
                 then false else p).
Proof.
  induction ps as [| p ps IH]; intros st H0 Hlen.
  - cbn. repeat split; try lia. intros [| i] p H; discriminate H.
  - cbn [Scripts_cxx.calls]. unfold Test_cxx.malloc_fail. cbv zeta.
    set (st1 := Test_cxx.mk_alloc (Test_cxx.custom st)
                  (Test_cxx.enable_check_alloc st) (Test_cxx.initialized st)
                  (Test_cxx.alloc_fail st)
                  ((Test_cxx.alloc_idx st + 1) mod 2 ^ 64)).
    assert (E1 : Test_cxx.alloc_idx st1 = Test_cxx.alloc_idx st + 1).
    { cbn [st1 Test_cxx.alloc_idx]. apply Z.mod_small.
      cbn [List.length] in Hlen. lia. }
    assert (E2 : Test_cxx.alloc_fail st1 = Test_cxx.alloc_fail st)
      by reflexivity.
    destruct (IH st1) as (I1 & I2 & I3 & I4).
    { lia. }
    { cbn [List.length] in Hlen. lia. }
    set (answer := if Test_cxx.alloc_idx st1 >=? Test_cxx.alloc_fail st1
                   then false else p).
    assert (E : (if Test_cxx.alloc_idx st1 >=? Test_cxx.alloc_fail st1
                 then (false, st1) else (p, st1)) = (answer, st1))
      by (unfold answer;
          destruct (Test_cxx.alloc_idx st1 >=? Test_cxx.alloc_fail st1);
          reflexivity).
    rewrite E.
    destruct (Scripts_cxx.calls ps st1) as [answers st2] eqn:Ec.
    cbn [fst snd] in *. cbn [List.length].
    repeat split; try lia; try congruence.
    intros [| i] q H; cbn [nth_error] in H |- *.
    + injection H as <-. unfold answer. rewrite E1, E2.
      now rewrite Z.add_0_r.
    + rewrite (I4 i q H), E1, E2.
      replace (Test_cxx.alloc_idx st + 1 + Z.of_nat i + 1)
        with (Test_cxx.alloc_idx st + Z.of_nat (S i) + 1) by lia.
      reflexivity.
Qed.

(** The C++ runner numbers the calls of its allocation functions from
    1 after every [set_alloc_fail] and [set_alloc].  With checking
    enabled, after [set_alloc_fail(ctx, n)] the calls before the [n]th
    get the answer of the primary function and the [n]th and all later
    ones are refused; after [set_alloc] no call is refused by the
    runner.  (For fewer than 2^64 - 1 calls, so that the counter does
    not wrap.) *)
Theorem cxx_fail_mode_refuses_from_threshold (ctx : mpd_context_t)
  (n : Z) (st : Test_cxx.alloc_state) (ps : list bool) :
  Z.of_nat (List.length ps) < 2 ^ 64 - 1 ->
  (Test_cxx.enable_check_alloc st = true ->
   forall (i : nat) (p : bool),
     nth_error ps i = Some p ->
     nth_error
       (fst (Scripts_cxx.calls ps (snd (Test_cxx.set_alloc_fail ctx n st))))
       i
     = Some (if Z.of_nat i + 1 >=? n then false else p))
  /\ fst (Scripts_cxx.calls ps (snd (Test_cxx.set_alloc ctx st))) = ps.
Proof.
  intros Hlen. split.
  - intros He i p H. unfold Test_cxx.set_alloc_fail. rewrite He.
    cbn [snd].
    match goal with
    | |- context [Scripts_cxx.calls ps ?s] => set (st1 := s)
    end.
    destruct (cxx_calls_from ps st1) as (_ & _ & _ & I4).
    { cbn. lia. }
    { cbn [st1 Test_cxx.alloc_idx]. lia. }
    rewrite (I4 i p H). reflexivity.
  - unfold Test_cxx.set_alloc. cbn [snd].
    match goal with
    | |- context [Scripts_cxx.calls ps ?s] => set (st1 := s)
    end.
    destruct (cxx_calls_from ps st1) as (I1 & _ & _ & I4).
    { cbn. lia. }
    { cbn [st1 Test_cxx.alloc_idx]. lia. }
    apply nth_error_ext. intros i.
    destruct (nth_error ps i) as [p |] eqn:Ep.
    + rewrite (I4 i p Ep). cbn [st1 Test_cxx.alloc_idx Test_cxx.alloc_fail].
      assert (Hi : (i < List.length ps)%nat)
        by (apply nth_error_Some; congruence).
      destruct (Z.geb_spec (0 + Z.of_nat i + 1) Test_cxx.UINT64_MAX)
        as [Hge | Hlt]; [| reflexivity].
      unfold Test_cxx.UINT64_MAX in Hge. lia.
    + apply nth_error_None. rewrite I1. now apply nth_error_None.
Qed.

Lemma cxx_fail_mode_refuses_from_threshold_witness :
  fst (Scripts_cxx.calls [true; true; true]
         (snd (Test_cxx.set_alloc Fixtures.context
                 (Test_cxx.mk_alloc false true true 2 7))))
  = [true; true; true].
Proof.
  exact (proj2 (cxx_fail_mode_refuses_from_threshold Fixtures.context 2
                  (Test_cxx.mk_alloc false true true 2 7)
                  [true; true; true] eq_refl)).
Defined.

(** ** Lines without a test *)

Lemma nexttoken_blank (pre : string) :
  Lines.all_space pre = true -> nexttoken pre = None.
Proof.
  induction pre as [| c pre IH]; cbn [Lines.all_space nexttoken];
    [reflexivity |].
  intros H. apply andb_prop in H. destruct H as (Hc & Hp).
  now rewrite Hc, (IH Hp).
Qed.

Lemma cxx_nexttoken_blank (pre : string) :
  Lines.all_space pre = true ->
  Runtest_cxx.nexttoken pre = Runtest_cxx.No_more_tokens.
Proof.
  induction pre as [| c pre IH];
    cbn [Lines.all_space Runtest_cxx.nexttoken]; [reflexivity |].
  intros H. apply andb_prop in H. destruct H as (Hc & Hp).
  now rewrite Hc, (IH Hp).
Qed.

(** A blank line, and a line whose first characters after leading
    white space are two hyphens, hold no test: both runners pass them
    over, whatever follows the hyphens and whatever state the context is
    in (it is not checked for such a line, and nothing on it is fatal).
    The hyphens are meant as written at that place of the line, not
    inside a quoted token. *)
Theorem lines_without_a_test (round_guard : Z) (filename FILE : string)
  (skip_bignum : bool) (ctx : mpd_context_t) (pre s : string) :
  Lines.all_space pre = true ->
  Doit_c.doit_line round_guard filename pre ctx
  = Normal (Doit_c.Cleanup "no tokens")
  /\ Runtest_cxx.do_stream_line FILE round_guard skip_bignum pre ctx
     = Runtest_cxx.Ok (Runtest_cxx.Continue "no tokens")
  /\ (Doit_c.doit_line round_guard filename (pre ++ "--" ++ s) ctx
      = Normal (Doit_c.Cleanup "comment")
      \/ Doit_c.doit_line round_guard filename (pre ++ "--" ++ s) ctx
         = Normal (Doit_c.Cleanup "no tokens"))
  /\ Runtest_cxx.do_stream_line FILE round_guard skip_bignum
       (pre ++ "--" ++ s) ctx
     = Runtest_cxx.Ok (Runtest_cxx.Continue "no tokens").
Proof.
  intros Hp. refine (conj _ (conj _ (conj _ _))).
  - unfold Doit_c.doit_line, split. now rewrite (nexttoken_blank pre Hp).
  - unfold Runtest_cxx.do_stream_line, Runtest_cxx.split.
    cbn [Runtest_cxx.split_loop]. now rewrite (cxx_nexttoken_blank pre Hp).
  - unfold Doit_c.doit_line, split.
    rewrite (nexttoken_skips pre _ Hp).
    change (("--" ++ s)%string) with (String "-" (String "-" s)).
    cbn [nexttoken unquoted_run].
    change (isspace "-") with false.
    change (ascii_eqb "-" dquote) with false.
    change (ascii_eqb "-" squote) with false. cbv iota.
    destruct (unquoted_run s) as [[t rest] |]; [left | right];
      [| reflexivity].
    change MAXTOKEN with (S 31). cbn [split_loop].
    assert (E : startswith (Some (String "-" (String "-" t))) "--" = true)
      by (destruct t; reflexivity).
    now rewrite E.
  - unfold Runtest_cxx.do_stream_line, Runtest_cxx.split.
    cbn [Runtest_cxx.split_loop].
    rewrite (cxx_nexttoken_skips pre _ Hp).
    reflexivity.
Qed.

Lemma lines_without_a_test_witness :
  Doit_c.doit_line 9 "f.decTest" "   " Fixtures.context
  = Normal (Doit_c.Cleanup "no tokens").
Proof.
  exact (proj1 (lines_without_a_test 9 "f.decTest" "runtest.cc" false
                  Fixtures.context "   " EmptyString eq_refl)).
Defined.

(** ** Scanning a test case *)

(** [scan_1op_result] needs five tokens: with fewer the run ends in
    "parse error at id ..." naming the test.  With five or more it sets
    the operand from the third token, returns the fifth token as the
    expected result and 5 as the index of the first condition, and
    changes no other decimal; the fourth token, where the test files
    have the arrow, is not looked at. *)
Theorem scan_1op_result_needs_five_tokens (W : Env) (op1 : reg)
  (id : string) (rest : list string) (c : mpd_context_t) (m : machine) :
  ((List.length rest < 4)%nat ->
   scan_1op_result W op1 (id :: rest) c m
   = Abort ("parse error at id " ++ id)%string)
  /\ (forall t1 t2 t3 t4 more,
         rest = t1 :: t2 :: t3 :: t4 :: more ->
         scan_1op_result W op1 (id :: rest) c m
         = Normal ((t4, 5%nat),
                   with_mem m
                     (store_at (mem m) op1
                        (mpd_set_string W (load (mem m) op1) t2 c)))).
Proof.
  split.
  - intros Hlen. unfold scan_1op_result, token_at.
    destruct rest as [| t1 [| t2 [| t3 [| t4 more]]]];
      cbn in Hlen |- *; try reflexivity. lia.
  - intros t1 t2 t3 t4 more ->. reflexivity.
Qed.

Lemma scan_1op_result_needs_five_tokens_witness :
  scan_1op_result Fixtures.env R_op ["absx001"; "abs"; "1"; "->"]
    Fixtures.context (Fixtures.start false)
  = Abort "parse error at id absx001".
Proof.
  exact (proj1 (scan_1op_result_needs_five_tokens Fixtures.env R_op
                  "absx001" ["abs"; "1"; "->"] Fixtures.context
                  (Fixtures.start false)) ltac:(cbn; lia)).
Defined.

(** ** The thresholds of an allocation-failure loop *)

Lemma serve_uncounted (libc : request -> bool) (st : alloc_state)
  (r : request) :
  mpd_funcs st <> count_set ->
  alloc_count (snd (serve libc st r)) = alloc_count st.
Proof.
  unfold serve, malloc_fail, calloc_fail, realloc_fail.
  destruct (mpd_funcs st) eqn:Ef, r; cbn; try congruence;
    match goal with
    | |- context [if ?b then _ else _] => destruct b
    end; reflexivity.
Qed.

Lemma run_engine_uncounted {A : Type} (libc : request -> bool)
  (e : engine A) (st : alloc_state) :
  mpd_funcs st <> count_set ->
  alloc_count (snd (run_engine libc e st)) = alloc_count st.
Proof.
  revert st. induction e as [a | r k IH]; intros st Hf; cbn;
    [reflexivity |].
  pose proof (serve_static libc st r) as (_ & Hs & _).
  pose proof (serve_uncounted libc st r Hf) as Hc.
  destruct (serve libc st r) as [p st1]. cbn in Hs, Hc.
  rewrite <- Hc. apply IH. congruence.
Qed.

(** One trial of the first loop of [_Res_Op_Ctx], entered with the
    primary functions installed. *)
Lemma res_op_trial_keeps (W : Env) (func : unary_func) (m m' : machine)
  (t : trial) :
  res_op_trial W func m = Normal (t, m') ->
  mpd_funcs (alloc_st m) = primary_set ->
  t_alloc_fail t = alloc_fail (alloc_st m)
  /\ t_after t = mem m'
  /\ t_status t = status (ctx m')
  /\ traps (ctx m') = MPD_Malloc_error
  /\ mpd_funcs (alloc_st m') = primary_set
  /\ alloc_fail (alloc_st m') = alloc_fail (alloc_st m)
  /\ alloc_count (alloc_st m') = alloc_count (alloc_st m).
Proof.
  intros H Hp. apply res_op_trial_inv in H.
  destruct H as (m1 & m2 & m3 & E1 & E2 & E3 & E4 & ->).
  destruct (res_op_prepared W m) as (m1' & E1' & _ & A1 & _).
  rewrite E1 in E1'. injection E1' as <-.
  apply call_returns in E3. destruct E3 as (reported & _ & A3 & _).
  apply set_alloc_inv in E4. destruct E4 as (_ & C4 & A4 & _).
  pose proof (run_engine_static (libc W)
                (func R_result R_tmp (mem m2) (ctx m2)) (alloc_st m2))
    as (_ & S2 & S3 & _).
  pose proof (run_engine_uncounted (libc W)
                (func R_result R_tmp (mem m2) (ctx m2)) (alloc_st m2))
    as S4.
  rewrite <- A3 in S2, S3, S4.
  assert (F2 : mpd_funcs (alloc_st m2) <> count_set
               /\ alloc_fail (alloc_st m2) = alloc_fail (alloc_st m)
               /\ alloc_count (alloc_st m2) = alloc_count (alloc_st m)).
  { unfold set_alloc_fail, mpd_set_alloc_fail in E2.
    destruct (enable_check_alloc (alloc_st m1)); injection E2 as <-;
      cbn; rewrite A1; repeat split; congruence. }
  destruct F2 as (F2 & F3 & F4).
  cbn. rewrite C4, A4. cbn.
  refine (conj eq_refl (conj eq_refl (conj eq_refl (conj eq_refl
            (conj eq_refl (conj _ _)))))).
  - congruence.
  - rewrite (S4 F2). exact F4.
Qed.

(** The first loop of [_Res_Op_Ctx], entered with an increment that is
    1 or, above the threshold 100, the fiftieth part of the count and
    one. *)
Lemma res_op_failures_thresholds (W : Env) (func : unary_func)
  (fuel : nat) :
  forall (incr : Z) (m m' : machine) (trials : list trial),
    mpd_funcs (alloc_st m) = primary_set ->
    0 <= alloc_count (alloc_st m) ->
    incr = 1 \/ (100 < alloc_fail (alloc_st m)
                 /\ incr = alloc_count (alloc_st m) / 50 + 1) ->
    res_op_failures W fuel func incr m = Normal (trials, m') ->
    (trials = [] -> m' = m)
    /\ (forall t rest, trials = t :: rest ->
                       t_alloc_fail t = alloc_fail (alloc_st m))
    /\ (forall front t t' back,
           trials = front ++ t :: t' :: back ->
           Z.land (t_status t) MPD_Malloc_error <> 0
           /\ t_alloc_fail t'
              = t_alloc_fail t
                + (if t_alloc_fail t >? 100
                   then alloc_count (alloc_st m) / 50 + 1 else 1))
    /\ (forall t, In t trials -> t_alloc_fail t < INT_MAX)
    /\ mpd_funcs (alloc_st m') = primary_set
    /\ alloc_count (alloc_st m') = alloc_count (alloc_st m)
    /\ (forall front t,
           trials = front ++ [t] ->
           mem m' = t_after t
           /\ status (ctx m') = t_status t
           /\ traps (ctx m') = MPD_Malloc_error).
Proof.
  induction fuel as [| fuel IH]; intros incr m m' trials Hp H0 Hi H;
    [discriminate |].
  cbn [res_op_failures] in H.
  apply bind_inv in H. destruct H as (a & n0 & E0 & H).
  cbn in E0. injection E0 as <- <-.
  destruct (alloc_fail (alloc_st m) <? INT_MAX) eqn:Hlt.
  2:{ cbn in H. injection H as <- <-.
      refine (conj (fun _ => eq_refl) (conj _ (conj _ (conj _
                (conj Hp (conj eq_refl _)))))).
      - intros t rest E. discriminate.
      - intros [| f front] t t' back E; discriminate.
      - intros t [].
      - intros [| f front] t E; discriminate. }
  apply Z.ltb_lt in Hlt.
  apply bind_inv in H. destruct H as (t0 & m1 & Ht & H).
  destruct (res_op_trial_keeps W func m m1 t0 Ht Hp)
    as (K1 & K2 & K3 & K4 & K5 & K6 & K7).
  destruct (Z.land (t_status t0) MPD_Malloc_error =? 0) eqn:Eok.
  - cbn in H. injection H as <- <-.
    refine (conj _ (conj _ (conj _ (conj _ (conj K5 (conj K7 _)))))).
    + discriminate.
    + intros t rest E. injection E as <- _. exact K1.
    + intros [| f [| g front]] t t' back E; discriminate.
    + intros t [<- | []]. lia.
    + intros [| f [| g front]] t E; try discriminate.
      injection E as <-. auto.
  - apply Z.eqb_neq in Eok.
    apply bind_inv in H. destruct H as (v & n1 & E1 & H).
    cbn in E1. injection E1 as <- <-.
    apply bind_inv in H. destruct H as ([] & n2 & E2 & H).
    apply ASSERT_inv in E2. destruct E2 as [_ ->].
    apply bind_inv in H. destruct H as (a' & n3 & E3 & H).
    cbn in E3. injection E3 as <- <-.
    apply bind_inv in H. destruct H as ([] & n4 & E4 & H).
    unfold assign_alloc_fail in E4. injection E4 as <-.
    apply bind_inv in H. destruct H as (rest & n5 & E5 & H).
    cbn in H. injection H as <- <-.
    set (step := if alloc_fail (alloc_st m1) >? 100
                 then next_incr (alloc_st m1) else incr) in E5.
    assert (Hstep : step = (if t_alloc_fail t0 >? 100
                            then alloc_count (alloc_st m) / 50 + 1
                            else 1)).
    { unfold step, next_incr. rewrite K1, K6, K7.
      destruct (Z.gtb_spec (alloc_fail (alloc_st m)) 100) as [G | G];
        [reflexivity |]. destruct Hi as [-> | (Hi & _)]; [reflexivity | lia]. }
    assert (Hpos : 1 <= step).
    { rewrite Hstep. destruct (t_alloc_fail t0 >? 100); [| lia].
      pose proof (Z.div_pos (alloc_count (alloc_st m)) 50 H0). lia. }
    apply IH in E5; cbn.
    + destruct E5 as (I0 & I1 & I2 & I3 & I4 & I5 & I6). cbn in *.
      rewrite K7 in I2, I5.
      refine (conj _ (conj _ (conj _ (conj _ (conj I4 (conj I5 _)))))).
      * discriminate.
      * intros t rest' E. injection E as <- _. exact K1.
      * intros [| f front] t t' back E; cbn in E; injection E as <- E.
        -- split; [exact Eok |].
           rewrite (I1 t' back E), K6, <- K1, Hstep. reflexivity.
        -- exact (I2 front t t' back E).
      * intros t [<- | Hin]; [lia | exact (I3 t Hin)].
      * intros front t E. destruct rest as [| r rest].
        -- destruct front as [| f [| g front]]; try discriminate.
           injection E as <-. rewrite (I0 eq_refl). cbn. auto.
        -- destruct front as [| f front]; [discriminate |].
           cbn in E. injection E as _ E. exact (I6 front t E).
    + exact K5.
    + rewrite K7. exact H0.
    + rewrite K6, K7. rewrite K1 in Hstep.
      destruct (Z.gtb_spec (alloc_fail (alloc_st m)) 100) as [G | G].
      * right. lia.
      * left. exact Hstep.
Qed.

(** The first allocation-failure loop of [_Res_Op_Ctx] is entered with
    the threshold 1, the increment 1 and the primary functions installed,
    the count left by the counted call being no negative number.  When
    the loop ends, the trials it made were at the thresholds 1, 2, 3 and
    so on: each next threshold is one more up to 101, and above 100 it is
    more by the fiftieth part of the count, rounded down, and one; every
    threshold is below [INT_MAX]; every trial but the last ended with
    [MPD_Malloc_error].  The loop leaves the primary functions installed,
    [MPD_Malloc_error] trapped, the count as it was, and the decimals and
    the status as the last trial left them. *)
Theorem failure_loop_thresholds (W : Env) (func : unary_func)
  (fuel : nat) (m m' : machine) (trials : list trial) :
  mpd_funcs (alloc_st m) = primary_set ->
  0 <= alloc_count (alloc_st m) ->
  alloc_fail (alloc_st m) = 1 ->
  res_op_failures W fuel func 1 m = Normal (trials, m') ->
  (exists t rest, trials = t :: rest /\ t_alloc_fail t = 1)
  /\ (forall front t t' back,
         trials = front ++ t :: t' :: back ->
         Z.land (t_status t) MPD_Malloc_error <> 0
         /\ t_alloc_fail t'
            = t_alloc_fail t
              + (if t_alloc_fail t >? 100
                 then alloc_count (alloc_st m) / 50 + 1 else 1))
  /\ (forall t, In t trials -> t_alloc_fail t < INT_MAX)
  /\ mpd_funcs (alloc_st m') = primary_set
  /\ alloc_count (alloc_st m') = alloc_count (alloc_st m)
  /\ (forall front t,
         trials = front ++ [t] ->
         mem m' = t_after t
         /\ status (ctx m') = t_status t
         /\ traps (ctx m') = MPD_Malloc_error).
Proof.
  intros Hp H0 H1 H.
  destruct (res_op_failures_thresholds W func fuel 1 m m' trials Hp H0
              (or_introl eq_refl) H)
    as (I0 & I1 & I2 & I3 & I4 & I5 & I6).
  refine (conj _ (conj I2 (conj I3 (conj I4 (conj I5 I6))))).
  destruct trials as [| t rest].
  - exfalso. destruct fuel as [| fuel]; [discriminate |].
    cbn [res_op_failures] in H.
    apply bind_inv in H. destruct H as (a & n0 & E0 & H).
    cbn in E0. injection E0 as <- <-.
    rewrite H1 in H. change (1 <? INT_MAX) with true in H. cbv iota in H.
    apply bind_inv in H. destruct H as (t0 & m1 & Ht & H).
    destruct (Z.land (t_status t0) MPD_Malloc_error =? 0);
      [cbn in H; discriminate |].
    apply bind_inv in H. destruct H as (v & n1 & E1 & H).
    apply bind_inv in H. destruct H as ([] & n2 & E2 & H).
    apply bind_inv in H. destruct H as (a' & n3 & E3 & H).
    apply bind_inv in H. destruct H as ([] & n4 & E4 & H).
    apply bind_inv in H. destruct H as (rest & n5 & E5 & H).
    cbn in H. discriminate.
  - exists t, rest. split; [reflexivity |].
    rewrite (I1 t rest eq_refl). exact H1.
Qed.

Lemma failure_loop_thresholds_witness :
  exists trials m',
    res_op_failures Fixtures.env 8 Fixtures.copy5 1
      (with_alloc_st (Fixtures.start true)
                     (with_alloc_fail (Fixtures.allocator true) 1))
    = Normal (trials, m')
    /\ (forall t, In t trials -> t_alloc_fail t < INT_MAX)
    /\ mpd_funcs (alloc_st m') = primary_set.
Proof.
  set (m := with_alloc_st (Fixtures.start true)
                          (with_alloc_fail (Fixtures.allocator true) 1)).
  assert (E : exists trials m',
             res_op_failures Fixtures.env 8 Fixtures.copy5 1 m
             = Normal (trials, m')).
  { vm_compute. do 2 eexists. reflexivity. }
  destruct E as (trials & m' & E).
  exists trials, m'. split; [exact E |].
  pose proof (failure_loop_thresholds Fixtures.env Fixtures.copy5 8 m m'
                trials eq_refl ltac:(vm_compute; discriminate) eq_refl E)
    as (_ & _ & I3 & I4 & _).
  exact (conj I3 I4).
Defined.


(** * The loops of both runners, once more *)

Import Silence Malformed.

(** ** Without allocation-failure checking: the first trial *)

Lemma run_engine_primary {A : Type} (libc : request -> bool)
  (e : engine A) (st : alloc_state) :
  mpd_funcs st = primary_set -> snd (run_engine libc e st) = st.
Proof.
  intros Hp. induction e as [a | r k IH]; cbn; [reflexivity |].
  rewrite (serve_primary libc st r Hp). apply IH.
Qed.

(** From [mpd_set_alloc_fail] to the test of the status after the call,
    in a settled state with the status cleared. *)
Lemma trial_tail_once (W : Env)
  (e : store -> mpd_context_t -> engine (store * Z)) (k : Z)
  (m : machine) (f : trial -> M (list trial)) :
  Quiet.settled m ->
  status (ctx m) = 0 ->
  (t <- (set_alloc_fail ;;
         before <- get_mem ;;
         installed <- get_alloc ;;
         call W e ;;
         set_alloc ;;
         after <- get_mem ;;
         c <- get_ctx ;;
         ret (mk_trial k (mpd_funcs installed) before after (status c))) ;;
   if Z.land (t_status t) MPD_Malloc_error =? 0 then ret [t]
   else f t) m
  = Quiet.once W e k m.
Proof.
  intros (Hu & Hp & Ht) Hs.
  destruct m as [s0 c0 a0 r0 n0 x0].
  destruct c0 as [cp cx cn ct cs cw cr cc ca].
  destruct a0 as [tf mf en ini cnt fail idx].
  unfold Quiet.unchecked in Hu. cbn in Hu, Hp, Ht, Hs. subst en mf ct cs.
  unfold Quiet.once, bindM, set_alloc_fail, mpd_set_alloc_fail, get_mem,
    get_alloc, call, set_alloc, mpd_set_alloc, get_ctx, ret,
    mpd_addstatus_raise, traphandler.
  cbn [ctx alloc_st mem enable_check_alloc with_alloc_st with_ctx with_mem
       rep nrand extended].
  pose proof (run_engine_primary (libc W)
                (e s0 (mk_ctx cp cx cn MPD_Malloc_error 0 cw cr cc ca))
                (mk_alloc tf primary_set false ini cnt fail idx) eq_refl)
    as P.
  destruct (run_engine (libc W)
              (e s0 (mk_ctx cp cx cn MPD_Malloc_error 0 cw cr cc ca))
              (mk_alloc tf primary_set false ini cnt fail idx))
    as [[s reported] a].
  cbn [snd fst] in P |- *. subst a.
  cbn [ctx alloc_st mem with_alloc_st with_ctx with_mem set_status traps
       status set_traps with_mpd_funcs mpd_funcs test_funcs
       enable_check_alloc initialized alloc_count alloc_fail alloc_idx
       rep nrand extended prec emax emin newtrap round clamp allcr
       t_status].
  rewrite Z.lor_0_l.
  destruct (Z.land reported MPD_Malloc_error =? 0) eqn:E.
  - cbn [ctx alloc_st mem with_alloc_st with_ctx with_mem set_status traps
         status set_traps with_mpd_funcs mpd_funcs test_funcs
         enable_check_alloc initialized alloc_count alloc_fail alloc_idx
         rep nrand extended prec emax emin newtrap round clamp allcr
         t_status].
    rewrite E. reflexivity.
  - reflexivity.
Qed.

Lemma bind_assoc {A B C : Type} (c : M A) (k1 : A -> M B) (k2 : B -> M C)
  (m : machine) :
  bindM (bindM c k1) k2 m = bindM c (fun a => bindM (k1 a) k2) m.
Proof. unfold bindM. destruct (c m) as [[a m1]| | |]; reflexivity. Qed.

Lemma settled_same (m m' : machine) :
  Quiet.settled m -> ctx m' = ctx m -> alloc_st m' = alloc_st m ->
  Quiet.settled m'.
Proof.
  unfold Quiet.settled, Quiet.unchecked. intros (H1 & H2 & H3) C A.
  rewrite C, A. auto.
Qed.

(** In a settled state the first loop of [_Res_Op_Ctx] is one call. *)
Lemma res_op_failures_once (W : Env) (func : unary_func) (fuel : nat)
  (incr : Z) (m : machine) :
  Quiet.settled m ->
  alloc_fail (alloc_st m) < INT_MAX ->
  exists m0,
    (mpd_init_rand W R_tmp ;; copy W R_tmp R_op ;; minalloc W R_result ;;
     assign_status 0) m = Normal (tt, m0)
    /\ res_op_failures W (S fuel) func incr m
       = Quiet.once W (func R_result R_tmp) (alloc_fail (alloc_st m)) m0.
Proof.
  intros Hs Hlt.
  destruct (mpd_init_rand_runs W R_tmp m) as (m1 & E1 & (C1 & A1 & _)).
  destruct (copy_runs W R_tmp R_op m1) as (m2 & E2 & (C2 & A2 & _)).
  destruct (minalloc_runs W R_result m2) as (m3 & E3 & (C3 & A3 & _)).
  exists (with_ctx m3 (set_status (ctx m3) 0)). split.
  - rewrite (bind_normal _ _ _ _ _ E1), (bind_normal _ _ _ _ _ E2),
      (bind_normal _ _ _ _ _ E3). reflexivity.
  - cbn [res_op_failures].
    rewrite (bind_normal get_alloc _ m m (alloc_st m) eq_refl).
    apply Z.ltb_lt in Hlt. rewrite Hlt.
    unfold res_op_trial.
    rewrite bind_assoc.
    rewrite (bind_normal get_alloc _ m m (alloc_st m) eq_refl).
    rewrite bind_assoc, (bind_normal _ _ _ _ _ E1).
    rewrite bind_assoc, (bind_normal _ _ _ _ _ E2).
    rewrite bind_assoc, (bind_normal _ _ _ _ _ E3).
    rewrite bind_assoc.
    rewrite (bind_normal (assign_status 0) _ m3
               (with_ctx m3 (set_status (ctx m3) 0)) tt eq_refl).
    apply trial_tail_once; [| reflexivity].
    apply (settled_same
             (with_ctx m (set_status (ctx m) 0))).
    + destruct Hs as (H1 & H2 & H3). repeat split; assumption.
    + cbn. congruence.
    + cbn. congruence.
Qed.

Lemma res_op_failures_eq_once (W : Env) (func : unary_func) (fuel : nat)
  (incr : Z) (m : machine) :
  Quiet.settled m ->
  alloc_fail (alloc_st m) < INT_MAX ->
  exists m0,
    (mpd_init_rand W R_tmp ;; copy W R_tmp R_op ;; assign_status 0) m
    = Normal (tt, m0)
    /\ res_op_failures_eq W (S fuel) func incr m
       = Quiet.once W (func R_tmp R_tmp) (alloc_fail (alloc_st m)) m0.
Proof.
  intros Hs Hlt.
  destruct (mpd_init_rand_runs W R_tmp m) as (m1 & E1 & (C1 & A1 & _)).
  destruct (copy_runs W R_tmp R_op m1) as (m2 & E2 & (C2 & A2 & _)).
  exists (with_ctx m2 (set_status (ctx m2) 0)). split.
  - rewrite (bind_normal _ _ _ _ _ E1), (bind_normal _ _ _ _ _ E2).
    reflexivity.
  - cbn [res_op_failures_eq].
    rewrite (bind_normal get_alloc _ m m (alloc_st m) eq_refl).
    apply Z.ltb_lt in Hlt. rewrite Hlt.
    unfold res_op_trial_eq.
    rewrite bind_assoc.
    rewrite (bind_normal get_alloc _ m m (alloc_st m) eq_refl).
    rewrite bind_assoc, (bind_normal _ _ _ _ _ E1).
    rewrite bind_assoc, (bind_normal _ _ _ _ _ E2).
    rewrite bind_assoc.
    rewrite (bind_normal (assign_status 0) _ m2
               (with_ctx m2 (set_status (ctx m2) 0)) tt eq_refl).
    apply trial_tail_once; [| reflexivity].
    apply (settled_same (with_ctx m (set_status (ctx m) 0))).
    + destruct Hs as (H1 & H2 & H3). repeat split; assumption.
    + cbn. congruence.
    + cbn. congruence.
Qed.

Lemma prepare_runs (W : Env) (b : bool) (x : reg) (m : machine) :
  exists m',
    (if b then minalloc W x else ret tt) m = Normal (tt, m')
    /\ same_but_mem m m'.
Proof.
  destruct b; [apply minalloc_runs |].
  exists m. split; [reflexivity | apply same_but_mem_refl].
Qed.

Lemma binres_setup_runs (W : Env) (q r : reg) (m : machine) :
  exists m0,
    binres_setup W (minalloc W) q r m = Normal (tt, m0)
    /\ ctx m0 = set_status (ctx m) 0
    /\ alloc_st m0 = alloc_st m.
Proof.
  destruct (mpd_init_rand_runs W R_tmp1 m) as (m1 & E1 & (C1 & A1 & _)).
  destruct (mpd_init_rand_runs W R_tmp2 m1) as (m2 & E2 & (C2 & A2 & _)).
  destruct (copy_runs W R_tmp1 R_op1 m2) as (m3 & E3 & (C3 & A3 & _)).
  destruct (copy_runs W R_tmp2 R_op2 m3) as (m4 & E4 & (C4 & A4 & _)).
  destruct (prepare_runs W (uses q r R_result1) R_result1 m4)
    as (m5 & E5 & (C5 & A5 & _)).
  destruct (prepare_runs W (uses q r R_result2) R_result2 m5)
    as (m6 & E6 & (C6 & A6 & _)).
  exists (with_ctx m6 (set_status (ctx m6) 0)).
  unfold binres_setup.
  rewrite (bind_normal _ _ _ _ _ E1), (bind_normal _ _ _ _ _ E2),
    (bind_normal _ _ _ _ _ E3), (bind_normal _ _ _ _ _ E4),
    (bind_normal _ _ _ _ _ E5), (bind_normal _ _ _ _ _ E6).
  cbn. repeat split; congruence.
Qed.

Lemma binres_failures_once (W : Env) (func : binres_func) (q r : reg)
  (inclusive : bool) (fuel : nat) (incr : Z) (m : machine) :
  Quiet.settled m ->
  alloc_fail (alloc_st m) < INT_MAX ->
  exists m0,
    binres_setup W (minalloc W) q r m = Normal (tt, m0)
    /\ binres_failures W (S fuel) func q r inclusive incr m
       = Quiet.once W (func q r R_tmp1 R_tmp2) (alloc_fail (alloc_st m)) m0.
Proof.
  intros Hs Hlt.
  destruct (binres_setup_runs W q r m) as (m0 & E0 & C0 & A0).
  exists m0. split; [exact E0 |].
  cbn [binres_failures].
  rewrite (bind_normal get_alloc _ m m (alloc_st m) eq_refl).
  assert (Hc : (if inclusive then alloc_fail (alloc_st m) <=? INT_MAX
                else alloc_fail (alloc_st m) <? INT_MAX) = true).
  { destruct inclusive; [apply Z.leb_le | apply Z.ltb_lt]; lia. }
  rewrite Hc.
  unfold binres_trial.
  rewrite bind_assoc.
  rewrite (bind_normal get_alloc _ m m (alloc_st m) eq_refl).
  rewrite bind_assoc, (bind_normal _ _ _ _ _ E0).
  apply trial_tail_once.
  - apply (settled_same (with_ctx m (set_status (ctx m) 0))).
    + destruct Hs as (H1 & H2 & H3). repeat split; assumption.
    + cbn. congruence.
    + cbn. congruence.
  - rewrite C0. reflexivity.
Qed.

(** In a settled state the loop of [_TripleTest] makes one conversion
    under the primary functions and then, unlike the loops above, goes
    on to the next threshold when the conversion reports
    [MPD_Malloc_error]: the conversion reports into a local status,
    which no trap watches. *)
Lemma triple_failures_first (W : Env) (triple : mpd_uint128_triple_t)
  (last : Z * Z) (fuel : nat) (m : machine) :
  Quiet.settled m ->
  alloc_fail (alloc_st m) < INT_MAX ->
  exists m0 ret_ r status_,
    mpd_init_rand W R_result m = Normal (tt, m0)
    /\ fst (run_engine (libc W)
              (mpd_from_uint128_triple W (load (mem m0) R_result) triple)
              (alloc_st m0)) = (ret_, r, status_)
    /\ triple_failures W (S fuel) triple last m
       = let m1 := with_mem m0 (store_at (mem m0) R_result r) in
         if Z.land status_ MPD_Malloc_error =? 0
         then Normal ((ret_, status_), m1)
         else if negb (ret_ =? -1) || negb (mpd_isnan r)
         then Abort EmptyString
         else triple_failures W fuel triple (ret_, status_)
                (with_alloc_st m1
                   (with_alloc_fail (alloc_st m1)
                      (alloc_fail (alloc_st m) + 1))).
Proof.
  intros Hs Hlt.
  destruct (mpd_init_rand_runs W R_result m) as (m0 & E0 & (C0 & A0 & _)).
  destruct (run_engine (libc W)
              (mpd_from_uint128_triple W (load (mem m0) R_result) triple)
              (alloc_st m0)) as [[[ret_ r] status_] a] eqn:E.
  exists m0, ret_, r, status_. split; [exact E0 |].
  split; [rewrite E; reflexivity |].
  cbn [triple_failures].
  rewrite (bind_normal get_alloc _ m m (alloc_st m) eq_refl).
  apply Z.ltb_lt in Hlt. rewrite Hlt.
  rewrite (bind_normal _ _ _ _ _ E0).
  assert (Hs0 : Quiet.settled m0) by (apply (settled_same m); assumption).
  pose proof (run_engine_primary (libc W)
                (mpd_from_uint128_triple W (load (mem m0) R_result) triple)
                (alloc_st m0) (proj1 (proj2 Hs0))) as P.
  rewrite E in P. cbn [snd] in P. subst a.
  destruct Hs0 as (Hu & Hp & Ht). unfold Quiet.unchecked in Hu.
  revert E A0. clear E0 C0 Hlt Hs.
  destruct m0 as [s0 c0 a0 r0 n0 x0].
  destruct c0 as [cp cx cn ct cs cw cr cc ca].
  destruct a0 as [tf mf en ini cnt fail idx].
  cbn in Hu, Hp, Ht. subst en mf ct.
  intros E A0. rewrite <- A0. cbn [mem alloc_st] in E.
  unfold bindM, set_alloc_fail, mpd_set_alloc_fail, from_triple,
    set_alloc, mpd_set_alloc, ret, ASSERT, read, assign_alloc_fail.
  cbn [ctx alloc_st mem enable_check_alloc with_alloc_st with_ctx with_mem
       rep nrand extended].
  rewrite E.
  cbn [ctx alloc_st mem enable_check_alloc with_alloc_st with_ctx with_mem
       rep nrand extended fst snd set_traps with_mpd_funcs mpd_funcs
       test_funcs initialized alloc_count alloc_fail alloc_idx
       prec emax emin traps status newtrap round clamp allcr
       with_alloc_fail].
  destruct (Z.land status_ MPD_Malloc_error =? 0); [reflexivity |].
  destruct (ret_ =? -1); cbn [negb orb]; [| reflexivity].
  cbn [ctx alloc_st mem with_alloc_st with_ctx with_mem].
  rewrite load_store_same.
  destruct (mpd_isnan r); reflexivity.
Qed.

(** ** The loop of [Dec_DecDecCtx_RunSingle] *)

Lemma cxx_bind_ok {A B : Type} (c : Drivers_cxx.M A)
  (k : A -> Drivers_cxx.M B) (m m1 : Drivers_cxx.machine) (a : A) :
  c m = Drivers_cxx.Finished (Runtest_cxx.Ok (a, m1)) ->
  Drivers_cxx.bindM c k m = k a m1.
Proof. unfold Drivers_cxx.bindM. now intros ->. Qed.

Lemma cxx_bind_inv {A B : Type} (c : Drivers_cxx.M A)
  (k : A -> Drivers_cxx.M B) (m : Drivers_cxx.machine)
  (r : B * Drivers_cxx.machine) :
  Drivers_cxx.bindM c k m = Drivers_cxx.Finished (Runtest_cxx.Ok r) ->
  exists a m1,
    c m = Drivers_cxx.Finished (Runtest_cxx.Ok (a, m1))
    /\ k a m1 = Drivers_cxx.Finished (Runtest_cxx.Ok r).
Proof.
  unfold Drivers_cxx.bindM.
  destruct (c m) as [[[a m1] | w | e | code] |]; try discriminate.
  intros H. exists a, m1. auto.
Qed.

(** The three comparisons of the [catch] block pass exactly when the
    three pairs are equal; otherwise the first unequal pair throws
    "const arg changed". *)
Lemma run_single_checks_spec (FILE : string)
  (result tmp1 tmp2 : Drivers_cxx.reg) (token : list string)
  (op1 op2 : Drivers_cxx.reg) (save : mpd_t) (m : Drivers_cxx.machine) :
  let s := Drivers_cxx.mem m in
  Drivers_cxx.run_single_checks FILE result tmp1 tmp2 token op1 op2 save m
  = if Runtest_cxx.equalmem (Drivers_cxx.load s result) save
       && Runtest_cxx.equalmem (Drivers_cxx.load s tmp1)
            (Drivers_cxx.load s op1)
       && Runtest_cxx.equalmem (Drivers_cxx.load s tmp2)
            (Drivers_cxx.load s op2)
    then Drivers_cxx.Finished (Runtest_cxx.Ok (tt, m))
    else Drivers_cxx.Finished
           (Runtest_cxx.err_token FILE token "const arg changed" "737").
Proof.
  cbv zeta.
  unfold Drivers_cxx.run_single_checks, Drivers_cxx.bindM,
    Drivers_cxx.read, Drivers_cxx.do_check_equalmem, Drivers_cxx.lift,
    Runtest_cxx.check_equalmem, Runtest_cxx.err_token,
    Runtest_cxx.and_then, Runtest_cxx.at_.
  destruct (nth_error token 0);
    (destruct (Runtest_cxx.equalmem
                 (Drivers_cxx.load (Drivers_cxx.mem m) result) save);
     cbn [negb andb]; [| reflexivity]);
    (destruct (Runtest_cxx.equalmem
                 (Drivers_cxx.load (Drivers_cxx.mem m) tmp1)
                 (Drivers_cxx.load (Drivers_cxx.mem m) op1));
     cbn [negb andb]; [| reflexivity]);
    (destruct (Runtest_cxx.equalmem
                 (Drivers_cxx.load (Drivers_cxx.mem m) tmp2)
                 (Drivers_cxx.load (Drivers_cxx.mem m) op2));
     reflexivity).
Qed.

(** One turn of the loop, from the end of the [try] block on. *)
Lemma run_single_loop_step (X : Drivers_cxx.Env) (FILE : string)
  (fuel : nat) (result tmp1 tmp2 : Drivers_cxx.reg) (token : list string)
  (func : Drivers_cxx.method) (op1 op2 : Drivers_cxx.reg) (n incr : Z)
  (m m1 : Drivers_cxx.machine) (save : mpd_t) (before : Drivers_cxx.store)
  (caught : bool) :
  n < Test_cxx.UINT64_MAX - 100 ->
  Drivers_cxx.run_single_call X result tmp1 tmp2 func op1 op2 n m
  = Drivers_cxx.Finished (Runtest_cxx.Ok ((save, before, caught), m1)) ->
  let t := Drivers_cxx.mk_trial n save before (Drivers_cxx.mem m1) caught in
  let m2 :=
    Drivers_cxx.with_alloc_st
      (Drivers_cxx.with_context m1
         (fst (Test_cxx.set_alloc (Drivers_cxx.context m1)
                 (Drivers_cxx.alloc_st m1))))
      (snd (Test_cxx.set_alloc (Drivers_cxx.context m1)
              (Drivers_cxx.alloc_st m1))) in
  Drivers_cxx.run_single_loop X FILE (S fuel) result tmp1 tmp2 token func
    op1 op2 n incr m
  = if caught then
      if Runtest_cxx.equalmem
           (Drivers_cxx.load (Drivers_cxx.mem m1) result) save
         && Runtest_cxx.equalmem
              (Drivers_cxx.load (Drivers_cxx.mem m1) tmp1)
              (Drivers_cxx.load (Drivers_cxx.mem m1) op1)
         && Runtest_cxx.equalmem
              (Drivers_cxx.load (Drivers_cxx.mem m1) tmp2)
              (Drivers_cxx.load (Drivers_cxx.mem m1) op2)
      then
        let incr' :=
          if n >? 50
          then Drivers_cxx.rnd X (Drivers_cxx.nrnd m1) mod 100 + 1
          else incr in
        let m3 :=
          if n >? 50
          then Drivers_cxx.with_nrnd m2 (S (Drivers_cxx.nrnd m1))
          else m2 in
        Drivers_cxx.bindM
          (Drivers_cxx.run_single_loop X FILE fuel result tmp1 tmp2 token
             func op1 op2 ((n + incr') mod 2 ^ 64) incr')
          (fun rest => Drivers_cxx.ret (t :: rest)) m3
      else
        Drivers_cxx.Finished
          (Runtest_cxx.err_token FILE token "const arg changed" "737")
    else Drivers_cxx.Finished (Runtest_cxx.Ok ([t], m2)).
Proof.
  intros Hn E. cbv zeta. cbn [Drivers_cxx.run_single_loop].
  apply Z.ltb_lt in Hn. rewrite Hn.
  rewrite (cxx_bind_ok _ _ _ _ _ E). cbv beta iota.
  rewrite (cxx_bind_ok Drivers_cxx.get_mem _ m1 m1 (Drivers_cxx.mem m1)
             eq_refl).
  destruct caught.
  - unfold Drivers_cxx.bindM at 1. unfold Drivers_cxx.set_alloc.
    destruct (Test_cxx.set_alloc (Drivers_cxx.context m1)
                (Drivers_cxx.alloc_st m1)) as [c a].
    cbn [fst snd].
    unfold Drivers_cxx.bindM at 1.
    rewrite run_single_checks_spec.
    cbn [Drivers_cxx.mem Drivers_cxx.with_alloc_st
         Drivers_cxx.with_context].
    destruct (Runtest_cxx.equalmem
                (Drivers_cxx.load (Drivers_cxx.mem m1) result) save
              && Runtest_cxx.equalmem
                   (Drivers_cxx.load (Drivers_cxx.mem m1) tmp1)
                   (Drivers_cxx.load (Drivers_cxx.mem m1) op1)
              && Runtest_cxx.equalmem
                   (Drivers_cxx.load (Drivers_cxx.mem m1) tmp2)
                   (Drivers_cxx.load (Drivers_cxx.mem m1) op2)).
    + destruct (n >? 50); reflexivity.
    + unfold Runtest_cxx.err_token, Runtest_cxx.and_then, Runtest_cxx.at_.
      destruct (nth_error token 0); reflexivity.
  - unfold Drivers_cxx.bindM, Drivers_cxx.set_alloc, Drivers_cxx.ret.
    destruct (Test_cxx.set_alloc (Drivers_cxx.context m1)
                (Drivers_cxx.alloc_st m1)) as [c a].
    reflexivity.
Qed.

(** [save_result] is the copy of [result] as it is when the operation is
    called. *)
Lemma run_single_call_inv (X : Drivers_cxx.Env)
  (result tmp1 tmp2 : Drivers_cxx.reg) (func : Drivers_cxx.method)
  (op1 op2 : Drivers_cxx.reg) (n : Z) (m m1 : Drivers_cxx.machine)
  (save : mpd_t) (before : Drivers_cxx.store) (caught : bool) :
  Drivers_cxx.run_single_call X result tmp1 tmp2 func op1 op2 n m
  = Drivers_cxx.Finished (Runtest_cxx.Ok ((save, before, caught), m1)) ->
  save = Drivers_cxx.Decimal_copy X (Drivers_cxx.load before result).
Proof.
  unfold Drivers_cxx.run_single_call. intros H.
  apply cxx_bind_inv in H. destruct H as ([] & n1 & _ & H).
  apply cxx_bind_inv in H. destruct H as ([] & n2 & _ & H).
  apply cxx_bind_inv in H. destruct H as ([] & n3 & _ & H).
  apply cxx_bind_inv in H. destruct H as ([] & n4 & _ & H).
  apply cxx_bind_inv in H. destruct H as (r & n5 & E5 & H).
  cbn in E5. injection E5 as <- <-.
  apply cxx_bind_inv in H. destruct H as ([] & n6 & E6 & H).
  cbn in E6. injection E6 as <-.
  apply cxx_bind_inv in H. destruct H as ([] & n7 & E7 & H).
  unfold Drivers_cxx.set_alloc_fail in E7.
  destruct (Test_cxx.set_alloc_fail _ _ _) as [c a] in E7.
  injection E7 as <-.
  apply cxx_bind_inv in H. destruct H as (b & n8 & E8 & H).
  cbn in E8. injection E8 as <- <-.
  apply cxx_bind_inv in H. destruct H as (cg & n9 & _ & H).
  cbn in H. injection H as <- <- _ _. reflexivity.
Qed.

(** What the loop has checked when it returns. *)
Lemma run_single_loop_checked (X : Drivers_cxx.Env) (FILE : string)
  (result tmp1 tmp2 : Drivers_cxx.reg) (token : list string)
  (func : Drivers_cxx.method) (op1 op2 : Drivers_cxx.reg) :
  forall (fuel : nat) (n incr : Z) (m m' : Drivers_cxx.machine)
         (trials : list Drivers_cxx.trial),
    Drivers_cxx.run_single_loop X FILE fuel result tmp1 tmp2 token func
      op1 op2 n incr m
    = Drivers_cxx.Finished (Runtest_cxx.Ok (trials, m')) ->
    forall t, In t trials ->
      Drivers_cxx.t_save t
      = Drivers_cxx.Decimal_copy X
          (Drivers_cxx.load (Drivers_cxx.t_before t) result)
      /\ (Drivers_cxx.t_caught t = true ->
          Runtest_cxx.equalmem
            (Drivers_cxx.load (Drivers_cxx.t_after t) result)
            (Drivers_cxx.t_save t) = true
          /\ Runtest_cxx.equalmem
               (Drivers_cxx.load (Drivers_cxx.t_after t) tmp1)
               (Drivers_cxx.load (Drivers_cxx.t_after t) op1) = true
          /\ Runtest_cxx.equalmem
               (Drivers_cxx.load (Drivers_cxx.t_after t) tmp2)
               (Drivers_cxx.load (Drivers_cxx.t_after t) op2) = true).
Proof.
  induction fuel as [| fuel IH]; intros n incr m m' trials H t Hin;
    [discriminate H |].
  destruct (n <? Test_cxx.UINT64_MAX - 100) eqn:Hn.
  2:{ cbn [Drivers_cxx.run_single_loop] in H. rewrite Hn in H.
      cbn in H. injection H as <- <-. destruct Hin. }
  apply Z.ltb_lt in Hn.
  pose proof H as H0. cbn [Drivers_cxx.run_single_loop] in H0.
  apply Z.ltb_lt in Hn. rewrite Hn in H0. apply Z.ltb_lt in Hn.
  apply cxx_bind_inv in H0.
  destruct H0 as ([[save before] caught] & m1 & E & _).
  pose proof (run_single_call_inv X _ _ _ _ _ _ _ _ _ _ _ _ E) as Hsave.
  rewrite (run_single_loop_step X FILE fuel result tmp1 tmp2 token func
             op1 op2 n incr m m1 save before caught Hn E) in H.
  cbv zeta in H. destruct caught.
  - destruct (Runtest_cxx.equalmem
                (Drivers_cxx.load (Drivers_cxx.mem m1) result) save
              && Runtest_cxx.equalmem
                   (Drivers_cxx.load (Drivers_cxx.mem m1) tmp1)
                   (Drivers_cxx.load (Drivers_cxx.mem m1) op1)
              && Runtest_cxx.equalmem
                   (Drivers_cxx.load (Drivers_cxx.mem m1) tmp2)
                   (Drivers_cxx.load (Drivers_cxx.mem m1) op2)) eqn:Hc.
    + apply cxx_bind_inv in H. destruct H as (rest & m4 & Er & H).
      cbn in H. injection H as <- <-.
      destruct Hin as [<- | Hin].
      * cbn. split; [exact Hsave |]. intros _.
        apply andb_prop in Hc. destruct Hc as (Hc & H3).
        apply andb_prop in Hc. destruct Hc as (H1 & H2). auto.
      * exact (IH _ _ _ _ _ Er t Hin).
    + exfalso. revert H.
      unfold Runtest_cxx.err_token, Runtest_cxx.and_then, Runtest_cxx.at_.
      destruct (nth_error token 0); discriminate.
  - injection H as <- <-. destruct Hin as [<- | []].
    cbn. split; [exact Hsave | discriminate].
Qed.

(** The comparisons after the loop do not change the trials. *)
Lemma run_single_checked (X : Drivers_cxx.Env) (FILE : string)
  (fuel : nat) (result tmp1 tmp2 : Drivers_cxx.reg) (token : list string)
  (func : Drivers_cxx.method) (op1 op2 : Drivers_cxx.reg)
  (expected : string) (expstatus : Z) (m m' : Drivers_cxx.machine)
  (trials : list Drivers_cxx.trial) :
  Drivers_cxx.Dec_DecDecCtx_RunSingle X FILE fuel result tmp1 tmp2 token
    func op1 op2 expected expstatus m
  = Drivers_cxx.Finished (Runtest_cxx.Ok (trials, m')) ->
  exists m1,
    Drivers_cxx.run_single_loop X FILE fuel result tmp1 tmp2 token func
      op1 op2 1 1 m
    = Drivers_cxx.Finished (Runtest_cxx.Ok (trials, m1)).
Proof.
  unfold Drivers_cxx.Dec_DecDecCtx_RunSingle. intros H.
  apply cxx_bind_inv in H. destruct H as (trials0 & m1 & E & H).
  exists m1.
  apply cxx_bind_inv in H. destruct H as (r & n1 & _ & H).
  apply cxx_bind_inv in H. destruct H as (c & n2 & _ & H).
  apply cxx_bind_inv in H. destruct H as ([] & n3 & _ & H).
  apply cxx_bind_inv in H. destruct H as ([] & n4 & _ & H).
  apply cxx_bind_inv in H. destruct H as ([] & n5 & _ & H).
  cbn in H. injection H as <- _. exact E.
Qed.

(** ** What a failing trial is checked for *)

Lemma silent_bind {A B : Type} (c : M A) (k : A -> M B) :
  silent c -> (forall a, silent (k a)) -> silent (bindM c k).
Proof.
  intros Hc Hk m b m' H. apply bind_inv in H.
  destruct H as (a & m1 & E1 & E2).
  rewrite (Hk a _ _ _ E2). exact (Hc _ _ _ E1).
Qed.

Lemma silent_same {A : Type} (c : M A) :
  (forall m, exists a m', c m = Normal (a, m') /\ rep m' = rep m) ->
  silent c.
Proof.
  intros H m a m' E. destruct (H m) as (a0 & m0 & E0 & R).
  rewrite E in E0. injection E0 as -> ->. exact R.
Qed.

Lemma silent_ret {A : Type} (a : A) : silent (ret a).
Proof. intros m b m' H. injection H as _ <-. reflexivity. Qed.

Lemma silent_ASSERT (p : bool) : silent (ASSERT p).
Proof. intros m a m' H. apply ASSERT_inv in H. now destruct H as (_ & ->). Qed.

Lemma silent_mpd_init_rand (W : Env) (x : reg) : silent (mpd_init_rand W x).
Proof.
  intros m a m' H. destruct (mpd_init_rand_runs W x m) as (m0 & E & F).
  rewrite H in E. injection E as _ <-. now destruct F as (_ & _ & R & _).
Qed.

Lemma silent_copy (W : Env) (x y : reg) : silent (copy W x y).
Proof.
  intros m a m' H. destruct (copy_runs W x y m) as (m0 & E & F).
  rewrite H in E. injection E as _ <-. now destruct F as (_ & _ & R & _).
Qed.

Lemma silent_minalloc (W : Env) (x : reg) : silent (minalloc W x).
Proof.
  intros m a m' H. destruct (minalloc_runs W x m) as (m0 & E & F).
  rewrite H in E. injection E as _ <-. now destruct F as (_ & _ & R & _).
Qed.

Lemma silent_call (W : Env)
  (e : store -> mpd_context_t -> engine (store * Z)) : silent (call W e).
Proof.
  intros m [] m' H. apply call_returns in H.
  now destruct H as (reported & _ & _ & _ & _ & R).
Qed.

Lemma silent_set_alloc : silent set_alloc.
Proof. intros m [] m' H. apply set_alloc_inv in H. tauto. Qed.

Lemma silent_set_alloc_fail : silent set_alloc_fail.
Proof.
  intros m [] m' H. unfold set_alloc_fail in H.
  destruct (mpd_set_alloc_fail (ctx m) (alloc_st m)).
  injection H as <-. reflexivity.
Qed.

Ltac silence :=
  repeat first
    [ apply silent_ret | apply silent_ASSERT | apply silent_mpd_init_rand
    | apply silent_copy | apply silent_minalloc | apply silent_call
    | apply silent_set_alloc | apply silent_set_alloc_fail
    | apply silent_bind; [| intros ?]
    | match goal with
      | |- silent (if ?b then _ else _) => destruct b
      end
    | (intros ? ? ? ?H; cbn in H; injection H as _ <-; reflexivity) ].

Lemma silent_res_op_trial (W : Env) (func : unary_func) :
  silent (res_op_trial W func).
Proof. unfold res_op_trial. silence. Qed.

Lemma silent_res_op_trial_eq (W : Env) (func : unary_func) :
  silent (res_op_trial_eq W func).
Proof. unfold res_op_trial_eq. silence. Qed.

Lemma silent_binres_trial (W : Env) (func : binres_func) (q r : reg) :
  silent (binres_trial W func q r).
Proof. unfold binres_trial, binres_setup. silence. Qed.

Lemma silent_res_op_failures (W : Env) (func : unary_func) :
  forall (fuel : nat) (incr : Z), silent (res_op_failures W fuel func incr).
Proof.
  induction fuel as [| fuel IH]; intros incr;
    [intros m a m' H; discriminate H |].
  cbn [res_op_failures].
  apply silent_bind; [silence | intros a].
  destruct (alloc_fail a <? INT_MAX); [| silence].
  apply silent_bind; [apply silent_res_op_trial | intros t].
  destruct (Z.land (t_status t) MPD_Malloc_error =? 0); [silence |].
  apply silent_bind; [silence | intros r].
  apply silent_bind; [silence | intros _].
  apply silent_bind; [silence | intros a'].
  apply silent_bind; [silence | intros _].
  apply silent_bind; [apply IH | intros rest]. silence.
Qed.

Lemma silent_res_op_failures_eq (W : Env) (func : unary_func) :
  forall (fuel : nat) (incr : Z),
    silent (res_op_failures_eq W fuel func incr).
Proof.
  induction fuel as [| fuel IH]; intros incr;
    [intros m a m' H; discriminate H |].
  cbn [res_op_failures_eq].
  apply silent_bind; [silence | intros a].
  destruct (alloc_fail a <? INT_MAX); [| silence].
  apply silent_bind; [apply silent_res_op_trial_eq | intros t].
  destruct (Z.land (t_status t) MPD_Malloc_error =? 0); [silence |].
  apply silent_bind; [silence | intros r].
  apply silent_bind; [silence | intros _].
  apply silent_bind; [silence | intros a'].
  apply silent_bind; [silence | intros _].
  apply silent_bind; [apply IH | intros rest]. silence.
Qed.

Lemma silent_binres_failures (W : Env) (func : binres_func) (q r : reg)
  (inclusive : bool) :
  forall (fuel : nat) (incr : Z),
    silent (binres_failures W fuel func q r inclusive incr).
Proof.
  induction fuel as [| fuel IH]; intros incr;
    [intros m a m' H; discriminate H |].
  cbn [binres_failures].
  apply silent_bind; [silence | intros a].
  destruct (if inclusive then alloc_fail a <=? INT_MAX
            else alloc_fail a <? INT_MAX); [| silence].
  apply silent_bind; [apply silent_binres_trial | intros t].
  destruct (Z.land (t_status t) MPD_Malloc_error =? 0); [silence |].
  apply silent_bind; [silence | intros vq].
  apply silent_bind; [silence | intros _].
  apply silent_bind; [silence | intros vr].
  apply silent_bind; [silence | intros _].
  apply silent_bind; [silence | intros a'].
  apply silent_bind; [silence | intros _].
  apply silent_bind; [apply IH | intros rest]. silence.
Qed.

Lemma res_op_trial_eq_after (W : Env) (func : unary_func) (m m' : machine)
  (t : trial) :
  res_op_trial_eq W func m = Normal (t, m') ->
  t_after t = mem m' /\ t_status t = status (ctx m').
Proof.
  unfold res_op_trial_eq. intros H.
  apply bind_inv in H. destruct H as (a0 & n0 & E0 & H).
  apply bind_inv in H. destruct H as ([] & n1 & E1 & H).
  apply bind_inv in H. destruct H as ([] & n2 & E2 & H).
  apply bind_inv in H. destruct H as ([] & n3 & E3 & H).
  apply bind_inv in H. destruct H as ([] & n4 & E4 & H).
  apply bind_inv in H. destruct H as (before & n5 & E5 & H).
  apply bind_inv in H. destruct H as (installed & n6 & E6 & H).
  apply bind_inv in H. destruct H as ([] & n7 & E7 & H).
  apply bind_inv in H. destruct H as ([] & n8 & E8 & H).
  apply bind_inv in H. destruct H as (after & n9 & E9 & H).
  cbn in E9. injection E9 as <- <-.
  apply bind_inv in H. destruct H as (c & n10 & E10 & H).
  cbn in E10. injection E10 as <- <-.
  cbn in H. injection H as <- <-. auto.
Qed.

(** The second loop of [_Res_Op_Ctx], in which [tmp] is operand and
    result: after a failing trial it is a not-a-number. *)
Lemma failing_trials_eq_leave_nan (W : Env) (func : unary_func) :
  forall (fuel : nat) (incr : Z) (m m' : machine) (trials : list trial),
    res_op_failures_eq W fuel func incr m = Normal (trials, m') ->
    forall t, In t trials ->
              Z.land (t_status t) MPD_Malloc_error <> 0 ->
              mpd_isnan (load (t_after t) R_tmp) = true.
Proof.
  induction fuel as [| fuel IH]; intros incr m m' trials H t Hin Hfail;
    [discriminate H |].
  cbn [res_op_failures_eq] in H.
  apply bind_inv in H. destruct H as (a & n0 & E0 & H).
  cbn in E0. injection E0 as <- <-.
  destruct (alloc_fail (alloc_st m) <? INT_MAX);
    [| cbn in H; injection H as <- <-; destruct Hin].
  apply bind_inv in H. destruct H as (t0 & m1 & Ht & H).
  destruct (res_op_trial_eq_after _ _ _ _ _ Ht) as [Hafter Hstatus].
  destruct (Z.land (t_status t0) MPD_Malloc_error =? 0) eqn:Eok.
  - cbn in H. injection H as <- <-. destruct Hin as [<- | []].
    apply Z.eqb_eq in Eok. contradiction.
  - apply bind_inv in H. destruct H as (v & n1 & E1 & H).
    cbn in E1. injection E1 as <- <-.
    apply bind_inv in H. destruct H as ([] & n2 & E2 & H).
    apply ASSERT_inv in E2. destruct E2 as [Hnan ->].
    apply bind_inv in H. destruct H as (a' & n3 & E3 & H).
    apply bind_inv in H. destruct H as ([] & n4 & E4 & H).
    apply bind_inv in H. destruct H as (rest & n5 & E5 & H).
    cbn in H. injection H as <- <-.
    destruct Hin as [<- | Hin].
    + rewrite Hafter. exact Hnan.
    + exact (IH _ _ _ _ E5 t Hin Hfail).
Qed.

(** ** The triple conversions that the runners check *)

Lemma cov_convert_inv (W : Env) (triple : mpd_uint128_triple_t)
  (m m' : machine) (c : mpd_uint128_triple_t * mpd_t * Z) :
  cov_convert W triple m = Normal (c, m') ->
  fst (fst c) = triple /\ failed_conversion W c /\ rep m' = rep m.
Proof.
  unfold cov_convert. intros H.
  apply bind_inv in H. destruct H as (status_ & m1 & E1 & H).
  destruct (run_engine (libc W)
              (mpd_from_uint128_triple W (load (mem m) R_op) triple)
              (alloc_st m)) as [[[ret_ r] st_] a] eqn:E.
  injection E1 as <- <-.
  apply bind_inv in H. destruct H as ([] & m2 & E2 & H).
  apply ASSERT_inv in E2. destruct E2 as (Hs & ->).
  apply bind_inv in H. destruct H as (v & m3 & E3 & H).
  cbn in E3. injection E3 as <- <-.
  apply bind_inv in H. destruct H as ([] & m4 & E4 & H).
  apply ASSERT_inv in E4. destruct E4 as (Hq & ->).
  cbn in H. injection H as <- <-.
  apply Z.eqb_eq in Hs.
  cbn. refine (conj eq_refl (conj (conj Hs (conj Hq _)) eq_refl)).
  exists ret_, (load (mem m) R_op), (alloc_st m). rewrite E. reflexivity.
Qed.

Lemma triple_cov_inv (W : Env) (m m' : machine)
  (l : list (mpd_uint128_triple_t * mpd_t * Z)) :
  triple_cov W m = Normal (l, m') ->
  map (fun c => fst (fst c)) l = malformed
  /\ Forall (failed_conversion W) l
  /\ rep m' = rep m.
Proof.
  unfold triple_cov. intros H.
  apply bind_inv in H. destruct H as (c1 & m1 & E1 & H).
  apply bind_inv in H. destruct H as (c2 & m2 & E2 & H).
  apply bind_inv in H. destruct H as (c3 & m3 & E3 & H).
  apply bind_inv in H. destruct H as (c4 & m4 & E4 & H).
  apply bind_inv in H. destruct H as (c5 & m5 & E5 & H).
  apply bind_inv in H. destruct H as (c6 & m6 & E6 & H).
  apply bind_inv in H. destruct H as (c7 & m7 & E7 & H).
  apply bind_inv in H. destruct H as (c8 & m8 & E8 & H).
  apply bind_inv in H. destruct H as (c9 & m9 & E9 & H).
  cbn in H. injection H as <- <-.
  apply cov_convert_inv in E1, E2, E3, E4, E5, E6, E7, E8, E9.
  destruct E1 as (T1 & F1 & R1), E2 as (T2 & F2 & R2),
    E3 as (T3 & F3 & R3), E4 as (T4 & F4 & R4), E5 as (T5 & F5 & R5),
    E6 as (T6 & F6 & R6), E7 as (T7 & F7 & R7), E8 as (T8 & F8 & R8),
    E9 as (T9 & F9 & R9).
  split; [| split].
  - cbn [map]. rewrite T1, T2, T3, T4, T5, T6, T7, T8, T9. reflexivity.
  - repeat constructor; assumption.
  - congruence.
Qed.

(** With an engine that refuses the nine triples as [triple_cov]
    expects, [triple_cov] returns. *)
Lemma cov_convert_runs (W : Env) (triple : mpd_uint128_triple_t)
  (m : machine) :
  refused W triple ->
  exists c m', cov_convert W triple m = Normal (c, m').
Proof.
  intros H. destruct (H (load (mem m) R_op) (alloc_st m))
    as (ret_ & v & E & Hq).
  unfold cov_convert, bindM at 1.
  destruct (run_engine (libc W)
              (mpd_from_uint128_triple W (load (mem m) R_op) triple)
              (alloc_st m)) as [[[r0 v0] s0] a].
  cbn in E. injection E as -> -> ->.
  unfold bindM, ASSERT, read, ret.
  rewrite Z.eqb_refl.
  cbn [mem with_alloc_st with_mem]. rewrite load_store_same, Hq.
  eauto.
Qed.

Lemma triple_cov_runs (W : Env) (m : machine) :
  (forall triple, In triple malformed -> refused W triple) ->
  exists l m', triple_cov W m = Normal (l, m').
Proof.
  intros H. unfold triple_cov.
  destruct (cov_convert_runs W _ m
              (H _ ltac:(cbn; tauto))) as (c1 & m1 & E1).
  rewrite (bind_normal _ _ _ _ _ E1).
  destruct (cov_convert_runs W _ m1
              (H (mk_triple MPD_TRIPLE_QNAN 0 0 0 1) ltac:(cbn; tauto)))
    as (c2 & m2 & E2).
  rewrite (bind_normal _ _ _ _ _ E2).
  destruct (cov_convert_runs W _ m2
              (H (mk_triple MPD_TRIPLE_INF 0 0 0 1) ltac:(cbn; tauto)))
    as (c3 & m3 & E3).
  rewrite (bind_normal _ _ _ _ _ E3).
  destruct (cov_convert_runs W _ m3
              (H (mk_triple MPD_TRIPLE_NORMAL 2 0 0 1) ltac:(cbn; tauto)))
    as (c4 & m4 & E4).
  rewrite (bind_normal _ _ _ _ _ E4).
  destruct (cov_convert_runs W _ m4
              (H (mk_triple MPD_TRIPLE_NORMAL 0 0 0 INT64_MAX)
                 ltac:(cbn; tauto)))
    as (c5 & m5 & E5).
  rewrite (bind_normal _ _ _ _ _ E5).
  destruct (cov_convert_runs W _ m5
              (H (mk_triple MPD_TRIPLE_NORMAL 0 0 0 INT64_MIN)
                 ltac:(cbn; tauto)))
    as (c6 & m6 & E6).
  rewrite (bind_normal _ _ _ _ _ E6).
  destruct (cov_convert_runs W _ m6
              (H (mk_triple MPD_TRIPLE_NORMAL 0 0 0 MPD_SSIZE_MAX)
                 ltac:(cbn; tauto)))
    as (c7 & m7 & E7).
  rewrite (bind_normal _ _ _ _ _ E7).
  destruct (cov_convert_runs W _ m7
              (H (mk_triple MPD_TRIPLE_NORMAL 0 0 0 MPD_SSIZE_MIN)
                 ltac:(cbn; tauto)))
    as (c8 & m8 & E8).
  rewrite (bind_normal _ _ _ _ _ E8).
  destruct (cov_convert_runs W _ m8
              (H (mk_triple (Tag_value 10) 0 0 0 MPD_SSIZE_MIN)
                 ltac:(cbn; tauto)))
    as (c9 & m9 & E9).
  rewrite (bind_normal _ _ _ _ _ E9).
  do 2 eexists. reflexivity.
Qed.

(** *** [Triple] of the C++ runner *)

Lemma cxx_lift_inv {A : Type} (r : Runtest_cxx.result A)
  (m m' : Drivers_cxx.machine) (a : A) :
  Drivers_cxx.lift r m = Drivers_cxx.Finished (Runtest_cxx.Ok (a, m')) ->
  r = Runtest_cxx.Ok a /\ m' = m.
Proof.
  unfold Drivers_cxx.lift. destruct r; try discriminate.
  intros H. injection H as <- <-. auto.
Qed.

(** The loop "Allocation failures in Decimal(triple)": the [d] it
    leaves was assigned from a value that [Decimal(triple)] returned,
    unless every threshold up to the bound of the loop ended in
    [MallocError], in which case [d] is what it was. *)
Lemma triple_loop_inv (X : Drivers_cxx.Env) (FILE : string)
  (token : list string) (triple : mpd_uint128_triple_t) :
  forall (fuel : nat) (ctx : mpd_context_t) (d : mpd_t) (n : Z)
         (m m' : Drivers_cxx.machine) (ctx' : mpd_context_t) (d' : mpd_t)
         (k : nat),
    0 <= n ->
    Drivers_cxx.triple_loop X FILE fuel token triple ctx d n m
    = Drivers_cxx.Finished (Runtest_cxx.Ok ((ctx', d', k), m')) ->
    Drivers_cxx.mem m' = Drivers_cxx.mem m
    /\ Drivers_cxx.context m' = Drivers_cxx.context m
    /\ ((exists v st,
            fst (Drivers_cxx.run_engine (Drivers_cxx.primary X)
                   (Drivers_cxx.Decimal_triple X triple) st)
            = Drivers_cxx.Value v
            /\ d' = Drivers_cxx.move_assign X d v)
        \/ (d' = d /\ Test_cxx.UINT64_MAX - 1 <= n + Z.of_nat k)).
Proof.
  induction fuel as [| fuel IH]; intros ctx d n m m' ctx' d' k H0 H;
    [discriminate H |].
  cbn [Drivers_cxx.triple_loop] in H.
  destruct (n <? Test_cxx.UINT64_MAX - 1) eqn:Hn.
  2:{ cbn in H. injection H as <- <- <- <-.
      apply Z.ltb_ge in Hn.
      refine (conj eq_refl (conj eq_refl (or_intror (conj eq_refl _)))).
      lia. }
  apply Z.ltb_lt in Hn.
  apply cxx_bind_inv in H. destruct H as (c1 & m1 & E1 & H).
  unfold Drivers_cxx.set_alloc_fail_of in E1.
  destruct (Test_cxx.set_alloc_fail ctx n (Drivers_cxx.alloc_st m))
    as [c1' a1].
  injection E1 as <- <-.
  apply cxx_bind_inv in H. destruct H as ([d1 caught] & m2 & E2 & H).
  unfold Drivers_cxx.try_decode in E2.
  cbn [Drivers_cxx.alloc_st Drivers_cxx.with_alloc_st] in E2.
  destruct (Drivers_cxx.run_engine (Drivers_cxx.primary X)
              (Drivers_cxx.Decimal_triple X triple) a1)
    as [r a2] eqn:Er.
  destruct r as [v | [| e]]; try discriminate E2;
    injection E2 as <- <- <-; cbn [fst snd] in H.
  - apply cxx_bind_inv in H. destruct H as (c2 & m3 & E3 & H).
    unfold Drivers_cxx.set_alloc_of in E3.
    destruct (Test_cxx.set_alloc c1' _) as [c2' a3] in E3.
    injection E3 as <- <-.
    cbn in H. injection H as <- <- <- <-.
    cbn. refine (conj eq_refl (conj eq_refl (or_introl _))).
    exists v, a1. rewrite Er. auto.
  - apply cxx_bind_inv in H. destruct H as (c2 & m3 & E3 & H).
    unfold Drivers_cxx.set_alloc_of in E3.
    destruct (Test_cxx.set_alloc c1' _) as [c2' a3] in E3.
    injection E3 as <- <-.
    apply cxx_bind_inv in H. destruct H as ([] & m4 & E4 & H).
    apply cxx_lift_inv in E4. destruct E4 as (_ & ->).
    apply cxx_bind_inv in H. destruct H as ([[c3 d3] k3] & m5 & E5 & H).
    cbn in H. injection H as <- <- <- <-.
    assert (Hmod : (n + 1) mod 2 ^ 64 = n + 1).
    { apply Z.mod_small. unfold Test_cxx.UINT64_MAX in Hn. lia. }
    rewrite Hmod in E5.
    apply IH in E5; [| lia]. destruct E5 as (M5 & C5 & I).
    cbn in M5, C5.
    refine (conj M5 (conj C5 _)).
    destruct I as [I | (I1 & I2)]; [left; exact I | right].
    split; [exact I1 | lia].
Qed.

(** An error-tagged triple is not decoded: [Triple] returns after its
    assertion on the fields. *)
Lemma cxx_triple_error_tag (X : Drivers_cxx.Env) (FILE : string)
  (line_inf line_error : string) (fuel : nat) (token : list string)
  (dec : mpd_t) (ctx : mpd_context_t) (m : Drivers_cxx.machine) :
  let triple := Drivers_cxx.as_uint128_triple X dec in
  tag triple = MPD_TRIPLE_ERROR ->
  Drivers_cxx.Triple X FILE line_inf line_error fuel token dec ctx m
  = if (sign triple =? 0) && (hi triple =? 0) && (lo triple =? 0)
       && (texp triple =? 0)
    then Drivers_cxx.Finished (Runtest_cxx.Ok ((ctx, None), m))
    else Drivers_cxx.Finished
           (Runtest_cxx.err_token FILE token "assertion failure"
              line_error).
Proof.
  cbv zeta. intros Ht. unfold Drivers_cxx.Triple. rewrite Ht.
  unfold Drivers_cxx.bindM, Drivers_cxx.lift, Runtest_cxx.DECIMAL_ASSERT.
  destruct ((sign (Drivers_cxx.as_uint128_triple X dec) =? 0)
            && (hi (Drivers_cxx.as_uint128_triple X dec) =? 0)
            && (lo (Drivers_cxx.as_uint128_triple X dec) =? 0)
            && (texp (Drivers_cxx.as_uint128_triple X dec) =? 0));
    [reflexivity |].
  unfold Runtest_cxx.err_token, Runtest_cxx.and_then, Runtest_cxx.at_.
  destruct (nth_error token 0); reflexivity.
Qed.

(** The last statements of [Triple], after the switch. *)
Lemma cxx_decode_and_compare (X : Drivers_cxx.Env) (FILE : string)
  (fuel : nat) (token : list string) (dec : mpd_t) (ctx : mpd_context_t)
  (m m' : Drivers_cxx.machine) (ctx' : mpd_context_t)
  (r : option (mpd_t * nat)) :
  let triple := Drivers_cxx.as_uint128_triple X dec in
  Drivers_cxx.bindM
    (Drivers_cxx.triple_loop X FILE fuel token triple ctx
       (Drivers_cxx.Decimal_int X 10) 1)
    (fun r =>
       Drivers_cxx.bindM
         (Drivers_cxx.do_check_equalmem FILE token (snd (fst r)) dec)
         (fun _ =>
            Drivers_cxx.bindM
              (Drivers_cxx.lift
                 (Runtest_cxx.DECIMAL_ASSERT FILE
                    (Drivers_cxx.cmp_total X (snd (fst r)) dec =? 0)
                    token "915"))
              (fun _ =>
                 Drivers_cxx.ret (fst (fst r), Some (snd (fst r), snd r)))))
    m
  = Drivers_cxx.Finished (Runtest_cxx.Ok ((ctx', r), m')) ->
  exists d k,
    r = Some (d, k)
    /\ Runtest_cxx.equalmem d dec = true
    /\ Drivers_cxx.cmp_total X d dec = 0
    /\ ((exists v st,
            fst (Drivers_cxx.run_engine (Drivers_cxx.primary X)
                   (Drivers_cxx.Decimal_triple X triple) st)
            = Drivers_cxx.Value v
            /\ d = Drivers_cxx.move_assign X (Drivers_cxx.Decimal_int X 10) v)
        \/ (d = Drivers_cxx.Decimal_int X 10
            /\ Test_cxx.UINT64_MAX - 1 <= 1 + Z.of_nat k)).
Proof.
  cbv zeta. intros H.
  apply cxx_bind_inv in H. destruct H as ([[c1 d1] k1] & m1 & E1 & H).
  apply triple_loop_inv in E1; [| lia]. destruct E1 as (_ & _ & I).
  cbn [fst snd] in H.
  apply cxx_bind_inv in H. destruct H as ([] & m2 & E2 & H).
  apply cxx_lift_inv in E2. destruct E2 as (E2 & ->).
  apply cxx_bind_inv in H. destruct H as ([] & m3 & E3 & H).
  apply cxx_lift_inv in E3. destruct E3 as (E3 & ->).
  cbn in H. injection H as <- <- <-.
  exists d1, k1. split; [reflexivity |].
  unfold Runtest_cxx.check_equalmem in E2.
  destruct (Runtest_cxx.equalmem d1 dec) eqn:Eq.
  2:{ exfalso. cbn in E2. revert E2.
      unfold Runtest_cxx.err_token, Runtest_cxx.and_then, Runtest_cxx.at_.
      destruct (nth_error token 0); discriminate. }
  unfold Runtest_cxx.DECIMAL_ASSERT in E3.
  destruct (Drivers_cxx.cmp_total X d1 dec =? 0) eqn:Ec.
  2:{ exfalso. revert E3.
      unfold Runtest_cxx.err_token, Runtest_cxx.and_then, Runtest_cxx.at_.
      destruct (nth_error token 0); discriminate. }
  apply Z.eqb_eq in Ec. auto.
Qed.

(** What [Triple] has checked when it returns. *)
Lemma cxx_triple_checked (X : Drivers_cxx.Env) (FILE : string)
  (line_inf line_error : string) (fuel : nat) (token : list string)
  (dec : mpd_t) (ctx : mpd_context_t) (m m' : Drivers_cxx.machine)
  (ctx' : mpd_context_t) (r : option (mpd_t * nat)) :
  let triple := Drivers_cxx.as_uint128_triple X dec in
  Drivers_cxx.Triple X FILE line_inf line_error fuel token dec ctx m
  = Drivers_cxx.Finished (Runtest_cxx.Ok ((ctx', r), m')) ->
  tag triple <> MPD_TRIPLE_ERROR ->
  exists d k,
    r = Some (d, k)
    /\ Runtest_cxx.equalmem d dec = true
    /\ Drivers_cxx.cmp_total X d dec = 0
    /\ ((exists v st,
            fst (Drivers_cxx.run_engine (Drivers_cxx.primary X)
                   (Drivers_cxx.Decimal_triple X triple) st)
            = Drivers_cxx.Value v
            /\ d = Drivers_cxx.move_assign X (Drivers_cxx.Decimal_int X 10) v)
        \/ (d = Drivers_cxx.Decimal_int X 10
            /\ Test_cxx.UINT64_MAX - 1 <= 1 + Z.of_nat k)).
Proof.
  cbv zeta. unfold Drivers_cxx.Triple. intros H Ht.
  destruct (tag (Drivers_cxx.as_uint128_triple X dec)) eqn:Etag;
    try (now contradiction Ht);
    try (apply cxx_bind_inv in H; destruct H as ([] & m1 & E1 & H);
         apply cxx_lift_inv in E1; destruct E1 as (_ & ->));
    exact (cxx_decode_and_compare X FILE fuel token dec ctx m m' ctx' r H).
Qed.

(** C1 (amended).  What the two runners check at a failing trial of an
    allocation-failure loop.

    In the C runner a failing trial is one after which the status
    contains [MPD_Malloc_error].  In every loop that runs to its end --
    the first loop of [_Res_Op_Ctx] (result and operand distinct), its
    second loop (the operand [tmp] is the result), and the loop of every
    part of [_Binres_Binop_Ctx] -- the decimal that takes the result is
    a not-a-number, quiet or signaling, after every failing trial; for
    the paired function both decimals that take a result are.  The loop
    itself reports nothing: it leaves the text on [stderr] and the
    failure flags as they were, whatever the failing trials did to the
    operands.

    In the C++ runner a failing trial of [Dec_DecDecCtx_RunSingle] is
    one in which [MallocError] was caught.  [save_result] is the copy of
    [result] as it was when the operation was called.  When the function
    returns, after every failing trial [result] was equal to
    [save_result], [tmp1] to [op1] and [tmp2] to [op2], in the sense of
    [equalmem]; and a failing trial after which one of the three pairs is
    not equal ends the loop with the [test::Failure] "const arg
    changed". *)
Theorem failing_trials_checked (W : Env) (X : Drivers_cxx.Env)
  (FILE : string) (fuel : nat) :
  (forall (func : unary_func) (incr : Z) (m m' : machine)
          (trials : list trial),
      res_op_failures W fuel func incr m = Normal (trials, m') ->
      rep m' = rep m
      /\ forall t, In t trials ->
                   Z.land (t_status t) MPD_Malloc_error <> 0 ->
                   mpd_isnan (load (t_after t) R_result) = true)
  /\ (forall (func : unary_func) (incr : Z) (m m' : machine)
             (trials : list trial),
         res_op_failures_eq W fuel func incr m = Normal (trials, m') ->
         rep m' = rep m
         /\ forall t, In t trials ->
                      Z.land (t_status t) MPD_Malloc_error <> 0 ->
                      mpd_isnan (load (t_after t) R_tmp) = true)
  /\ (forall (func : binres_func) (q r : reg) (inclusive : bool)
             (incr : Z) (m m' : machine) (trials : list trial),
         binres_failures W fuel func q r inclusive incr m
         = Normal (trials, m') ->
         rep m' = rep m
         /\ forall t, In t trials ->
                      Z.land (t_status t) MPD_Malloc_error <> 0 ->
                      mpd_isnan (load (t_after t) q) = true
                      /\ mpd_isnan (load (t_after t) r) = true)
  /\ (forall (result tmp1 tmp2 : Drivers_cxx.reg) (token : list string)
             (func : Drivers_cxx.method) (op1 op2 : Drivers_cxx.reg)
             (expected : string) (expstatus : Z)
             (m m' : Drivers_cxx.machine)
             (trials : list Drivers_cxx.trial),
         Drivers_cxx.Dec_DecDecCtx_RunSingle X FILE fuel result tmp1 tmp2
           token func op1 op2 expected expstatus m
         = Drivers_cxx.Finished (Runtest_cxx.Ok (trials, m')) ->
         forall t, In t trials ->
           Drivers_cxx.t_save t
           = Drivers_cxx.Decimal_copy X
               (Drivers_cxx.load (Drivers_cxx.t_before t) result)
           /\ (Drivers_cxx.t_caught t = true ->
               Runtest_cxx.equalmem
                 (Drivers_cxx.load (Drivers_cxx.t_after t) result)
                 (Drivers_cxx.t_save t) = true
               /\ Runtest_cxx.equalmem
                    (Drivers_cxx.load (Drivers_cxx.t_after t) tmp1)
                    (Drivers_cxx.load (Drivers_cxx.t_after t) op1) = true
               /\ Runtest_cxx.equalmem
                    (Drivers_cxx.load (Drivers_cxx.t_after t) tmp2)
                    (Drivers_cxx.load (Drivers_cxx.t_after t) op2) = true))
  /\ (forall (result tmp1 tmp2 : Drivers_cxx.reg) (token : list string)
             (func : Drivers_cxx.method) (op1 op2 : Drivers_cxx.reg)
             (n incr : Z) (m m1 : Drivers_cxx.machine) (save : mpd_t)
             (before : Drivers_cxx.store),
         n < Test_cxx.UINT64_MAX - 100 ->
         Drivers_cxx.run_single_call X result tmp1 tmp2 func op1 op2 n m
         = Drivers_cxx.Finished (Runtest_cxx.Ok ((save, before, true), m1)) ->
         Runtest_cxx.equalmem
           (Drivers_cxx.load (Drivers_cxx.mem m1) result) save
         && Runtest_cxx.equalmem
              (Drivers_cxx.load (Drivers_cxx.mem m1) tmp1)
              (Drivers_cxx.load (Drivers_cxx.mem m1) op1)
         && Runtest_cxx.equalmem
              (Drivers_cxx.load (Drivers_cxx.mem m1) tmp2)
              (Drivers_cxx.load (Drivers_cxx.mem m1) op2) = false ->
         Drivers_cxx.run_single_loop X FILE (S fuel) result tmp1 tmp2 token
           func op1 op2 n incr m
         = Drivers_cxx.Finished
             (Runtest_cxx.err_token FILE token "const arg changed" "737")).
Proof.
  destruct (failing_trials_leave_nan W fuel) as (N1 & N3).
  refine (conj _ (conj _ (conj _ (conj _ _)))).
  - intros func incr m m' trials H. split.
    + exact (silent_res_op_failures W func fuel incr m trials m' H).
    + exact (N1 func incr m m' trials H).
  - intros func incr m m' trials H. split.
    + exact (silent_res_op_failures_eq W func fuel incr m trials m' H).
    + exact (failing_trials_eq_leave_nan W func fuel incr m m' trials H).
  - intros func q r inclusive incr m m' trials H. split.
    + exact (silent_binres_failures W func q r inclusive fuel incr m trials
               m' H).
    + exact (N3 func q r inclusive incr m m' trials H).
  - intros result tmp1 tmp2 token func op1 op2 expected expstatus m m'
      trials H.
    destruct (run_single_checked X FILE fuel result tmp1 tmp2 token func
                op1 op2 expected expstatus m m' trials H) as (m1 & E).
    exact (run_single_loop_checked X FILE result tmp1 tmp2 token func op1
             op2 fuel 1 1 m m1 trials E).
  - intros result tmp1 tmp2 token func op1 op2 n incr m m1 save before
      Hn E Hc.
    rewrite (run_single_loop_step X FILE fuel result tmp1 tmp2 token func
               op1 op2 n incr m m1 save before true Hn E).
    cbv zeta iota. rewrite Hc. reflexivity.
Qed.

Lemma failing_trials_checked_witness :
  (exists trials m' t,
      res_op_failures Fixtures.env 8 Fixtures.copy5 1
        (with_alloc_st (Fixtures.start true)
                       (with_alloc_fail (Fixtures.allocator true) 1))
      = Normal (trials, m')
      /\ In t trials
      /\ Z.land (t_status t) MPD_Malloc_error <> 0
      /\ mpd_isnan (load (t_after t) R_result) = true)
  /\ (exists trials m' t,
      Drivers_cxx.Dec_DecDecCtx_RunSingle Fixtures_cxx.env "runtest.cc" 8
        Drivers_cxx.R_result Drivers_cxx.R_tmp1 Drivers_cxx.R_tmp2
        Fixtures_cxx.test_line Fixtures_cxx.first3
        Drivers_cxx.R_op1 Drivers_cxx.R_op2 "1" 0 (Fixtures_cxx.start true)
      = Drivers_cxx.Finished (Runtest_cxx.Ok (trials, m'))
      /\ In t trials
      /\ Drivers_cxx.t_caught t = true
      /\ Runtest_cxx.equalmem
           (Drivers_cxx.load (Drivers_cxx.t_after t) Drivers_cxx.R_tmp1)
           (Drivers_cxx.load (Drivers_cxx.t_after t) Drivers_cxx.R_op1)
         = true)
  /\ Drivers_cxx.run_single_loop Fixtures_cxx.env "runtest.cc" 1
       Drivers_cxx.R_result Drivers_cxx.R_tmp1 Drivers_cxx.R_tmp2
       Fixtures_cxx.test_line Fixtures_cxx.careless
       Drivers_cxx.R_op1 Drivers_cxx.R_op2 1 1 (Fixtures_cxx.start true)
     = Drivers_cxx.Finished
         (Runtest_cxx.Failure
            "addx001: const arg changed  [runtest.cc:737]").
Proof.
  pose proof (failing_trials_checked Fixtures.env Fixtures_cxx.env
                "runtest.cc") as T.
  split; [| split].
  - set (m := with_alloc_st (Fixtures.start true)
                            (with_alloc_fail (Fixtures.allocator true) 1)).
    assert (E : exists trials m',
               res_op_failures Fixtures.env 8 Fixtures.copy5 1 m
               = Normal (trials, m')
               /\ exists t, In t trials
                            /\ Z.land (t_status t) MPD_Malloc_error <> 0).
    { vm_compute. do 2 eexists. split; [reflexivity |].
      eexists. split; [left; reflexivity | discriminate]. }
    destruct E as (trials & m' & E & t & Hin & Hfail).
    exists trials, m', t. repeat split; try assumption.
    exact (proj2 (proj1 (T 8%nat) Fixtures.copy5 1 m m' trials E)
             t Hin Hfail).
  - assert (E : exists trials m',
               Drivers_cxx.Dec_DecDecCtx_RunSingle Fixtures_cxx.env
                 "runtest.cc" 8
                 Drivers_cxx.R_result Drivers_cxx.R_tmp1 Drivers_cxx.R_tmp2
                 Fixtures_cxx.test_line Fixtures_cxx.first3
                 Drivers_cxx.R_op1 Drivers_cxx.R_op2 "1" 0
                 (Fixtures_cxx.start true)
               = Drivers_cxx.Finished (Runtest_cxx.Ok (trials, m'))
               /\ exists t, In t trials /\ Drivers_cxx.t_caught t = true).
    { vm_compute. do 2 eexists. split; [reflexivity |].
      eexists. split; [left; reflexivity | reflexivity]. }
    destruct E as (trials & m' & E & t & Hin & Hc).
    exists trials, m', t.
    refine (conj E (conj Hin (conj Hc _))).
    exact (proj1 (proj2 (proj2 (proj1 (proj2 (proj2 (proj2 (T 8%nat))))
                                  _ _ _ _ _ _ _ _ _ _ _ _ E t Hin) Hc))).
  - assert (E : exists save before m1,
               Drivers_cxx.run_single_call Fixtures_cxx.env
                 Drivers_cxx.R_result Drivers_cxx.R_tmp1 Drivers_cxx.R_tmp2
                 Fixtures_cxx.careless Drivers_cxx.R_op1 Drivers_cxx.R_op2 1
                 (Fixtures_cxx.start true)
               = Drivers_cxx.Finished
                   (Runtest_cxx.Ok ((save, before, true), m1))
               /\ Runtest_cxx.equalmem
                    (Drivers_cxx.load (Drivers_cxx.mem m1)
                       Drivers_cxx.R_result) save
                  && Runtest_cxx.equalmem
                       (Drivers_cxx.load (Drivers_cxx.mem m1)
                          Drivers_cxx.R_tmp1)
                       (Drivers_cxx.load (Drivers_cxx.mem m1)
                          Drivers_cxx.R_op1)
                  && Runtest_cxx.equalmem
                       (Drivers_cxx.load (Drivers_cxx.mem m1)
                          Drivers_cxx.R_tmp2)
                       (Drivers_cxx.load (Drivers_cxx.mem m1)
                          Drivers_cxx.R_op2) = false).
    { vm_compute. do 3 eexists. split; reflexivity. }
    destruct E as (save & before & m1 & E & Hc).
    exact (proj2 (proj2 (proj2 (proj2 (T 0%nat))))
             Drivers_cxx.R_result Drivers_cxx.R_tmp1 Drivers_cxx.R_tmp2
             Fixtures_cxx.test_line Fixtures_cxx.careless
             Drivers_cxx.R_op1 Drivers_cxx.R_op2 1 1
             (Fixtures_cxx.start true) m1 save before
             ltac:(vm_compute; reflexivity) E Hc).
Defined.

(** C10 (amended).  When allocation-failure checking was not enabled at
    program start ([enable_check_alloc] is false), [mpd_set_alloc_fail]
    of [tests/test.c] and [set_alloc_fail] of [tests++/test.cc] change
    neither the context nor the state of the allocator, so the functions
    installed stay installed.

    In a state of the C runner in which the primary functions are
    installed and [MPD_Malloc_error] is trapped -- the state that
    [mpd_set_alloc] leaves -- and at a threshold below [INT_MAX], the
    two loops of [_Res_Op_Ctx] and the loop of every part of
    [_Binres_Binop_Ctx] are one invocation of the operation and nothing
    more: the decimals are prepared and the status cleared, the
    operation runs once against the primary functions, and the loop
    either returns with this one trial, whose status has no
    [MPD_Malloc_error], leaving the decimals and the status as this one
    run left them, or ends the program in [exit(1)] when the operation
    reported [MPD_Malloc_error] ([Quiet.once]).  From any state without
    checking, a part of these two drivers needs no more fuel than one
    turn of its loop, and where it returns the loop made one trial, at
    threshold 1.

    The other loops do not end with the first invocation when it runs
    out of memory.  In the same state the loop of [_TripleTest] makes
    its first conversion under the primary functions; when it reports
    [MPD_Malloc_error], which goes to a local status that no trap
    watches, the loop asserts the failure behaviour and, where it holds,
    goes on to the next threshold.  The loop of
    [Dec_DecDecCtx_RunSingle] of the C++ runner returns after one trial
    when no [MallocError] was caught; after a caught one it compares the
    objects and, where they are equal, goes on to the next threshold. *)
Theorem unchecked_loops_first_trial (W : Env) (X : Drivers_cxx.Env)
  (FILE : string) (fuel : nat) (m : machine) :
  Quiet.unchecked m ->
  (forall c, mpd_set_alloc_fail c (alloc_st m) = (c, alloc_st m))
  /\ (forall c n st,
        Test_cxx.enable_check_alloc st = false ->
        Test_cxx.set_alloc_fail c n st = (c, st))
  /\ (mpd_funcs (alloc_st m) = primary_set ->
      traps (ctx m) = MPD_Malloc_error ->
      alloc_fail (alloc_st m) < INT_MAX ->
      (forall func incr,
          exists m0,
            (mpd_init_rand W R_tmp ;; copy W R_tmp R_op ;;
             minalloc W R_result ;; assign_status 0) m = Normal (tt, m0)
            /\ res_op_failures W (S fuel) func incr m
               = Quiet.once W (func R_result R_tmp)
                   (alloc_fail (alloc_st m)) m0)
      /\ (forall func incr,
             exists m0,
               (mpd_init_rand W R_tmp ;; copy W R_tmp R_op ;;
                assign_status 0) m = Normal (tt, m0)
               /\ res_op_failures_eq W (S fuel) func incr m
                  = Quiet.once W (func R_tmp R_tmp)
                      (alloc_fail (alloc_st m)) m0)
      /\ (forall func q r inclusive incr,
             exists m0,
               binres_setup W (minalloc W) q r m = Normal (tt, m0)
               /\ binres_failures W (S fuel) func q r inclusive incr m
                  = Quiet.once W (func q r R_tmp1 R_tmp2)
                      (alloc_fail (alloc_st m)) m0)
      /\ (forall triple last,
             exists m0 ret_ r status_,
               mpd_init_rand W R_result m = Normal (tt, m0)
               /\ fst (run_engine (libc W)
                         (mpd_from_uint128_triple W
                            (load (mem m0) R_result) triple)
                         (alloc_st m0)) = (ret_, r, status_)
               /\ triple_failures W (S fuel) triple last m
                  = let m1 := with_mem m0 (store_at (mem m0) R_result r) in
                    if Z.land status_ MPD_Malloc_error =? 0
                    then Normal ((ret_, status_), m1)
                    else if negb (ret_ =? -1) || negb (mpd_isnan r)
                    then Abort EmptyString
                    else triple_failures W fuel triple (ret_, status_)
                           (with_alloc_st m1
                              (with_alloc_fail (alloc_st m1)
                                 (alloc_fail (alloc_st m) + 1)))))
  /\ (forall func expected expstatus id,
        Quiet.ends Quiet.one_trial
          (res_op_distinct W (S fuel) func expected expstatus id m))
  /\ (forall func expected expstatus id,
        Quiet.ends Quiet.one_trial
          (res_op_equal W (S fuel) func expected expstatus id m))
  /\ (forall func q r inclusive expected1 expected2 expstatus id,
        Quiet.ends Quiet.one_trial
          (binres_part W (S fuel) func q r inclusive expected1 expected2
             expstatus id m))
  /\ (forall result tmp1 tmp2 token func op1 op2 n incr mx m1 save before
             caught,
        n < Test_cxx.UINT64_MAX - 100 ->
        Drivers_cxx.run_single_call X result tmp1 tmp2 func op1 op2 n mx
        = Drivers_cxx.Finished
            (Runtest_cxx.Ok ((save, before, caught), m1)) ->
        let t :=
          Drivers_cxx.mk_trial n save before (Drivers_cxx.mem m1) caught in
        let m2 :=
          Drivers_cxx.with_alloc_st
            (Drivers_cxx.with_context m1
               (fst (Test_cxx.set_alloc (Drivers_cxx.context m1)
                       (Drivers_cxx.alloc_st m1))))
            (snd (Test_cxx.set_alloc (Drivers_cxx.context m1)
                    (Drivers_cxx.alloc_st m1))) in
        Drivers_cxx.run_single_loop X FILE (S fuel) result tmp1 tmp2 token
          func op1 op2 n incr mx
        = if caught then
            if Runtest_cxx.equalmem
                 (Drivers_cxx.load (Drivers_cxx.mem m1) result) save
               && Runtest_cxx.equalmem
                    (Drivers_cxx.load (Drivers_cxx.mem m1) tmp1)
                    (Drivers_cxx.load (Drivers_cxx.mem m1) op1)
               && Runtest_cxx.equalmem
                    (Drivers_cxx.load (Drivers_cxx.mem m1) tmp2)
                    (Drivers_cxx.load (Drivers_cxx.mem m1) op2)
            then
              let incr' :=
                if n >? 50
                then Drivers_cxx.rnd X (Drivers_cxx.nrnd m1) mod 100 + 1
                else incr in
              let m3 :=
                if n >? 50
                then Drivers_cxx.with_nrnd m2 (S (Drivers_cxx.nrnd m1))
                else m2 in
              Drivers_cxx.bindM
                (Drivers_cxx.run_single_loop X FILE fuel result tmp1 tmp2
                   token func op1 op2 ((n + incr') mod 2 ^ 64) incr')
                (fun rest => Drivers_cxx.ret (t :: rest)) m3
            else
              Drivers_cxx.Finished
                (Runtest_cxx.err_token FILE token "const arg changed" "737")
          else Drivers_cxx.Finished (Runtest_cxx.Ok ([t], m2))).
Proof.
  intros Hu.
  refine (conj _ (conj _ (conj _ (conj _ (conj _ (conj _ _)))))).
  - intros c. unfold mpd_set_alloc_fail.
    unfold Quiet.unchecked in Hu. now rewrite Hu.
  - intros c n st H. unfold Test_cxx.set_alloc_fail. now rewrite H.
  - intros Hp Ht Hlt.
    assert (Hs : Quiet.settled m) by (repeat split; assumption).
    refine (conj _ (conj _ (conj _ _))).
    + intros func incr. now apply res_op_failures_once.
    + intros func incr. now apply res_op_failures_eq_once.
    + intros func q r inclusive incr. now apply binres_failures_once.
    + intros triple last. now apply triple_failures_first.
  - intros. now apply res_op_distinct_ends.
  - intros. now apply res_op_equal_ends.
  - intros. now apply binres_part_ends.
  - intros result tmp1 tmp2 token func op1 op2 n incr mx m1 save before
      caught Hn E.
    exact (run_single_loop_step X FILE fuel result tmp1 tmp2 token func op1
             op2 n incr mx m1 save before caught Hn E).
Qed.

Lemma unchecked_loops_first_trial_witness :
  Quiet.unchecked (Fixtures.start false)
  /\ (exists t m',
         res_op_failures Fixtures.env 1 Fixtures.copy5 1
           (Fixtures.start false)
         = Normal ([t], m')
         /\ t_funcs t = primary_set
         /\ t_status t = 0
         /\ mem m' = t_after t)
  /\ res_op_failures Fixtures.env_no_memory 1 Fixtures.copy5 1
       (Fixtures.start false)
     = Exit 1.
Proof.
  split; [reflexivity |].
  split.
  - destruct (proj1 (proj1 (proj2 (proj2
                (unchecked_loops_first_trial Fixtures.env Fixtures_cxx.env
                   "runtest.cc" 0 (Fixtures.start false) eq_refl)))
                eq_refl eq_refl ltac:(vm_compute; reflexivity))
                Fixtures.copy5 1) as (m0 & E0 & E).
    vm_compute in E0. injection E0 as <-.
    rewrite E. vm_compute. do 2 eexists.
    split; [reflexivity |]. repeat split; reflexivity.
  - destruct (proj1 (proj1 (proj2 (proj2
                (unchecked_loops_first_trial Fixtures.env_no_memory
                   Fixtures_cxx.env "runtest.cc" 0 (Fixtures.start false)
                   eq_refl)))
                eq_refl eq_refl ltac:(vm_compute; reflexivity))
                Fixtures.copy5 1) as (m0 & E0 & E).
    vm_compute in E0. injection E0 as <-.
    rewrite E. vm_compute. reflexivity.
Defined.

(** C10, as stated, on the loop of [_TripleTest] with a C library that
    has no memory to give.  Checking is off, the primary functions are
    installed and [MPD_Malloc_error] is trapped.  The first conversion
    runs under these ordinary functions and reports [MPD_Malloc_error];
    the loop does not end with this one invocation: one turn of the loop
    does not finish it, and neither do a thousand.  (With memory, one
    turn does.) *)
Lemma unchecked_triple_loop_repeats :
  Quiet.settled (Fixtures.start false)
  /\ snd (fst (run_engine (libc Fixtures.env_no_memory)
                 (mpd_from_uint128_triple Fixtures.env_no_memory
                    (load (mem (Fixtures.start false)) R_result)
                    (mpd_as_uint128_triple Fixtures.env_no_memory
                       (load (mem (Fixtures.start false)) R_op)))
                 (alloc_st (Fixtures.start false))))
     = MPD_Malloc_error
  /\ _TripleTest Fixtures.env_no_memory 1 R_op "x1" (Fixtures.start false)
     = Unfinished
  /\ _TripleTest Fixtures.env_no_memory 1000 R_op "x1"
       (Fixtures.start false)
     = Unfinished
  /\ (exists m', _TripleTest Fixtures.env 1 R_op "x1" (Fixtures.start false)
                 = Normal (tt, m')).
Proof.
  split; [repeat split; reflexivity |].
  split; [vm_compute; reflexivity |].
  split; [vm_compute; reflexivity |].
  split; [vm_compute; reflexivity |].
  vm_compute. eexists. reflexivity.
Qed.

(** C5 (amended).  What the two runners check of the conversion of a
    decimal to a triple and back, and of the conversions that must
    fail.

    [_TripleTest] of the C runner, when it returns for an operand [a]
    other than [result]: the operand is unchanged.  If the tag of its
    triple is not the error tag, the last conversion of the loop
    returned 0 with status 0 and the runner printed "const arg changed"
    unless the decimal decoded equals the operand in the sense of
    [equalmem]; so if nothing was printed, they are equal.  If the tag
    is the error tag, the conversion returned -1 with status
    [MPD_Conversion_syntax] and left a not-a-number, quiet or signaling.

    [Triple] of the C++ runner: for a triple with the error tag it
    checks that the other fields are 0 and returns without decoding
    anything.  For any other tag, when it returns, the decimal [d] it
    compared is equal to the operand in the sense of [equalmem] and of
    [cmp_total]; [d] is the decimal decoded from the triple, or, if
    every threshold of the loop was refused, the 10 it was initialised
    with.

    [triple_cov] of the C runner converts nine malformed triples, none
    of which has the error tag.  When it returns, every one of the
    conversions gave exactly the status [MPD_Conversion_syntax] and left
    a quiet not-a-number in [op], and nothing was reported; and it does
    return with an engine that refuses the nine triples in this way. *)
Theorem triple_conversions_checked (W : Env) (X : Drivers_cxx.Env)
  (FILE line_inf line_error : string) (fuel : nat) :
  (forall (a : reg) (testno : string) (m m' : machine),
      reg_eqb a R_result = false ->
      _TripleTest W fuel a testno m = Normal (tt, m') ->
      let original := load (mem m) a in
      let triple := mpd_as_uint128_triple W original in
      let decoded := load (mem m') R_result in
      load (mem m') a = original
      /\ (tag triple <> MPD_TRIPLE_ERROR ->
          Triples.decodes W triple 0 decoded 0
          /\ rep m' = check_equalmem decoded original testno (rep m)
          /\ (stderr (rep m') = stderr (rep m) ->
              equalmem decoded original = true))
      /\ (tag triple = MPD_TRIPLE_ERROR ->
          Triples.decodes W triple (-1) decoded MPD_Conversion_syntax
          /\ mpd_isnan decoded = true
          /\ rep m' = rep m))
  /\ (forall (token : list string) (dec : mpd_t) (ctx : mpd_context_t)
             (m : Drivers_cxx.machine),
         let triple := Drivers_cxx.as_uint128_triple X dec in
         tag triple = MPD_TRIPLE_ERROR ->
         Drivers_cxx.Triple X FILE line_inf line_error fuel token dec ctx m
         = if (sign triple =? 0) && (hi triple =? 0) && (lo triple =? 0)
              && (texp triple =? 0)
           then Drivers_cxx.Finished (Runtest_cxx.Ok ((ctx, None), m))
           else Drivers_cxx.Finished
                  (Runtest_cxx.err_token FILE token "assertion failure"
                     line_error))
  /\ (forall (token : list string) (dec : mpd_t) (ctx ctx' : mpd_context_t)
             (m m' : Drivers_cxx.machine) (r : option (mpd_t * nat)),
         let triple := Drivers_cxx.as_uint128_triple X dec in
         Drivers_cxx.Triple X FILE line_inf line_error fuel token dec ctx m
         = Drivers_cxx.Finished (Runtest_cxx.Ok ((ctx', r), m')) ->
         tag triple <> MPD_TRIPLE_ERROR ->
         exists d k,
           r = Some (d, k)
           /\ Runtest_cxx.equalmem d dec = true
           /\ Drivers_cxx.cmp_total X d dec = 0
           /\ ((exists v st,
                   fst (Drivers_cxx.run_engine (Drivers_cxx.primary X)
                          (Drivers_cxx.Decimal_triple X triple) st)
                   = Drivers_cxx.Value v
                   /\ d = Drivers_cxx.move_assign X
                            (Drivers_cxx.Decimal_int X 10) v)
               \/ (d = Drivers_cxx.Decimal_int X 10
                   /\ Test_cxx.UINT64_MAX - 1 <= 1 + Z.of_nat k)))
  /\ Forall (fun triple => tag triple <> MPD_TRIPLE_ERROR) malformed
  /\ (forall (m m' : machine)
             (l : list (mpd_uint128_triple_t * mpd_t * Z)),
         triple_cov W m = Normal (l, m') ->
         map (fun c => fst (fst c)) l = malformed
         /\ Forall (failed_conversion W) l
         /\ rep m' = rep m)
  /\ (forall m : machine,
         (forall triple, In triple malformed -> refused W triple) ->
         exists l m', triple_cov W m = Normal (l, m')).
Proof.
  refine (conj _ (conj _ (conj _ (conj _ (conj _ _))))).
  - intros a testno m m' Ha H.
    exact (triple_test_checks W fuel a testno m m' Ha H).
  - intros token dec ctx m.
    exact (cxx_triple_error_tag X FILE line_inf line_error fuel token dec
             ctx m).
  - intros token dec ctx ctx' m m' r.
    exact (cxx_triple_checked X FILE line_inf line_error fuel token dec ctx
             m m' ctx' r).
  - unfold malformed. repeat constructor; cbn; discriminate.
  - intros m m' l. apply triple_cov_inv.
  - intros m. apply triple_cov_runs.
Qed.

Lemma triple_conversions_checked_witness :
  (exists m',
      _TripleTest Fixtures.env 4 R_op "x1" (Fixtures.start true)
      = Normal (tt, m')
      /\ equalmem (load (mem m') R_result)
           (load (mem (Fixtures.start true)) R_op) = true)
  /\ (exists ctx' d k m',
         Drivers_cxx.Triple Fixtures_cxx.env "runtest.cc" "884" "890" 4
           Fixtures_cxx.test_line Fixtures.one Fixtures.context
           (Fixtures_cxx.start true)
         = Drivers_cxx.Finished (Runtest_cxx.Ok ((ctx', Some (d, k)), m'))
         /\ Runtest_cxx.equalmem d Fixtures.one = true)
  /\ (exists l m',
         triple_cov Fixtures.env_strict (Fixtures.start true)
         = Normal (l, m')
         /\ Forall (failed_conversion Fixtures.env_strict) l).
Proof.
  pose proof (triple_conversions_checked Fixtures.env Fixtures_cxx.env
                "runtest.cc" "884" "890" 4) as T.
  pose proof (triple_conversions_checked Fixtures.env_strict
                Fixtures_cxx.env "runtest.cc" "884" "890" 4) as S.
  refine (conj _ (conj _ _)).
  - assert (E : exists m',
               _TripleTest Fixtures.env 4 R_op "x1" (Fixtures.start true)
               = Normal (tt, m')
               /\ stderr (rep m') = stderr (rep (Fixtures.start true))).
    { vm_compute. eexists. split; reflexivity. }
    destruct E as (m' & E & Hs). exists m'. split; [exact E |].
    refine (proj2 (proj2 (proj1 (proj2
              (proj1 T R_op "x1" (Fixtures.start true) m' eq_refl E)) _))
              Hs).
    vm_compute. discriminate.
  - assert (E : exists ctx' r m',
               Drivers_cxx.Triple Fixtures_cxx.env "runtest.cc" "884" "890"
                 4 Fixtures_cxx.test_line Fixtures.one Fixtures.context
                 (Fixtures_cxx.start true)
               = Drivers_cxx.Finished (Runtest_cxx.Ok ((ctx', r), m'))).
    { vm_compute. do 3 eexists. reflexivity. }
    destruct E as (ctx' & r & m' & E).
    destruct (proj1 (proj2 (proj2 T)) Fixtures_cxx.test_line Fixtures.one
                Fixtures.context ctx' (Fixtures_cxx.start true) m' r E
                ltac:(vm_compute; discriminate))
      as (d & k & -> & He & _).
    exists ctx', d, k, m'. split; [exact E | exact He].
  - destruct (proj2 (proj2 (proj2 (proj2 (proj2 S))))
                (Fixtures.start true)) as (l & m' & E).
    { intros triple Hin x st. unfold malformed in Hin. cbn [In] in Hin.
      repeat (destruct Hin as [<- | Hin];
              [do 2 eexists; split; reflexivity |]).
      contradiction. }
    exists l, m'. split; [exact E |].
    exact (proj1 (proj2 (proj1 (proj2 (proj2 (proj2 (proj2 S))))
                           (Fixtures.start true) m' l E))).
Defined.
